(* ===== verification/_CoqProject ===== *)
-Q . S2P
Prelude.v
Ring.v
Bitmap.v
Abi.v
CapTable.v
Rendezvous.v
KcoreTests.v
Phys.v
Virt.v
Process.v
Elf.v
Mapper.v
MapRegion.v
Sched.v
SchedAbs.v
SchedInv.v
SchedExit.v
SchedSteps.v
SchedProps.v
SchedTrace.v
Uart.v
Kernel.v
Handlers.v
Block.v
Fat.v
Virtio.v
Syscall.v
Authority.v
UserMem.v
SchedFrame.v
Smp.v
Idle.v
Irq.v
Trap.v
Rt.v
Heap.v
Sync.v
Panic.v
Idt.v
CoreId.v
Lapic.v
Regions.v
Gdt.v
SmpBoot.v
Loader.v
MapperModel.v
Dummy.v
BootMem.v
Pci.v
VirtioInit.v
Boot.v
Programs.v
TestProcs.v
LogText.v
Xtask.v
Build.v
Scenarios.v
Suite.v
