(* ===== verification/Prelude.v ===== *)
(** * TarnOS, verified

    A model in Rocq of the TarnOS kernel (a capability microkernel for x86-64,
    [kernel/src]), of the libraries it shares with user programs
    ([libs/tarnos-kcore], [libs/tarnos-abi]), of the user-side runtime
    ([libs/tarnos-rt]) and programs ([userland]), of the test processes built
    into the kernel and of the tool that builds and tests it all ([xtask]), with
    theorems about each part and about their composition.  This file is the root:
    it documents the whole development and holds what the other files share.

    ** The program and its parts

    User processes run in their own address spaces.  A trap (system call,
    interrupt or fault) enters the kernel through an assembly stub that saves
    the registers on the process's kernel stack; a Rust handler works on the
    shared state under one scheduler lock and returns the frame to resume.
    Any number of cores do this at once, sharing one process table and one
    ready queue; a core with nothing to run halts on its own idle stack until
    a reschedule interrupt arrives.  Processes exchange messages through
    endpoints, which they reach through capabilities in a per-process table;
    a process gets capabilities only from its parent.  Kernel tasks (console
    server and echo) run in a cooperative executor.  A virtio disk with a FAT12
    volume is read through two system calls.  At boot the kernel maps its fixed
    regions, sets up the processor and the other cores, finds the disk, starts
    the console and loads [init]; built with a test feature it runs a scenario
    instead or besides, and the tool judges the lines on the serial port.

    ** Files

    Shared data structures:
    - [Ring] : [kcore/ring.rs]; [Bitmap] : [kcore/bitmap.rs]; [CapTable] :
      [kcore/captable.rs]; [Rendezvous] : [kcore/endpoint.rs], the lock-free
      state of an endpoint; [Abi] : [tarnos-abi/lib.rs], the wire types;
      [KcoreTests] : the unit and property tests of [kcore].

    Memory:
    - [Phys] : [memory/phys.rs], the frame allocator over two bitmaps.
    - [Virt] : [memory/virt.rs], address spaces; physical memory is a map from
      frame addresses to their 512 words; [Mapper] : what the page-table crate
      promises about mapping and translation; [MapRegion] : mapping a run of
      pages; [MapperModel] : page tables in memory, with which the promises are
      kept.
    - [Regions] : the fixed kernel memory map ([heap.rs], [gdt.rs], [lapic.rs],
      [smp.rs], [virtio_blk.rs], [scheduler.rs], [process.rs]).

    Processes and scheduling:
    - [Process] : identifiers, saved frames, control block, stack layout
      ([task/mod.rs], [task/process.rs], [context_switch.rs], [ipc/message.rs],
      [ipc/capability.rs]).
    - [Elf] : [elf.rs], [Process::new] and [Process::from_elf]; [Loader] : what a
      loaded process sees; [Dummy] : [Process::new_dummy].
    - [Sched] : [task/scheduler.rs] and [arch/x86_64/percpu.rs], one definition
      per function or per part that runs under one hold of the scheduler lock;
      [Sched] (the record) is the locked state, the per-core slots, the busy
      flags and the registers a switch writes.
    - [SchedAbs], [SchedInv], [SchedExit], [SchedSteps] : the abstract
      scheduler, the relation between the two, and the invariant of every
      interleaving; [SchedProps] : what follows; [SchedTrace] : the dispatch
      trace; [SchedFrame] : what each step leaves alone.
    - [Kernel] : the shared state, [ipc/endpoint.rs] and [task/executor.rs];
      [Handlers] : the scheduler's entry points, which combine its critical
      sections with IPC wake-ups, the executor and the release of memory.
    - [Smp] : cores, kernel stacks and CR3; [Idle] : parking and waking a core;
      [Sync] : [sync.rs], the spinlock; [Panic] : [lang_items.rs] and
      [earlycon.rs], reporting a panic.

    Entering the kernel:
    - [Trap] : the assembly stubs of [context_switch.rs] and [syscall.rs] on a
      small model of the processor.
    - [Irq] : the handlers behind the stubs and their acknowledgement
      ([context_switch.rs], [idt.rs], [interrupts.rs], [lapic.rs],
      [driver/mod.rs]).
    - [Syscall] : [syscall.rs], the dispatcher and the twelve calls; [UserMem] :
      the calls that write to user memory; [Authority] : how capabilities
      travel; [Rt] : [tarnos-rt/syscall.rs] over the dispatcher; [Heap] :
      [tarnos-rt/heap.rs] over [SYS_SBRK].

    Setting up and booting:
    - [Idt] : the interrupt descriptor table ([idt.rs]); [Gdt] : [gdt.rs] and the
      MSRs of [SYSCALL]; [Lapic] : [lapic.rs] and [interrupts.rs], programming and
      calibration of the timers; [CoreId] : [percpu.rs], how a core finds its
      slot; [SmpBoot] : [smp.rs], starting the other cores; [BootMem] :
      [memory/mod.rs], [heap.rs] and the fixed regions; [Boot] : [main.rs] of a
      normal build and [arch/x86_64/mod.rs].

    Programs, tests and the tool:
    - [Programs] : the programs under [userland] and the machine that runs
      processes on several cores; [TestProcs] : the processes of
      [milestone*_tests.rs] and [kitchen_sink_tests.rs], assembly as lists of
      instructions.
    - [Scenarios] : the feature blocks of [main.rs] as programs of the boot
      processor, and a run of the machine with its serial line; [Suite] : the
      tests of the tool on the runs of the model.
    - [LogText] : numbers and strings of the log; [Xtask] : [xtask/main.rs], the
      verdicts; [Build] : its builds, images and runs.

    Devices and storage:
    - [Uart] : [driver/uart.rs]; [Block] : the [BlockDevice] trait as a class
      with laws; [Fat] : [fs/fat.rs] over any block device; [Virtio] : the
      driver's read operation, which discharges the laws; [Pci] : [pci.rs];
      [VirtioInit] : discovery and set-up of the device.

    ** How the code is rendered

    Rust functions are Rocq functions with explicit state.  [result] is
    [Result]; [outcome] separates returning from panicking, and every panic of
    the source (asserts, [expect], indexing, checked arithmetic) is a [Panic]
    of the model.  Integers are [Z] or [nat] with their width written out where
    it matters.  What a core does after a handler that never returns is a value
    of [Handlers.Resume].  State machines with several actors are step
    relations: [SchedSteps.sched_step] (critical sections of any cores),
    [Smp.smp_step] (what each core executes on), [Idle.asleep_step],
    [Sync.lock_step], [Panic.panic_step], [Irq.irq_step], [Programs.wstep] and
    [Scenarios.rstep] (whole machines).

    Third-party crates and hardware are parameters: [Virt.X86] (page tables and
    canonical addresses of the [x86_64] crate), [Abi.RightsOps] ([bitflags]),
    [Process.Selectors], [Virtio.VirtioHw], [Pci.PciHost],
    [VirtioInit.VirtioMmio], the [limine] memory-map constant in [Phys], and
    what other cores do while a core waits ([between], [env]), the host and the
    programs the tool starts ([exec], [emulate], [refuses] in [Build],
    [run_scenario_ext] in [Xtask]).  What the
    theorems need of them is stated as laws next to each ([RightsLaws],
    [VirtioLaws], [transport_laws], [Mapper.MapperLaws], [Heap.InnerLaws],
    [PageWalk] in [UserMem], [GdtLaws] in [Gdt], [ToolLaws] in [Build]), and each
    is instantiated by a concrete function in the witnesses.

    ** What the theorems show

    - Data structures ([Ring], [Bitmap], [CapTable], [Rendezvous], [Abi]) :
      refinement of lists, sets and partial maps over any sequence of calls;
      first-in-first-out delivery of every accepted message; register encodings
      that decode to what was encoded.
    - Memory ([Phys], [Virt], [Regions]) : no frame is handed out twice;
      dropping an address space frees exactly its own frames, once; the fixed
      regions do not overlap.
    - Scheduler ([SchedProps]) : in every interleaving no process runs on two
      cores and the queue lists exactly the ready processes; ticks are
      round-robin and a queued process runs after as many ticks as there are
      processes ahead of it; exit and wait meet in either order; finalizing a
      process terminates and loses no process box; a wake-up commutes with the
      blocking it races with.
    - Several cores ([Smp], [Idle], [Sync], [Irq], [Panic]) : CR3 never names a freed
      address space; no wake-up is lost; locks exclude each other also against
      interrupt handlers; handlers that return have acknowledged their
      interrupt; one core reports a panic, and completely.  Three theorems here
      are about defects: two cores can run on the same kernel stack after a tick
      or a yield, a core whose last process is killed from elsewhere takes no
      further interrupts, and a fault with the heap's lock left behind is never
      reported.
    - Kernel boundary ([Trap], [Syscall], [UserMem], [Authority], [Rt], [Heap]) : stubs
      save and restore exactly the register frame; no system call creates
      authority; disk and file reads deliver exactly the bytes on disk to the
      caller's buffer and touch nothing else; the runtime's wrappers and the
      kernel agree on registers, and a message sent is the message received;
      growing a heap maps exactly the missing pages, and what the runtime's
      allocator returns is mapped, but a growth that fails part way blocks
      all later ones.
    - Storage ([Fat], [Virtio], [Pci], [VirtioInit]) : a file read returns the
      bytes of its cluster chain, chains always end; the driver returns the
      addressed sectors; set-up leaves a conforming device live and the driver
      in the state its reads start from.
    - Booting ([Loader], [Dummy], [Gdt], [Lapic], [SmpBoot], [Boot]) : a loaded
      process sees its image and nothing else; every core comes up on its own
      stack and segments, with a calibrated timer; boot ends in the scheduler
      with [init] ready.  [CoreId], [Idt] and [Boot] also prove defects: a register
      that is not preserved, exceptions of a process that halt the machine, an
      early panic that is not reported.
    - Whole machines ([Programs], [Suite]) : every interleaving of two cores runs
      [init] and its child to the end; the tests of the tool accept every run of
      the scenarios on one and on two cores, within the bounds below.
    - Tests and tool ([KcoreTests], [Xtask], [Build]) : the property tests of
      [kcore] hold on all inputs; the leak test accepts exactly the logs without
      a leak; an image contains what was just built, and a log is the one of its
      own run.

    ** Bounds and fuel

    Loops that are not structural take fuel; where a theorem says that an
    operation returns, its fuel is shown to be enough:
    - [Sched.take_and_finalize_slot] is called with one more than the table
      size: each nested call has removed a process from the table
      ([SchedExit]); [Sched.drain_ready] runs once per queue element.
    - [Fat.chain_loop] gets the source's own bound, the number of clusters.
    - [Virtio.transfer] polls once more than the device's latency, a parameter
      of the hardware; a device that never answers is polled forever by the
      code, and the laws exclude it.
    - [VirtioInit.setup] returns for every fuel above the number of reads the
      device takes to reset; [Pci.cap_list] needs at most 255 turns when the
      list ends and never finishes when it does not, which is what the code does.
    - [Trap.run] executes at most one step per instruction: the stubs have no
      loops.
    - [Elf.copy_loop] copies at least one byte per turn, with the length as
      fuel; [Kernel.console_server_poll] and [Kernel.echo_task_poll] take one
      turn per queued sender or received byte and one to block.
    - [Handlers.kill_loop] and [Kernel.run_ready_tasks] take the number of
      rounds and of polls as parameters; no theorem depends on their value, and
      [SYS_KILL] can spin as long as its target keeps migrating.

    - [Programs.explore] and [Scenarios.inevitable] look at all orders of steps up
      to a depth and fail if it does not suffice, so a positive answer includes
      that every run ends.  The scenarios of [Suite] bound three things besides:
      the turns of processes that loop for ever, the interrupts of the timers
      (none with two cores or a disk), and for most two-core runs a first
      stretch is fixed ([sc_prefix]).  A step is a system call, a fault or a turn
      of the idle loop, and at boot everything up to the next operation another
      core can see.  The tool asks for four processors, the runs have two.

    The number of bitmap words is a parameter ([W]), 65536 in the kernel; the
    process table has its 16 slots and the machine its 8 cores.

    ** Not modelled

    - The responses of the boot loader before [_start] uses them, and what
      firmware does when a core is started: parameters of [Boot] and [SmpBoot].
    - The text of diagnostics: rendering by [core::fmt] is a parameter of
      [Panic]; the lines that the tests read are in [Scenarios], other log lines
      and the texts of the tool for its user are left out.
    - The kernel's own heap allocator is third-party; exhausting it aborts,
      and is not modelled.  Neither is [userland/heap-child], which only fills a
      vector of the standard library over that allocator; so [Suite] leaves out
      [heap-growth-test] and [kitchen-sink-test], which spawn it.  It also leaves
      out [smp-boot-test], which counts turns of free-running loops,
      [smp-sched-concurrency-test], which needs a third core, and
      [fault-injection-test], which ends in a panic; their blocks are modelled
      in [Scenarios].
    - The random strategies of the property tests: the theorem is for all inputs.
    - Weak memory: critical sections are atomic steps, which the spinlock
      theorems justify; the atomics used outside the lock are taken as
      sequentially consistent. *)
From Stdlib Require Import ZifyNat.
From stdpp Require Export base numbers list gmap strings.


(** ** Results and panics

    [result] is Rust's [Result]; [outcome] separates a Rust computation that
    returns from one that panics ([panic!], a failed [assert!], [expect] on
    [None], an out-of-range index). *)
Inductive result (A E : Type) : Type :=
| Ok (a : A)
| Err (e : E).
Arguments Ok {A E} a.
Arguments Err {A E} e.

Inductive outcome (A : Type) : Type :=
| Ret (a : A)
| Panic (why : string).
Arguments Ret {A} a.
Arguments Panic {A} why.

#[global] Instance result_eq_dec {A E} `{EqDecision A, EqDecision E} :
  EqDecision (result A E).
Proof. solve_decision. Defined.

#[global] Instance outcome_eq_dec {A} `{EqDecision A} : EqDecision (outcome A).
Proof. solve_decision. Defined.

Declare Scope tarnos_scope.
Delimit Scope tarnos_scope with tarnos.
Open Scope tarnos_scope.

(** [let? x := e in k] is Rust's [?] operator on [Result];
    [let! x := e in k] sequences computations that may panic. *)
Notation "'let?' x := e 'in' k" :=
  (match e with Ok x => k | Err err => Err err end)
  (at level 10, x name, e at level 200, k at level 200,
   only parsing) : tarnos_scope.
Notation "'let!' x := e 'in' k" :=
  (match e with Ret x => k | Panic why => Panic why end)
  (at level 10, x name, e at level 200, k at level 200,
   only parsing) : tarnos_scope.
Notation "'let!' ' p := e 'in' k" :=
  (match e with Ret p => k | Panic why => Panic why end)
  (at level 10, p strict pattern, e at level 200, k at level 200,
   only parsing) : tarnos_scope.

(** [assert!]-style guard: panic unless the condition holds. *)
Notation "'assert!' b 'else' why ; k" :=
  (if b then k else Panic why)
  (at level 10, b at level 200, why at level 200, k at level 200,
   only parsing) : tarnos_scope.

(** Indexing a slice, array or [Vec] with [v[i]]: out of range panics. *)
Definition index_or_panic {A} (l : list A) (i : nat) : outcome A :=
  match l !! i with
  | Some x => Ret x
  | None => Panic "index out of bounds"
  end.

Lemma index_or_panic_Ret {A} (l : list A) i x :
  index_or_panic l i = Ret x <-> l !! i = Some x.
Proof. unfold index_or_panic. destruct (l !! i); split; congruence. Qed.

Lemma index_or_panic_total {A} (l : list A) i :
  i < length l -> exists x, index_or_panic l i = Ret x /\ l !! i = Some x.
Proof.
  intros [x Hx]%lookup_lt_is_Some_2. exists x.
  by rewrite index_or_panic_Ret.
Qed.

(** ** Machine integers

    A [w]-bit unsigned value is a [Z] in [0, 2^w); the wrap-around of an
    operation is written out with [wrap]. *)
Open Scope Z_scope.

Definition wrap (w z : Z) : Z := z mod 2 ^ w.
Abbreviation wrap64 := (wrap 64).
Abbreviation wrap32 := (wrap 32).

Definition in_width (w z : Z) : Prop := 0 <= z < 2 ^ w.
Abbreviation is_u64 := (in_width 64).
Abbreviation is_u32 := (in_width 32).
Abbreviation is_u16 := (in_width 16).
Abbreviation is_u8 := (in_width 8).

(** [as i64] / [as i32] on an unsigned value: two's complement. *)
Definition to_signed (w z : Z) : Z :=
  if decide (2 ^ (w - 1) <= z mod 2 ^ w) then z mod 2 ^ w - 2 ^ w
  else z mod 2 ^ w.

(** [checked_add] on [u64]; [saturating_add] is written where it is used. *)
Definition checked_add64 (a b : Z) : option Z :=
  if decide (a + b < 2 ^ 64) then Some (a + b) else None.

(** [u64::div_ceil]. *)
Definition div_ceil (a b : Z) : Z :=
  if decide (a mod b = 0) then a / b else a / b + 1.

Lemma wrap_small w z : in_width w z -> wrap w z = z.
Proof. intros. by apply Z.mod_small. Qed.

Lemma wrap_in_width w z : 0 <= w -> in_width w (wrap w z).
Proof. intros. apply Z.mod_pos_bound. lia. Qed.

Lemma checked_add64_Some a b c :
  checked_add64 a b = Some c <-> c = a + b /\ a + b < 2 ^ 64.
Proof. unfold checked_add64. case_decide; naive_solver. Qed.

Lemma div_ceil_spec a b :
  0 < b -> b * (div_ceil a b - 1) < a <= b * div_ceil a b.
Proof.
  intros Hb. unfold div_ceil.
  pose proof (Z.div_mod a b) as Hd. pose proof (Z.mod_pos_bound a b Hb).
  case_decide; nia.
Qed.

Lemma Z_lor_in_width w a b :
  0 <= w -> in_width w a -> in_width w b -> in_width w (Z.lor a b).
Proof.
  intros Hw [Ha Ha'] [Hb Hb']. split; [by apply Z.lor_nonneg|].
  destruct (decide (Z.lor a b = 0)) as [->|Hne]; [lia|].
  assert (0 <= Z.lor a b) by (by apply Z.lor_nonneg).
  apply Z.log2_lt_pow2; [lia|]. rewrite Z.log2_lor by done.
  destruct (decide (w = 0)) as [->|].
  { assert (a = 0) as -> by lia. assert (b = 0) as -> by lia. done. }
  apply Z.max_lub_lt.
  - destruct (decide (a = 0)) as [->|]; [simpl; lia|]. apply Z.log2_lt_pow2; lia.
  - destruct (decide (b = 0)) as [->|]; [simpl; lia|]. apply Z.log2_lt_pow2; lia.
Qed.

Lemma Z_land_in_width w a b : in_width w a -> 0 <= b -> in_width w (Z.land a b).
Proof.
  intros [Ha Ha'] Hb. split; [apply Z.land_nonneg; by left|].
  destruct (decide (Z.land a b = 0)) as [->|Hne]; [lia|].
  assert (0 <= Z.land a b) by (apply Z.land_nonneg; by left).
  assert (0 < a). { destruct (decide (a = 0)) as [->|]; [by rewrite Z.land_0_l in Hne|lia]. }
  assert (Z.log2 (Z.land a b) <= Z.log2 a).
  { etrans; [by apply Z.log2_land|]. lia. }
  destruct (decide (w < 0)); [rewrite Z.pow_neg_r in Ha' by done; lia|].
  apply Z.log2_lt_pow2; [lia|]. apply Z.log2_lt_pow2 in Ha'; lia.
Qed.

Create HintDb tarnos.
Create Rewrite HintDb tarnos.
#[export] Hint Rewrite wrap_small using (unfold in_width in *; lia) : tarnos.

(** ** Lists *)
Lemma list_lookup_insert_case {A} (l : list A) i j x y :
  <[i := x]> l !! j = Some y <->
  (i = j /\ x = y /\ (i < length l)%nat) \/ (i <> j /\ l !! j = Some y).
Proof.
  rewrite list_lookup_insert_Some. naive_solver.
Qed.

Lemma bind_fmap {A B C} (f : A -> B) (g : B -> list C) (l : list A) :
  (f <$> l) ≫= g = l ≫= fun a => g (f a).
Proof. induction l as [|a l IH]; simpl; [done|]. f_equal. exact IH. Qed.

(** The first position whose element satisfies a boolean test
    ([Iterator::position] / [find] over indices). *)
Fixpoint position {A} (f : A -> bool) (l : list A) : option nat :=
  match l with
  | [] => None
  | x :: l => if f x then Some 0%nat else S <$> position f l
  end.

Lemma position_Some {A} (f : A -> bool) l i :
  position f l = Some i <->
  (exists x, l !! i = Some x /\ f x = true) /\
  (forall j y, (j < i)%nat -> l !! j = Some y -> f y = false).
Proof.
  revert i. induction l as [|x l IH]; intros i; simpl.
  { split; [done|]. intros [(y & Hy & _) _]. by rewrite lookup_nil in Hy. }
  destruct (f x) eqn:Hf.
  - split.
    + intros [= <-]. split; [by exists x|lia].
    + intros [_ Hmin]. destruct i as [|i]; [done|].
      specialize (Hmin 0%nat x ltac:(lia) eq_refl). congruence.
  - rewrite fmap_Some. split.
    + intros (k & [Hex Hmin]%IH & ->). split; [done|].
      intros [|j] y ? Hy; simplify_eq/=; [done|]. apply (Hmin j); [lia|done].
    + intros [(y & Hy & Hfy) Hmin]. destruct i as [|i]; simplify_eq/=; [congruence|].
      exists i. split; [|done]. apply IH. split; [by exists y|].
      intros j z ? Hz. apply (Hmin (S j)); [lia|done].
Qed.

Lemma position_None {A} (f : A -> bool) l :
  position f l = None <-> forall x, x ∈ l -> f x = false.
Proof.
  induction l as [|x l IH]; simpl.
  { split; [intros _ x Hx; by apply not_elem_of_nil in Hx|done]. }
  destruct (f x) eqn:Hf.
  - split; [done|]. intros H. specialize (H x ltac:(left)). congruence.
  - rewrite fmap_None, IH. setoid_rewrite elem_of_cons. naive_solver.
Qed.

Lemma position_lt {A} (f : A -> bool) l i :
  position f l = Some i -> (i < length l)%nat.
Proof. intros [(x & Hx & _) _]%position_Some. by apply lookup_lt_Some in Hx. Qed.

(** ** Development tactics *)

(** Split the binds of a computation known to return. *)
Ltac inv_ret :=
  repeat match goal with
  | H : context [match ?e with Ret _ => _ | Panic _ => _ end] |- _ =>
      let E := fresh "Hret" in destruct e eqn:E; [|discriminate H]
  | H : (if ?b then _ else Panic _) = Ret _ |- _ =>
      let E := fresh "Hassert" in destruct b eqn:E; [|discriminate H]
  | H : Ret _ = Ret _ |- _ => injection H as H
  | H : Panic _ = Ret _ |- _ => discriminate H
  end; simplify_eq/=.

(** [lia] with division and remainder by constants. *)
Ltac div_lia := zify; Z.to_euclidean_division_equations; lia.

#[global] Arguments Nat.div : simpl never.
#[global] Arguments Nat.modulo : simpl never.
#[global] Arguments Z.add : simpl never.
#[global] Arguments Z.mul : simpl never.
#[global] Arguments Z.pow : simpl never.
#[global] Arguments Z.testbit : simpl never.
#[global] Arguments Z.land : simpl never.
#[global] Arguments Z.lor : simpl never.
#[global] Arguments Z.shiftl : simpl never.
#[global] Arguments Z.shiftr : simpl never.
#[global] Arguments Z.of_nat : simpl never.

(** ** Counting the indices below a bound that satisfy a test *)
Definition count_below (f : nat -> bool) (n : nat) : nat :=
  length (filter f (seq 0 n)).

Lemma count_below_S f n :
  count_below f (S n) = (count_below f n + if f n then 1 else 0)%nat.
Proof.
  unfold count_below. rewrite seq_S, filter_app, length_app, filter_cons.
  simpl. destruct (f n); simpl; lia.
Qed.

Lemma count_below_ext f g n :
  (forall i, (i < n)%nat -> f i = g i) -> count_below f n = count_below g n.
Proof.
  induction n as [|n IH]; intros Hfg; [done|].
  rewrite !count_below_S, (Hfg n) by lia. f_equal. apply IH. auto.
Qed.

Lemma count_below_flip f g i n :
  (i < n)%nat -> f i = false -> g i = true ->
  (forall j, j <> i -> f j = g j) ->
  count_below g n = S (count_below f n).
Proof.
  intros Hi Hf Hg Heq. induction n as [|n IH]; [lia|].
  rewrite !count_below_S. destruct (decide (n = i)) as [->|Hne].
  - rewrite Hf, Hg, (count_below_ext g f) by (intros; symmetry; apply Heq; lia). lia.
  - rewrite (IH ltac:(lia)), (Heq n Hne). lia.
Qed.

Lemma count_below_app f n m :
  count_below f (n + m) = (count_below f n + count_below (fun i => f (n + i)%nat) m)%nat.
Proof.
  induction m as [|m IH]; [rewrite Nat.add_0_r; unfold count_below; simpl; lia|].
  rewrite Nat.add_succ_r, !count_below_S, IH. lia.
Qed.

(** ** Little-endian byte strings

    A byte is a [Z] in [0, 256); [le_bytes n] is [to_le_bytes] of an [8n]-bit
    integer and [of_le_bytes] is [from_le_bytes]. *)
Fixpoint le_bytes (n : nat) (z : Z) : list Z :=
  match n with
  | O => []
  | S n => (z mod 256) :: le_bytes n (z / 256)
  end.

Fixpoint of_le_bytes (l : list Z) : Z :=
  match l with
  | [] => 0
  | b :: l => b + 256 * of_le_bytes l
  end.

Abbreviation is_bytes := (Forall is_u8).

Lemma length_le_bytes n z : length (le_bytes n z) = n.
Proof. revert z. induction n as [|n IH]; intros z; simpl; by rewrite ?IH. Qed.

Lemma is_bytes_le_bytes n z : is_bytes (le_bytes n z).
Proof.
  revert z. induction n as [|n IH]; intros z; simpl; constructor; [|done].
  unfold in_width. apply Z.mod_pos_bound. lia.
Qed.

Lemma of_le_bytes_range l :
  is_bytes l -> 0 <= of_le_bytes l < 2 ^ (8 * Z.of_nat (length l)).
Proof.
  induction 1 as [|b l [Hb Hb'] Hl IH]; simpl; [done|].
  rewrite Nat2Z.inj_succ, Z.mul_succ_r, Z.pow_add_r by lia.
  change (2 ^ 8) with 256 in *. nia.
Qed.

Lemma of_le_bytes_le_bytes n z :
  of_le_bytes (le_bytes n z) = z mod 2 ^ (8 * Z.of_nat n).
Proof.
  revert z. induction n as [|n IH]; intros z; simpl; [by rewrite Z.mod_1_r|].
  rewrite IH, Nat2Z.inj_succ, Z.mul_succ_r, Z.pow_add_r by lia.
  rewrite (Z.mul_comm _ (2 ^ 8)), Z.rem_mul_r by lia.
  change (2 ^ 8) with 256. done.
Qed.

Lemma le_bytes_of_le_bytes l :
  is_bytes l -> le_bytes (length l) (of_le_bytes l) = l.
Proof.
  induction 1 as [|b l [Hb Hb'] Hl IH]; simpl; [done|]. change (2 ^ 8) with 256 in *.
  f_equal; [rewrite (Z.mul_comm 256), Z.mod_add by lia; by apply Z.mod_small|].
  rewrite (Z.mul_comm 256), Z.div_add, Z.div_small by lia. done.
Qed.

Lemma le_bytes_of_le_bytes_n n l :
  length l = n -> is_bytes l -> le_bytes n (of_le_bytes l) = l.
Proof. intros <-. apply le_bytes_of_le_bytes. Qed.

(** A low field or-ed with a shifted high field is their sum. *)
Lemma lor_shiftl_add a b k :
  0 <= k -> 0 <= a < 2 ^ k -> Z.lor a (Z.shiftl b k) = a + b * 2 ^ k.
Proof.
  intros Hk Ha. rewrite <- Z.add_nocarry_lor; [by rewrite Z.shiftl_mul_pow2|].
  apply Z.bits_inj'. intros n Hn. rewrite Z.land_spec, Z.bits_0.
  destruct (decide (n < k)).
  - rewrite Z.shiftl_spec_low by done. by rewrite andb_false_r.
  - assert (Z.testbit a n = false) as ->; [|done].
    destruct (decide (a = 0)) as [->|]; [apply Z.bits_0|].
    apply Z.bits_above_log2; [lia|]. apply (Z.lt_le_trans _ k); [|lia].
    apply Z.log2_lt_pow2; lia.
Qed.
