(* ===== verification/Ring.v ===== *)
(** * The fixed-capacity FIFO ring buffer ([libs/tarnos-kcore/src/ring.rs])

    [RingBuffer] is the array, the head index and the length of the source;
    [ring_repr r l] says the buffer holds exactly the list [l], oldest first,
    in the [len] slots from [head] on, every other slot being [None].  The
    operations are shown to implement a bounded list queue. *)
From S2P Require Import Prelude.
Open Scope nat_scope.

Record RingBuffer (T : Type) := mkRing {
  buffer : list (option T);
  head : nat;
  len : nat;
}.
Arguments mkRing {T} buffer head len.
Arguments buffer {T} r.
Arguments head {T} r.
Arguments len {T} r.

#[global] Instance RingBuffer_eq_dec {T} `{EqDecision T} : EqDecision (RingBuffer T).
Proof. solve_decision. Defined.

Module Ring.
Section ring.
Context {T : Type} (N : nat).
Implicit Types (r : RingBuffer T) (l : list T).

Definition new : RingBuffer T := mkRing (replicate N None) 0 0.

Definition ring_len r : nat := len r.

Definition is_empty r : bool := bool_decide (len r = 0).

Definition is_full r : bool := bool_decide (len r = N).

(** [push] returns the new buffer and the boolean the code returns. *)
Definition push r (value : T) : RingBuffer T * bool :=
  if decide (len r = N) then (r, false)
  else
    let idx := (head r + len r) mod N in
    (mkRing (<[idx := Some value]> (buffer r)) (head r) (len r + 1), true).

(** [pop]: [take] leaves [None] in the slot it read. *)
Definition pop r : RingBuffer T * option T :=
  if decide (len r = 0) then (r, None)
  else
    let value := buffer r !! head r ≫= id in
    (mkRing (<[head r := None]> (buffer r)) ((head r + 1) mod N) (len r - 1),
     value).

(** ** Abstraction *)
Definition ring_repr r l : Prop :=
  length (buffer r) = N /\ (head r < N \/ N = 0) /\ len r = length l /\
  length l <= N /\
  forall i, i < N -> buffer r !! ((head r + i) mod N) = Some (l !! i).

(** The contents read off the array, oldest first. *)
Definition elems r : list T :=
  omap (fun i => buffer r !! ((head r + i) mod N) ≫= id) (seq 0 (len r)).

Lemma ring_index_eq h i :
  h < N -> i <= N ->
  (h + i) mod N = if decide (h + i < N) then h + i else h + i - N.
Proof.
  intros. case_decide; [by apply Nat.mod_small|].
  symmetry. apply (Nat.mod_unique _ _ 1); lia.
Qed.

Lemma ring_repr_new : ring_repr new [].
Proof.
  split_and!; simpl; try lia.
  - apply length_replicate.
  - intros i Hi. rewrite Nat.mod_small by lia. by apply lookup_replicate_2.
Qed.

Lemma omap_seq_lookup (f : nat -> option T) l k :
  (forall i x, l !! i = Some x -> f (k + i) = Some x) ->
  omap f (seq k (length l)) = l.
Proof.
  revert k. induction l as [|x l IH]; intros k Hl; simpl; [done|].
  pose proof (Hl 0 x eq_refl) as H0. rewrite Nat.add_0_r in H0. rewrite H0.
  f_equal. apply IH. intros i y Hy. rewrite <- (Hl (S i) y Hy). f_equal. lia.
Qed.

Lemma ring_repr_elems r l : ring_repr r l -> elems r = l.
Proof.
  intros (_ & _ & Hlen & Hle & Hl). unfold elems. rewrite Hlen.
  apply omap_seq_lookup. intros i x Hx. simpl.
  rewrite Hl, Hx; [done|]. apply lookup_lt_Some in Hx. lia.
Qed.

Lemma ring_repr_push r l x :
  ring_repr r l -> length l < N ->
  exists r', push r x = (r', true) /\ ring_repr r' (l ++ [x]).
Proof.
  intros (Hb & Hh & Hlen & Hle & Hl) Hlt. unfold push.
  rewrite decide_False by lia. eexists. split; [done|].
  split_and!; simpl; rewrite ?length_insert, ?length_app; simpl; try lia.
  intros i Hi. rewrite Hlen. destruct (decide (i = length l)) as [->|Hne].
  - rewrite list_lookup_insert_eq, list_lookup_middle; [done..|].
    rewrite Hb. apply Nat.mod_upper_bound. lia.
  - rewrite list_lookup_insert_ne by (rewrite !ring_index_eq by lia; repeat case_decide; lia).
    rewrite Hl by done. f_equal. destruct (decide (i < length l)).
    + by rewrite lookup_app_l by lia.
    + rewrite !lookup_ge_None_2; [done|..]; rewrite ?length_app; simpl; lia.
Qed.

Lemma ring_repr_push_full r l x :
  ring_repr r l -> length l = N -> push r x = (r, false).
Proof. intros (_ & _ & Hlen & _) ?. unfold push. by rewrite decide_True by lia. Qed.

Lemma ring_repr_pop r x l :
  ring_repr r (x :: l) -> exists r', pop r = (r', Some x) /\ ring_repr r' l.
Proof.
  intros (Hb & Hh & Hlen & Hle & Hl). simpl in *. unfold pop.
  rewrite decide_False by lia. eexists. split.
  { pose proof (Hl 0 ltac:(lia)) as H0.
    rewrite Nat.add_0_r, Nat.mod_small in H0 by lia. by rewrite H0. }
  split_and!; simpl; rewrite ?length_insert; try lia.
  intros i Hi. rewrite Nat.Div0.add_mod_idemp_l.
  destruct (decide (i = N - 1)) as [->|Hne].
  - replace (head r + 1 + (N - 1)) with (head r + 1 * N) by lia.
    rewrite Nat.Div0.mod_add, Nat.mod_small by lia.
    rewrite list_lookup_insert_eq by lia. rewrite lookup_ge_None_2; [done|lia].
  - replace (head r + 1 + i) with (head r + S i) by lia.
    rewrite list_lookup_insert_ne by (rewrite ring_index_eq by lia; case_decide; lia).
    by rewrite (Hl (S i)) by lia.
Qed.

Lemma ring_repr_pop_nil r : ring_repr r [] -> pop r = (r, None).
Proof. intros (_ & _ & Hlen & _). unfold pop. by rewrite decide_True by done. Qed.

Lemma ring_repr_len r l : ring_repr r l -> ring_len r = length l.
Proof. by intros (_ & _ & ? & _). Qed.

Lemma ring_repr_bound r l : ring_repr r l -> length l <= N.
Proof. by intros (_ & _ & _ & ? & _). Qed.

Lemma ring_repr_is_empty r l : ring_repr r l -> is_empty r = bool_decide (l = []).
Proof.
  intros (_ & _ & Hlen & _). unfold is_empty. rewrite Hlen.
  by destruct l.
Qed.

Lemma ring_repr_is_full r l : ring_repr r l -> is_full r = bool_decide (length l = N).
Proof. intros (_ & _ & Hlen & _). unfold is_full. by rewrite Hlen. Qed.

(** ** Refinement: a bounded list queue *)
Inductive ring_op := OpPush (x : T) | OpPop | OpLen | OpIsEmpty | OpIsFull.
Inductive ring_obs := ObsBool (b : bool) | ObsVal (v : option T) | ObsNat (n : nat).

Definition ring_exec r (o : ring_op) : RingBuffer T * ring_obs :=
  match o with
  | OpPush x => let '(r', b) := push r x in (r', ObsBool b)
  | OpPop => let '(r', v) := pop r in (r', ObsVal v)
  | OpLen => (r, ObsNat (ring_len r))
  | OpIsEmpty => (r, ObsBool (is_empty r))
  | OpIsFull => (r, ObsBool (is_full r))
  end.

Definition queue_exec l (o : ring_op) : list T * ring_obs :=
  match o with
  | OpPush x =>
      if decide (length l < N) then (l ++ [x], ObsBool true) else (l, ObsBool false)
  | OpPop =>
      match l with [] => ([], ObsVal None) | x :: l' => (l', ObsVal (Some x)) end
  | OpLen => (l, ObsNat (length l))
  | OpIsEmpty => (l, ObsBool (bool_decide (l = [])))
  | OpIsFull => (l, ObsBool (bool_decide (length l = N)))
  end.

Fixpoint run_ops {S} (exec : S -> ring_op -> S * ring_obs) (s : S) (os : list ring_op)
    : S * list ring_obs :=
  match os with
  | [] => (s, [])
  | o :: os =>
      let '(s', b) := exec s o in
      let '(s'', bs) := run_ops exec s' os in (s'', b :: bs)
  end.

Lemma ring_exec_simulates r l o :
  ring_repr r l ->
  snd (ring_exec r o) = snd (queue_exec l o) /\
  ring_repr (fst (ring_exec r o)) (fst (queue_exec l o)).
Proof.
  intros Hr. pose proof (ring_repr_bound _ _ Hr). destruct o; simpl.
  - case_decide.
    + destruct (ring_repr_push r l x Hr) as (r' & -> & Hr'); [done|]. by simpl.
    + rewrite (ring_repr_push_full r l x Hr) by lia. by simpl.
  - destruct l as [|x l].
    + by rewrite ring_repr_pop_nil by done.
    + destruct (ring_repr_pop r x l Hr) as (r' & -> & Hr'). by simpl.
  - by rewrite (ring_repr_len r l).
  - by rewrite (ring_repr_is_empty r l).
  - by rewrite (ring_repr_is_full r l).
Qed.

Lemma ring_run_simulates os r l :
  ring_repr r l ->
  snd (run_ops ring_exec r os) = snd (run_ops queue_exec l os) /\
  ring_repr (fst (run_ops ring_exec r os)) (fst (run_ops queue_exec l os)).
Proof.
  revert r l. induction os as [|o os IH]; intros r l Hr; simpl; [done|].
  destruct (ring_exec_simulates r l o Hr) as [Ho Hr'].
  destruct (ring_exec r o) as [r' b], (queue_exec l o) as [l' b']; simplify_eq/=.
  destruct (IH r' l' Hr') as [Hos Hr''].
  destruct (run_ops ring_exec r' os), (run_ops queue_exec l' os); simpl in *.
  by subst.
Qed.

(** From the empty buffer, every sequence of [push], [pop], [len],
    [is_empty] and [is_full] calls returns exactly what a FIFO list queue of
    capacity [N] returns (a push on a full buffer is refused and changes
    nothing), and the array read from [head] holds that queue's elements. *)
Theorem ring_refines_bounded_queue (os : list ring_op) :
  snd (run_ops ring_exec new os) = snd (run_ops queue_exec [] os) /\
  elems (fst (run_ops ring_exec new os)) = fst (run_ops queue_exec [] os).
Proof.
  destruct (ring_run_simulates os new [] ring_repr_new) as [Hobs Hrepr].
  split; [done|]. by apply ring_repr_elems.
Qed.
End ring.
End Ring.

#[export] Hint Resolve Ring.ring_repr_new Ring.ring_repr_pop_nil : tarnos.
