(* ===== verification/Bitmap.v ===== *)
(** * The frame bitmap ([libs/tarnos-kcore/src/bitmap.rs])

    [Bitmap] is the word array and the search bound of the source.  The words
    are 64-bit values; [set_used] masks with the 64-bit complement.  The
    theorems relate the words to the set of free indices: every operation
    changes exactly the bit it names, [free_count] counts that set, and
    [allocate] claims its least element. *)
From S2P Require Import Prelude.
Open Scope nat_scope.

Record Bitmap := mkBitmap {
  words : list Z;
  frame_count : nat;
}.

(** [u64::count_ones] and [u64::trailing_zeros]. *)
Definition count_ones (w : Z) : nat :=
  length (filter (fun k => Z.testbit w (Z.of_nat k)) (seq 0 64)).

Definition trailing_zeros (w : Z) : nat :=
  default 64 (position (fun k => Z.testbit w (Z.of_nat k)) (seq 0 64)).

Module BM.
Section bitmap.
Context (WORDS : nat).
Implicit Types b : Bitmap.

Definition CAPACITY : nat := WORDS * 64.

Definition new : Bitmap := mkBitmap (replicate WORDS 0%Z) 0.

(** [1 << (index % 64)] on [u64]. *)
Definition bit_mask (index : nat) : Z := Z.shiftl 1 (Z.of_nat (index mod 64)).

Definition set_free b (index : nat) : Bitmap :=
  if decide (CAPACITY <= index) then b
  else
    mkBitmap
      (alter (fun w => Z.lor w (bit_mask index)) (index / 64) (words b))
      (if decide (frame_count b <= index) then index + 1 else frame_count b).

Definition set_used b (index : nat) : Bitmap :=
  if decide (CAPACITY <= index) then b
  else
    mkBitmap
      (alter (fun w => Z.land w (Z.lxor (Z.ones 64) (bit_mask index)))
         (index / 64) (words b))
      (frame_count b).

Definition is_free b (index : nat) : bool :=
  bool_decide (index < CAPACITY) &&
  match words b !! (index / 64) with
  | Some w => negb (Z.land w (bit_mask index) =? 0)%Z
  | None => false
  end.

Definition free_count b : nat := sum_list_with count_ones (words b).

(** The loop of [allocate] over the word indices still to visit. *)
Fixpoint allocate_loop b (word_indices : list nat) : outcome (Bitmap * option nat) :=
  match word_indices with
  | [] => Ret (b, None)
  | word_index :: rest =>
      let! word := index_or_panic (words b) word_index in
      if decide (word <> 0%Z) then
        let bit := trailing_zeros word in
        let index := word_index * 64 + bit in
        Ret (set_used b index, Some index)
      else allocate_loop b rest
  end.

Definition allocate b : outcome (Bitmap * option nat) :=
  allocate_loop b (seq 0 (Nat.div (frame_count b + 63) 64)).

(** ** Well-formedness *)
Record wf b : Prop := {
  wf_words : length (words b) = WORDS;
  wf_width : Forall is_u64 (words b);
  wf_bound : frame_count b <= CAPACITY;
  wf_count : forall i, is_free b i = true -> i < frame_count b;
}.

Lemma testbit_mask i k :
  Z.testbit (bit_mask i) (Z.of_nat k) = bool_decide (k = i mod 64).
Proof.
  unfold bit_mask. rewrite Z.shiftl_1_l.
  rewrite Z.pow2_bits_eqb by lia.
  case_bool_decide; [subst; by rewrite Z.eqb_refl|].
  apply Z.eqb_neq. lia.
Qed.

Lemma land_mask_testbit w i :
  negb (Z.land w (bit_mask i) =? 0)%Z = Z.testbit w (Z.of_nat (i mod 64)).
Proof.
  destruct (Z.testbit w _) eqn:Hb.
  - apply negb_true_iff, Z.eqb_neq. intros H0.
    apply (f_equal (fun z => Z.testbit z (Z.of_nat (i mod 64)))) in H0.
    rewrite Z.land_spec, Hb, testbit_mask, Z.bits_0 in H0.
    by rewrite bool_decide_true in H0.
  - apply negb_false_iff, Z.eqb_eq, Z.bits_inj'. intros n Hn.
    rewrite Z.land_spec, Z.bits_0.
    replace n with (Z.of_nat (Z.to_nat n)) by lia. rewrite testbit_mask.
    case_bool_decide as Heq; [|by rewrite andb_false_r].
    by rewrite Heq, Hb.
Qed.

(** [is_free] reads one bit of one word. *)
Lemma is_free_testbit b i :
  length (words b) = WORDS ->
  is_free b i =
    match words b !! (i / 64) with
    | Some w => Z.testbit w (Z.of_nat (i mod 64))
    | None => false
    end.
Proof.
  intros Hlen. unfold is_free. case_bool_decide as Hi; simpl.
  - destruct (words b !! _); [apply land_mask_testbit|done].
  - rewrite lookup_ge_None_2; [done|]. rewrite Hlen. unfold CAPACITY in *.
    div_lia.
Qed.

Lemma div_mod_64_inj i j : i / 64 = j / 64 -> i mod 64 = j mod 64 -> i = j.
Proof. intros. div_lia. Qed.

(** How an in-place update of one word shows through [is_free]. *)
Lemma is_free_alter b f n i j (v : bool) :
  length (words b) = WORDS ->
  i < CAPACITY ->
  (forall w k, Z.testbit (f w) (Z.of_nat k) =
     if decide (k < 64) then
       if decide (k = i mod 64) then v else Z.testbit w (Z.of_nat k)
     else Z.testbit (f w) (Z.of_nat k)) ->
  is_free (mkBitmap (alter f (i / 64) (words b)) n) j =
  if decide (j = i) then v else is_free b j.
Proof.
  intros Hlen Hi Hf. rewrite !is_free_testbit by (simpl; rewrite ?length_alter; done).
  simpl. pose proof (Nat.mod_upper_bound j 64 ltac:(lia)).
  destruct (decide (j / 64 = i / 64)) as [Heq|Hne].
  - rewrite Heq, list_lookup_alter_eq.
    destruct (lookup_lt_is_Some_2 (words b) (i / 64)) as [w Hw].
    { rewrite Hlen. unfold CAPACITY in Hi. div_lia. }
    rewrite Hw. simpl. rewrite Hf, decide_True by lia.
    case_decide as Hm; case_decide as Hji; try done.
    + by contradict Hji; apply div_mod_64_inj.
    + by subst.
  - rewrite list_lookup_alter_ne by done. rewrite decide_False; congruence.
Qed.

Lemma is_free_set_free b i j :
  length (words b) = WORDS ->
  is_free (set_free b i) j = (bool_decide (j = i) && bool_decide (i < CAPACITY)) || is_free b j.
Proof.
  intros Hlen. unfold set_free. case_decide as Hi.
  { rewrite (bool_decide_false (i < CAPACITY)) by lia. by rewrite andb_false_r. }
  rewrite (is_free_alter b _ _ i j true) by
    (try done; try lia; intros w k; rewrite Z.lor_spec, testbit_mask;
     repeat case_decide; rewrite ?bool_decide_true, ?bool_decide_false by done;
     by rewrite ?orb_true_r, ?orb_false_r).
  rewrite (bool_decide_true (i < CAPACITY)) by lia. rewrite andb_true_r.
  case_decide; case_bool_decide; by simplify_eq/=.
Qed.

Lemma is_free_set_used b i j :
  length (words b) = WORDS ->
  is_free (set_used b i) j = is_free b j && negb (bool_decide (j = i)).
Proof.
  intros Hlen. unfold set_used. case_decide as Hi.
  { case_bool_decide as Hj; simpl; [|by rewrite andb_true_r].
    subst j. unfold is_free. by rewrite bool_decide_false by lia. }
  rewrite (is_free_alter b _ _ i j false).
  - case_decide; case_bool_decide; simplify_eq/=; by rewrite ?andb_false_r, ?andb_true_r.
  - done.
  - lia.
  - intros w k. rewrite Z.land_spec, Z.lxor_spec, testbit_mask.
    rewrite Z.testbit_ones_nonneg by lia.
    repeat case_decide; rewrite ?bool_decide_true, ?bool_decide_false by done;
      rewrite ?(proj2 (Z.ltb_lt _ _)) by lia; simpl; by rewrite ?andb_false_r, ?andb_true_r.
Qed.

(** ** Counting *)
Lemma count_words (ws : list Z) :
  count_below (fun i => match ws !! (i / 64) with
                        | Some w => Z.testbit w (Z.of_nat (i mod 64))
                        | None => false end) (length ws * 64) =
  sum_list_with count_ones ws.
Proof.
  induction ws as [|w ws IH] using rev_ind; [done|].
  rewrite sum_list_with_app, length_app, Nat.mul_add_distr_r, count_below_app.
  simpl length. f_equal.
  - rewrite <- IH. apply count_below_ext. intros i Hi.
    by rewrite lookup_app_l by div_lia.
  - unfold sum_list_with, count_ones. rewrite Nat.add_0_r.
    apply (count_below_ext _ (fun k => Z.testbit w (Z.of_nat k))). intros i Hi.
    replace ((length ws * 64 + i) / 64) with (length ws) by div_lia.
    replace ((length ws * 64 + i) mod 64) with i by div_lia.
    by rewrite list_lookup_middle.
Qed.

Lemma free_count_count b :
  length (words b) = WORDS -> free_count b = count_below (is_free b) CAPACITY.
Proof.
  intros Hlen. unfold free_count. rewrite <- count_words, Hlen.
  apply count_below_ext. intros i _. by rewrite is_free_testbit.
Qed.

(** ** Preservation of well-formedness *)
Lemma mask_u64 i : is_u64 (bit_mask i).
Proof.
  unfold bit_mask, in_width. rewrite Z.shiftl_1_l.
  split; [by apply Z.pow_nonneg|]. apply Z.pow_lt_mono_r; div_lia.
Qed.

Lemma is_free_lt_capacity b i : is_free b i = true -> i < CAPACITY.
Proof.
  unfold is_free. case_bool_decide; [done|]. simpl. discriminate.
Qed.

Lemma wf_new : wf new.
Proof.
  assert (forall i, is_free new i = false) as Hnone.
  { intros i. rewrite is_free_testbit by apply length_replicate.
    destruct (words new !! _) eqn:Hw; [|done].
    apply lookup_replicate in Hw as [-> _]. apply Z.bits_0. }
  split; simpl; [apply length_replicate|..|lia|].
  - apply Forall_replicate. unfold in_width. lia.
  - intros i. by rewrite Hnone.
Qed.

Lemma wf_set_free b i : wf b -> wf (set_free b i).
Proof.
  intros [Hw Hwd Hb Hc]. pose proof (is_free_set_free b i) as Hf.
  unfold set_free in *. case_decide as Hi; [by split|].
  split; simpl.
  - by rewrite length_alter.
  - apply Forall_alter; [done|]. intros w _ ?.
    apply Z_lor_in_width; [lia|done|apply mask_u64].
  - case_decide; lia.
  - intros j. rewrite Hf by done.
    intros [[?%bool_decide_eq_true _]%andb_true_iff|Hj%Hc]%orb_true_iff;
      case_decide; lia.
Qed.

Lemma wf_set_used b i : wf b -> wf (set_used b i).
Proof.
  intros [Hw Hwd Hb Hc]. pose proof (is_free_set_used b i) as Hf.
  unfold set_used in *. case_decide as Hi; [by split|].
  split; simpl; [by rewrite length_alter| |done|].
  - apply Forall_alter; [done|]. intros w _ ?.
    apply Z_land_in_width; [done|]. apply Z.lxor_nonneg.
    destruct (mask_u64 i). by split.
  - intros j. rewrite Hf by done. intros [Hj%Hc _]%andb_true_iff. done.
Qed.

(** ** Allocation *)
Lemma trailing_zeros_spec w :
  is_u64 w -> w <> 0%Z ->
  trailing_zeros w < 64 /\ Z.testbit w (Z.of_nat (trailing_zeros w)) = true /\
  forall k, k < trailing_zeros w -> Z.testbit w (Z.of_nat k) = false.
Proof.
  intros [Hlo Hhi] Hne. unfold trailing_zeros.
  destruct (position _ _) as [k|] eqn:Hp; simpl.
  - pose proof (position_lt _ _ _ Hp) as Hk. rewrite length_seq in Hk.
    apply position_Some in Hp as [(x & Hx & Hbit) Hmin].
    apply lookup_seq in Hx as [-> _]. split_and!; [done|done|].
    intros j Hj. apply (Hmin j); [done|]. apply lookup_seq. lia.
  - rewrite position_None in Hp. contradict Hne.
    apply Z.bits_inj'. intros n Hn. rewrite Z.bits_0.
    destruct (decide (n < 64)%Z) as [Hlt|Hge].
    + replace n with (Z.of_nat (Z.to_nat n)) by lia. apply Hp.
      apply elem_of_seq. lia.
    + destruct (decide (w = 0)%Z) as [->|]; [apply Z.bits_0|].
      apply Z.bits_above_log2; [done|].
      apply Z.log2_lt_pow2 in Hhi; lia.
Qed.

(** The scan from word [s] on, when every earlier word is empty. *)
Lemma allocate_loop_spec b s n :
  wf b -> s + n <= WORDS ->
  (forall i, i < s * 64 -> is_free b i = false) ->
  exists res, allocate_loop b (seq s n) = Ret res /\
    match res with
    | (b', Some i) => b' = set_used b i /\ is_free b i = true /\
                      forall j, j < i -> is_free b j = false
    | (b', None) => b' = b /\ forall i, i < (s + n) * 64 -> is_free b i = false
    end.
Proof.
  intros Hwf. revert s. induction n as [|n IH]; intros s Hle Hlow; simpl.
  { eexists. split; [done|]. rewrite Nat.add_0_r. done. }
  pose proof (wf_words _ Hwf) as Hlen.
  destruct (index_or_panic_total (words b) s) as (w & -> & Hw); [lia|].
  pose proof (Forall_lookup_1 _ _ _ _ (wf_width _ Hwf) Hw) as Hw64.
  assert (forall k, k < 64 -> is_free b (s * 64 + k) = Z.testbit w (Z.of_nat k)) as Hbits.
  { intros k Hk. rewrite is_free_testbit by done.
    replace ((s * 64 + k) / 64) with s by div_lia.
    replace ((s * 64 + k) mod 64) with k by div_lia. by rewrite Hw. }
  case_decide as Hne.
  - destruct (trailing_zeros_spec w Hw64 Hne) as (Ht & Hbit & Hmin).
    eexists. split; [done|]. split_and!; [done|by rewrite Hbits|].
    intros j Hj. destruct (decide (j < s * 64)); [by apply Hlow|].
    replace j with (s * 64 + (j - s * 64)) by lia. rewrite Hbits by lia. apply Hmin. lia.
  - subst w.
    replace (s + S n) with (S s + n) by lia. apply IH; [lia|].
    intros i Hi. destruct (decide (i < s * 64)); [by apply Hlow|].
    replace i with (s * 64 + (i - s * 64)) by lia. rewrite Hbits by lia.
    apply Z.bits_0.
Qed.

Lemma allocate_cases b :
  wf b ->
  exists res, allocate b = Ret res /\
    match res with
    | (b', Some i) => b' = set_used b i /\ is_free b i = true /\
                      forall j, j < i -> is_free b j = false
    | (b', None) => b' = b /\ forall i, is_free b i = false
    end.
Proof.
  intros Hwf. unfold allocate. pose proof (wf_bound _ Hwf) as Hb. unfold CAPACITY in Hb.
  destruct (allocate_loop_spec b 0 ((frame_count b + 63) / 64) Hwf) as (res & -> & Hres).
  { div_lia. } { lia. }
  exists res. split; [done|]. destruct res as [b' [i|]]; [done|].
  destruct Hres as [-> Hnone]. split; [done|]. intros i.
  destruct (is_free b i) eqn:Hi; [|done].
  pose proof (wf_count _ Hwf _ Hi). rewrite Hnone in Hi; [done|div_lia].
Qed.

Lemma free_count_set_used b i :
  wf b -> is_free b i = true -> free_count b = S (free_count (set_used b i)).
Proof.
  intros Hwf Hi. pose proof (wf_words _ Hwf). pose proof (wf_words _ (wf_set_used b i Hwf)).
  rewrite !free_count_count by done. pose proof (is_free_lt_capacity _ _ Hi).
  apply (count_below_flip _ _ i); [done| |done|].
  - rewrite is_free_set_used by done. rewrite bool_decide_true by done. by rewrite andb_false_r.
  - intros j Hj. rewrite is_free_set_used by done. rewrite bool_decide_false by done.
    by rewrite andb_true_r.
Qed.

Lemma free_count_set_free b i :
  wf b -> is_free b i = false -> i < CAPACITY ->
  free_count (set_free b i) = S (free_count b).
Proof.
  intros Hwf Hi Hc. pose proof (wf_words _ Hwf). pose proof (wf_words _ (wf_set_free b i Hwf)).
  rewrite !free_count_count by done.
  apply (count_below_flip _ _ i); [done|done| |].
  - rewrite is_free_set_free by done. by rewrite !bool_decide_true by done.
  - intros j Hj. rewrite is_free_set_free by done. by rewrite bool_decide_false by done.
Qed.

(** ** Refinement: a set of free indices

    The abstract state is the characteristic function of the free set. *)
Inductive bitmap_op :=
| OpSetFree (i : nat) | OpSetUsed (i : nat) | OpIsFree (i : nat)
| OpFreeCount | OpAllocate.
Inductive bitmap_obs :=
| ObsUnit | ObsFlag (f : bool) | ObsCount (n : nat) | ObsIndex (r : option nat).

Definition bitmap_exec b (o : bitmap_op) : outcome (Bitmap * bitmap_obs) :=
  match o with
  | OpSetFree i => Ret (set_free b i, ObsUnit)
  | OpSetUsed i => Ret (set_used b i, ObsUnit)
  | OpIsFree i => Ret (b, ObsFlag (is_free b i))
  | OpFreeCount => Ret (b, ObsCount (free_count b))
  | OpAllocate => let! '(b', r) := allocate b in Ret (b', ObsIndex r)
  end.

Definition set_exec (f : nat -> bool) (o : bitmap_op) : (nat -> bool) * bitmap_obs :=
  match o with
  | OpSetFree i => (fun j => (bool_decide (j = i) && bool_decide (i < CAPACITY)) || f j, ObsUnit)
  | OpSetUsed i => (fun j => f j && negb (bool_decide (j = i)), ObsUnit)
  | OpIsFree i => (f, ObsFlag (f i))
  | OpFreeCount => (f, ObsCount (count_below f CAPACITY))
  | OpAllocate =>
      match position f (seq 0 CAPACITY) with
      | Some i => (fun j => f j && negb (bool_decide (j = i)), ObsIndex (Some i))
      | None => (f, ObsIndex None)
      end
  end.

Fixpoint bitmap_run b (os : list bitmap_op) : outcome (Bitmap * list bitmap_obs) :=
  match os with
  | [] => Ret (b, [])
  | o :: os =>
      let! '(b', v) := bitmap_exec b o in
      let! '(b'', vs) := bitmap_run b' os in Ret (b'', v :: vs)
  end.

Fixpoint set_run (f : nat -> bool) (os : list bitmap_op) : (nat -> bool) * list bitmap_obs :=
  match os with
  | [] => (f, [])
  | o :: os =>
      let '(f', v) := set_exec f o in
      let '(f'', vs) := set_run f' os in (f'', v :: vs)
  end.

Lemma position_free b f i :
  (forall j, is_free b j = f j) -> is_free b i = true ->
  (forall j, j < i -> is_free b j = false) ->
  position f (seq 0 CAPACITY) = Some i.
Proof.
  intros Hf Hi Hlow. pose proof (is_free_lt_capacity _ _ Hi).
  apply position_Some. split.
  - exists i. rewrite <- Hf. split; [|done]. by apply lookup_seq.
  - intros j y Hj [-> _]%lookup_seq. rewrite <- Hf. by apply Hlow.
Qed.

Lemma bitmap_exec_simulates b f o :
  wf b -> (forall j, is_free b j = f j) ->
  exists b' v, bitmap_exec b o = Ret (b', v) /\ v = snd (set_exec f o) /\ wf b' /\
    forall j, is_free b' j = fst (set_exec f o) j.
Proof.
  intros Hwf Hf. pose proof (wf_words _ Hwf) as Hw. destruct o; simpl.
  - do 2 eexists. split_and!; [done|done|by apply wf_set_free|].
    intros j. by rewrite is_free_set_free, Hf.
  - do 2 eexists. split_and!; [done|done|by apply wf_set_used|].
    intros j. by rewrite is_free_set_used, Hf.
  - do 2 eexists. split_and!; [done|by rewrite Hf|done..].
  - do 2 eexists. split_and!; [done| |done..].
    rewrite free_count_count by done. f_equal. by apply count_below_ext.
  - destruct (allocate_cases b Hwf) as ([b' [i|]] & -> & Hres).
    + destruct Hres as (-> & Hi & Hlow). rewrite (position_free b f i) by done.
      do 2 eexists. split_and!; [done|done|by apply wf_set_used|].
      intros j. by rewrite is_free_set_used, Hf.
    + destruct Hres as (-> & Hnone). rewrite (proj2 (position_None _ _)) by
        (intros; by rewrite <- Hf). by do 2 eexists.
Qed.

Lemma bitmap_run_simulates os b f :
  wf b -> (forall j, is_free b j = f j) ->
  exists b' vs, bitmap_run b os = Ret (b', vs) /\ vs = snd (set_run f os) /\ wf b' /\
    forall j, is_free b' j = fst (set_run f os) j.
Proof.
  revert b f. induction os as [|o os IH]; intros b f Hwf Hf; simpl.
  { by do 2 eexists. }
  destruct (bitmap_exec_simulates b f o Hwf Hf) as (b1 & v & -> & -> & Hwf1 & Hf1).
  destruct (set_exec f o) as [f1 v1]. simpl in *.
  destruct (IH b1 f1 Hwf1 Hf1) as (b2 & vs & -> & -> & Hwf2 & Hf2).
  destruct (set_run f1 os) as [f2 vs2]. simpl in *.
  by do 2 eexists.
Qed.

Lemma is_free_new i : is_free new i = false.
Proof.
  destruct (is_free new i) eqn:Hi; [|done].
  apply (wf_count _ wf_new) in Hi. simpl in Hi. lia.
Qed.

(** C36: every sequence of [set_free], [set_used], [is_free], [free_count] and
    [allocate] calls on a fresh bitmap runs without panicking and returns what
    the mathematical set of free indices below [CAPACITY] returns: [allocate]
    the least free index (or [None] exactly when there is none), [free_count]
    the cardinality, and indices at or above [CAPACITY] are never free. *)
Theorem bitmap_refines_free_set (os : list bitmap_op) :
  exists b' vs, bitmap_run new os = Ret (b', vs) /\
    vs = snd (set_run (fun _ => false) os) /\
    forall j, is_free b' j = fst (set_run (fun _ => false) os) j.
Proof.
  destruct (bitmap_run_simulates os new (fun _ => false) wf_new is_free_new)
    as (b' & vs & -> & -> & _ & Hf). by do 2 eexists.
Qed.
End bitmap.
End BM.

(** [usable_frame_range]: the [u64] sum panics on overflow in a checked build. *)
Definition usable_frame_range (base length frame_size : Z) : outcome (Z * Z) :=
  if decide (frame_size = 0)%Z then Panic "attempt to divide by zero"
  else
    let start_frame := div_ceil base frame_size in
    match checked_add64 base length with
    | None => Panic "attempt to add with overflow"
    | Some sum => Ret (start_frame, (sum / frame_size)%Z)
    end.

(** A frame index lies in the computed range exactly when the whole frame
    lies inside the byte range [base, base + length): partial frames at either
    end are never usable. *)
Theorem usable_frame_range_spec (base length frame_size i : Z)
    (Hsize : (0 < frame_size)%Z) (Hsum : (base + length < 2 ^ 64)%Z) :
  exists s e, usable_frame_range base length frame_size = Ret (s, e) /\
    ((s <= i < e)%Z <->
     (base <= i * frame_size /\ (i + 1) * frame_size <= base + length)%Z).
Proof.
  unfold usable_frame_range. rewrite decide_False by lia.
  destruct (checked_add64 base length) as [sum|] eqn:Hadd.
  - apply checked_add64_Some in Hadd as [-> _]. do 2 eexists. split; [done|].
    pose proof (div_ceil_spec base frame_size Hsize).
    pose proof (Z.div_mod (base + length) frame_size ltac:(lia)).
    pose proof (Z.mod_pos_bound (base + length) frame_size Hsize). nia.
  - unfold checked_add64 in Hadd. by case_decide.
Qed.

Lemma usable_frame_range_spec_witness :
  (0 < 4096)%Z /\ (1000 + 20000 < 2 ^ 64)%Z /\
  exists s e, usable_frame_range 1000 20000 4096 = Ret (s, e) /\
    ((s <= 2 < e)%Z <-> (1000 <= 2 * 4096 /\ (2 + 1) * 4096 <= 1000 + 20000)%Z).
Proof.
  split_and!; [lia|lia|].
  apply (usable_frame_range_spec 1000 20000 4096 2); lia.
Defined.
