(* ===== verification/Abi.v ===== *)
(** * The system-call ABI ([libs/tarnos-abi/src/lib.rs])

    The wire types shared by the kernel and user programs: system-call
    numbers, capability indices, messages, exit statuses, rights, short names
    and error codes, with the encoders and decoders of the source.  A Rust
    [&str] is its list of UTF-8 bytes.  The [bitflags] crate that generates
    [Rights] is third-party code: [RightsOps] is what the kernel calls of it
    and [RightsLaws] its documented behaviour. *)
From S2P Require Import Prelude.
Open Scope Z_scope.

Definition SYS_YIELD : Z := 0.
Definition SYS_SEND : Z := 1.
Definition SYS_RECV : Z := 2.
Definition SYS_EXIT : Z := 3.
Definition SYS_SPAWN : Z := 4.
Definition SYS_GRANT : Z := 5.
Definition SYS_PROCESS_START : Z := 6.
Definition SYS_WAIT : Z := 7.
Definition SYS_KILL : Z := 8.
Definition SYS_SBRK : Z := 9.
Definition SYS_BLOCK_READ : Z := 10.
Definition SYS_FILE_READ : Z := 11.

(** [CapIndex(pub u32)]. *)
Record CapIndex := mkCapIndex { cap_raw : Z }.

#[global] Instance CapIndex_eq_dec : EqDecision CapIndex.
Proof. solve_decision. Defined.

Definition CONSOLE_CAP : CapIndex := mkCapIndex 0.
Definition CHILD_LINK_CAP : CapIndex := mkCapIndex 1.
Definition BLOCK_CAP : CapIndex := mkCapIndex 2.
Definition FS_CAP : CapIndex := mkCapIndex 3.

Definition MESSAGE_INLINE_WORDS : nat := 4.

Record Message := mkMessage {
  tag : Z;
  words : list Z;
}.

#[global] Instance Message_eq_dec : EqDecision Message.
Proof. solve_decision. Defined.

(** ** UTF-8

    [core::str::from_utf8] succeeds exactly on the byte strings of the Unicode
    well-formedness table: no overlong forms, no surrogates, nothing above
    U+10FFFF. *)
Definition is_cont (b : Z) : bool := (0x80 <=? b) && (b <=? 0xBF).
Definition in_range (lo hi b : Z) : bool := (lo <=? b) && (b <=? hi).

Fixpoint valid_utf8 (l : list Z) : bool :=
  match l with
  | [] => true
  | b0 :: l1 =>
    if b0 <? 0x80 then valid_utf8 l1
    else match l1 with
    | [] => false
    | b1 :: l2 =>
      if in_range 0xC2 0xDF b0 then is_cont b1 && valid_utf8 l2
      else match l2 with
      | [] => false
      | b2 :: l3 =>
        if in_range 0xE0 0xEF b0 then
          (if b0 =? 0xE0 then in_range 0xA0 0xBF b1
           else if b0 =? 0xED then in_range 0x80 0x9F b1
           else is_cont b1) && is_cont b2 && valid_utf8 l3
        else match l3 with
        | [] => false
        | b3 :: l4 =>
          in_range 0xF0 0xF4 b0 &&
          (if b0 =? 0xF0 then in_range 0x90 0xBF b1
           else if b0 =? 0xF4 then in_range 0x80 0x8F b1
           else is_cont b1) && is_cont b2 && is_cont b3 && valid_utf8 l4
        end
      end
    end
  end.

(** The bytes of an ASCII string literal. *)
Definition str_bytes (s : string) : list Z :=
  (fun a => Z.of_nat (Ascii.nat_of_ascii a)) <$> String.list_ascii_of_string s.

(** [core::str::from_utf8(b).unwrap_or("<invalid utf-8>")]. *)
Definition utf8_or_invalid (l : list Z) : list Z :=
  if valid_utf8 l then l else str_bytes "<invalid utf-8>".

(** [buf[..len].copy_from_slice(&bytes[..len])] on a zeroed buffer of [cap]
    bytes, with [len = min(bytes.len(), cap)]. *)
Definition padded (cap : nat) (bytes : list Z) : list Z :=
  let len := Nat.min (length bytes) cap in
  take len bytes ++ replicate (cap - len) 0.

Definition message_new (t : Z) (ws : list Z) : Message := mkMessage t ws.

Definition from_str_lossy (s : list Z) : Message :=
  let cap := (MESSAGE_INLINE_WORDS * 8)%nat in
  let len := Nat.min (length s) cap in
  let buf := padded cap s in
  mkMessage (Z.of_nat len)
    ((fun i => of_le_bytes (take 8 (drop (i * 8) buf))) <$> seq 0 MESSAGE_INLINE_WORDS).

(** The scratch buffer is overwritten in full before it is read, so it is not
    an input. *)
Definition as_str_lossy (m : Message) : list Z :=
  let buf := concat ((fun w => le_bytes 8 w) <$> words m) in
  let len := Nat.min (Z.to_nat (tag m)) (MESSAGE_INLINE_WORDS * 8) in
  utf8_or_invalid (take len buf).

Inductive ExitStatus :=
| Exited (code : Z)
| Faulted
| Killed.

#[global] Instance ExitStatus_eq_dec : EqDecision ExitStatus.
Proof. solve_decision. Defined.

(** [code as u32 as u64] of an [i32]. *)
Definition to_regs (s : ExitStatus) : Z * Z :=
  match s with
  | Exited code => (0, wrap32 code)
  | Faulted => (1, 0)
  | Killed => (2, 0)
  end.

Definition from_regs (kind code : Z) : ExitStatus :=
  if decide (kind = 0) then Exited (to_signed 32 (wrap32 code))
  else if decide (kind = 1) then Faulted
  else Killed.

(** ** Rights *)
Record Rights := mkRights { bits : Z }.

#[global] Instance Rights_eq_dec : EqDecision Rights.
Proof. solve_decision. Defined.

Definition SEND : Rights := mkRights 1.
Definition RECV : Rights := mkRights 2.
Definition READ : Rights := mkRights 4.

(** [a | b] of the flags type. *)
Definition rights_or (a b : Rights) : Rights := mkRights (Z.lor (bits a) (bits b)).

(** The operations the kernel calls of the generated flags type. *)
Class RightsOps := {
  contains : Rights -> Rights -> bool;
  from_bits_truncate : Z -> Rights;
}.

(** Their documented behaviour: [contains] holds when every bit set in the
    argument is set in the receiver, [from_bits_truncate] drops unknown bits. *)
Class RightsLaws `{RightsOps} : Prop := {
  contains_spec : forall a b, contains a b = true <-> Z.land (bits a) (bits b) = bits b;
  from_bits_truncate_spec : forall z, bits (from_bits_truncate z) = Z.land z 7;
}.

(** A concrete implementation, for witnesses. *)
Definition bitflags_ops : RightsOps := {|
  contains a b := bool_decide (Z.land (bits a) (bits b) = bits b);
  from_bits_truncate z := mkRights (Z.land z 7);
|}.

Lemma bitflags_laws : @RightsLaws bitflags_ops.
Proof. split; [intros; apply bool_decide_eq_true|done]. Qed.

Definition SHORT_NAME_MAX : nat := 16.

Definition pack_short_name (name : list Z) : Z * Z * Z :=
  let len := Nat.min (length name) SHORT_NAME_MAX in
  let buf := padded SHORT_NAME_MAX name in
  (of_le_bytes (take 8 buf), of_le_bytes (take 8 (drop 8 buf)), Z.of_nat len).

Definition unpack_short_name (lo hi len : Z) : list Z :=
  let buf := le_bytes 8 lo ++ le_bytes 8 hi in
  utf8_or_invalid (take (Nat.min (Z.to_nat len) SHORT_NAME_MAX) buf).

Inductive SyscallError :=
| NoSuchSyscall | BadCapability | PermissionDenied | ResourceExhausted
| NoSuchProgram | InvalidTarget | SpawnFailed | InvalidArgument | PeerClosed
| IoOutOfRange | IoError | NoSuchFile.

#[global] Instance SyscallError_eq_dec : EqDecision SyscallError.
Proof. solve_decision. Defined.

(** The [#[repr(u64)]] discriminant. *)
Definition error_code (e : SyscallError) : Z :=
  match e with
  | NoSuchSyscall => 1 | BadCapability => 2 | PermissionDenied => 3
  | ResourceExhausted => 4 | NoSuchProgram => 5 | InvalidTarget => 6
  | SpawnFailed => 7 | InvalidArgument => 8 | PeerClosed => 9
  | IoOutOfRange => 10 | IoError => 11 | NoSuchFile => 12
  end.

Definition as_retval (e : SyscallError) : Z := - error_code e.

(** The value stored in RAX: [as_retval() as u64]. *)
Definition retval_u64 (e : SyscallError) : Z := wrap64 (as_retval e).

Definition from_retval (retval : Z) : SyscallError :=
  match Z.abs retval with
  | 2 => BadCapability
  | 3 => PermissionDenied
  | 4 => ResourceExhausted
  | 5 => NoSuchProgram
  | 6 => InvalidTarget
  | 7 => SpawnFailed
  | 8 => InvalidArgument
  | 9 => PeerClosed
  | 10 => IoOutOfRange
  | 11 => IoError
  | 12 => NoSuchFile
  | _ => NoSuchSyscall
  end.

Inductive AbiKind := TarnosNative | LinuxCompat.

(** ** Round trips *)
Lemma length_padded cap l : length (padded cap l) = cap.
Proof. unfold padded. rewrite length_app, length_take, length_replicate. lia. Qed.

Lemma is_bytes_padded cap l : is_bytes l -> is_bytes (padded cap l).
Proof.
  intros. apply Forall_app. split; [by apply Forall_take|].
  apply Forall_replicate. unfold in_width. lia.
Qed.

Lemma take_padded cap l : take (Nat.min (length l) cap) (padded cap l) = take cap l.
Proof.
  unfold padded. rewrite take_app_le by (rewrite length_take; lia).
  rewrite take_take, Nat.min_id.
  destruct (decide (length l <= cap)%nat).
  - rewrite Nat.min_l by lia. by rewrite !take_ge by lia.
  - by rewrite Nat.min_r by lia.
Qed.

(** Reading a buffer as little-endian words and writing the words back. *)
Lemma le_words_roundtrip n buf s :
  length buf = ((s + n) * 8)%nat -> is_bytes buf ->
  concat ((fun w => le_bytes 8 w) <$>
    ((fun i => of_le_bytes (take 8 (drop (i * 8) buf))) <$> seq s n)) =
  drop (s * 8) buf.
Proof.
  revert s. induction n as [|n IH]; intros s Hlen Hb; cbn [seq fmap list_fmap concat].
  { by rewrite drop_ge by lia. }
  rewrite IH by (try done; lia).
  rewrite le_bytes_of_le_bytes_n;
    [|rewrite length_take, length_drop; lia|by apply Forall_take, Forall_drop].
  replace (S s * 8)%nat with (s * 8 + 8)%nat by lia.
  rewrite <- drop_drop. apply take_drop.
Qed.

(** Packing a string into a message and unpacking it returns its first 32
    bytes when they are valid UTF-8 (so every string of at most 32 bytes comes
    back unchanged), and the text "<invalid utf-8>" otherwise. *)
Theorem message_str_roundtrip (s : list Z) (Hs : is_bytes s) :
  as_str_lossy (from_str_lossy s) = utf8_or_invalid (take 32 s) /\
  ((length s <= 32)%nat -> valid_utf8 s = true -> as_str_lossy (from_str_lossy s) = s).
Proof.
  assert (as_str_lossy (from_str_lossy s) = utf8_or_invalid (take 32 s)) as Heq.
  { unfold as_str_lossy, from_str_lossy. cbn [tag words].
    rewrite (le_words_roundtrip MESSAGE_INLINE_WORDS (padded (MESSAGE_INLINE_WORDS * 8) s) 0) by
      (rewrite ?length_padded; try done; by apply is_bytes_padded).
    rewrite drop_0, Nat2Z.id.
    rewrite Nat.min_l by (apply Nat.le_min_r). by rewrite take_padded. }
  split; [done|]. intros Hlen Hv. rewrite Heq, take_ge by done.
  unfold utf8_or_invalid. by rewrite Hv.
Qed.

Lemma message_str_roundtrip_witness :
  is_bytes (str_bytes "hello") /\ as_str_lossy (from_str_lossy (str_bytes "hello")) = str_bytes "hello".
Proof.
  assert (is_bytes (str_bytes "hello")) as H.
  { repeat constructor; vm_compute; congruence. }
  split; [done|]. apply (message_str_roundtrip _ H); [vm_compute; lia|reflexivity].
Defined.

(** Packing a short name into its three registers and unpacking it returns
    the name's first 16 bytes when they are valid UTF-8; a name of at most 16
    bytes comes back unchanged, in particular every spawnable program name. *)
Theorem short_name_roundtrip (s : list Z) (Hs : is_bytes s) :
  let '(lo, hi, len) := pack_short_name s in
  is_u64 lo /\ is_u64 hi /\ (0 <= len <= 16) /\
  unpack_short_name lo hi len = utf8_or_invalid (take 16 s).
Proof.
  unfold pack_short_name, unpack_short_name, SHORT_NAME_MAX.
  pose proof (length_padded 16 s) as Hlen. pose proof (is_bytes_padded 16 s Hs) as Hb.
  assert (forall k, (k <= 8)%nat -> length (take 8 (drop k (padded 16 s))) = 8%nat) as Hk.
  { intros k ?. rewrite length_take, length_drop. lia. }
  assert (forall k, (k <= 8)%nat -> is_u64 (of_le_bytes (take 8 (drop k (padded 16 s))))) as Hu.
  { intros k Hk8. pose proof (of_le_bytes_range (take 8 (drop k (padded 16 s)))
      (Forall_take _ _ _ (Forall_drop _ _ _ Hb))) as Hr. by rewrite Hk in Hr. }
  split_and!; [apply (Hu 0%nat); lia|apply (Hu 8%nat); lia|lia|lia|].
  rewrite !le_bytes_of_le_bytes_n; [|by apply (Hk 8%nat)|by apply Forall_take, Forall_drop
    |by apply (Hk 0%nat); lia|by apply Forall_take].
  rewrite (take_ge (drop 8 _)), take_drop by (rewrite length_drop; lia).
  rewrite Nat2Z.id, Nat.min_l by (apply Nat.le_min_r). by rewrite take_padded.
Qed.

Lemma short_name_roundtrip_witness :
  is_bytes (str_bytes "exit-code-child") /\
  (let '(lo, hi, len) := pack_short_name (str_bytes "exit-code-child") in
   unpack_short_name lo hi len = str_bytes "exit-code-child").
Proof.
  assert (is_bytes (str_bytes "exit-code-child")) as H.
  { repeat constructor; vm_compute; congruence. }
  split; [done|]. pose proof (short_name_roundtrip _ H) as Hr.
  destruct (pack_short_name _) as [[lo hi] len]. destruct Hr as (_ & _ & _ & ->).
  reflexivity.
Defined.

(** Every error survives the trip through the return register: stored with
    [as_retval() as u64], read back as [i64], it is negative (so it is never
    mistaken for success) and [from_retval] recovers it. *)
Theorem syscall_error_roundtrip (e : SyscallError) :
  is_u64 (retval_u64 e) /\ to_signed 64 (retval_u64 e) < 0 /\
  from_retval (to_signed 64 (retval_u64 e)) = e.
Proof. destruct e; vm_compute; split_and!; congruence. Qed.

Lemma to_signed_wrap w z :
  0 < w -> - 2 ^ (w - 1) <= z < 2 ^ (w - 1) -> to_signed w (wrap w z) = z.
Proof.
  intros Hw Hz. unfold to_signed, wrap. rewrite Zmod_mod.
  assert (2 ^ w = 2 * 2 ^ (w - 1)) as Hpow.
  { rewrite <- Z.pow_succ_r by lia. f_equal. lia. }
  destruct (decide (0 <= z)).
  - rewrite Z.mod_small by lia. rewrite decide_False by lia. done.
  - rewrite <- (Z.mod_unique z (2 ^ w) (-1) (z + 2 ^ w)) by lia.
    rewrite decide_True by lia. lia.
Qed.

Lemma exit_status_decodes (s : ExitStatus) :
  match s with Exited c => - 2 ^ 31 <= c < 2 ^ 31 | _ => True end ->
  from_regs (fst (to_regs s)) (snd (to_regs s)) = s.
Proof.
  intros Hs. destruct s as [c| |]; [|done..]. simpl. unfold from_regs. simpl. f_equal.
  rewrite (wrap_small 32 (wrap32 c)) by (apply wrap_in_width; lia). apply to_signed_wrap; lia.
Qed.

(** The two registers of [sys_wait] decode to the exit status that was
    encoded, for every [i32] exit code, negative ones included. *)
Theorem exit_status_roundtrip (s : ExitStatus)
    (Hs : match s with Exited c => - 2 ^ 31 <= c < 2 ^ 31 | _ => True end) :
  is_u64 (fst (to_regs s)) /\ is_u64 (snd (to_regs s)) /\
  from_regs (fst (to_regs s)) (snd (to_regs s)) = s.
Proof.
  pose proof (exit_status_decodes s Hs) as Hd. split_and!; [..|done].
  - destruct s; by vm_compute.
  - destruct s as [c| |]; [|by vm_compute..].
    pose proof (wrap_in_width 32 c ltac:(lia)) as Hr. simpl. unfold in_width in *. lia.
Qed.

Lemma exit_status_roundtrip_witness :
  - 2 ^ 31 <= -7 < 2 ^ 31 /\
  from_regs (fst (to_regs (Exited (-7)))) (snd (to_regs (Exited (-7)))) = Exited (-7).
Proof. split; [lia|]. apply (exit_status_roundtrip (Exited (-7))). lia. Defined.

(** C40: What crosses the system-call boundary in registers comes back as it
    was: a text in a message (its first 32 bytes), a short name (its first
    16), every error code, which is negative and so never mistaken for a
    result, and every exit status with an [i32] code, negative ones included. *)
Theorem abi_roundtrip (text name : list Z) (e : SyscallError) (s : ExitStatus)
    (Ht : is_bytes text) (Hn : is_bytes name)
    (Hs : match s with Exited c => - 2 ^ 31 <= c < 2 ^ 31 | _ => True end) :
  as_str_lossy (from_str_lossy text) = utf8_or_invalid (take 32 text) /\
  (let '(lo, hi, len) := pack_short_name name in
   is_u64 lo /\ is_u64 hi /\ (0 <= len <= 16) /\ unpack_short_name lo hi len = utf8_or_invalid (take 16 name)) /\
  (is_u64 (retval_u64 e) /\ to_signed 64 (retval_u64 e) < 0 /\ from_retval (to_signed 64 (retval_u64 e)) = e) /\
  is_u64 (fst (to_regs s)) /\ is_u64 (snd (to_regs s)) /\ from_regs (fst (to_regs s)) (snd (to_regs s)) = s.
Proof.
  split; [by apply message_str_roundtrip|]. split; [by apply short_name_roundtrip|].
  split; [apply syscall_error_roundtrip|by apply exit_status_roundtrip].
Qed.

Lemma abi_roundtrip_witness :
  as_str_lossy (from_str_lossy (str_bytes "hello")) = str_bytes "hello" /\
  from_regs (fst (to_regs (Exited (-7)))) (snd (to_regs (Exited (-7)))) = Exited (-7).
Proof.
  destruct (abi_roundtrip (str_bytes "hello") (str_bytes "init") InvalidArgument (Exited (-7))) as (Ht & _ & _ & _ & _ & Hs).
  - repeat constructor; vm_compute; congruence.
  - repeat constructor; vm_compute; congruence.
  - lia.
  - split; [exact Ht|exact Hs].
Defined.
