(* ===== verification/CapTable.v ===== *)
(** * Capability tables ([libs/tarnos-kcore/src/captable.rs])

    The sparse, growable slot vector, its insertion (which extends the vector
    with empty slots up to the index it writes) and the two look-ups.  [T] is
    the kernel object type; the rights test is the [bitflags] interface of
    [Abi]. *)
From S2P Require Import Prelude Abi.
Open Scope nat_scope.

Record CapabilitySlot (T : Type) := mkCapSlot {
  object : T;
  rights : Rights;
}.
Arguments mkCapSlot {T} object rights.
Arguments object {T} c.
Arguments rights {T} c.

Record CapTable (T : Type) := mkCapTable {
  slots : list (option (CapabilitySlot T));
}.
Arguments mkCapTable {T} slots.
Arguments slots {T} c.

Module Cap.
Section captable.
Context {T : Type} `{RightsOps}.
Implicit Types (t : CapTable T) (s : CapabilitySlot T).

Definition new : CapTable T := mkCapTable [].

Definition cap_slot_index (index : CapIndex) : nat := Z.to_nat (cap_raw index).

(** [resize_with(i + 1, || None)] when the index is past the end, then the
    indexed store, which is then in range. *)
Definition insert t (index : CapIndex) s : CapTable T :=
  let i := cap_slot_index index in
  let sl := if decide (length (slots t) <= i)
            then slots t ++ replicate (i + 1 - length (slots t)) None
            else slots t in
  mkCapTable (<[i := Some s]> sl).

Definition get t (index : CapIndex) : result (CapabilitySlot T) SyscallError :=
  match slots t !! cap_slot_index index with
  | Some (Some slot) => Ok slot
  | _ => Err BadCapability
  end.

Definition lookup t (index : CapIndex) (required : Rights)
    : result (CapabilitySlot T) SyscallError :=
  let? slot := get t index in
  if contains (rights slot) required then Ok slot else Err PermissionDenied.

Definition iter t : list (CapabilitySlot T) := omap id (slots t).

Lemma insert_length t i s :
  length (slots (insert t i s)) = Nat.max (length (slots t)) (cap_slot_index i + 1).
Proof.
  unfold insert. simpl. rewrite length_insert. case_decide; [|lia].
  rewrite length_app, length_replicate. lia.
Qed.

Lemma insert_lookup t i s j :
  mjoin (slots (insert t i s) !! j) =
  if decide (j = cap_slot_index i) then Some s else mjoin (slots t !! j).
Proof.
  unfold insert. simpl. destruct (decide (j = _)) as [->|Hj].
  - rewrite list_lookup_insert_eq; [done|].
    case_decide; rewrite ?length_app, ?length_replicate; lia.
  - rewrite list_lookup_insert_ne by done. case_decide as Hlen; [|done].
    destruct (decide (j < length (slots t))).
    + by rewrite lookup_app_l by done.
    + rewrite lookup_app_r, (lookup_ge_None_2 (slots t)) by lia.
      destruct (replicate _ _ !! _) eqn:Hr; [|done].
      by apply lookup_replicate in Hr as [-> _].
Qed.

Lemma get_mjoin t i :
  get t i = match mjoin (slots t !! cap_slot_index i) with
            | Some s => Ok s | None => Err BadCapability end.
Proof. unfold get. by destruct (slots t !! _) as [[s|]|]. Qed.

Lemma get_new i : get new i = Err BadCapability.
Proof. done. Qed.

Lemma get_insert t i j s :
  get (insert t i s) j =
  if decide (cap_slot_index j = cap_slot_index i) then Ok s else get t j.
Proof. rewrite !get_mjoin, insert_lookup. by case_decide. Qed.

Lemma lookup_Ok t i r s :
  lookup t i r = Ok s <-> get t i = Ok s /\ contains (rights s) r = true.
Proof.
  unfold lookup. destruct (get t i) as [s'|e]; [|naive_solver].
  destruct (contains (rights s') r) eqn:Hc; naive_solver congruence.
Qed.

Lemma elem_of_iter t s : s ∈ iter t <-> exists i, slots t !! i = Some (Some s).
Proof.
  unfold iter. rewrite list_elem_of_omap. split.
  - intros (o & Ho & Heq). simpl in Heq. subst o.
    by apply list_elem_of_lookup in Ho.
  - intros [i Hi]. exists (Some s). split; [|done].
    apply list_elem_of_lookup. by exists i.
Qed.

(** Everything in a table after an insertion is the inserted slot or was there. *)
Lemma elem_of_iter_insert t i s s' : s' ∈ iter (insert t i s) -> s' = s \/ s' ∈ iter t.
Proof.
  rewrite !elem_of_iter. intros [j Hj]. pose proof (insert_lookup t i s j) as Hl.
  rewrite Hj in Hl. simpl in Hl. case_decide; [left; congruence|right].
  exists j. destruct (slots t !! j) as [[]|]; naive_solver.
Qed.
End captable.
End Cap.

(** A capability table is a partial map from indices to slots.  After an
    insertion the written index holds exactly the inserted slot, every other
    index is unchanged and the vector never shrinks.  [lookup] succeeds exactly
    on a live slot whose rights include the required ones; it reports
    [PermissionDenied] only for a live slot that lacks a right and
    [BadCapability] only when there is no slot. *)
Theorem captable_partial_map {T} `{RightsOps} (t : CapTable T) (i j : CapIndex)
    (s : CapabilitySlot T) (r : Rights) :
  Cap.get (Cap.insert t i s) j =
    (if decide (Cap.cap_slot_index j = Cap.cap_slot_index i) then Ok s else Cap.get t j) /\
  length (slots t) <= length (slots (Cap.insert t i s)) /\
  match Cap.lookup t j r with
  | Ok s' => Cap.get t j = Ok s' /\ contains (rights s') r = true
  | Err BadCapability => Cap.get t j = Err BadCapability
  | Err PermissionDenied => exists s', Cap.get t j = Ok s' /\ contains (rights s') r = false
  | Err _ => False
  end.
Proof.
  split; [apply Cap.get_insert|]. split; [rewrite Cap.insert_length; lia|].
  unfold Cap.lookup, Cap.get. destruct (slots t !! _) as [[s'|]|]; [|done..].
  destruct (contains _ _) eqn:Hc; [done|]. by exists s'.
Qed.
