(* ===== verification/Rendezvous.v ===== *)
(** * The rendezvous state machine ([libs/tarnos-kcore/src/endpoint.rs])

    [Slot] is the lock-free core of an IPC endpoint: a bounded queue of
    waiting senders or a single waiting receiver.  [W] stands for
    [core::task::Waker] and [P] for the way a process is named.  The slot is
    shown to implement an abstract rendezvous whose queue is a list, and every
    run to deliver accepted messages in order, each exactly once. *)
From S2P Require Import Prelude Ring.
Open Scope nat_scope.

Inductive Waiter (W P : Type) :=
| WTask (w : W)
| WProcess (p : P)
| WNone.
Arguments WTask {W P} w.
Arguments WProcess {W P} p.
Arguments WNone {W P}.

Inductive SendOutcome (W P : Type) :=
| SendDelivered (receiver : Waiter W P)
| SendEnqueued
| SendQueueFull.
Arguments SendDelivered {W P} receiver.
Arguments SendEnqueued {W P}.
Arguments SendQueueFull {W P}.

Inductive RecvOutcome (M W P : Type) :=
| RecvDelivered (message : M) (sender : Waiter W P)
| RecvEnqueued
| RecvQueueFull.
Arguments RecvDelivered {M W P} message sender.
Arguments RecvEnqueued {M W P}.
Arguments RecvQueueFull {M W P}.

Inductive Slot (M W P : Type) :=
| SlotEmpty
| SendersWaiting (queue : RingBuffer (M * Waiter W P))
| ReceiverWaiting (receiver : Waiter W P).
Arguments SlotEmpty {M W P}.
Arguments SendersWaiting {M W P} queue.
Arguments ReceiverWaiting {M W P} receiver.

Module Rdv.
Section slot.
Context {M W P : Type} (N : nat).
Implicit Types s : Slot M W P.

Definition new : Slot M W P := SlotEmpty.

Definition try_send s (message : M) (sender : Waiter W P)
    : Slot M W P * SendOutcome W P :=
  match s with
  | ReceiverWaiting receiver =>
      let '(queue, _) := Ring.push N (Ring.new N) (message, WNone) in
      (SendersWaiting queue, SendDelivered receiver)
  | SlotEmpty =>
      let '(queue, _) := Ring.push N (Ring.new N) (message, sender) in
      (SendersWaiting queue, SendEnqueued)
  | SendersWaiting queue =>
      let '(queue', pushed) := Ring.push N queue (message, sender) in
      (SendersWaiting queue', if pushed then SendEnqueued else SendQueueFull)
  end.

Definition try_recv s (receiver : Waiter W P)
    : outcome (Slot M W P * RecvOutcome M W P) :=
  match s with
  | SendersWaiting queue =>
      match Ring.pop N queue with
      | (queue', Some (message, sender)) =>
          Ret (if Ring.is_empty queue' then SlotEmpty else SendersWaiting queue',
               RecvDelivered message sender)
      | (_, None) => Panic "SendersWaiting is never left empty"
      end
  | SlotEmpty => Ret (ReceiverWaiting receiver, RecvEnqueued)
  | ReceiverWaiting _ => Ret (s, RecvQueueFull)
  end.

(** ** The abstract rendezvous *)
Inductive AbsSlot :=
| ASenders (q : list (M * Waiter W P))
| AReceiver (r : Waiter W P).

Definition abs_send (a : AbsSlot) (m : M) (w : Waiter W P) : AbsSlot * SendOutcome W P :=
  match a with
  | AReceiver r => (ASenders [(m, WNone)], SendDelivered r)
  | ASenders q =>
      if decide (length q < N) then (ASenders (q ++ [(m, w)]), SendEnqueued)
      else (a, SendQueueFull)
  end.

Definition abs_recv (a : AbsSlot) (w : Waiter W P) : AbsSlot * RecvOutcome M W P :=
  match a with
  | ASenders [] => (AReceiver w, RecvEnqueued)
  | ASenders ((m, s) :: q) => (ASenders q, RecvDelivered m s)
  | AReceiver _ => (a, RecvQueueFull)
  end.

(** A concrete slot stands for an abstract one; [SendersWaiting] is never
    left with an empty queue. *)
Definition slot_repr s (a : AbsSlot) : Prop :=
  match s with
  | SlotEmpty => a = ASenders []
  | SendersWaiting r => exists q, a = ASenders q /\ q <> [] /\ Ring.ring_repr N r q
  | ReceiverWaiting w => a = AReceiver w
  end.

Lemma slot_repr_new : slot_repr new (ASenders []).
Proof. done. Qed.

Lemma try_send_refines s a m w :
  0 < N -> slot_repr s a ->
  snd (try_send s m w) = snd (abs_send a m w) /\
  slot_repr (fst (try_send s m w)) (fst (abs_send a m w)).
Proof.
  intros HN Hs. destruct s as [|r|w']; simpl in *.
  - subst a. destruct (Ring.ring_repr_push N (Ring.new N) [] (m, w)) as (r' & -> & Hr');
      [apply Ring.ring_repr_new|done|]. simpl. rewrite decide_True by done.
    split; [done|]. by eexists.
  - destruct Hs as (q & -> & Hq & Hr). simpl. case_decide as Hlt.
    + destruct (Ring.ring_repr_push N r q (m, w) Hr Hlt) as (r' & -> & Hr'). simpl.
      split; [done|]. eexists. split_and!; [done|by destruct q|done].
    + rewrite (Ring.ring_repr_push_full N r q) by
        (try done; pose proof (Ring.ring_repr_bound N r q Hr); lia).
      simpl. split; [done|]. by eexists.
  - subst a. destruct (Ring.ring_repr_push N (Ring.new N) [] (m, WNone : Waiter W P)) as (r' & -> & Hr');
      [apply Ring.ring_repr_new|done|]. simpl. split; [done|]. by eexists.
Qed.

Lemma try_recv_refines s a w :
  slot_repr s a ->
  exists s', try_recv s w = Ret (s', snd (abs_recv a w)) /\ slot_repr s' (fst (abs_recv a w)).
Proof.
  intros Hs. destruct s as [|r|w']; simpl in *; [subst a; by eexists| |subst a; by eexists].
  destruct Hs as (q & -> & Hq & Hr). destruct q as [|[m sd] q]; [done|].
  destruct (Ring.ring_repr_pop N r (m, sd) q Hr) as (r' & -> & Hr').
  eexists. split; [done|]. simpl.
  rewrite (Ring.ring_repr_is_empty N r' q Hr'). case_bool_decide; [by subst|].
  by eexists.
Qed.

(** ** Runs

    A run records the messages accepted by [try_send], each with the waiter
    stored beside it ([WNone] when the call was resolved at once), and the
    messages with their waiters handed out by [try_recv]. *)
Inductive slot_op := OpSend (m : M) (w : Waiter W P) | OpRecv (w : Waiter W P).

Record slot_log := mkLog {
  accepted : list (M * Waiter W P);
  received : list (M * Waiter W P);
}.

Definition slot_step s (lg : slot_log) (o : slot_op) : outcome (Slot M W P * slot_log) :=
  match o with
  | OpSend m w =>
      let '(s', out) := try_send s m w in
      Ret (s', match out with
               | SendDelivered _ => mkLog (accepted lg ++ [(m, WNone)]) (received lg)
               | SendEnqueued => mkLog (accepted lg ++ [(m, w)]) (received lg)
               | SendQueueFull => lg
               end)
  | OpRecv w =>
      let! '(s', out) := try_recv s w in
      Ret (s', match out with
               | RecvDelivered m sd => mkLog (accepted lg) (received lg ++ [(m, sd)])
               | _ => lg
               end)
  end.

Fixpoint slot_run s (lg : slot_log) (os : list slot_op) : outcome (Slot M W P * slot_log) :=
  match os with
  | [] => Ret (s, lg)
  | o :: os => let! '(s', lg') := slot_step s lg o in slot_run s' lg' os
  end.

Definition contents s : list (M * Waiter W P) :=
  match s with SendersWaiting r => Ring.elems N r | _ => [] end.

Definition abs_contents (a : AbsSlot) : list (M * Waiter W P) :=
  match a with ASenders q => q | AReceiver _ => [] end.

Lemma contents_repr s a : slot_repr s a -> contents s = abs_contents a.
Proof.
  destruct s; simpl; [by intros ->| |by intros ->].
  intros (q & -> & _ & Hr). by apply Ring.ring_repr_elems.
Qed.

Lemma slot_step_conserves s a lg o :
  0 < N -> slot_repr s a -> accepted lg = received lg ++ abs_contents a ->
  exists s' a' lg', slot_step s lg o = Ret (s', lg') /\ slot_repr s' a' /\
    accepted lg' = received lg' ++ abs_contents a'.
Proof.
  intros HN Hs Hlg. destruct o as [m w|w]; simpl.
  - destruct (try_send_refines s a m w HN Hs) as [Ho Hs'].
    destruct (try_send s m w) as [s' out]. simpl in *. subst out.
    exists s', (fst (abs_send a m w)). eexists. split; [done|]. split; [done|].
    destruct a as [q|r]; simpl in *; [case_decide|]; simpl; rewrite ?Hlg, ?app_nil_r; try done.
    by rewrite (assoc_L (++)).
  - destruct (try_recv_refines s a w Hs) as (s' & -> & Hs').
    exists s', (fst (abs_recv a w)). eexists. split; [done|]. split; [done|].
    destruct a as [[|[m sd] q]|r]; simpl in *; try done.
    by rewrite <- (assoc_L (++)).
Qed.

Lemma slot_run_conserves os s a lg :
  0 < N -> slot_repr s a -> accepted lg = received lg ++ abs_contents a ->
  exists s' lg', slot_run s lg os = Ret (s', lg') /\
    accepted lg' = received lg' ++ contents s'.
Proof.
  intros HN. revert s a lg. induction os as [|o os IH]; intros s a lg Hs Hlg; simpl.
  { do 2 eexists. split; [done|]. by rewrite (contents_repr s a Hs). }
  destruct (slot_step_conserves s a lg o HN Hs Hlg) as (s' & a' & lg' & -> & Hs' & Hlg').
  by apply (IH s' a').
Qed.

(** C37: whatever sequence of sends and receives is run on a fresh endpoint, it
    never hits the "never left empty" panic, and the accepted messages are the
    received ones followed by those still queued: messages are delivered in
    order, none is lost, duplicated or invented, and the waiter handed back
    with a message is the sender that was really queued for it ([WNone] when
    the send had already been resolved, so no sender is resumed twice). *)
Theorem slot_fifo_conservation (HN : 0 < N) (os : list slot_op) :
  exists s' lg, slot_run new (mkLog [] []) os = Ret (s', lg) /\
    accepted lg = received lg ++ contents s'.
Proof. by apply (slot_run_conserves os new (ASenders [])). Qed.
End slot.
End Rdv.

Lemma slot_fifo_conservation_witness :
  0 < 2 /\
  exists s' lg,
    Rdv.slot_run 2 Rdv.new (Rdv.mkLog [] [])
      [Rdv.OpRecv (WTask 7); Rdv.OpSend 10 (WProcess 1); Rdv.OpSend 11 (WProcess 2);
       Rdv.OpSend 12 (WProcess 3); Rdv.OpRecv (WTask 7)] = Ret (s', lg) /\
    Rdv.accepted lg = Rdv.received lg ++ Rdv.contents 2 s'.
Proof.
  split; [lia|]. apply (Rdv.slot_fifo_conservation 2). lia.
Defined.
