(* ===== verification/KcoreTests.v ===== *)
(** * The unit and property tests of [libs/tarnos-kcore]

    Each [#[test]] of the bitmap, the ring buffer, the rendezvous slot and the
    capability table as a boolean, [true] when every assertion in it holds.  The
    hand-picked tests are evaluated.  The property tests draw a few hundred
    random sequences of operations: here each is a function of the sequence, and
    the theorem is that it holds on every one. *)
From S2P Require Import Prelude Abi Bitmap Ring Rendezvous CapTable.
From stdpp Require Import sorting.
Open Scope nat_scope.

Notation "a == b" := (bool_decide (a = b)) (at level 70, only parsing).

(** ** [bitmap.rs] *)
Module Bitmaps.
Definition setup (W : nat) (free : list nat) : Bitmap := foldl (BM.set_free W) (BM.new W) free.

(** [assert_eq!(b.allocate(), expected)], then the rest of the test. *)
Definition allocates (W : nat) (b : Bitmap) (expected : option nat) (k : Bitmap -> bool) : bool :=
  match BM.allocate W b with Ret (b', r) => (r == expected) && k b' | Panic _ => false end.

Definition allocate_on_empty_bitmap_returns_none : bool := allocates 4 (BM.new 4) None (fun _ => true).

Definition allocate_then_free_then_allocate_returns_same_index : bool :=
  let b := BM.set_free 4 (BM.new 4) 10 in
  BM.is_free 4 b 10 &&
  allocates 4 b (Some 10) (fun b =>
    negb (BM.is_free 4 b 10) &&
    let b := BM.set_free 4 b 10 in
    BM.is_free 4 b 10 && allocates 4 b (Some 10) (fun _ => true)).

Definition allocate_picks_lowest_free_index : bool :=
  allocates 4 (setup 4 [5; 2; 9]) (Some 2) (fun b => allocates 4 b (Some 5) (fun b => allocates 4 b (Some 9) (fun b =>
  allocates 4 b None (fun _ => true)))).

(** [while let Some(i) = b.allocate()]: it finds at most the capacity. *)
Fixpoint alloc_free_indices (W fuel : nat) (b : Bitmap) : option (Bitmap * list nat) :=
  match fuel with
  | O => None
  | S fuel =>
      match BM.allocate W b with
      | Ret (b, Some i) => (fun '(b, out) => (b, i :: out)) <$> alloc_free_indices W fuel b
      | Ret (b, None) => Some (b, [])
      | Panic _ => None
      end
  end.

Definition allocate_until_exhausted_yields_every_free_index_exactly_once : bool :=
  match alloc_free_indices 2 129 (setup 2 (seq 0 (BM.CAPACITY 2))) with
  | Some (b, seen) => (merge_sort le seen == seq 0 (BM.CAPACITY 2)) && allocates 2 b None (fun _ => true)
  | None => false
  end.

Definition out_of_range_index_is_ignored_not_panicking : bool :=
  let b := BM.set_free 1 (BM.new 1) 1000 in negb (BM.is_free 1 b 1000) && allocates 1 b None (fun _ => true).

Definition boundary_index_at_top_of_capacity_works : bool :=
  let last := BM.CAPACITY 1 - 1 in
  let b := BM.set_free 1 (BM.new 1) last in
  BM.is_free 1 b last && allocates 1 b (Some last) (fun b => negb (BM.is_free 1 (BM.set_free 1 b (BM.CAPACITY 1)) 0)).

Definition free_count_tracks_allocate_and_set_free : bool :=
  (BM.free_count (BM.new 2) =? 0) &&
  let b := setup 2 [0; 5; 9] in
  (BM.free_count b =? 3) &&
  match BM.allocate 2 b with
  | Ret (b, _) => (BM.free_count b =? 2) && (BM.free_count (BM.set_free 2 b 0) =? 3)
  | Panic _ => false
  end.

Definition frame_range_is (base length start stop : Z) : bool :=
  match usable_frame_range base length 4096 with Ret r => r == (start, stop) | Panic _ => false end.
Definition frame_range_rounds_up_start_and_down_end : bool := frame_range_is 4097 8192 2 3.
Definition frame_range_page_aligned_region_is_exact : bool := frame_range_is (4096 * 5) (4096 * 3) 5 8.
Definition frame_range_shorter_than_one_frame_is_empty : bool := frame_range_is 0 100 0 0.

(** The property test. *)
Definition WORDS : nat := 2.
Inductive BitmapOp := SetFree (i : nat) | SetUsed (i : nat) | Allocate.

Definition brute_force_free_count (b : Bitmap) : nat := length (filter (fun i => BM.is_free WORDS b i) (seq 0 (BM.CAPACITY WORDS))).

Fixpoint allocate_only_returns_previously_free_and_free_count_matches_recount (b : Bitmap) (ops : list BitmapOp) : bool :=
  match ops with
  | [] => true
  | op :: ops =>
      let after b' := (BM.free_count b' =? brute_force_free_count b') &&
                      allocate_only_returns_previously_free_and_free_count_matches_recount b' ops in
      match op with
      | SetFree i => after (BM.set_free WORDS b i)
      | SetUsed i => after (BM.set_used WORDS b i)
      | Allocate =>
          let free_before := filter (fun i => BM.is_free WORDS b i) (seq 0 (BM.CAPACITY WORDS)) in
          match BM.allocate WORDS b with
          | Ret (b', Some idx) => bool_decide (idx ∈ free_before) && negb (BM.is_free WORDS b' idx) && after b'
          | Ret (b', None) => (free_before == []) && after b'
          | Panic _ => false
          end
      end
  end.

Lemma recount b : BM.wf WORDS b -> (BM.free_count b =? brute_force_free_count b) = true.
Proof. intros Hwf. apply Nat.eqb_eq. exact (BM.free_count_count _ b (BM.wf_words _ _ Hwf)). Qed.

Lemma bitmap_property b ops : BM.wf WORDS b -> allocate_only_returns_previously_free_and_free_count_matches_recount b ops = true.
Proof.
  revert b. induction ops as [|op ops IH]; intros b Hwf; [done|].
  cbn [allocate_only_returns_previously_free_and_free_count_matches_recount].
  assert (forall b', BM.wf WORDS b' -> (BM.free_count b' =? brute_force_free_count b') &&
    allocate_only_returns_previously_free_and_free_count_matches_recount b' ops = true) as Hafter.
  { intros b' Hwf'. rewrite recount by done. by apply IH. }
  destruct op as [i|i|]; [by apply Hafter, BM.wf_set_free|by apply Hafter, BM.wf_set_used|].
  destruct (BM.allocate_cases _ b Hwf) as ([b' [i|]] & -> & Hres).
  - destruct Hres as (-> & Hi & _). rewrite Hafter by (by apply BM.wf_set_used).
    rewrite bool_decide_true.
    + rewrite BM.is_free_set_used by apply Hwf. by rewrite bool_decide_true, andb_false_r by done.
    + apply list_elem_of_filter. split; [by rewrite Hi|]. apply elem_of_seq. apply BM.is_free_lt_capacity in Hi. lia.
  - destruct Hres as [-> Hnone]. rewrite Hafter by done. rewrite bool_decide_true; [done|].
    apply elem_of_nil_inv. intros i [Hi _]%list_elem_of_filter. by rewrite Hnone in Hi.
Qed.
End Bitmaps.

(** ** [ring.rs] *)
Module Rings.
Section steps.
Context {T : Type} `{EqDecision T} (N : nat).

(** [assert!(q.push(x))], or [assert!(!q.push(x))]; [assert_eq!(q.pop(), expected)]. *)
Definition pushes (q : RingBuffer T) (x : T) (expected : bool) (k : RingBuffer T -> bool) : bool :=
  let '(q, accepted) := Ring.push N q x in Bool.eqb accepted expected && k q.
Definition pops (q : RingBuffer T) (expected : option T) (k : RingBuffer T -> bool) : bool :=
  let '(q, x) := Ring.pop N q in (x == expected) && k q.
End steps.

Definition empty_pop_returns_none : bool := let q := Ring.new (T:=Z) 4 in Ring.is_empty q && pops 4 q None (fun _ => true).

Definition fifo_order_is_preserved : bool :=
  pushes 4 (Ring.new (T:=Z) 4) 1%Z true (fun q => pushes 4 q 2%Z true (fun q => pushes 4 q 3%Z true (fun q =>
  pops 4 q (Some 1%Z) (fun q => pops 4 q (Some 2%Z) (fun q => pops 4 q (Some 3%Z) (fun q => pops 4 q None (fun _ => true))))))).

Definition push_fails_when_full_without_corrupting_state : bool :=
  pushes 2 (Ring.new (T:=Z) 2) 1%Z true (fun q => pushes 2 q 2%Z true (fun q => Ring.is_full 2 q && pushes 2 q 3%Z false (fun q =>
  pops 2 q (Some 1%Z) (fun q => pops 2 q (Some 2%Z) (fun q => pops 2 q None (fun _ => true)))))).

Fixpoint rounds (rs : list Z) (q : RingBuffer Z) : bool :=
  match rs with
  | [] => true
  | round :: rs =>
      pushes 3 q (round * 10)%Z true (fun q => pushes 3 q (round * 10 + 1)%Z true (fun q =>
      pops 3 q (Some (round * 10)%Z) (fun q => pops 3 q (Some (round * 10 + 1)%Z) (fun q => Ring.is_empty q && rounds rs q))))
  end.
Definition wraps_around_the_backing_array : bool := rounds (seqZ 0 5) (Ring.new 3).

Definition len_tracks_pushes_and_pops : bool :=
  let q := Ring.new (T:=Z) 4 in
  (Ring.ring_len q =? 0) &&
  let q := fst (Ring.push 4 (fst (Ring.push 4 q 1%Z)) 2%Z) in
  (Ring.ring_len q =? 2) && (Ring.ring_len (fst (Ring.pop 4 q)) =? 1).

Definition works_for_non_copy_types : bool :=
  pushes 2 (Ring.new 2) "a"%string true (fun q => pushes 2 q "b"%string true (fun q => pushes 2 q "c"%string false (fun q =>
  pops 2 q (Some "a"%string) (fun q => pops 2 q (Some "b"%string) (fun _ => true))))).

(** The property test, beside a [VecDeque]. *)
Definition RING_CAP : nat := 4.
Inductive RingOp := Push (value : Z) | Pop.

Fixpoint matches_vecdeque_model (ring : RingBuffer Z) (model : list Z) (ops : list RingOp) : bool :=
  match ops with
  | [] => true
  | op :: ops =>
      let after ring model :=
        (Ring.ring_len ring =? length model) && Bool.eqb (Ring.is_empty ring) (model == []) &&
        Bool.eqb (Ring.is_full RING_CAP ring) (length model =? RING_CAP) && matches_vecdeque_model ring model ops in
      match op with
      | Push value =>
          let '(ring, accepted) := Ring.push RING_CAP ring value in
          if length model <? RING_CAP then accepted && after ring (model ++ [value]) else negb accepted && after ring model
      | Pop => let '(ring, x) := Ring.pop RING_CAP ring in (x == head model) && after ring (tail model)
      end
  end.

Lemma ring_property ring model ops : Ring.ring_repr RING_CAP ring model -> matches_vecdeque_model ring model ops = true.
Proof.
  revert ring model. induction ops as [|op ops IH]; intros ring model Hr; [done|]. cbn [matches_vecdeque_model].
  assert (forall ring model, Ring.ring_repr RING_CAP ring model ->
    (Ring.ring_len ring =? length model) && Bool.eqb (Ring.is_empty ring) (model == []) &&
    Bool.eqb (Ring.is_full RING_CAP ring) (length model =? RING_CAP) && matches_vecdeque_model ring model ops = true) as Hafter.
  { clear -IH. intros ring model Hr. rewrite (Ring.ring_repr_len _ _ _ Hr), (Ring.ring_repr_is_empty _ _ _ Hr), (Ring.ring_repr_is_full _ _ _ Hr).
    rewrite Nat.eqb_refl, IH by done. rewrite Bool.eqb_reflx. cbn [andb]. rewrite andb_true_r. apply Bool.eqb_true_iff.
    case_bool_decide; symmetry; [by apply Nat.eqb_eq|by apply Nat.eqb_neq]. }
  destruct op as [value|].
  - destruct (length model <? RING_CAP) eqn:Hl.
    + destruct (Ring.ring_repr_push _ ring model value Hr) as (r' & -> & Hr'); [by apply Nat.ltb_lt|]. by apply Hafter.
    + apply Nat.ltb_ge in Hl. pose proof (Ring.ring_repr_bound _ _ _ Hr).
      rewrite (Ring.ring_repr_push_full _ ring model value Hr) by lia. by apply Hafter.
  - destruct model as [|x model].
    + rewrite (Ring.ring_repr_pop_nil _ _ Hr). by apply Hafter.
    + destruct (Ring.ring_repr_pop _ _ _ _ Hr) as (r' & -> & Hr'). cbn [head tail hd_error]. rewrite bool_decide_true by done. by apply Hafter.
Qed.
End Rings.

(** ** [endpoint.rs] *)
Module Endpoints.
(** A waker is known by its flag; [wake] raises it. *)
Abbreviation TestWaiter P := (Waiter nat P).
Definition flags_woken (flags : list nat) (w : nat) : list nat := w :: flags.

Definition is_process (w : TestWaiter Z) (expected : Z) : bool := match w with WProcess p => p == expected | _ => false end.
Definition is_none (w : TestWaiter Z) : bool := match w with WNone => true | _ => false end.

Section steps.
Context {M : Type} `{EqDecision M} (N : nat).
Implicit Types s : Slot M nat Z.

(** [match slot.try_send(..) { .. }] and [match slot.try_recv(..) { .. }]. *)
Definition sends s (m : M) (w : TestWaiter Z) (k : Slot M nat Z -> SendOutcome nat Z -> bool) : bool :=
  let '(s, o) := Rdv.try_send N s m w in k s o.
Definition recvs s (w : TestWaiter Z) (k : Slot M nat Z -> RecvOutcome M nat Z -> bool) : bool :=
  match Rdv.try_recv N s w with Ret (s, o) => k s o | Panic _ => false end.

Definition send_enqueued s m w (k : Slot M nat Z -> bool) : bool :=
  sends s m w (fun s o => match o with SendEnqueued => k s | _ => false end).
Definition recv_enqueued s w (k : Slot M nat Z -> bool) : bool :=
  recvs s w (fun s o => match o with RecvEnqueued => k s | _ => false end).
Definition recv_delivers s w (m : M) (sender : TestWaiter Z -> bool) (k : Slot M nat Z -> bool) : bool :=
  recvs s w (fun s o => match o with RecvDelivered message from => (message == m) && sender from && k s | _ => false end).
End steps.

Definition yes {A} (_ : A) : bool := true.
Abbreviation process p := (WProcess p%Z).
Definition slot (M : Type) : Slot M nat Z := Rdv.new.

Definition sender_first_then_receiver : bool :=
  send_enqueued 4 (slot string) "hello"%string (process 1) (fun s =>
  recv_delivers 4 s (process 2) "hello"%string (fun w => is_process w 1) yes).

Definition receiver_first_then_sender : bool :=
  recv_enqueued 4 (slot string) (process 2) (fun s =>
  sends 4 s "hello"%string (process 1) (fun s o =>
    match o with SendDelivered receiver => is_process receiver 2 | _ => false end &&
    recv_delivers 4 s (process 99) "hello"%string is_none yes)).

Definition immediate_delivery_to_a_task_does_not_replay_a_stale_wake_on_the_original_sender : bool :=
  let flag := 0 in
  recv_enqueued 4 (slot string) (WTask flag) (fun s =>
  sends 4 s "hi"%string (process 42) (fun s o =>
    match o with SendDelivered (WTask waker) => bool_decide (flag ∈ flags_woken [] waker) | _ => false end &&
    recv_delivers 4 s (process 999) "hi"%string is_none yes)).

Definition receiver_first_wakes_the_waiting_task_on_send : bool :=
  let flag := 0 in
  recv_enqueued 4 (slot string) (WTask flag) (fun s =>
  sends 4 s "hi"%string (process 1) (fun _ o =>
    match o with SendDelivered (WTask waker) => bool_decide (flag ∈ flags_woken [] waker) | _ => false end)).

Definition sender_first_wakes_the_waiting_task_on_recv : bool :=
  let flag := 0 in
  send_enqueued 4 (slot string) "hi"%string (WTask flag) (fun s =>
  recvs 4 s (process 2) (fun _ o =>
    match o with RecvDelivered _ (WTask waker) => bool_decide (flag ∈ flags_woken [] waker) | _ => false end)).

Definition two_senders_both_queue_instead_of_panicking : bool :=
  send_enqueued 4 (slot string) "first"%string (process 1) (fun s =>
  send_enqueued 4 s "second"%string (process 2) (fun s =>
  recv_delivers 4 s (process 10) "first"%string (fun w => is_process w 1) (fun s =>
  recv_delivers 4 s (process 11) "second"%string (fun w => is_process w 2) yes))).

Definition sender_queue_full_reports_queue_full_not_panic : bool :=
  send_enqueued 2 (slot string) "a"%string (process 1) (fun s =>
  send_enqueued 2 s "b"%string (process 2) (fun s =>
  sends 2 s "c"%string (process 3) (fun _ o => match o with SendQueueFull => true | _ => false end))).

Definition second_receiver_reports_queue_full_not_panic : bool :=
  recv_enqueued 4 (slot string) (process 1) (fun s =>
  recvs 4 s (process 2) (fun _ o => match o with RecvQueueFull => true | _ => false end)).

(** The property test, beside a machine of three states. *)
Definition SLOT_CAP : nat := 3.
Inductive SlotOp := Send (msg sender : Z) | Recv (receiver : Z).
Inductive ModelSender := MSome (p : Z) | MNone.
Inductive ModelState :=
| MEmpty
| MSendersWaiting (q : list (Z * ModelSender))
| MReceiverWaiting (r : Z).

Definition same_sender (expected : ModelSender) (w : TestWaiter Z) : bool :=
  match expected, w with MNone, WNone => true | MSome p, WProcess a => a == p | _, _ => false end.

(** The model after the operation; [None] when an assertion fails. *)
Definition model_send (model : ModelState) (msg sender : Z) (o : SendOutcome nat Z) : option ModelState :=
  match model with
  | MReceiverWaiting receiver =>
      match o with
      | SendDelivered (WProcess to) => if decide (to = receiver) then Some (MSendersWaiting [(msg, MNone)]) else None
      | _ => None
      end
  | MEmpty => match o with SendEnqueued => Some (MSendersWaiting [(msg, MSome sender)]) | _ => None end
  | MSendersWaiting q =>
      if decide (length q < SLOT_CAP) then
        match o with SendEnqueued => Some (MSendersWaiting (q ++ [(msg, MSome sender)])) | _ => None end
      else match o with SendQueueFull => Some model | _ => None end
  end.

Definition model_recv (model : ModelState) (receiver : Z) (o : RecvOutcome Z nat Z) : option ModelState :=
  match model with
  | MSendersWaiting ((expected_msg, expected_sender) :: q) =>
      match o with
      | RecvDelivered message sender =>
          if (message == expected_msg) && same_sender expected_sender sender
          then Some match q with [] => MEmpty | _ => MSendersWaiting q end else None
      | _ => None
      end
  | MSendersWaiting [] => None
  | MEmpty => match o with RecvEnqueued => Some (MReceiverWaiting receiver) | _ => None end
  | MReceiverWaiting _ => match o with RecvQueueFull => Some model | _ => None end
  end.

Fixpoint matches_reference_state_machine (s : Slot Z nat Z) (model : ModelState) (ops : list SlotOp) : bool :=
  match ops with
  | [] => true
  | Send msg sender :: ops =>
      let '(s, o) := Rdv.try_send SLOT_CAP s msg (WProcess sender) in
      match model_send model msg sender o with Some model => matches_reference_state_machine s model ops | None => false end
  | Recv receiver :: ops =>
      match Rdv.try_recv SLOT_CAP s (WProcess receiver) with
      | Ret (s, o) => match model_recv model receiver o with Some model => matches_reference_state_machine s model ops | None => false end
      | Panic _ => false
      end
  end.

(** What the abstract rendezvous of the slot is to the test's model. *)
Definition waiter_of (m : ModelSender) : TestWaiter Z := match m with MSome p => WProcess p | MNone => WNone end.
Definition abs_of (m : ModelState) : Rdv.AbsSlot :=
  match m with
  | MEmpty => Rdv.ASenders []
  | MSendersWaiting q => Rdv.ASenders (prod_map id waiter_of <$> q)
  | MReceiverWaiting r => Rdv.AReceiver (WProcess r)
  end.
Definition model_ok (m : ModelState) : Prop := m <> MSendersWaiting [].

Lemma model_send_abs m msg sender :
  model_ok m -> exists m', model_send m msg sender (snd (Rdv.abs_send SLOT_CAP (abs_of m) msg (WProcess sender))) = Some m' /\
    model_ok m' /\ abs_of m' = fst (Rdv.abs_send SLOT_CAP (abs_of m) msg (WProcess sender)).
Proof.
  intros Hm. destruct m as [|q|r]; cbn [abs_of Rdv.abs_send].
  - rewrite decide_True by (cbn; unfold SLOT_CAP; lia). by eexists.
  - rewrite length_fmap. unfold model_send. case_decide; eexists; (split; [done|]); [|done].
    split; [by destruct q|]. cbn [abs_of fst]. by rewrite fmap_app.
  - cbn [snd model_send]. rewrite decide_True by done. by eexists.
Qed.

Lemma same_sender_waiter x : same_sender x (waiter_of x) = true.
Proof. destruct x; cbn; [by rewrite bool_decide_true|done]. Qed.

Lemma model_recv_abs m receiver :
  model_ok m -> exists m', model_recv m receiver (snd (Rdv.abs_recv (abs_of m) (WProcess receiver))) = Some m' /\
    model_ok m' /\ abs_of m' = fst (Rdv.abs_recv (abs_of m) (WProcess receiver)).
Proof.
  intros Hm. destruct m as [|[|[msg x] q]|r]; [by eexists|done| |by eexists].
  cbn [abs_of fmap list_fmap prod_map id fst snd Rdv.abs_recv model_recv]. rewrite bool_decide_true by done.
  rewrite same_sender_waiter. eexists. split; [done|]. by destruct q.
Qed.

Lemma slot_property s m ops : model_ok m -> Rdv.slot_repr SLOT_CAP s (abs_of m) -> matches_reference_state_machine s m ops = true.
Proof.
  revert s m. induction ops as [|[msg sender|receiver] ops IH]; intros s m Hm Hs; [done|..]; cbn [matches_reference_state_machine].
  - destruct (Rdv.try_send_refines SLOT_CAP s (abs_of m) msg (WProcess sender) ltac:(unfold SLOT_CAP; lia) Hs) as [Ho Hr].
    destruct (Rdv.try_send _ s _ _) as [s' o]. cbn [fst snd] in *. subst o.
    destruct (model_send_abs m msg sender Hm) as (m' & -> & Hm' & Ha). apply IH; [done|]. by rewrite Ha.
  - destruct (Rdv.try_recv_refines SLOT_CAP s (abs_of m) (WProcess receiver) Hs) as (s' & -> & Hr).
    destruct (model_recv_abs m receiver Hm) as (m' & -> & Hm' & Ha). apply IH; [done|]. by rewrite Ha.
Qed.
End Endpoints.

(** ** [captable.rs] *)
Module CapTables.
Section tests.
Context `{RightsOps}.

Definition put {T} (t : CapTable T) (i : Z) (o : T) (r : Rights) : CapTable T := Cap.insert t (mkCapIndex i) (mkCapSlot o r).
Definition is_err {A} (r : result A SyscallError) (e : SyscallError) : bool := match r with Err e' => e' == e | Ok _ => false end.
Definition ok {A} (r : result A SyscallError) : bool := match r with Ok _ => true | Err _ => false end.

Definition lookup_on_empty_table_is_bad_capability : bool :=
  is_err (Cap.lookup (T:=Z) Cap.new (mkCapIndex 0) SEND) BadCapability.

Definition get_bypasses_rights_check : bool :=
  match Cap.get (put Cap.new 3 42%Z (mkRights 0)) (mkCapIndex 3) with Ok s => object s == 42%Z | Err _ => false end.

Definition lookup_grants_only_held_rights : bool :=
  let table := put Cap.new 0 tt SEND in
  ok (Cap.lookup table (mkCapIndex 0) SEND) &&
  is_err (Cap.lookup table (mkCapIndex 0) RECV) PermissionDenied &&
  is_err (Cap.lookup table (mkCapIndex 0) (rights_or SEND RECV)) PermissionDenied.

Definition unknown_index_is_bad_capability_not_out_of_bounds_panic : bool :=
  let table := put Cap.new 5 tt (rights_or SEND RECV) in
  is_err (Cap.get table (mkCapIndex 0)) BadCapability && is_err (Cap.get table (mkCapIndex 4)) BadCapability &&
  is_err (Cap.get table (mkCapIndex 99)) BadCapability && ok (Cap.get table (mkCapIndex 5)).

Definition reinserting_at_the_same_index_replaces_the_slot : bool :=
  match Cap.get (put (put Cap.new 0 1%Z SEND) 0 2%Z RECV) (mkCapIndex 0) with
  | Ok slot => (object slot == 2%Z) && (rights slot == RECV)
  | Err _ => false
  end.

(** The property test, beside a [HashMap]. *)
Inductive CapOp := Insert (index : Z) (r : Rights) | Lookup (index : Z) (required : Rights).

Fixpoint lookup_matches_most_recent_insert (table : CapTable unit) (model : gmap Z Rights) (ops : list CapOp) : bool :=
  match ops with
  | [] => true
  | Insert index r :: ops => lookup_matches_most_recent_insert (put table index tt r) (<[index := r]> model) ops
  | Lookup index required :: ops =>
      let should_succeed := match model !! index with Some held => contains held required | None => false end in
      Bool.eqb (ok (Cap.lookup table (mkCapIndex index) required)) should_succeed && lookup_matches_most_recent_insert table model ops
  end.

(** The indices drawn are unsigned. *)
Definition op_index (o : CapOp) : Z := match o with Insert i _ | Lookup i _ => i end.

Lemma cap_property table model ops :
  Forall (fun o => (0 <= op_index o)%Z) ops ->
  (forall i, (0 <= i)%Z -> Cap.get table (mkCapIndex i) = match model !! i with Some r => Ok (mkCapSlot tt r) | None => Err BadCapability end) ->
  lookup_matches_most_recent_insert table model ops = true.
Proof.
  intros Hops. revert table model. induction Hops as [|[i r|i r] ops Hi Hops IH]; intros table model Hm;
    cbn [lookup_matches_most_recent_insert op_index] in *; [done|..].
  - apply IH. intros j Hj. unfold put. rewrite Cap.get_insert. unfold Cap.cap_slot_index. cbn [cap_raw].
    destruct (decide (j = i)) as [->|Hne]; [by rewrite lookup_insert_eq, decide_True|].
    rewrite lookup_insert_ne, decide_False by (done || lia). by apply Hm.
  - rewrite (IH table model Hm), andb_true_r. unfold Cap.lookup. rewrite (Hm i Hi). apply Bool.eqb_true_iff.
    destruct (model !! i) as [held|]; [|done]. cbn [rights]. by destruct (contains held r).
Qed.
End tests.
End CapTables.

(** ** All of them *)
Definition kcore_unit_tests : list bool :=
  [Bitmaps.allocate_on_empty_bitmap_returns_none; Bitmaps.allocate_then_free_then_allocate_returns_same_index;
   Bitmaps.allocate_picks_lowest_free_index; Bitmaps.allocate_until_exhausted_yields_every_free_index_exactly_once;
   Bitmaps.out_of_range_index_is_ignored_not_panicking; Bitmaps.boundary_index_at_top_of_capacity_works;
   Bitmaps.free_count_tracks_allocate_and_set_free; Bitmaps.frame_range_rounds_up_start_and_down_end;
   Bitmaps.frame_range_page_aligned_region_is_exact; Bitmaps.frame_range_shorter_than_one_frame_is_empty;
   Rings.empty_pop_returns_none; Rings.fifo_order_is_preserved; Rings.push_fails_when_full_without_corrupting_state;
   Rings.wraps_around_the_backing_array; Rings.len_tracks_pushes_and_pops; Rings.works_for_non_copy_types;
   Endpoints.sender_first_then_receiver; Endpoints.receiver_first_then_sender;
   Endpoints.immediate_delivery_to_a_task_does_not_replay_a_stale_wake_on_the_original_sender;
   Endpoints.receiver_first_wakes_the_waiting_task_on_send; Endpoints.sender_first_wakes_the_waiting_task_on_recv;
   Endpoints.two_senders_both_queue_instead_of_panicking; Endpoints.sender_queue_full_reports_queue_full_not_panic;
   Endpoints.second_receiver_reports_queue_full_not_panic;
   @CapTables.lookup_on_empty_table_is_bad_capability bitflags_ops; CapTables.get_bypasses_rights_check;
   @CapTables.lookup_grants_only_held_rights bitflags_ops; CapTables.unknown_index_is_bad_capability_not_out_of_bounds_panic;
   CapTables.reinserting_at_the_same_index_replaces_the_slot].

(** Every hand-picked test of the library passes. *)
Lemma kcore_unit_tests_pass : Forall (fun t => t = true) kcore_unit_tests.
Proof. repeat (apply Forall_cons; split; [vm_compute; reflexivity|]). constructor. Qed.

(** C33: every property test of the library holds on every sequence of operations,
    of any length and with any values: the bitmap hands out only free indices and
    counts them right, the ring buffer agrees with a bounded queue, the
    rendezvous slot with the reference state machine, and a capability lookup
    succeeds exactly by the rights of the latest insert. *)
Theorem kcore_property_tests_hold `{RightsOps} bitmap_ops ring_ops slot_ops cap_ops :
  Bitmaps.allocate_only_returns_previously_free_and_free_count_matches_recount (BM.new Bitmaps.WORDS) bitmap_ops = true /\
  Rings.matches_vecdeque_model (Ring.new Rings.RING_CAP) [] ring_ops = true /\
  Endpoints.matches_reference_state_machine Rdv.new Endpoints.MEmpty slot_ops = true /\
  (Forall (fun o => (0 <= CapTables.op_index o)%Z) cap_ops ->
   CapTables.lookup_matches_most_recent_insert Cap.new ∅ cap_ops = true).
Proof.
  split_and!.
  - apply Bitmaps.bitmap_property, BM.wf_new.
  - apply Rings.ring_property, Ring.ring_repr_new.
  - by apply Endpoints.slot_property.
  - intros Hops. apply CapTables.cap_property; [done|]. intros i _. by rewrite lookup_empty.
Qed.

Lemma kcore_property_tests_hold_witness :
  @CapTables.lookup_matches_most_recent_insert bitflags_ops Cap.new ∅ [CapTables.Insert 2 SEND; CapTables.Lookup 2 SEND; CapTables.Lookup 2 RECV] = true.
Proof.
  apply (@kcore_property_tests_hold bitflags_ops [Bitmaps.Allocate] [Rings.Pop] [Endpoints.Recv 1]). repeat constructor; cbn; lia.
Defined.
