(* ===== verification/Phys.v ===== *)
(** * Physical frames ([kernel/src/memory/phys.rs])

    The frame allocator: one bitmap of free frames and one of the frames the
    firmware reported usable.  A frame is its start address.  The number of
    bitmap words is a parameter so that executions can be small; the kernel's
    value is [BITMAP_WORDS].  [MEMMAP_USABLE] is a constant of the [limine]
    crate and therefore a parameter. *)
From S2P Require Import Prelude Bitmap.
Open Scope Z_scope.

Definition FRAME_SIZE : Z := 4096.
Definition MAX_TRACKED_BYTES : Z := 16 * 1024 * 1024 * 1024.
Definition MAX_TRACKED_FRAMES : Z := MAX_TRACKED_BYTES / FRAME_SIZE.
Definition BITMAP_WORDS : Z := MAX_TRACKED_FRAMES / 64.

(** A memory-map entry of the boot loader. *)
Record MemmapEntry := mkEntry {
  base : Z;
  length_ : Z;
  type_ : Z;
}.

Record BitmapFrameAllocator := mkFrames {
  bitmap : Bitmap;
  usable : Bitmap;
}.

Module Phys.
Section phys.
Context (W : nat) (MEMMAP_USABLE : Z).
Implicit Types a : BitmapFrameAllocator.

Definition new : BitmapFrameAllocator := mkFrames (BM.new W) (BM.new W).

(** [for frame_index in start..end]. *)
Definition mark_range a (s e : Z) : BitmapFrameAllocator :=
  foldl (fun a i => mkFrames (BM.set_free W (bitmap a) (Z.to_nat i))
                             (BM.set_free W (usable a) (Z.to_nat i)))
    a (seqZ s (e - s)).

Fixpoint populate a (entries : list MemmapEntry) : outcome BitmapFrameAllocator :=
  match entries with
  | [] => Ret a
  | entry :: rest =>
      if decide (type_ entry <> MEMMAP_USABLE) then populate a rest
      else
        let! '(s, e) := usable_frame_range (base entry) (length_ entry) FRAME_SIZE in
        populate (mark_range a s e) rest
  end.

Definition allocate_frame a : outcome (BitmapFrameAllocator * option Z) :=
  let! '(b, r) := BM.allocate W (bitmap a) in
  Ret (mkFrames b (usable a), (fun i => Z.of_nat i * FRAME_SIZE) <$> r).

Definition frame_index (frame : Z) : nat := Z.to_nat (frame / FRAME_SIZE).

(** Both assertions are [debug_assert!]s, active in the default build. *)
Definition deallocate_frame a (frame : Z) : outcome BitmapFrameAllocator :=
  let i := frame_index frame in
  assert! BM.is_free W (usable a) i else "freeing a frame outside the usable pool";
  assert! negb (BM.is_free W (bitmap a) i) else "double free of physical frame";
  Ret (mkFrames (BM.set_free W (bitmap a) i) (usable a)).

Definition free_frame_count a : nat := BM.free_count (bitmap a).

(** ** Invariant: the free frames are usable frames *)
Record wf a : Prop := {
  wf_bitmap : BM.wf W (bitmap a);
  wf_usable : BM.wf W (usable a);
  wf_sub : forall i, BM.is_free W (bitmap a) i = true -> BM.is_free W (usable a) i = true;
}.

(** A frame the allocator can have handed out: aligned, tracked, usable and
    not free. *)
Definition held a (frame : Z) : Prop :=
  exists i, frame = Z.of_nat i * FRAME_SIZE /\
    BM.is_free W (usable a) i = true /\ BM.is_free W (bitmap a) i = false.

Lemma frame_index_of i : frame_index (Z.of_nat i * FRAME_SIZE) = i.
Proof. unfold frame_index, FRAME_SIZE. rewrite Z.div_mul by lia. lia. Qed.

Lemma wf_phys_new : wf new.
Proof. split; simpl; [apply BM.wf_new..|]. intros i. by rewrite BM.is_free_new. Qed.

Lemma wf_mark_range a s e : wf a -> wf (mark_range a s e).
Proof.
  unfold mark_range. generalize (seqZ s (e - s)) as l. intros l. revert a.
  induction l as [|i l IH]; intros a Ha; simpl; [done|]. apply IH.
  destruct Ha as [Hb Hu Hsub]. split; simpl; [by apply BM.wf_set_free..|].
  intros j. rewrite !BM.is_free_set_free by (apply BM.wf_words; done).
  rewrite !orb_true_iff. naive_solver.
Qed.

Lemma wf_populate a es a' : wf a -> populate a es = Ret a' -> wf a'.
Proof.
  revert a. induction es as [|e es IH]; intros a Ha; simpl; [congruence|].
  case_decide; [by apply IH|].
  destruct (usable_frame_range _ _ _) as [[s t]|] eqn:Hr; [|done].
  apply IH. by apply wf_mark_range.
Qed.

Lemma allocate_frame_cases a :
  wf a ->
  exists res, allocate_frame a = Ret res /\
    match res with
    | (a', Some f) =>
        wf a' /\ usable a' = usable a /\
        free_frame_count a = S (free_frame_count a') /\
        exists i, f = Z.of_nat i * FRAME_SIZE /\ BM.is_free W (bitmap a) i = true /\
          forall j, BM.is_free W (bitmap a') j =
                    BM.is_free W (bitmap a) j && negb (bool_decide (j = i))
    | (a', None) => a' = a /\ free_frame_count a = 0%nat
    end.
Proof.
  intros [Hb Hu Hsub]. unfold allocate_frame.
  destruct (BM.allocate_cases W (bitmap a) Hb) as ([b' [i|]] & -> & Hres);
    (eexists; split; [done|]).
  - destruct Hres as (-> & Hi & Hlow). simpl.
    pose proof (BM.wf_words W _ Hb) as Hw.
    split_and!; [split; simpl|done|by apply BM.free_count_set_used|].
    + by apply BM.wf_set_used.
    + done.
    + intros j. rewrite BM.is_free_set_used by done.
      intros [Hj _]%andb_true_iff. by apply Hsub.
    + exists i. split_and!; [done|done|]. intros j. by rewrite BM.is_free_set_used.
  - destruct Hres as [-> Hnone]. split; [by destruct a|].
    unfold free_frame_count. rewrite (BM.free_count_count W) by (by apply BM.wf_words).
    rewrite (count_below_ext _ (fun _ => false)) by (intros; apply Hnone).
    unfold count_below. generalize (BM.CAPACITY W). intros n.
    induction (seq 0 n) as [|x l IH]; [done|]. by rewrite filter_cons_False by (by intros []).
Qed.

Lemma deallocate_frame_held a f :
  wf a -> held a f ->
  exists a', deallocate_frame a f = Ret a' /\ wf a' /\ usable a' = usable a /\
    free_frame_count a' = S (free_frame_count a) /\
    forall j, BM.is_free W (bitmap a') j =
              BM.is_free W (bitmap a) j || bool_decide (j = frame_index f).
Proof.
  intros [Hb Hu Hsub] (i & -> & Hui & Hbi). unfold deallocate_frame.
  rewrite frame_index_of, Hui, Hbi. simpl.
  pose proof (BM.is_free_lt_capacity _ _ _ Hui) as Hcap.
  pose proof (BM.wf_words W _ Hb) as Hw.
  assert (forall j, BM.is_free W (BM.set_free W (bitmap a) i) j =
                    BM.is_free W (bitmap a) j || bool_decide (j = i)) as Hf.
  { intros j. rewrite BM.is_free_set_free by done.
    rewrite (bool_decide_true (i < _)%nat) by done. by rewrite andb_true_r, orb_comm. }
  eexists. split; [done|]. split_and!; [split; simpl|done|by apply BM.free_count_set_free|done].
  - by apply BM.wf_set_free.
  - done.
  - intros j. rewrite Hf. intros [?%Hsub|?%bool_decide_eq_true]%orb_true_iff; by subst.
Qed.

(** ** Histories of allocation and release

    [owned] is the list of frames handed out and not yet returned. *)
Inductive frame_step : BitmapFrameAllocator * list Z -> BitmapFrameAllocator * list Z -> Prop :=
| step_alloc a a' f owned :
    allocate_frame a = Ret (a', Some f) -> frame_step (a, owned) (a', f :: owned)
| step_alloc_none a a' owned :
    allocate_frame a = Ret (a', None) -> frame_step (a, owned) (a', owned)
| step_free a a' l1 f l2 :
    deallocate_frame a f = Ret a' -> frame_step (a, l1 ++ f :: l2) (a', l1 ++ l2).

Record history_inv (a0 : BitmapFrameAllocator) (st : BitmapFrameAllocator * list Z) : Prop := {
  hi_wf : wf (fst st);
  hi_usable : usable (fst st) = usable a0;
  hi_held : Forall (held (fst st)) (snd st);
  hi_nodup : NoDup (snd st);
  hi_count : (free_frame_count (fst st) + length (snd st) = free_frame_count a0)%nat;
}.

Lemma held_ne_index a f g : held a f -> held a g -> f <> g -> frame_index f <> frame_index g.
Proof. intros (i & -> & _) (j & -> & _). rewrite !frame_index_of. congruence. Qed.

(** Frames other than the one returned stay held. *)
Lemma held_after_free a a' f g :
  wf a -> held a f -> held a g -> g <> f -> usable a' = usable a ->
  (forall j, BM.is_free W (bitmap a') j =
             BM.is_free W (bitmap a) j || bool_decide (j = frame_index f)) ->
  held a' g.
Proof.
  intros Hwf Hf (j & -> & Hu & Hb) Hne Hus Hfree. exists j.
  rewrite Hus, Hfree, Hb. split_and!; [done|done|]. simpl.
  apply bool_decide_eq_false. intros ->. destruct Hf as (i & -> & _).
  rewrite frame_index_of in Hne. done.
Qed.

Lemma history_step a0 st st' : history_inv a0 st -> frame_step st st' -> history_inv a0 st'.
Proof.
  intros [Hwf Hus Hheld Hnd Hc] Hst. destruct Hst as [a a' f owned Ha|a a' owned Ha|a a' l1 f l2 Ha];
    simpl in *.
  - destruct (allocate_frame_cases a Hwf) as (res & Heq & Hres).
    rewrite Ha in Heq. simplify_eq.
    destruct Hres as (Hwf' & Hus' & Hc' & i & -> & Hi & Hfree).
    assert (held a' (Z.of_nat i * FRAME_SIZE)) as Hnew.
    { exists i. rewrite Hus', Hfree, bool_decide_true by done. split_and!; [done| |].
      - by apply (wf_sub _ Hwf). - by rewrite andb_false_r. }
    split; simpl; [done|congruence| | |lia].
    + constructor; [done|]. eapply Forall_impl; [done|]. intros g (j & -> & Hu & Hb).
      exists j. rewrite Hus', Hfree, Hb. done.
    + constructor; [|done]. intros Hin. rewrite Forall_forall in Hheld.
      destruct (Hheld _ Hin) as (j & Hj & _ & Hb). assert (i = j) by (unfold FRAME_SIZE in *; lia). congruence.
  - destruct (allocate_frame_cases a Hwf) as (res & Heq & Hres).
    rewrite Ha in Heq. simplify_eq. destruct Hres as [-> _]. by split.
  - rewrite Forall_app, Forall_cons in Hheld. destruct Hheld as (Hl1 & Hf & Hl2).
    destruct (deallocate_frame_held a f Hwf Hf) as (a'' & Heq & Hwf' & Hus' & Hc' & Hfree).
    rewrite Ha in Heq. simplify_eq. rewrite NoDup_app, NoDup_cons in Hnd.
    destruct Hnd as (Hnd1 & Hdisj & Hnf & Hnd2).
    split; simpl; [done|congruence| | |].
    + rewrite Forall_app. split; apply Forall_forall; intros g Hg;
        apply (held_after_free a a'' f g); try done;
        try (by eapply Forall_forall in Hg).
      * intros ->. apply (Hdisj f Hg). by left.
      * by intros ->.
    + apply NoDup_app. split_and!; [done| |done]. intros g Hg ?. apply (Hdisj g Hg). by right.
    + rewrite length_app in *. simpl in Hc. lia.
Qed.

(** C39: along every history of frame allocations and releases of owned frames,
    no frame is ever owned twice, every owned frame is page-aligned, usable and
    not free, releasing an owned frame never trips the double-free or
    wild-free assertion, and free plus owned frames stay constant. *)
Theorem frame_history_safe (a0 : BitmapFrameAllocator) (Ha0 : wf a0) st
    (Hreach : rtc frame_step (a0, []) st) :
  NoDup (snd st) /\ Forall (held (fst st)) (snd st) /\
  (free_frame_count (fst st) + length (snd st) = free_frame_count a0)%nat /\
  forall f, f ∈ snd st -> exists a', deallocate_frame (fst st) f = Ret a'.
Proof.
  assert (history_inv a0 st) as [Hwf Hus Hh Hnd Hc].
  { assert (history_inv a0 (a0, [])) as H0.
    { split; simpl; [done|done|constructor|constructor|lia]. }
    revert H0. induction Hreach as [|st1 st2 st3 Hs _ IH]; [done|].
    intros H1. apply IH. by eapply history_step. }
  split_and!; [done..|]. intros f Hf. rewrite Forall_forall in Hh.
  destruct (deallocate_frame_held _ f Hwf (Hh f Hf)) as (a' & ? & _). by exists a'.
Qed.
End phys.
End Phys.

(** Frames 1 and 2 usable; the first allocation returns frame 1. *)
Lemma frame_history_safe_witness :
  exists a0 st, Phys.populate 1 0 (Phys.new 1) [mkEntry 4000 9000 0] = Ret a0 /\
    rtc (Phys.frame_step 1) (a0, []) st /\ snd st = [4096] /\ NoDup (snd st).
Proof.
  eexists _, (_, [4096]). split; [vm_compute; reflexivity|].
  match goal with |- rtc _ (?a, []) _ /\ _ => set (a0 := a) end.
  assert (Phys.wf 1 a0) as Hwf.
  { apply (Phys.wf_populate 1 0 (Phys.new 1) [mkEntry 4000 9000 0]).
    - apply Phys.wf_phys_new.
    - vm_compute. reflexivity. }
  assert (rtc (Phys.frame_step 1) (a0, [])
    (mkFrames (BM.set_used 1 (bitmap a0) 1) (usable a0), [4096])) as Hrtc.
  { apply rtc_once, Phys.step_alloc. vm_compute. reflexivity. }
  split; [exact Hrtc|]. split; [done|].
  exact (proj1 (Phys.frame_history_safe 1 a0 Hwf _ Hrtc)).
Defined.
