(* ===== verification/Virt.v ===== *)
(** * Address spaces ([kernel/src/memory/virt.rs])

    Physical memory is a map from frame addresses to their 512 words, beside
    the frame allocator.  Page-table entry decoding, page-table mapping and
    translation, and the construction of virtual addresses belong to the
    [x86_64] crate: [X86] lists the operations the kernel calls.  The theorems
    are about the kernel's own code: building an address space, and the
    recursive teardown that returns every frame of its user half. *)
From S2P Require Import Prelude Bitmap Phys.
Open Scope Z_scope.

Record Mem := mkMem {
  frames : BitmapFrameAllocator;
  ram : gmap Z (list Z);
  kernel_pml4 : Z;
}.

Definition set_frames (m : Mem) (a : BitmapFrameAllocator) : Mem :=
  mkMem a (ram m) (kernel_pml4 m).
Definition set_ram (m : Mem) (r : gmap Z (list Z)) : Mem :=
  mkMem (frames m) r (kernel_pml4 m).

(** The 512 words of a frame; memory never written reads as zero. *)
Definition frame_words (r : gmap Z (list Z)) (frame : Z) : list Z :=
  default (replicate 512 0) (r !! frame).

(** [MapToError] and [TranslateResult] of the crate. *)
Inductive MapToError :=
| FrameAllocationFailed
| ParentEntryHugePage
| PageAlreadyMapped (frame : Z).

Inductive TranslateResult :=
| Mapped (frame offset flags : Z)
| NotMapped
| InvalidFrameAddress (addr : Z).

(** The part of the [x86_64] crate the kernel calls: [PageTableEntry::frame],
    [OffsetPageTable::map_to] (with the kernel's global frame allocator),
    [OffsetPageTable::translate] and [VirtAddr::new], which panics on a
    non-canonical address ([None]). *)
Class X86 := {
  entry_frame : Z -> option Z;
  map_to : Mem -> Z -> Z -> Z -> Z -> Mem * result unit MapToError;
  translate : Mem -> Z -> Z -> TranslateResult;
  virt_addr_new : Z -> option Z;
}.

(** Page-table flag bits. *)
Definition PRESENT : Z := 1.
Definition WRITABLE : Z := 2.
Definition USER_ACCESSIBLE : Z := 4.
Definition NO_EXECUTE : Z := 2 ^ 63.

Inductive MapError := OutOfMemory | AlreadyMapped.

#[global] Instance MapError_eq_dec : EqDecision MapError.
Proof. solve_decision. Defined.

Record AddressSpace := mkAS { pml4_frame : Z }.

#[global] Instance AddressSpace_eq_dec : EqDecision AddressSpace.
Proof. solve_decision. Defined.

Module Virt.
Section virt.
Context (W : nat) `{X86}.

Definition map_error_from (e : MapToError) : MapError :=
  match e with
  | FrameAllocationFailed => OutOfMemory
  | PageAlreadyMapped _ | ParentEntryHugePage => AlreadyMapped
  end.

Definition map_in (m : Mem) (pml4 page frame flags : Z) : Mem * result unit MapError :=
  let '(m', r) := map_to m pml4 page frame flags in
  (m', match r with Ok _ => Ok tt | Err e => Err (map_error_from e) end).

(** [map] goes through the kernel's own mapper. *)
Definition map (m : Mem) (page frame flags : Z) : Mem * result unit MapError :=
  let '(m', r) := map_to m (kernel_pml4 m) page frame flags in
  (m', match r with Ok _ => Ok tt | Err e => Err (map_error_from e) end).

Definition translate_in (m : Mem) (pml4 addr : Z) : option (Z * Z) :=
  match translate m pml4 addr with
  | Mapped frame offset flags => Some (frame + offset, flags)
  | NotMapped | InvalidFrameAddress _ => None
  end.

(** [AddressSpace::new]: a zeroed table whose upper half is the kernel's. *)
Definition address_space_new (m : Mem) : outcome (Mem * result AddressSpace MapError) :=
  let! '(a, r) := Phys.allocate_frame W (frames m) in
  let m := set_frames m a in
  match r with
  | None => Ret (m, Err OutOfMemory)
  | Some frame =>
      let m := set_ram m (<[frame := replicate 512 0]> (ram m)) in
      let master := frame_words (ram m) (kernel_pml4 m) in
      let table := take 256 (frame_words (ram m) frame) ++ drop 256 master in
      Ret (set_ram m (<[frame := table]> (ram m)), Ok (mkAS frame))
  end.

Definition address_space_map (m : Mem) (s : AddressSpace) (page frame flags : Z)
    : Mem * result unit MapError :=
  map_in m (pml4_frame s) page frame flags.

(** The loop over a table's entries, with what is done to each child frame. *)
Fixpoint free_entries (free_child : Z -> BitmapFrameAllocator -> outcome BitmapFrameAllocator)
    (es : list Z) (a : BitmapFrameAllocator) : outcome BitmapFrameAllocator :=
  match es with
  | [] => Ret a
  | e :: es =>
      match entry_frame e with
      | Some child => let! a := free_child child a in free_entries free_child es a
      | None => free_entries free_child es a
      end
  end.

(** [free_table_subtree]: entries first, then the table itself. *)
Fixpoint free_table_subtree (r : gmap Z (list Z)) (level : nat) (frame : Z)
    (a : BitmapFrameAllocator) : outcome BitmapFrameAllocator :=
  let! a := free_entries
              (fun child a =>
                 match level with
                 | S (S _ as level') => free_table_subtree r level' child a
                 | _ => Phys.deallocate_frame W a child
                 end) (frame_words r frame) a in
  Phys.deallocate_frame W a frame.

(** [AddressSpace::drop]: the user half's subtrees, then the top table. *)
Definition address_space_drop (m : Mem) (s : AddressSpace) : outcome Mem :=
  let! a := free_entries (free_table_subtree (ram m) 3)
              (take 256 (frame_words (ram m) (pml4_frame s))) (frames m) in
  let! a := Phys.deallocate_frame W a (pml4_frame s) in
  Ret (set_frames m a).

(** ** The frames of a table tree *)
Fixpoint subtree_frames (r : gmap Z (list Z)) (level : nat) (frame : Z) : list Z :=
  (omap entry_frame (frame_words r frame) ≫= fun child =>
     match level with
     | S (S _ as level') => subtree_frames r level' child
     | _ => [child]
     end) ++ [frame].

Definition user_frames (r : gmap Z (list Z)) (pml4 : Z) : list Z :=
  (omap entry_frame (take 256 (frame_words r pml4)) ≫= subtree_frames r 3) ++ [pml4].

(** Releasing a list of frames one after the other. *)
Fixpoint free_all (a : BitmapFrameAllocator) (l : list Z) : outcome BitmapFrameAllocator :=
  match l with
  | [] => Ret a
  | f :: l => let! a := Phys.deallocate_frame W a f in free_all a l
  end.

Lemma free_all_app l1 l2 a :
  free_all a (l1 ++ l2) = let! a := free_all a l1 in free_all a l2.
Proof.
  revert a. induction l1 as [|f l1 IH]; intros a; simpl; [done|].
  destruct (Phys.deallocate_frame W a f); [apply IH|done].
Qed.

Lemma free_all_one a f : free_all a [f] = Phys.deallocate_frame W a f.
Proof. simpl. by destruct (Phys.deallocate_frame W a f). Qed.

Lemma free_entries_eq f g es a :
  (forall child a, f child a = free_all a (g child)) ->
  free_entries f es a = free_all a (omap entry_frame es ≫= g).
Proof.
  intros Hfg. revert a. induction es as [|e es IH]; intros a; simpl; [done|].
  destruct (entry_frame e) as [child|]; simpl; [|apply IH].
  rewrite free_all_app, Hfg. destruct (free_all a (g child)); [apply IH|done].
Qed.

(** What the teardown does to one child of a table at [level]. *)
Definition child_frames (r : gmap Z (list Z)) (level : nat) (child : Z) : list Z :=
  match level with
  | S (S _ as level') => subtree_frames r level' child
  | _ => [child]
  end.

Lemma subtree_frames_unfold r level frame :
  subtree_frames r level frame =
  (omap entry_frame (frame_words r frame) ≫= child_frames r level) ++ [frame].
Proof. by destruct level as [|[|level]]. Qed.

Lemma free_table_subtree_unfold r level frame a :
  free_table_subtree r level frame a =
  let! a := free_entries
              (fun child a =>
                 match level with
                 | S (S _ as level') => free_table_subtree r level' child a
                 | _ => Phys.deallocate_frame W a child
                 end) (frame_words r frame) a in
  Phys.deallocate_frame W a frame.
Proof. by destruct level. Qed.

(** The recursive teardown releases the frames of the tree in post-order. *)
Lemma free_table_subtree_eq r level frame a :
  free_table_subtree r level frame a = free_all a (subtree_frames r level frame).
Proof.
  revert frame a. induction level as [level IH] using lt_wf_ind. intros frame a.
  rewrite free_table_subtree_unfold, subtree_frames_unfold, free_all_app.
  rewrite (free_entries_eq _ (child_frames r level)).
  - destruct (free_all a _); [by rewrite free_all_one|done].
  - intros child a'. destruct level as [|[|level]]; simpl child_frames;
      rewrite ?free_all_one; [done|done|apply IH; lia].
Qed.

Lemma address_space_drop_eq m s :
  address_space_drop m s =
  let! a := free_all (frames m) (user_frames (ram m) (pml4_frame s)) in Ret (set_frames m a).
Proof.
  unfold address_space_drop, user_frames.
  rewrite (free_entries_eq _ (subtree_frames (ram m) 3)) by (intros; apply free_table_subtree_eq).
  rewrite free_all_app.
  destruct (free_all (frames m) _) as [a|]; [|done]. by rewrite free_all_one.
Qed.

(** Releasing distinct held frames succeeds and frees exactly those. *)
Lemma free_all_held l a :
  Phys.wf W a -> NoDup l -> Forall (Phys.held W a) l ->
  exists a', free_all a l = Ret a' /\ Phys.wf W a' /\ usable a' = usable a /\
    Phys.free_frame_count a' = (Phys.free_frame_count a + length l)%nat /\
    forall j, BM.is_free W (bitmap a') j =
              BM.is_free W (bitmap a) j || bool_decide (j ∈ Phys.frame_index <$> l).
Proof.
  revert a. induction l as [|f l IH]; intros a Hwf Hnd Hl; simpl.
  { exists a. split_and!; try done; try lia. intros j. by rewrite orb_false_r. }
  apply NoDup_cons in Hnd as [Hnf Hnd]. apply Forall_cons in Hl as [Hf Hl].
  destruct (Phys.deallocate_frame_held W a f Hwf Hf) as (a1 & -> & Hwf1 & Hu1 & Hc1 & Hfree1).
  destruct (IH a1 Hwf1 Hnd) as (a2 & -> & Hwf2 & Hu2 & Hc2 & Hfree2).
  { apply Forall_forall. intros g Hg.
    apply (Phys.held_after_free W a a1 f g); try done.
    - by eapply Forall_forall in Hg.
    - by intros ->. }
  exists a2. split_and!; [done|done|congruence|lia|]. intros j.
  rewrite Hfree2, Hfree1, <- orb_assoc. f_equal.
  rewrite <- bool_decide_or. apply bool_decide_ext. by rewrite elem_of_cons.
Qed.

(** C32: dropping an address space whose user half is a proper tree of frames
    (all distinct, all handed out by the allocator) completes without tripping
    a double-free or wild-free assertion, frees exactly the frames of that tree
    and the top-level table, and touches nothing else: the kernel half's
    tables, memory contents and every other frame stay as they were. *)
Theorem address_space_drop_frees_exactly (m : Mem) (s : AddressSpace)
    (Hwf : Phys.wf W (frames m))
    (Hnd : NoDup (user_frames (ram m) (pml4_frame s)))
    (Hheld : Forall (Phys.held W (frames m)) (user_frames (ram m) (pml4_frame s))) :
  exists m', address_space_drop m s = Ret m' /\ Phys.wf W (frames m') /\
    ram m' = ram m /\
    Phys.free_frame_count (frames m') =
      (Phys.free_frame_count (frames m) + length (user_frames (ram m) (pml4_frame s)))%nat /\
    forall j, BM.is_free W (bitmap (frames m')) j = true <->
      BM.is_free W (bitmap (frames m)) j = true \/
      j ∈ Phys.frame_index <$> user_frames (ram m) (pml4_frame s).
Proof.
  rewrite address_space_drop_eq.
  destruct (free_all_held _ _ Hwf Hnd Hheld) as (a' & -> & Hwf' & _ & Hc & Hfree).
  eexists. split; [done|]. split_and!; [done|done|done|].
  intros j. rewrite Hfree, orb_true_iff, bool_decide_eq_true. done.
Qed.

Lemma omap_entry_zero n : entry_frame 0 = None -> omap entry_frame (replicate n 0) = [].
Proof. intros H0. induction n as [|n IH]; simpl; [done|]. by rewrite H0. Qed.

(** The result of [AddressSpace::new] when a frame was available. *)
Lemma address_space_new_ok m m1 s :
  Phys.wf W (frames m) ->
  (forall f, BM.is_free W (bitmap (frames m)) f = true ->
     kernel_pml4 m <> Z.of_nat f * FRAME_SIZE) ->
  address_space_new m = Ret (m1, Ok s) ->
  Phys.allocate_frame W (frames m) = Ret (frames m1, Some (pml4_frame s)) /\
  ram m1 = <[pml4_frame s := replicate 256 0 ++ drop 256 (frame_words (ram m) (kernel_pml4 m))]> (ram m).
Proof.
  intros Hwf Hmaster Hnew. unfold address_space_new in Hnew.
  destruct (Phys.allocate_frame_cases W _ Hwf) as ([a [f|]] & Heq & Hres);
    rewrite Heq in Hnew; [|done].
  destruct Hres as (_ & _ & _ & i & -> & Hi & _). pose proof (Hmaster i Hi) as Hne.
  simplify_eq. cbn [frames ram set_ram set_frames pml4_frame kernel_pml4].
  split; [done|]. rewrite insert_insert_eq. f_equal. f_equal.
  - unfold frame_words. rewrite lookup_insert_eq. reflexivity.
  - unfold frame_words. by rewrite lookup_insert_ne.
Qed.

(** A new address space has an empty user half and shares the kernel half
    of the master table entry by entry; dropping it again returns the one frame
    it took and leaves the set of free frames as it was. *)
Theorem address_space_new_drop (m : Mem) (m1 : Mem) (s : AddressSpace)
    (Hwf : Phys.wf W (frames m))
    (Hnotpresent : entry_frame 0 = None)
    (Hmaster : forall f, BM.is_free W (bitmap (frames m)) f = true ->
       kernel_pml4 m <> Z.of_nat f * FRAME_SIZE)
    (Hnew : address_space_new m = Ret (m1, Ok s)) :
  take 256 (frame_words (ram m1) (pml4_frame s)) = replicate 256 0 /\
  drop 256 (frame_words (ram m1) (pml4_frame s)) =
    drop 256 (frame_words (ram m) (kernel_pml4 m)) /\
  exists m2, address_space_drop m1 s = Ret m2 /\
    Phys.free_frame_count (frames m2) = Phys.free_frame_count (frames m) /\
    forall j, BM.is_free W (bitmap (frames m2)) j = BM.is_free W (bitmap (frames m)) j.
Proof.
  destruct (address_space_new_ok m m1 s Hwf Hmaster Hnew) as [Hall Hram].
  destruct (Phys.allocate_frame_cases W _ Hwf) as (res & Heq & Hres).
  rewrite Hall in Heq. simplify_eq.
  destruct Hres as (Hwf1 & Hu1 & Hc1 & i & Hf & Hi & Hfree).
  assert (Phys.held W (frames m1) (pml4_frame s)) as Hh.
  { exists i. rewrite Hu1, Hfree, bool_decide_true, andb_false_r by done.
    split_and!; [done| |done]. by apply (Phys.wf_sub _ _ Hwf). }
  destruct (Phys.deallocate_frame_held W _ _ Hwf1 Hh) as (a2 & Hd & _ & _ & Hc2 & Hfree2).
  assert (frame_words (ram m1) (pml4_frame s) =
    replicate 256 0 ++ drop 256 (frame_words (ram m) (kernel_pml4 m))) as Hfw.
  { unfold frame_words at 1. by rewrite Hram, lookup_insert_eq. }
  rewrite address_space_drop_eq. unfold user_frames. rewrite Hfw.
  rewrite take_app_length', drop_app_length', omap_entry_zero by done.
  split; [done|]. split; [done|].
  cbn [mbind list_bind app]. rewrite free_all_one, Hd.
  eexists. split; [done|]. simpl. split; [lia|]. intros j.
  rewrite Hfree2, Hfree, Hf, Phys.frame_index_of. case_bool_decide; subst;
    by rewrite ?andb_false_r, ?andb_true_r, ?orb_false_r, ?Hi.
Qed.
End virt.
End Virt.

(** ** A concrete instance of the crate's operations, for witnesses

    Bit 0 is PRESENT and bits 12 and up the frame address; translations are
    kept in a side table of memory, three words per mapping, under the negated
    table address, which is not a frame. *)
Definition demo_entry_frame (e : Z) : option Z :=
  if Z.testbit e 0 then Some (Z.shiftl (Z.shiftr (Z.land e (Z.ones 52)) 12) 12) else None.

Fixpoint demo_find (l : list Z) (page : Z) : option (Z * Z) :=
  match l with
  | p :: f :: fl :: l => if decide (p = page) then Some (f, fl) else demo_find l page
  | _ => None
  end.

Definition demo_canonical (z : Z) : bool := (z <? 2 ^ 47) || (2 ^ 64 - 2 ^ 47 <=? z).

Definition demo_x86 : X86 := {|
  entry_frame := demo_entry_frame;
  map_to m pml4 page frame flags :=
    let l := default [] (ram m !! (- pml4 - 1)) in
    match demo_find l page with
    | Some (f, _) => (m, Err (PageAlreadyMapped f))
    | None => (set_ram m (<[- pml4 - 1 := page :: frame :: flags :: l]> (ram m)), Ok tt)
    end;
  translate m pml4 addr :=
    let page := Z.shiftl (Z.shiftr addr 12) 12 in
    match demo_find (default [] (ram m !! (- pml4 - 1))) page with
    | Some (f, fl) => Mapped f (addr - page) fl
    | None => NotMapped
    end;
  virt_addr_new z := if demo_canonical z then Some z else None;
|}.

(** Frames 1..5 usable and in use: a top table at frame 1 with one path to a
    mapped page at frame 5. *)
Definition demo_frames : BitmapFrameAllocator :=
  mkFrames (mkBitmap [0] 6) (mkBitmap [62] 6).
Definition demo_table (target : Z) : list Z := (target + 7) :: replicate 511 0.
Definition demo_mem : Mem :=
  mkMem demo_frames
    (<[0x1000 := demo_table 0x2000]> (<[0x2000 := demo_table 0x3000]>
      (<[0x3000 := demo_table 0x4000]> (<[0x4000 := demo_table 0x5000]> ∅)))) 0.

Lemma demo_bitmap_wf (w : Z) : (0 <= w < 64)%Z -> BM.wf 1 (mkBitmap [w] 6).
Proof.
  intros Hw. split; simpl.
  - done.
  - repeat constructor; lia.
  - unfold BM.CAPACITY. lia.
  - intros i Hi. destruct (decide (i < 6)%nat); [done|].
    pose proof (BM.is_free_lt_capacity _ _ _ Hi) as Hc. unfold BM.CAPACITY in Hc.
    rewrite BM.is_free_testbit in Hi by done. simpl in Hi.
    rewrite Nat.div_small, Nat.mod_small in Hi by lia. simpl in Hi.
    rewrite Z.bits_above_log2 in Hi; [done|lia|].
    destruct (decide (w = 0)) as [->|]; [simpl; lia|].
    apply Z.log2_lt_pow2; [lia|]. apply (Z.lt_le_trans _ (2 ^ 6)); [lia|].
    apply Z.pow_le_mono_r; lia.
Qed.

Lemma demo_frames_wf (w : Z) :
  (0 <= w < 64)%Z -> Z.land w 62 = w -> Phys.wf 1 (mkFrames (mkBitmap [w] 6) (mkBitmap [62] 6)).
Proof.
  intros Hw Hsub. split; simpl; [by apply demo_bitmap_wf|by apply demo_bitmap_wf|].
  intros i. rewrite !BM.is_free_testbit by done. simpl.
  destruct (i / 64)%nat; simpl; [|done].
  rewrite <- Hsub, Z.land_spec. by intros [_ ?]%andb_true_iff.
Qed.

Lemma address_space_drop_frees_exactly_witness :
  exists m', @Virt.address_space_drop 1 demo_x86 demo_mem (mkAS 0x1000) = Ret m' /\
    Phys.free_frame_count (frames m') = 5%nat.
Proof.
  assert (@Virt.user_frames demo_x86 (ram demo_mem) 0x1000 =
    [0x5000; 0x4000; 0x3000; 0x2000; 0x1000]) as Huf by (vm_compute; reflexivity).
  destruct (@Virt.address_space_drop_frees_exactly 1 demo_x86 demo_mem (mkAS 0x1000))
    as (m' & Hd & _ & _ & Hc & _).
  - apply (demo_frames_wf 0); [lia|reflexivity].
  - cbn [pml4_frame]. rewrite Huf. repeat constructor; set_solver.
  - cbn [pml4_frame]. rewrite Huf.
    assert (forall n, (n < 6)%nat -> (0 < n)%nat -> Phys.held 1 demo_frames (Z.of_nat n * FRAME_SIZE)) as Hh.
    { intros n ??. exists n. split; [done|].
      do 6 (destruct n as [|n]; [try lia; split; reflexivity|]). lia. }
    repeat constructor; [apply (Hh 5%nat)|apply (Hh 4%nat)|apply (Hh 3%nat)|apply (Hh 2%nat)|apply (Hh 1%nat)]; lia.
  - exists m'. split; [exact Hd|]. cbn [pml4_frame] in Hc. rewrite Huf in Hc. exact Hc.
Defined.

Definition demo_mem_one_free : Mem :=
  mkMem (mkFrames (mkBitmap [32] 6) (mkBitmap [62] 6)) (ram demo_mem) 0x1000.

Lemma address_space_new_drop_witness :
  exists m1 m2,
    Virt.address_space_new 1 demo_mem_one_free = Ret (m1, Ok (mkAS 0x5000)) /\
    @Virt.address_space_drop 1 demo_x86 m1 (mkAS 0x5000) = Ret m2 /\
    Phys.free_frame_count (frames m2) = 1%nat.
Proof.
  destruct (Virt.address_space_new 1 demo_mem_one_free) as [[m1 [s|]]|] eqn:Hnew;
    [|vm_compute in Hnew; discriminate Hnew..].
  assert (s = mkAS 0x5000) as -> by (vm_compute in Hnew; congruence).
  destruct (@Virt.address_space_new_drop 1 demo_x86 demo_mem_one_free m1 (mkAS 0x5000))
    as (_ & _ & m2 & Hd & Hc & _).
  - apply (demo_frames_wf 32); [lia|reflexivity].
  - reflexivity.
  - intros f Hf Heq. assert (f = 1%nat) as -> by (cbn in Heq; unfold FRAME_SIZE in Heq; lia).
    vm_compute in Hf. discriminate.
  - exact Hnew.
  - exists m1, m2. split; [done|]. split; [exact Hd|exact Hc].
Defined.
