(* ===== verification/Process.v ===== *)
(** * Processes ([kernel/src/task/mod.rs], [task/process.rs],
      [arch/x86_64/context_switch.rs], [ipc/message.rs], [ipc/capability.rs])

    Process identifiers, saved register frames, kernel object references and
    the process control block, with the kernel-stack address layout.  The
    control block owns its saved frame ([&'static mut TrapFrame] at an address
    of its table slot), so the frame is a field here.  An [Arc<Endpoint>] is
    an endpoint identity. *)
From S2P Require Import Prelude Abi CapTable Virt.
Open Scope Z_scope.

Definition MAX_PROCESSES : nat := 16.
Definition MAX_CORES : nat := 8.

(** ** [Pid]: table index in the low half, generation in the high half *)
Record Pid := mkPid { pid_raw : Z }.

#[global] Instance Pid_eq_dec : EqDecision Pid.
Proof. solve_decision. Defined.

Definition pid_new (index : nat) (generation : Z) : Pid :=
  mkPid (Z.lor (Z.of_nat index) (Z.shiftl generation 32)).

Definition pid_index (p : Pid) : nat := Z.to_nat (Z.land (pid_raw p) 0xFFFFFFFF).

Definition pid_generation (p : Pid) : Z := wrap32 (Z.shiftr (pid_raw p) 32).

(** ** Saved registers *)
Record TrapFrame := mkFrame {
  r15 : Z; r14 : Z; r13 : Z; r12 : Z; r11 : Z; r10 : Z; r9 : Z; r8 : Z;
  rbp : Z; rdi : Z; rsi : Z; rdx : Z; rcx : Z; rbx : Z; rax : Z;
  rip : Z; cs : Z; rflags : Z; rsp : Z; ss : Z;
}.

#[global] Instance TrapFrame_eq_dec : EqDecision TrapFrame.
Proof. solve_decision. Defined.

Definition set_rax (f : TrapFrame) (v : Z) : TrapFrame :=
  mkFrame (r15 f) (r14 f) (r13 f) (r12 f) (r11 f) (r10 f) (r9 f) (r8 f) (rbp f)
    (rdi f) (rsi f) (rdx f) (rcx f) (rbx f) v (rip f) (cs f) (rflags f) (rsp f) (ss f).

(** [rdi], [rsi], [rdx] and [r10] carry results of [recv] and [wait]. *)
Definition set_results (f : TrapFrame) (vdi vsi vdx v10 : Z) : TrapFrame :=
  mkFrame (r15 f) (r14 f) (r13 f) (r12 f) (r11 f) v10 (r9 f) (r8 f) (rbp f)
    vdi vsi vdx (rcx f) (rbx f) (rax f) (rip f) (cs f) (rflags f) (rsp f) (ss f).

Definition RFLAGS_IF_AND_RESERVED : Z := 0x202.

(** The ring-3 selectors built by [gdt] from the crate's descriptor table. *)
Class Selectors := { user_code : Z; user_data : Z }.

Definition initial_user_frame `{Selectors} (entry user_stack_top : Z) : TrapFrame :=
  mkFrame 0 0 0 0 0 0 0 0 0 0 0 0 0 0 0 entry user_code RFLAGS_IF_AND_RESERVED
    user_stack_top user_data.

(** ** Messages and kernel objects *)
Inductive MessagePayload :=
| Inline (m : Message)
| OutOfLine (page : Z) (len : nat).

Definition inline (m : Message) : MessagePayload := Inline m.

Definition into_inline (p : MessagePayload) : outcome Message :=
  match p with
  | Inline m => Ret m
  | OutOfLine _ _ => Panic "out-of-line messages are not constructed this milestone"
  end.

Inductive KernelObjectRef :=
| OEndpoint (e : nat)
| OBlockDevice
| OFsRoot.

#[global] Instance KernelObjectRef_eq_dec : EqDecision KernelObjectRef.
Proof. solve_decision. Defined.

(** ** The process control block *)
Inductive ProcessState := Ready | Running | Blocked | Suspended.

#[global] Instance ProcessState_eq_dec : EqDecision ProcessState.
Proof. solve_decision. Defined.

(** What a blocked call returns when it is completed by someone else. *)
Inductive WakeResult :=
| SendCompleted
| RecvCompleted (tag w0 w1 w2 : Z)
| WaitCompleted (status : ExitStatus)
| WakePeerClosed.

Record Process := mkProcess {
  pid : Pid;
  address_space : AddressSpace;
  trap_frame : TrapFrame;
  cap_table : CapTable KernelObjectRef;
  state : ProcessState;
  parent : option Pid;
  wait_waiter : option Pid;
  pending_wake : option WakeResult;
  heap_end : Z;
}.

Definition set_trap_frame (p : Process) (f : TrapFrame) : Process :=
  mkProcess (pid p) (address_space p) f (cap_table p) (state p) (parent p)
    (wait_waiter p) (pending_wake p) (heap_end p).
Definition set_state (p : Process) (s : ProcessState) : Process :=
  mkProcess (pid p) (address_space p) (trap_frame p) (cap_table p) s (parent p)
    (wait_waiter p) (pending_wake p) (heap_end p).
Definition set_parent (p : Process) (o : option Pid) : Process :=
  mkProcess (pid p) (address_space p) (trap_frame p) (cap_table p) (state p) o
    (wait_waiter p) (pending_wake p) (heap_end p).
Definition set_wait_waiter (p : Process) (o : option Pid) : Process :=
  mkProcess (pid p) (address_space p) (trap_frame p) (cap_table p) (state p) (parent p)
    o (pending_wake p) (heap_end p).
Definition set_pending_wake (p : Process) (o : option WakeResult) : Process :=
  mkProcess (pid p) (address_space p) (trap_frame p) (cap_table p) (state p) (parent p)
    (wait_waiter p) o (heap_end p).
Definition set_cap_table (p : Process) (t : CapTable KernelObjectRef) : Process :=
  mkProcess (pid p) (address_space p) (trap_frame p) t (state p) (parent p)
    (wait_waiter p) (pending_wake p) (heap_end p).
Definition set_heap_end (p : Process) (h : Z) : Process :=
  mkProcess (pid p) (address_space p) (trap_frame p) (cap_table p) (state p) (parent p)
    (wait_waiter p) (pending_wake p) h.

(** ** Address layout *)
Definition KERNEL_STACK_PAGES : Z := 4.
Definition USER_STACK_PAGES : Z := 4.
Definition USER_STACK_TOP : Z := 0x00007ffffffff000.
Definition USER_HEAP_START : Z := 0x40000000.
Definition KERNEL_STACKS_BASE : Z := 0xffff980000000000.
Definition KERNEL_STACK_SLOT_STRIDE : Z := 4096 * (1 + KERNEL_STACK_PAGES).
Definition TRAP_FRAME_BASE : Z := 0xffff975000000000.
Definition TRAP_FRAME_STRIDE : Z := 0x10000.

Definition kernel_stack_slot_base (p : Pid) : Z :=
  KERNEL_STACKS_BASE + Z.of_nat (pid_index p) * KERNEL_STACK_SLOT_STRIDE.

Definition kernel_stack_top (p : Process) : Z :=
  kernel_stack_slot_base (pid p) + (1 + KERNEL_STACK_PAGES) * 4096.

Definition trap_frame_slot_base (p : Pid) : Z :=
  TRAP_FRAME_BASE + Z.of_nat (pid_index p) * TRAP_FRAME_STRIDE.

(** The address [trap_frame_for] turns into a reference. *)
Definition trap_frame_addr (p : Pid) : Z := trap_frame_slot_base p + 4096.

Definition describe_kernel_stack_address (addr : Z) : option (nat * Z) :=
  if decide (addr < KERNEL_STACKS_BASE) then None
  else
    let offset := addr - KERNEL_STACKS_BASE in
    let slot := offset / KERNEL_STACK_SLOT_STRIDE in
    if decide (Z.of_nat MAX_PROCESSES <= slot) then None
    else
      let offset_in_slot := offset mod KERNEL_STACK_SLOT_STRIDE in
      if decide (offset_in_slot < 4096) then None
      else Some (Z.to_nat slot, offset_in_slot).

(** ** Identifiers *)
Definition pid_ok (p : Pid) : Prop := is_u64 (pid_raw p).

Lemma pid_new_raw i g : (Z.of_nat i < 2 ^ 32) -> pid_raw (pid_new i g) = Z.of_nat i + g * 2 ^ 32.
Proof. intros. apply lor_shiftl_add; lia. Qed.

Lemma pid_index_new i g : (Z.of_nat i < 2 ^ 32) -> pid_index (pid_new i g) = i.
Proof.
  intros Hi. unfold pid_index. rewrite pid_new_raw by done.
  change 0xFFFFFFFF with (Z.ones 32). rewrite Z.land_ones by lia.
  rewrite Z.mod_add, Z.mod_small by lia. lia.
Qed.

Lemma pid_generation_new i g : (Z.of_nat i < 2 ^ 32) -> is_u32 g -> pid_generation (pid_new i g) = g.
Proof.
  intros Hi Hg. unfold pid_generation. rewrite pid_new_raw, Z.shiftr_div_pow2 by lia.
  rewrite Z.div_add, Z.div_small by lia. by apply wrap_small.
Qed.

Lemma pid_new_index_generation p : pid_ok p -> pid_new (pid_index p) (pid_generation p) = p.
Proof.
  intros Hp. destruct p as [z]. unfold pid_ok, in_width in Hp. simpl in Hp.
  unfold pid_new, pid_index, pid_generation, wrap. simpl. f_equal.
  change 0xFFFFFFFF with (Z.ones 32). rewrite Z.land_ones, Z.shiftr_div_pow2 by lia.
  rewrite lor_shiftl_add by div_lia.
  rewrite (Z.mod_small (z / 2 ^ 32)) by div_lia. div_lia.
Qed.

(** A process identifier carries exactly its table index and generation:
    packing and unpacking are inverse, so two processes that ever occupied the
    same slot under different generations have different identifiers. *)
Theorem pid_roundtrip (p : Pid) (i j : nat) (g h : Z)
    (Hp : pid_ok p) (Hi : Z.of_nat i < 2 ^ 32) (Hj : Z.of_nat j < 2 ^ 32)
    (Hg : is_u32 g) (Hh : is_u32 h) :
  pid_new (pid_index p) (pid_generation p) = p /\
  pid_index (pid_new i g) = i /\ pid_generation (pid_new i g) = g /\
  (pid_new i g = pid_new j h -> i = j /\ g = h).
Proof.
  split_and!; [by apply pid_new_index_generation|by apply pid_index_new|by apply pid_generation_new|].
  intros Heq. split.
  - rewrite <- (pid_index_new i g), Heq by done. by apply pid_index_new.
  - rewrite <- (pid_generation_new i g), Heq by done. by apply pid_generation_new.
Qed.

Lemma pid_roundtrip_witness :
  pid_new (pid_index (mkPid 0x500000003)) (pid_generation (mkPid 0x500000003)) = mkPid 0x500000003 /\
  (pid_new 3 5 = pid_new 3 6 -> 3%nat = 3%nat /\ 5 = 6).
Proof.
  destruct (pid_roundtrip (mkPid 0x500000003) 3 3 5 6) as (H1 & _ & _ & H2);
    try (unfold pid_ok, in_width; simpl; lia).
  split; [exact H1|exact H2].
Defined.

(** Kernel-stack address classification is exact: an address is attributed
    to slot [i] precisely when it lies in that slot's four mapped pages (never
    in a guard page, never past the last slot), the slot's stack top is the
    exclusive end of that range, and the reported offset is measured from the
    slot's base, guard page included. *)
Theorem describe_kernel_stack_address_spec (addr : Z) (i : nat) (off : Z) (p : Process)
    (Hp : pid_index (pid p) = i) :
  describe_kernel_stack_address addr = Some (i, off) <->
  (i < MAX_PROCESSES)%nat /\
  kernel_stack_top p - 4 * 4096 <= addr < kernel_stack_top p /\
  off = addr - kernel_stack_slot_base (pid p).
Proof.
  unfold describe_kernel_stack_address, kernel_stack_top, kernel_stack_slot_base.
  rewrite Hp. unfold KERNEL_STACK_SLOT_STRIDE, KERNEL_STACK_PAGES, MAX_PROCESSES.
  generalize KERNEL_STACKS_BASE as B. intros B.
  change (4096 * (1 + 4)) with 20480. change ((1 + 4) * 4096) with 20480.
  destruct (decide (addr < B)); [split; [done|lia]|].
  destruct (decide (Z.of_nat 16 <= (addr - B) / 20480)); [split; [done|div_lia]|].
  destruct (decide ((addr - B) mod 20480 < 4096)); [split; [done|div_lia]|].
  split.
  - intros [= <- <-]. div_lia.
  - intros (? & ? & ->). do 2 f_equal; div_lia.
Qed.

Lemma describe_kernel_stack_address_spec_witness :
  describe_kernel_stack_address (KERNEL_STACKS_BASE + 2 * 20480 + 5000) = Some (2%nat, 5000).
Proof.
  apply (describe_kernel_stack_address_spec _ 2 5000
    (mkProcess (pid_new 2 1) (mkAS 0) (mkFrame 0 0 0 0 0 0 0 0 0 0 0 0 0 0 0 0 0 0 0 0)
       Cap.new Ready None None None 0)).
  - reflexivity.
  - split; [unfold MAX_PROCESSES; lia|]. vm_compute. split_and!; congruence.
Defined.
