(* ===== verification/Elf.v ===== *)
(** * Loading programs ([kernel/src/elf.rs], [Process::new] and
      [Process::from_elf] of [kernel/src/task/process.rs])

    Byte-level access to physical frames, the ELF64 header and program header
    checks, the mapping of each segment's pages and the copy of its bytes, and
    the construction of a process around a loaded image.  Slices are indexed
    with bounds checks that panic, as in the source. *)
From S2P Require Import Prelude Abi CapTable Bitmap Phys Virt Process.
Open Scope Z_scope.

(** ** Bytes of a frame *)
Definition PAGE : Z := 4096.

Definition page_of (addr : Z) : Z := addr / PAGE * PAGE.

Definition frame_bytes (r : gmap Z (list Z)) (frame : Z) : list Z :=
  frame_words r frame ≫= le_bytes 8.

(** The 64-bit words a byte string is stored as. *)
Fixpoint words_of (n : nat) (bs : list Z) : list Z :=
  match n with
  | O => []
  | S n => of_le_bytes (take 8 bs) :: words_of n (drop 8 bs)
  end.

(** [copy_nonoverlapping] into a frame at an offset. *)
Definition store_bytes (m : Mem) (frame : Z) (off : nat) (bs : list Z) : Mem :=
  let old := frame_bytes (ram m) frame in
  let new := take off old ++ bs ++ drop (off + length bs) old in
  set_ram m (<[frame := words_of 512 new]> (ram m)).

(** ** ELF *)
Definition ELFCLASS64 : Z := 2.
Definition ELFDATA2LSB : Z := 1.
Definition ET_EXEC : Z := 2.
Definition EM_X86_64 : Z := 62.
Definition PT_LOAD : Z := 1.
Definition PF_X : Z := 1.
Definition PF_W : Z := 2.
Definition EHDR_SIZE : nat := 64.
Definition PHDR_SIZE : Z := 56.
Definition USER_SPACE_MIN : Z := 0x1000.
Definition USER_SPACE_MAX : Z := USER_HEAP_START.

Inductive ElfError :=
| TooShort | BadMagic | NotElf64 | NotLittleEndian | NotExecutable | WrongMachine
| SegmentOutOfRange | SegmentExceedsFile | ElfOutOfMemory | MapFailed.

Record ProgramHeader := mkPhdr {
  p_type : Z; p_flags : Z; p_offset : Z; p_vaddr : Z; p_filesz : Z; p_memsz : Z;
}.

(** [data[off..off + n]]. *)
Definition slice (data : list Z) (off n : nat) : outcome (list Z) :=
  if decide (off + n <= length data)%nat then Ret (take n (drop off data))
  else Panic "range end index out of range".

Definition read_le (data : list Z) (off : Z) (n : nat) : outcome Z :=
  let! bs := slice data (Z.to_nat off) n in Ret (of_le_bytes bs).

Definition read_phdr (data : list Z) (base : Z) : outcome ProgramHeader :=
  let! ty := read_le data base 4 in
  let! flags := read_le data (base + 4) 4 in
  let! offset := read_le data (base + 8) 8 in
  let! vaddr := read_le data (base + 16) 8 in
  let! filesz := read_le data (base + 32) 8 in
  let! memsz := read_le data (base + 40) 8 in
  Ret (mkPhdr ty flags offset vaddr filesz memsz).

Module Elf.
Section elf.
Context (W : nat) `{X86}.

Definition new_virt_addr (a : Z) : outcome Z :=
  match virt_addr_new a with Some v => Ret v | None => Panic "virtual address not canonical" end.

(** [Mapper::translate_page]. *)
Definition translate_page (m : Mem) (pml4 page : Z) : option Z :=
  match translate m pml4 page with Mapped f _ _ => Some f | _ => None end.

(** Allocating, zeroing and mapping the pages of a segment. *)
Fixpoint map_pages (m : Mem) (pml4 : Z) (pages : list Z) (flags : Z)
    : outcome (Mem * result unit ElfError) :=
  match pages with
  | [] => Ret (m, Ok tt)
  | page :: pages =>
      let! '(a, r) := Phys.allocate_frame W (frames m) in
      let m := set_frames m a in
      match r with
      | None => Ret (m, Err ElfOutOfMemory)
      | Some frame =>
          let m := set_ram m (<[frame := replicate 512 0]> (ram m)) in
          match map_to m pml4 page frame flags with
          | (m, Err _) => Ret (m, Err MapFailed)
          | (m, Ok _) => map_pages m pml4 pages flags
          end
      end
  end.

(** Copying the file bytes page by page; every turn consumes at least one. *)
Fixpoint copy_loop (fuel : nat) (m : Mem) (pml4 : Z) (remaining : list Z) (vaddr : Z) : outcome Mem :=
  match remaining, fuel with
  | [], _ => Ret m
  | _, O => Panic "copy bound exceeded"
  | _, S fuel =>
      let page_offset := Z.to_nat (vaddr - page_of vaddr) in
      let chunk_len := Nat.min (length remaining) (Z.to_nat PAGE - page_offset) in
      match translate_page m pml4 (page_of vaddr) with
      | None => Panic "page was just mapped by the loop above"
      | Some frame =>
          copy_loop fuel (store_bytes m frame page_offset (take chunk_len remaining)) pml4
            (drop chunk_len remaining) (vaddr + Z.of_nat chunk_len)
      end
  end.

(** [Page::range_inclusive] over the pages of [a..=b]. *)
Definition page_range (a b : Z) : list Z :=
  (fun i => page_of a + Z.of_nat i * PAGE) <$>
    seq 0 (Z.to_nat ((page_of b - page_of a) / PAGE + 1)).

Definition segment_flags (p_flags : Z) : Z :=
  let flags := Z.lor PRESENT USER_ACCESSIBLE in
  let flags := if decide (Z.land p_flags PF_W <> 0) then Z.lor flags WRITABLE else flags in
  if decide (Z.land p_flags PF_X = 0) then Z.lor flags NO_EXECUTE else flags.

Definition load_segment (m : Mem) (pml4 : Z) (phdr : ProgramHeader) (data : list Z)
    : outcome (Mem * result unit ElfError) :=
  match checked_add64 (p_vaddr phdr) (p_memsz phdr) with
  | None => Ret (m, Err SegmentOutOfRange)
  | Some seg_end =>
      if decide (p_vaddr phdr < USER_SPACE_MIN \/ USER_SPACE_MAX < seg_end)
      then Ret (m, Err SegmentOutOfRange)
      else if decide (p_memsz phdr < p_filesz phdr) then Ret (m, Err SegmentOutOfRange)
      else
        match checked_add64 (p_offset phdr) (p_filesz phdr) with
        | None => Ret (m, Err SegmentExceedsFile)
        | Some file_end =>
            if decide (Z.of_nat (length data) < file_end) then Ret (m, Err SegmentExceedsFile)
            else
              let! start := new_virt_addr (p_vaddr phdr) in
              let! last := new_virt_addr (seg_end - 1) in
              let! '(m, r) := map_pages m pml4 (page_range start last) (segment_flags (p_flags phdr)) in
              match r with
              | Err e => Ret (m, Err e)
              | Ok _ =>
                  let! remaining := slice data (Z.to_nat (p_offset phdr)) (Z.to_nat (p_filesz phdr)) in
                  let! m := copy_loop (length remaining) m pml4 remaining (p_vaddr phdr) in
                  Ret (m, Ok tt)
              end
        end
  end.

Fixpoint load_segments (m : Mem) (pml4 : Z) (data : list Z) (bases : list Z)
    : outcome (Mem * result unit ElfError) :=
  match bases with
  | [] => Ret (m, Ok tt)
  | base :: bases =>
      let! phdr := read_phdr data base in
      if decide (p_type phdr <> PT_LOAD \/ p_memsz phdr = 0)
      then load_segments m pml4 data bases
      else
        let! '(m, r) := load_segment m pml4 phdr data in
        match r with
        | Err e => Ret (m, Err e)
        | Ok _ => load_segments m pml4 data bases
        end
  end.

(** [checked_mul] of two 16-bit values never overflows 64 bits. *)
Definition load (m : Mem) (pml4 : Z) (data : list Z) : outcome (Mem * result Z ElfError) :=
  if decide (length data < EHDR_SIZE)%nat then Ret (m, Err TooShort)
  else
    let! magic := slice data 0 4 in
    if decide (magic <> [0x7f; 69; 76; 70]) then Ret (m, Err BadMagic)
    else
      let! class := index_or_panic data 4 in
      if decide (class <> ELFCLASS64) then Ret (m, Err NotElf64)
      else
        let! order := index_or_panic data 5 in
        if decide (order <> ELFDATA2LSB) then Ret (m, Err NotLittleEndian)
        else
          let! e_type := read_le data 16 2 in
          let! e_machine := read_le data 18 2 in
          let! e_entry := read_le data 24 8 in
          let! e_phoff := read_le data 32 8 in
          let! e_phentsize := read_le data 54 2 in
          let! e_phnum := read_le data 56 2 in
          if decide (e_type <> ET_EXEC) then Ret (m, Err NotExecutable)
          else if decide (e_machine <> EM_X86_64) then Ret (m, Err WrongMachine)
          else if decide (e_phentsize < PHDR_SIZE) then Ret (m, Err TooShort)
          else
            match checked_add64 e_phoff (e_phnum * e_phentsize) with
            | None => Ret (m, Err TooShort)
            | Some phdrs_end =>
                if decide (Z.of_nat (length data) < phdrs_end) then Ret (m, Err TooShort)
                else
                  let! '(m, r) := load_segments m pml4 data
                    ((fun i => e_phoff + Z.of_nat i * e_phentsize) <$> seq 0 (Z.to_nat e_phnum)) in
                  match r with
                  | Err e => Ret (m, Err e)
                  | Ok _ => let! entry := new_virt_addr e_entry in Ret (m, Ok entry)
                  end
            end.

(** ** Building a process *)
Context `{Selectors}.

Fixpoint map_stack (m : Mem) (pml4 : Z) (pages : list Z) : outcome (Mem * result unit string) :=
  match pages with
  | [] => Ret (m, Ok tt)
  | page :: pages =>
      let! '(a, r) := Phys.allocate_frame W (frames m) in
      let m := set_frames m a in
      match r with
      | None => Ret (m, Err "out of memory mapping user stack"%string)
      | Some frame =>
          match Virt.address_space_map m (mkAS pml4) page frame
                  (Z.lor PRESENT (Z.lor WRITABLE (Z.lor USER_ACCESSIBLE NO_EXECUTE))) with
          | (m, Err _) => Ret (m, Err "failed to map user stack"%string)
          | (m, Ok _) => map_stack m pml4 pages
          end
      end
  end.

(** The trap-frame slots are mapped for table indices below [MAX_PROCESSES]
    only; writing through [trap_frame_for] of another index faults in the
    kernel. *)
Definition process_new (m : Mem) (p : Pid) (s : AddressSpace) (entry : Z) (par : option Pid)
    : outcome (Mem * result Process string) :=
  let! '(m, r) := map_stack m (pml4_frame s)
    (page_range (USER_STACK_TOP - USER_STACK_PAGES * PAGE) (USER_STACK_TOP - 1)) in
  match r with
  | Err e => let! m := Virt.address_space_drop W m s in Ret (m, Err e)
  | Ok _ =>
      if decide (MAX_PROCESSES <= pid_index p)%nat then Panic "kernel write to an unmapped trap-frame slot"
      else
        Ret (m, Ok (mkProcess p s (initial_user_frame entry USER_STACK_TOP) Cap.new Ready par
                      None None USER_HEAP_START))
  end.

(** An address space that is not handed on is dropped on the way out. *)
Definition from_elf (m : Mem) (p : Pid) (elf_bytes : list Z) (par : option Pid)
    : outcome (Mem * result Process string) :=
  let! '(m, r) := Virt.address_space_new W m in
  match r with
  | Err _ => Ret (m, Err "out of memory creating address space"%string)
  | Ok s =>
      let! '(m, r) := load m (pml4_frame s) elf_bytes in
      match r with
      | Err _ =>
          let! m := Virt.address_space_drop W m s in
          Ret (m, Err "failed to load ELF image"%string)
      | Ok entry => process_new m p s entry par
      end
  end.
End elf.
End Elf.
