(* ===== verification/Mapper.v ===== *)
(** * The page mapper of the [x86_64] crate

    [MapperLaws] is what the crate documents of [OffsetPageTable::map_to] and
    [translate]: a mapping is only made on a page that has none, it translates
    that page and no other, a refused one changes no translation, and frames
    for tables are taken from the kernel's allocator.  [VirtAddr::new] accepts
    the addresses of the lower half. *)
From S2P Require Import Prelude Bitmap Phys Virt Abi CapTable Process Elf.
Open Scope Z_scope.

Class MapperLaws `{X86} : Prop := {
  map_ok : forall m pml4 page frame flags m', map_to m pml4 page frame flags = (m', Ok tt) ->
    (forall x, page_of x = page -> translate m pml4 x = NotMapped /\ translate m' pml4 x = Mapped frame (x - page) flags) /\
    (forall x, page_of x <> page -> translate m' pml4 x = translate m pml4 x);
  map_err : forall m pml4 page frame flags m' e, map_to m pml4 page frame flags = (m', Err e) ->
    forall x, translate m' pml4 x = translate m pml4 x;
  map_keeps : forall m pml4 page frame flags,
    kernel_pml4 (fst (map_to m pml4 page frame flags)) = kernel_pml4 m /\
    forall W, Phys.wf W (frames m) -> Phys.wf W (frames (fst (map_to m pml4 page frame flags)));
  translate_ram : forall m m' pml4 x, ram m' = ram m -> translate m' pml4 x = translate m pml4 x;
  lower_half : forall a, 0 <= a < 2 ^ 47 -> virt_addr_new a = Some a;
}.

Lemma page_of_sub x : page_of x = x - x mod 4096.
Proof. unfold page_of, PAGE. div_lia. Qed.

Lemma page_of_aligned x : x mod 4096 = 0 -> page_of x = x.
Proof. rewrite page_of_sub. lia. Qed.

(** ** The demonstration mapper of [Virt] keeps the laws *)
Lemma demo_page_of x : Z.shiftl (Z.shiftr x 12) 12 = page_of x.
Proof. rewrite page_of_sub, Z.shiftl_mul_pow2, Z.shiftr_div_pow2 by lia. div_lia. Qed.

Lemma demo_mapper_laws : @MapperLaws demo_x86.
Proof.
  split.
  - intros m pml4 page frame flags m' Hm. cbn [map_to translate demo_x86] in *.
    destruct (demo_find _ page) as [[f fl]|] eqn:Hf; [done|]. simplify_eq.
    split; intros x Hx; rewrite !demo_page_of; cbn [ram set_ram]; rewrite lookup_insert_eq;
      cbn [default demo_find from_option id].
    + rewrite Hx, Hf, decide_True by done. done.
    + by rewrite decide_False.
  - intros m pml4 page frame flags m' e Hm x. cbn [map_to translate demo_x86] in *.
    destruct (demo_find _ page) as [[f fl]|]; by simplify_eq.
  - intros m pml4 page frame flags. cbn [map_to demo_x86]. destruct (demo_find _ page) as [[f fl]|]; by split.
  - intros m m' pml4 x Hr. cbn [translate demo_x86]. by rewrite Hr.
  - intros a Ha. cbn [virt_addr_new demo_x86]. unfold demo_canonical.
    replace (a <? 2 ^ 47) with true; [done|]. symmetry. apply Z.ltb_lt. lia.
Qed.
