(* ===== verification/MapRegion.v ===== *)
(** * Mapping the kernel's fixed regions at boot

    The loop every region is set up with: for each page a fresh frame from the
    kernel's allocator, mapped through the kernel's own table, any failure a
    panic.  It occurs in [memory/heap.rs], [arch/x86_64/gdt.rs], [smp.rs],
    [task/process.rs] and [task/scheduler.rs].  [MapperTotal] adds to
    [MapperLaws] when [map_to] succeeds; the theorem is that a region whose
    pages are not yet mapped is mapped completely, each page on a frame of its
    own, whenever four frames per page are free. *)
From S2P Require Import Prelude Bitmap Phys Virt Abi CapTable Process Elf Mapper.
Open Scope Z_scope.

(** What the [x86_64] crate documents beyond [MapperLaws]: [map_to] fails only
    on a mapped page, below a huge page (whose addresses are mapped) or when no
    frame is left for a table, of which it needs at most three; it takes frames
    from the allocator and never returns one.  [VirtAddr::new] accepts the
    upper half. *)
Class MapperTotal `{MapperLaws} : Prop := {
  map_total : forall W m pml4 page frame flags, Phys.wf W (frames m) -> 0 <= pml4 -> page mod 4096 = 0 ->
    translate m pml4 page = NotMapped -> (3 <= Phys.free_frame_count (frames m))%nat ->
    exists m', map_to m pml4 page frame flags = (m', Ok tt) /\
      (Phys.free_frame_count (frames m) <= Phys.free_frame_count (frames m') + 3)%nat;
  map_takes : forall W m pml4 page frame flags, Phys.wf W (frames m) ->
    let m' := fst (map_to m pml4 page frame flags) in
    usable (frames m') = usable (frames m) /\
    forall i, BM.is_free W (bitmap (frames m')) i = true -> BM.is_free W (bitmap (frames m)) i = true;
  upper_half : forall a, 2 ^ 64 - 2 ^ 47 <= a < 2 ^ 64 -> virt_addr_new a = Some a;
}.

Definition KERNEL_FLAGS : Z := Z.lor PRESENT (Z.lor WRITABLE NO_EXECUTE).

Section region.
Context (W : nat) `{MapperTotal}.
Implicit Types (m : Mem) (pages : list Z).

(** The loop; the two messages are those of its [expect]s. *)
Fixpoint map_region m pages (flags : Z) (no_frame no_map : string) : outcome Mem :=
  match pages with
  | [] => Ret m
  | addr :: pages =>
      let! v := Elf.new_virt_addr addr in
      let! '(a, r) := Phys.allocate_frame W (frames m) in
      let m := set_frames m a in
      match r with
      | None => Panic no_frame
      | Some frame =>
          match Virt.map m (page_of v) frame flags with
          | (m, Ok _) => map_region m pages flags no_frame no_map
          | (_, Err _) => Panic no_map
          end
      end
  end.

(** A page of the upper half. *)
Definition kernel_page (a : Z) : Prop := 2 ^ 64 - 2 ^ 47 <= a < 2 ^ 64 /\ a mod 4096 = 0.

Definition unmapped m pages : Prop := Forall (fun a => translate m (kernel_pml4 m) a = NotMapped) pages.

(** The frames [fs] were free before and are held after. *)
Definition took m m' (fs : list Z) : Prop :=
  NoDup fs /\ forall f, f ∈ fs -> Phys.held W (frames m') f /\ ~ Phys.held W (frames m) f.

(** [m'] is [m] with the pages mapped, in order, to the frames [fs]. *)
Record mapped m m' pages (flags : Z) (fs : list Z) : Prop := {
  mp_wf : Phys.wf W (frames m');
  mp_pml4 : kernel_pml4 m' = kernel_pml4 m;
  mp_keeps : forall f, Phys.held W (frames m) f -> Phys.held W (frames m') f;
  mp_took : took m m' fs;
  mp_pages : forall i page f, pages !! i = Some page -> fs !! i = Some f ->
    forall x, page_of x = page -> translate m' (kernel_pml4 m) x = Mapped f (x - page) flags;
  mp_length : length fs = length pages;
  mp_others : forall x, page_of x ∉ pages -> translate m' (kernel_pml4 m) x = translate m (kernel_pml4 m) x;
  mp_free : (Phys.free_frame_count (frames m) <= Phys.free_frame_count (frames m') + 4 * length pages)%nat;
}.

Lemma mapped_nil m flags : Phys.wf W (frames m) -> mapped m m [] flags [].
Proof.
  intros Hwf. split; try done; [|lia]. split; [constructor|]. intros f Hf. by apply elem_of_nil in Hf.
Qed.

Lemma held_map m pml4 page frame flags f :
  Phys.wf W (frames m) -> Phys.held W (frames m) f -> Phys.held W (frames (fst (map_to m pml4 page frame flags))) f.
Proof.
  intros Hwf (i & -> & Hu & Hb). destruct (map_takes W m pml4 page frame flags Hwf) as [Hus Hfr].
  exists i. rewrite Hus. split; [done|]. split; [done|].
  destruct (BM.is_free W (bitmap (frames (fst _))) i) eqn:E; [|done]. apply Hfr in E. congruence.
Qed.

(** One page: a frame that was free, and what [mapped] says of it. *)
Lemma map_one m addr flags :
  Phys.wf W (frames m) -> 0 <= kernel_pml4 m -> kernel_page addr -> translate m (kernel_pml4 m) addr = NotMapped ->
  (4 <= Phys.free_frame_count (frames m))%nat ->
  exists a frame m', Phys.allocate_frame W (frames m) = Ret (a, Some frame) /\
    Virt.map (set_frames m a) addr frame flags = (m', Ok tt) /\ mapped m m' [addr] flags [frame].
Proof.
  intros Hwf Hpml4 [Hup Hal] Hun Hfree.
  destruct (Phys.allocate_frame_cases W (frames m) Hwf) as ([a [f|]] & Ha & Hres).
  2: { destruct Hres as [_ Hz]. lia. }
  destruct Hres as (Hwf1 & Hus & Hcnt & i & -> & Hi & Hall). exists a. eexists.
  set (m1 := set_frames m a). set (f := Z.of_nat i * FRAME_SIZE).
  assert (forall x, translate m1 (kernel_pml4 m) x = translate m (kernel_pml4 m) x) as Htr.
  { intros x. by apply translate_ram. }
  destruct (map_total W m1 (kernel_pml4 m) addr f flags Hwf1 Hpml4 Hal) as (m' & Hm & Hle).
  { by rewrite Htr. }
  { simpl. lia. }
  destruct (map_ok _ _ _ _ _ _ Hm) as [Hin Hout]. destruct (map_keeps m1 (kernel_pml4 m) addr f flags) as [Hk Hw].
  pose proof (fun g => held_map m1 (kernel_pml4 m) addr f flags g Hwf1) as Hh. rewrite Hm in Hk, Hw, Hh. simpl in Hk, Hw, Hh.
  assert (Phys.held W a f) as Hf.
  { exists i. rewrite Hus, Hall, Hi. split; [done|]. split; [by apply (Phys.wf_sub W _ Hwf)|].
    by rewrite bool_decide_true. }
  exists m'. split; [done|]. split.
  { unfold Virt.map. fold m1 f. change (kernel_pml4 m1) with (kernel_pml4 m). by rewrite Hm. } split; simpl.
  - by apply Hw.
  - done.
  - intros g (j & -> & Hu & Hb). apply Hh. exists j. rewrite Hus, Hall, Hb. done.
  - split; [apply NoDup_singleton|]. intros g ->%list_elem_of_singleton. split; [by apply Hh|].
    intros (j & Hj & _ & Hb). unfold f, FRAME_SIZE in Hj. assert (j = i) as -> by lia. congruence.
  - intros [|k] page g Hp Hg; simplify_eq/=. intros x Hx. by apply Hin.
  - done.
  - intros x Hx. rewrite Hout, Htr; [done|]. intros Heq. apply Hx. rewrite Heq. by left.
  - simpl in Hle. lia.
Qed.

Lemma mapped_app m m1 m2 ps qs flags fs gs :
  mapped m m1 ps flags fs -> mapped m1 m2 qs flags gs -> (forall p, p ∈ ps -> p ∉ qs) ->
  Forall kernel_page ps -> mapped m m2 (ps ++ qs) flags (fs ++ gs).
Proof.
  intros [W1 K1 Hk1 [N1 T1] P1 L1 O1 F1] [W2 K2 Hk2 [N2 T2] P2 L2 O2 F2] Hdis Hal. split.
  - done.
  - congruence.
  - auto.
  - split.
    + apply NoDup_app. split_and!; [done| |done]. intros f Hf Hg. destruct (T1 f Hf) as [Hh _].
      by destruct (T2 f Hg) as [_ Hn].
    + intros f [Hf|Hf]%elem_of_app; [destruct (T1 f Hf); auto|]. destruct (T2 f Hf). auto.
  - intros i page f Hp Hf x Hx. rewrite K1 in *. apply lookup_app_Some in Hp as [Hp|[Hge Hp]].
    + rewrite lookup_app_l in Hf by (rewrite L1; by eapply lookup_lt_Some). rewrite O2.
      * by eapply P1.
      * rewrite Hx. apply Hdis. by eapply list_elem_of_lookup_2.
    + rewrite lookup_app_r in Hf by lia. rewrite L1 in Hf. by eapply P2.
  - rewrite !length_app. lia.
  - intros x Hx. rewrite K1 in *. apply not_elem_of_app in Hx as [Hx1 Hx2]. rewrite O2, O1; done.
  - rewrite length_app. lia.
Qed.

(** Pages that can be mapped: distinct pages of the upper half, none mapped
    yet, and four free frames for each. *)
Record mappable m pages : Prop := {
  mb_wf : Phys.wf W (frames m);
  mb_pml4 : 0 <= kernel_pml4 m;
  mb_nodup : NoDup pages;
  mb_kernel : Forall kernel_page pages;
  mb_unmapped : unmapped m pages;
  mb_free : (4 * length pages <= Phys.free_frame_count (frames m))%nat;
}.

Lemma mappable_app m ps qs :
  mappable m (ps ++ qs) ->
  mappable m ps /\ forall m1 flags fs, mapped m m1 ps flags fs -> mappable m1 qs.
Proof.
  intros [Hwf H0p Hn Hk Hu Hf]. apply NoDup_app in Hn as (Hn1 & Hd & Hn2). apply Forall_app in Hk as [Hk1 Hk2].
  apply Forall_app in Hu as [Hu1 Hu2]. rewrite length_app in Hf. split; [split; try done; lia|].
  intros m1 flags fs Hm. pose proof (mp_free _ _ _ _ _ Hm). split; try done; [apply Hm|by rewrite (mp_pml4 _ _ _ _ _ Hm)| |lia].
  apply Forall_forall. intros q Hq. rewrite (mp_pml4 _ _ _ _ _ Hm), (mp_others _ _ _ _ _ Hm).
  - by apply (proj1 (Forall_forall _ _) Hu2).
  - rewrite page_of_aligned by (apply (proj1 (Forall_forall _ _) Hk2); done). intros Hp. by apply (Hd q).
Qed.

Lemma map_region_app m ps qs flags no_frame no_map :
  map_region m (ps ++ qs) flags no_frame no_map =
  let! m := map_region m ps flags no_frame no_map in map_region m qs flags no_frame no_map.
Proof.
  revert m. induction ps as [|p ps IH]; intros m; [done|]. cbn [app map_region].
  destruct (Elf.new_virt_addr p) as [v|]; [|done]. cbn iota beta.
  destruct (Phys.allocate_frame W (frames m)) as [[a [f|]]|]; [|done..]. cbn iota beta.
  destruct (Virt.map _ _ _ _) as [m1 [[]|]]; [|done]. apply IH.
Qed.

(** A region of unmapped pages of the upper half, each given once, is mapped
    completely when four frames per page are free. *)
Theorem map_region_complete m pages (flags : Z) (no_frame no_map : string) :
  mappable m pages ->
  exists m' fs, map_region m pages flags no_frame no_map = Ret m' /\ mapped m m' pages flags fs.
Proof.
  revert m. induction pages as [|p pages IH]; intros m Hb; cbn [map_region].
  { exists m, []. split; [done|]. apply mapped_nil, Hb. }
  pose proof (mb_kernel _ _ Hb) as [Hk1 Hk]%Forall_cons. pose proof (mb_unmapped _ _ Hb) as [Hu1 _]%Forall_cons.
  pose proof (mb_nodup _ _ Hb) as [Hp _]%NoDup_cons. pose proof (mb_free _ _ Hb) as Hfree. cbn [length] in Hfree.
  destruct (map_one m p flags (mb_wf _ _ Hb) (mb_pml4 _ _ Hb) Hk1 Hu1 ltac:(lia)) as (a & f & m1 & Ha & Hm & Hmap).
  unfold Elf.new_virt_addr. rewrite upper_half by apply Hk1. cbn iota beta. rewrite Ha. cbn iota beta.
  rewrite page_of_aligned by apply Hk1. rewrite Hm.
  destruct (mappable_app m [p] pages Hb) as [_ Hb']. destruct (IH m1 (Hb' m1 flags [f] Hmap)) as (m' & fs & Hr & Hmap').
  exists m', (f :: fs). split; [done|]. apply (mapped_app m m1 m' [p] pages flags [f] fs Hmap Hmap').
  - set_solver.
  - by constructor.
Qed.
End region.

(** ** The demonstration mapper keeps these laws too *)
Lemma demo_mapper_total : @MapperTotal demo_x86 demo_mapper_laws.
Proof.
  split.
  - intros W m pml4 page frame flags _ _ Hal Hun _. cbn [map_to translate demo_x86] in *.
    rewrite demo_page_of, page_of_aligned in Hun by done. destruct (demo_find _ page) as [[f fl]|]; [done|].
    eexists. split; [done|]. simpl. lia.
  - intros W m pml4 page frame flags _. cbn [map_to demo_x86]. destruct (demo_find _ page) as [[f fl]|]; by split.
  - intros a Ha. cbn [virt_addr_new demo_x86]. unfold demo_canonical.
    replace (2 ^ 64 - 2 ^ 47 <=? a) with true; [by rewrite orb_true_r|]. symmetry. apply Z.leb_le. lia.
Qed.

(** A machine with the frames 1 to [n] free and nothing mapped. *)
Definition demo_fresh_mem (W : nat) (n : Z) : Mem := mkMem (Phys.mark_range W (Phys.new W) 1 (n + 1)) ∅ 0.

Lemma demo_fresh_mappable W n pages :
  NoDup pages -> Forall kernel_page pages ->
  (4 * length pages <= Phys.free_frame_count (frames (demo_fresh_mem W n)))%nat ->
  @mappable W demo_x86 (demo_fresh_mem W n) pages.
Proof.
  intros Hn Hk Hf. split; try done.
  - apply Phys.wf_mark_range, Phys.wf_phys_new.
  - apply Forall_forall. intros p _. done.
Qed.
