(* ===== verification/Sched.v ===== *)
(** * The process table and scheduler ([kernel/src/task/scheduler.rs])

    The scheduler's locked state ([Inner]), the per-core slots of
    [arch/x86_64/percpu.rs], the stack-busy flags, the guarded process-box
    slots, the dispatch trace and the per-core hardware registers a context
    switch writes.  Each definition below is one function of the source, or
    the part of it that runs under one acquisition of the scheduler lock; the
    handlers that also run executor tasks, wake endpoints or release memory
    are composed from these in [Kernel].  [core] is the calling core's
    [percpu::core_index()], which is always below [MAX_CORES]. *)
From S2P Require Import Prelude Abi Ring CapTable Virt Process.
Open Scope nat_scope.

(** ** State *)
Record ProcessBox := mkBox {
  box_slot : nat;
  box_process : Process;
}.

Inductive Slot :=
| Empty
| Reserved
| Occupied (process : ProcessBox)
| Zombie (parent : Pid) (status : ExitStatus).

Record Inner := mkInner {
  processes : list Slot;
  generations : list Z;
  ready : RingBuffer Pid;
  current : list (option Pid);
}.

Definition UNASSIGNED : Z := 0xFFFFFFFF.

Record PerCpuSlot := mkPerCpu {
  lapic_id : Z;
  pc_ready : bool;
  ipi_count : Z;
  spin_count : Z;
  pc_current : Z;
  evict_request : Z;
  idle : bool;
  preempt_count : Z;
}.

Definition percpu_new : PerCpuSlot := mkPerCpu UNASSIGNED false 0 0 0 0 false 0.

Definition TRACE_LEN : nat := 24.

Record DispatchTrace := mkTrace {
  seqs : list Z;
  pid_raws : list Z;
  cursor : Z;
}.

Definition trace_new : DispatchTrace :=
  mkTrace (replicate TRACE_LEN 0%Z) (replicate TRACE_LEN 0%Z) 0.

(** What the scheduler does to the outside: inter-processor interrupts and
    console lines. *)
Inductive Event :=
| EvIpi (lapic vector : Z)
| EvSwitched (index core : nat) (rax rbx : Z)
| EvEvictTimeout (core index : nat)
| EvHalt (message : string) (free_frames : nat).

Definition PROCESS_SLOT_COUNT : nat := MAX_PROCESSES * 2.

(** The hardware and per-core cells written by a switch: CR3, TSS.RSP0 and the
    SYSCALL stack slot of each core. *)
Record Hw := mkHw {
  cr3 : list Z;
  rsp0 : list Z;
  kernel_rsp_slots : list Z;
  tsc : Z;
  ticks : Z;
}.

Record Sched := mkSched {
  inner : Inner;
  percpu : list PerCpuSlot;
  stack_busy : list bool;
  process_slot_used : list bool;
  traces : list DispatchTrace;
  last_print_tick : Z;
  hw : Hw;
  events : list Event;
}.

Definition set_inner (s : Sched) (i : Inner) : Sched :=
  mkSched i (percpu s) (stack_busy s) (process_slot_used s) (traces s)
    (last_print_tick s) (hw s) (events s).
Definition set_percpu (s : Sched) (p : list PerCpuSlot) : Sched :=
  mkSched (inner s) p (stack_busy s) (process_slot_used s) (traces s)
    (last_print_tick s) (hw s) (events s).
Definition set_stack_busy (s : Sched) (b : list bool) : Sched :=
  mkSched (inner s) (percpu s) b (process_slot_used s) (traces s)
    (last_print_tick s) (hw s) (events s).
Definition set_process_slot_used (s : Sched) (b : list bool) : Sched :=
  mkSched (inner s) (percpu s) (stack_busy s) b (traces s)
    (last_print_tick s) (hw s) (events s).
Definition set_traces (s : Sched) (t : list DispatchTrace) : Sched :=
  mkSched (inner s) (percpu s) (stack_busy s) (process_slot_used s) t
    (last_print_tick s) (hw s) (events s).
Definition set_last_print_tick (s : Sched) (t : Z) : Sched :=
  mkSched (inner s) (percpu s) (stack_busy s) (process_slot_used s) (traces s)
    t (hw s) (events s).
Definition set_hw (s : Sched) (h : Hw) : Sched :=
  mkSched (inner s) (percpu s) (stack_busy s) (process_slot_used s) (traces s)
    (last_print_tick s) h (events s).
Definition emit (s : Sched) (e : Event) : Sched :=
  mkSched (inner s) (percpu s) (stack_busy s) (process_slot_used s) (traces s)
    (last_print_tick s) (hw s) (events s ++ [e]).

Definition set_processes (i : Inner) (l : list Slot) : Inner :=
  mkInner l (generations i) (ready i) (current i).
Definition set_generations (i : Inner) (l : list Z) : Inner :=
  mkInner (processes i) l (ready i) (current i).
Definition set_ready (i : Inner) (r : RingBuffer Pid) : Inner :=
  mkInner (processes i) (generations i) r (current i).
Definition set_currents (i : Inner) (l : list (option Pid)) : Inner :=
  mkInner (processes i) (generations i) (ready i) l.

(** [map_guarded_scheduler_state] fills the four regions with these values. *)
Definition inner_new : Inner :=
  mkInner (replicate MAX_PROCESSES Empty) (replicate MAX_PROCESSES 0%Z)
    (Ring.new MAX_PROCESSES) (replicate MAX_CORES None).

Definition sched_new : Sched :=
  mkSched inner_new (replicate MAX_CORES percpu_new) (replicate MAX_PROCESSES false)
    (replicate PROCESS_SLOT_COUNT false) (replicate MAX_CORES trace_new) 0
    (mkHw (replicate MAX_CORES 0%Z) (replicate MAX_CORES 0%Z) (replicate MAX_CORES 0%Z) 0 0) [].

(** ** Small accessors used by the operations *)
Definition proc_at (s : Sched) (i : nat) : option Slot := processes (inner s) !! i.
Definition put_slot (s : Sched) (i : nat) (x : Slot) : Sched :=
  set_inner s (set_processes (inner s) (<[i := x]> (processes (inner s)))).
Definition ready_push (s : Sched) (p : Pid) : Sched :=
  set_inner s (set_ready (inner s) (fst (Ring.push MAX_PROCESSES (ready (inner s)) p))).
Definition ready_pop (s : Sched) : Sched * option Pid :=
  let '(r, v) := Ring.pop MAX_PROCESSES (ready (inner s)) in
  (set_inner s (set_ready (inner s) r), v).
Definition current_of (s : Sched) (core : nat) : option Pid :=
  mjoin (current (inner s) !! core).

(** ** [arch/x86_64/percpu.rs] *)
Definition assign_slot (s : Sched) (index : nat) (id : Z) : Sched :=
  set_percpu s (alter (fun p => mkPerCpu id (pc_ready p) (ipi_count p) (spin_count p)
    (pc_current p) (evict_request p) (idle p) (preempt_count p)) index (percpu s)).

Definition is_booted (p : PerCpuSlot) : bool := negb (lapic_id p =? UNASSIGNED)%Z.

(** [core_index] on a core whose initial APIC id is [apic_id]. *)
Definition core_index (s : Sched) (apic_id : Z) : outcome nat :=
  match position (fun p => lapic_id p =? apic_id)%Z (percpu s) with
  | Some i => Ret i
  | None => Panic "this core's LAPIC ID has no assigned percpu slot"
  end.

Definition set_pc_current (p : PerCpuSlot) (v : Z) : PerCpuSlot :=
  mkPerCpu (lapic_id p) (pc_ready p) (ipi_count p) (spin_count p) v
    (evict_request p) (idle p) (preempt_count p).
Definition set_evict_request (p : PerCpuSlot) (v : Z) : PerCpuSlot :=
  mkPerCpu (lapic_id p) (pc_ready p) (ipi_count p) (spin_count p) (pc_current p)
    v (idle p) (preempt_count p).
Definition set_idle (p : PerCpuSlot) (v : bool) : PerCpuSlot :=
  mkPerCpu (lapic_id p) (pc_ready p) (ipi_count p) (spin_count p) (pc_current p)
    (evict_request p) v (preempt_count p).
Definition set_preempt_count (p : PerCpuSlot) (v : Z) : PerCpuSlot :=
  mkPerCpu (lapic_id p) (pc_ready p) (ipi_count p) (spin_count p) (pc_current p)
    (evict_request p) (idle p) v.

(** ** Guarded process boxes *)
Definition PROCESS_BOX_BASE : Z := 0xffff977000000000.
Definition PROCESS_BOX_STRIDE : Z := 0x10000.
Definition process_box_slot_base (slot : nat) : Z :=
  (PROCESS_BOX_BASE + Z.of_nat slot * PROCESS_BOX_STRIDE)%Z.

Definition alloc_process_slot (s : Sched) : outcome (Sched * nat) :=
  match position negb (process_slot_used s) with
  | Some slot => Ret (set_process_slot_used s (<[slot := true]> (process_slot_used s)), slot)
  | None => Panic "out of guarded process slots"
  end.

Definition free_process_slot (s : Sched) (slot : nat) : Sched :=
  set_process_slot_used s (<[slot := false]> (process_slot_used s)).

Definition process_box_new (s : Sched) (process : Process) : outcome (Sched * ProcessBox) :=
  let! '(s, slot) := alloc_process_slot s in Ret (s, mkBox slot process).

(** ** Current process, trace, stack flags *)
Definition pid_or_zero (p : option Pid) : Z := match p with Some p => pid_raw p | None => 0%Z end.

(** One entry written at the cursor, which then advances. *)
Definition trace_push (t : DispatchTrace) (e : Z * Z) : DispatchTrace :=
  let slot := Z.to_nat (cursor t mod Z.of_nat TRACE_LEN) in
  mkTrace (<[slot := fst e]> (seqs t)) (<[slot := snd e]> (pid_raws t)) (wrap64 (cursor t + 1)).

Definition record_dispatch_trace (s : Sched) (core : nat) (p : option Pid) : Sched :=
  set_traces s (alter (fun t => trace_push t (tsc (hw s), pid_or_zero p)) core (traces s)).

Definition set_current (s : Sched) (core : nat) (p : option Pid) : Sched :=
  let s := set_inner s (set_currents (inner s) (<[core := p]> (current (inner s)))) in
  let s := set_percpu s (alter (fun c => set_pc_current c (pid_or_zero p)) core (percpu s)) in
  record_dispatch_trace s core p.

(** [STACK_BUSY[index]] indexes a 16-element array: out of range panics. *)
Definition mark_stack_busy (s : Sched) (index : nat) : outcome Sched :=
  let! _ := index_or_panic (stack_busy s) index in
  Ret (set_stack_busy s (<[index := true]> (stack_busy s))).

Definition clear_stack_busy (s : Sched) (index : nat) : outcome Sched :=
  let! _ := index_or_panic (stack_busy s) index in
  Ret (set_stack_busy s (<[index := false]> (stack_busy s))).

Definition RESCHEDULE_VECTOR : Z := 0x42.

Definition send_ipi (s : Sched) (target vector : Z) : Sched := emit s (EvIpi target vector).

Definition notify_idle_cores (s : Sched) : Sched :=
  foldl (fun s p => if idle p then send_ipi s (lapic_id p) RESCHEDULE_VECTOR else s)
    s (percpu s).

(** ** Allocating and filling table slots *)
Definition slot_allocatable (s : Sched) (i : nat) : bool :=
  match processes (inner s) !! i with
  | Some Empty => negb (default false (stack_busy s !! i))
  | _ => false
  end.

Definition allocate_pid (s : Sched) : Sched * Pid :=
  match position (slot_allocatable s) (seq 0 MAX_PROCESSES) with
  | None => (s, pid_new MAX_PROCESSES 0)
  | Some index =>
      let g := wrap32 (default 0%Z (generations (inner s) !! index) + 1) in
      let s := set_inner s (set_generations (inner s) (<[index := g]> (generations (inner s)))) in
      (put_slot s index Reserved, pid_new index g)
  end.

(** The guard shared by the functions that take a [Pid] from outside. *)
Definition pid_current_generation (s : Sched) (p : Pid) : bool :=
  bool_decide (pid_index p < MAX_PROCESSES) &&
  bool_decide (generations (inner s) !! pid_index p = Some (pid_generation p)).

Definition release_reservation (s : Sched) (p : Pid) : Sched :=
  if pid_current_generation s p then
    match proc_at s (pid_index p) with
    | Some Reserved => put_slot s (pid_index p) Empty
    | _ => s
    end
  else s.

Definition spawn (s : Sched) (process : Process) : outcome (Sched * result unit SyscallError) :=
  let p := pid process in
  let index := pid_index p in
  if decide (MAX_PROCESSES <= index) then Ret (s, Err ResourceExhausted)
  else
    let! '(s, b) := process_box_new s process in
    let s := put_slot s index (Occupied b) in
    let s := ready_push s p in
    Ret (notify_idle_cores s, Ok tt).

Definition spawn_suspended (s : Sched) (process : Process)
    : outcome (Sched * result unit SyscallError) :=
  let index := pid_index (pid process) in
  if decide (MAX_PROCESSES <= index) then Ret (s, Err ResourceExhausted)
  else
    let! '(s, b) := process_box_new s process in
    Ret (put_slot s index (Occupied b), Ok tt).

(** [occupied_mut] hands out a mutable reference: reading is [occupied],
    writing back through it is [put_process]. *)
Definition occupied (s : Sched) (p : Pid) : option ProcessBox :=
  if pid_current_generation s p then
    match proc_at s (pid_index p) with
    | Some (Occupied b) => Some b
    | _ => None
    end
  else None.

Definition put_process (s : Sched) (p : Pid) (b : ProcessBox) (q : Process) : Sched :=
  put_slot s (pid_index p) (Occupied (mkBox (box_slot b) q)).

Definition start_child (s : Sched) (target caller : Pid) : Sched * result unit SyscallError :=
  match occupied s target with
  | None => (s, Err InvalidTarget)
  | Some b =>
      let q := box_process b in
      if bool_decide (parent q <> Some caller) || bool_decide (state q <> Suspended)
      then (s, Err InvalidTarget)
      else
        let s := put_process s target b (set_state q Ready) in
        let s := ready_push s target in
        (notify_idle_cores s, Ok tt)
  end.

(** [with_process] and [with_current_process] run [f] on the control block. *)
Definition with_process {R} (s : Sched) (p : Pid) (f : Process -> Process * R)
    : Sched * option R :=
  match occupied s p with
  | None => (s, None)
  | Some b => let '(q, r) := f (box_process b) in (put_process s p b q, Some r)
  end.

Definition with_current_process {R} (s : Sched) (core : nat) (f : Process -> Process * R)
    : Sched * option R :=
  match current_of s core with
  | None => (s, None)
  | Some p => with_process s p f
  end.

(** ** Dispatching *)
Section dispatch.
Context `{Selectors}.

Definition running_elsewhere (s : Sched) (core : nat) (p : Pid) : bool :=
  existsb (fun c => negb (c =? core) && bool_decide (current_of s c = Some p))
    (seq 0 MAX_CORES).

Definition USER_ADDRESS_END : Z := 0x0000800000000000.

Definition hw_activate (h : Hw) (core : nat) (pml4 : Z) : Hw :=
  mkHw (<[core := pml4]> (cr3 h)) (rsp0 h) (kernel_rsp_slots h) (tsc h) (ticks h).
Definition hw_set_kernel_stack (h : Hw) (core : nat) (top : Z) : Hw :=
  mkHw (cr3 h) (<[core := top]> (rsp0 h)) (kernel_rsp_slots h) (tsc h) (ticks h).
Definition hw_set_syscall_stack (h : Hw) (core : nat) (top : Z) : Hw :=
  mkHw (cr3 h) (rsp0 h) (<[core := top]> (kernel_rsp_slots h)) (tsc h) (ticks h).

(** The result is the table index whose saved frame is resumed, with the two
    registers the switch message prints. *)
Definition switch_to (s : Sched) (core : nat) (p : Pid) : outcome (Sched * (nat * Z * Z)) :=
  assert! negb (running_elsewhere s core p) else "switch_to: double-dispatch";
  let s := set_current s core (Some p) in
  assert! bool_decide (current_of s core = Some p) else "switch_to: current[] clobbered";
  let index := pid_index p in
  let! g := index_or_panic (generations (inner s)) index in
  assert! (g =? pid_generation p)%Z else "switch_to: stale generation";
  let! slot := index_or_panic (processes (inner s)) index in
  match slot with
  | Occupied b =>
      assert! bool_decide (pid (box_process b) = p) else "switch_to: stored pid differs";
      let q := set_state (box_process b) Running in
      let s := put_slot s index (Occupied (mkBox (box_slot b) q)) in
      let top := kernel_stack_top q in
      let pml4 := pml4_frame (address_space q) in
      let s := set_hw s (hw_activate (hw s) core pml4) in
      assert! bool_decide (cr3 (hw s) !! core = Some pml4) else "switch_to: CR3 readback";
      let s := set_hw s (hw_set_kernel_stack (hw s) core top) in
      assert! bool_decide (rsp0 (hw s) !! core = Some top) else "switch_to: TSS readback";
      let s := set_hw s (hw_set_syscall_stack (hw s) core top) in
      assert! bool_decide (kernel_rsp_slots (hw s) !! core = Some top)
        else "switch_to: SYSCALL stack readback";
      let frame := trap_frame q in
      assert! (cs frame =? user_code)%Z else "switch_to: saved cs";
      assert! (rip frame <? USER_ADDRESS_END)%Z else "switch_to: saved rip";
      assert! (ss frame =? user_data)%Z else "switch_to: saved ss";
      assert! (rsp frame <? USER_ADDRESS_END)%Z else "switch_to: saved rsp";
      Ret (s, (index, rax frame, rbx frame))
  | _ => Panic "switch_to named a process that does not exist"
  end.

Definition maybe_print_switch (s : Sched) (core : nat) (index : nat) (vrax vrbx : Z) : Sched :=
  if decide (last_print_tick s + 51 <= ticks (hw s))%Z
  then emit (set_last_print_tick s (ticks (hw s))) (EvSwitched index core vrax vrbx)
  else s.

(** Saving the interrupted process on a tick: no generation check here. *)
Definition preempt_current (s : Sched) (core : nat) (frame : TrapFrame) : outcome Sched :=
  match current_of s core with
  | None => Ret s
  | Some p =>
      let s := set_percpu s (alter (fun c => set_preempt_count c (wrap64 (preempt_count c + 1)))
                               core (percpu s)) in
      let! slot := index_or_panic (processes (inner s)) (pid_index p) in
      match slot with
      | Occupied b =>
          let q := set_state (set_trap_frame (box_process b) frame) Ready in
          Ret (ready_push (put_slot s (pid_index p) (Occupied (mkBox (box_slot b) q))) p)
      | _ => Ret s
      end
  end.

(** The locked part of [on_timer_tick]: [None] resumes the interrupted frame,
    [Some i] the saved frame of table slot [i]. *)
Definition on_timer_tick_locked (s : Sched) (core : nat) (frame : TrapFrame)
    : outcome (Sched * option nat) :=
  let! s := preempt_current s core frame in
  match ready_pop s with
  | (s, Some next) =>
      let! '(s, (index, vrax, vrbx)) := switch_to s core next in
      Ret (maybe_print_switch s core index vrax vrbx, Some index)
  | (s, None) => Ret (s, None)
  end.
End dispatch.

Definition all_processes_empty (s : Sched) : bool :=
  forallb (fun x => match x with Empty => true | _ => false end) (processes (inner s)).

(** ** Waking and blocking *)
Definition apply_wake_result (q : Process) (r : WakeResult) : Process :=
  let f := trap_frame q in
  let f' :=
    match r with
    | SendCompleted => set_rax f 0
    | RecvCompleted t w0 w1 w2 => set_results (set_rax f 0) t w0 w1 w2
    | WaitCompleted status =>
        let '(kind, code) := to_regs status in
        set_results (set_rax f 0) kind code (rdx f) (r10 f)
    | WakePeerClosed => set_rax f (retval_u64 PeerClosed)
    end in
  set_state (set_trap_frame q f') Ready.

Definition wake_blocked_process_locked (s : Sched) (p : Pid) (r : WakeResult) : Sched :=
  match occupied s p with
  | None => s
  | Some b =>
      let q := box_process b in
      if bool_decide (state q <> Blocked)
      then put_process s p b (set_pending_wake q (Some r))
      else
        let s := put_process s p b (apply_wake_result q r) in
        notify_idle_cores (ready_push s p)
  end.

Definition block_current_process_locked (s : Sched) (core : nat) (frame : TrapFrame)
    : outcome Sched :=
  match current_of s core with
  | None => Ret s
  | Some p =>
      let! slot := index_or_panic (processes (inner s)) (pid_index p) in
      let s :=
        match slot with
        | Occupied b =>
            let q := set_state (set_trap_frame (box_process b) frame) Blocked in
            match pending_wake q with
            | Some pending =>
                let q := apply_wake_result (set_pending_wake q None) pending in
                notify_idle_cores
                  (ready_push (put_slot s (pid_index p) (Occupied (mkBox (box_slot b) q))) p)
            | None => put_slot s (pid_index p) (Occupied (mkBox (box_slot b) q))
            end
        | _ => s
        end in
      Ret (set_current s core None)
  end.

(** [wait_for_child] up to the point where it either answers in the caller's
    frame ([Some]) or has blocked the caller ([None]) and must switch away. *)
Definition wait_for_child_locked (s : Sched) (core : nat) (frame : TrapFrame)
    (target caller : Pid) : outcome (Sched * option TrapFrame) :=
  let index := pid_index target in
  if negb (pid_current_generation s target)
  then Ret (s, Some (set_rax frame (retval_u64 InvalidTarget)))
  else
    match proc_at s index with
    | Some (Zombie par status) =>
        if decide (par = caller) then
          let '(kind, code) := to_regs status in
          Ret (put_slot s index Empty,
               Some (set_results (set_rax frame 0) kind code (rdx frame) (r10 frame)))
        else Ret (s, Some (set_rax frame (retval_u64 InvalidTarget)))
    | Some (Occupied b) =>
        if decide (parent (box_process b) = Some caller) then
          let s := put_slot s index
            (Occupied (mkBox (box_slot b) (set_wait_waiter (box_process b) (Some caller)))) in
          let! s := block_current_process_locked s core frame in
          Ret (s, None)
        else Ret (s, Some (set_rax frame (retval_u64 InvalidTarget)))
    | _ => Ret (s, Some (set_rax frame (retval_u64 InvalidTarget)))
    end.

(** ** Termination *)
Fixpoint drain_ready (fuel : nat) (r kept : RingBuffer Pid) (target : Pid) : RingBuffer Pid :=
  match fuel with
  | O => kept
  | S fuel =>
      match Ring.pop MAX_PROCESSES r with
      | (r, Some p) =>
          drain_ready fuel r
            (if decide (p <> target) then fst (Ring.push MAX_PROCESSES kept p) else kept) target
      | (_, None) => kept
      end
  end.

(** The loop pops one element per turn, so [len + 1] turns empty the queue. *)
Definition remove_from_ready_queue (s : Sched) (target : Pid) : Sched :=
  set_inner s (set_ready (inner s)
    (drain_ready (len (ready (inner s)) + 1) (ready (inner s)) (Ring.new MAX_PROCESSES) target)).

Definition clear_current_everywhere (s : Sched) (p : Pid) : Sched :=
  foldl (fun s core => if decide (current_of s core = Some p) then set_current s core None else s)
    s (seq 0 MAX_CORES).

(** The body of [reap_children_of]'s loop for one index, given the recursive
    call that finalizes an orphaned suspended child. *)
Definition reap_one
    (finalize : Sched -> Pid -> ExitStatus -> list ProcessBox -> outcome (Sched * list ProcessBox))
    (exiting : Pid) (st : Sched * list ProcessBox) (index : nat)
    : outcome (Sched * list ProcessBox) :=
  let '(s, drops) := st in
  match proc_at s index with
  | Some (Occupied b) =>
      let q := box_process b in
      if bool_decide (parent q = Some exiting) && bool_decide (state q = Suspended) then
        finalize s (pid_new index (default 0%Z (generations (inner s) !! index))) Killed drops
      else if bool_decide (parent q = Some exiting) then
        Ret (put_slot s index (Occupied (mkBox (box_slot b) (set_parent q None))), drops)
      else Ret (s, drops)
  | Some (Zombie par _) =>
      if decide (par = exiting) then Ret (put_slot s index Empty, drops) else Ret (s, drops)
  | _ => Ret (s, drops)
  end.

Fixpoint reap_loop
    (finalize : Sched -> Pid -> ExitStatus -> list ProcessBox -> outcome (Sched * list ProcessBox))
    (exiting : Pid) (st : Sched * list ProcessBox) (indices : list nat)
    : outcome (Sched * list ProcessBox) :=
  match indices with
  | [] => Ret st
  | i :: rest => let! st := reap_one finalize exiting st i in reap_loop finalize exiting st rest
  end.

(** [take_and_finalize_slot] and [reap_children_of] call each other; [fuel]
    bounds the nesting, which is at most one per occupied slot. *)
Fixpoint take_and_finalize_slot (fuel : nat) (s : Sched) (p : Pid) (status : ExitStatus)
    (drops : list ProcessBox) : outcome (Sched * list ProcessBox) :=
  match fuel with
  | O => Panic "nesting bound exceeded"
  | S fuel =>
      let index := pid_index p in
      let! slot := index_or_panic (processes (inner s)) index in
      match slot with
      | Occupied b =>
          let q := box_process b in
          let s := put_slot s index Empty in
          let s := remove_from_ready_queue s p in
          let s := clear_current_everywhere s p in
          let s :=
            match wait_waiter q with
            | Some waiter => wake_blocked_process_locked s waiter (WaitCompleted status)
            | None =>
                match parent q with
                | Some par => put_slot s index (Zombie par status)
                | None => s
                end
            end in
          let! '(s, drops) :=
            reap_loop (take_and_finalize_slot fuel) p (s, drops) (seq 0 MAX_PROCESSES) in
          Ret (s, drops ++ [b])
      | _ => Ret (s, drops)
      end
  end.

Definition finalize_slot (s : Sched) (p : Pid) (status : ExitStatus)
    : outcome (Sched * list ProcessBox) :=
  take_and_finalize_slot (S MAX_PROCESSES) s p status [].

(** First critical section of [terminate_process]. *)
Definition kill_permitted (s : Sched) (target caller : Pid) : bool :=
  match occupied s target with
  | Some b => bool_decide (parent (box_process b) = Some caller)
  | None => false
  end.

(** One turn of [terminate_process]'s loop under the lock: the core running
    the target, or the target finalized. *)
Definition kill_scan (s : Sched) (target : Pid)
    : outcome (Sched * list ProcessBox * option nat) :=
  match position (fun core => bool_decide (current_of s core = Some target)) (seq 0 MAX_CORES) with
  | Some core => Ret (s, [], Some core)
  | None => let! '(s, drops) := finalize_slot s target Killed in Ret (s, drops, None)
  end.

(** Asking another core to give up its process. *)
Definition request_eviction (s : Sched) (core : nat) (target : Pid) : Sched :=
  let s := set_percpu s (alter (fun c => set_evict_request c (pid_raw target)) core (percpu s)) in
  send_ipi s (from_option lapic_id 0%Z (percpu s !! core)) RESCHEDULE_VECTOR.

(** Start of [on_reschedule_ipi]: [None] resumes the interrupted frame,
    [Some i] means slot [i]'s process was evicted and the core must switch. *)
Definition reschedule_ipi_locked (s : Sched) (core : nat) : outcome (Sched * option nat) :=
  let evict := from_option evict_request 0%Z (percpu s !! core) in
  let s := set_percpu s (alter (fun c => set_evict_request c 0) core (percpu s)) in
  if (evict =? 0)%Z || bool_decide (pid_raw <$> current_of s core <> Some evict)
  then Ret (s, None)
  else
    let s := set_current s core None in
    let! s := mark_stack_busy s (pid_index (mkPid evict)) in
    Ret (s, Some (pid_index (mkPid evict))).

(** ** Panic-time dump of one core's dispatch trace, oldest first *)
Definition dispatch_trace_dump (t : DispatchTrace) : list (Z * Z) :=
  let n := Z.of_nat TRACE_LEN in
  let recorded := Z.to_nat (Z.min (cursor t) n) in
  let start := if decide (cursor t <= n)%Z then 0%Z else (cursor t mod n)%Z in
  (fun i => let slot := Z.to_nat ((start + Z.of_nat i) mod n) in
            (default 0%Z (seqs t !! slot), default 0%Z (pid_raws t !! slot)))
  <$> seq 0 recorded.

#[global] Arguments clear_current_everywhere : simpl never.
#[global] Arguments finalize_slot : simpl never.
