(* ===== verification/SchedAbs.v ===== *)
(** * The abstract scheduler: table, queue, running processes

    What the scheduler promises, free of registers, memory and encodings: a
    table of identified processes with their states, the queue of ready
    processes and the process each core runs.  [ainv] is the consistency of
    the three; the lemmas are its preservation by the moves the scheduler is
    made of.  [SchedInv] shows that the operations of [Sched] implement
    them. *)
From S2P Require Import Prelude Process.
Open Scope nat_scope.

Abbreviation table := (list (option (Pid * ProcessState))).

(** A process sits at the index of its identifier, under the slot's current
    generation; the queue lists the [Ready] processes once each; a core runs a
    [Running] process, no process being run by two cores. *)
Record ainv (T : table) (G : list Z) (Q : list Pid) (C : list (option Pid)) : Prop := {
  ai_table : length T = MAX_PROCESSES;
  ai_gens : length G = MAX_PROCESSES;
  ai_cores : length C = MAX_CORES;
  ai_width : Forall is_u32 G;
  ai_pid : forall i p st, T !! i = Some (Some (p, st)) ->
    exists g, G !! i = Some g /\ p = pid_new i g;
  ai_nodup : NoDup Q;
  ai_queue : forall p, p ∈ Q <-> exists i, T !! i = Some (Some (p, Ready));
  ai_running : forall c p, C !! c = Some (Some p) -> exists i, T !! i = Some (Some (p, Running));
  ai_unique : forall c1 c2 p, C !! c1 = Some (Some p) -> C !! c2 = Some (Some p) -> c1 = c2;
}.

Section ainv.
Context {T : table} {G : list Z} {Q : list Pid} {C : list (option Pid)}.
Hypothesis HI : ainv T G Q C.

Lemma ai_index i p st : T !! i = Some (Some (p, st)) -> i < MAX_PROCESSES.
Proof. intros Hi. apply lookup_lt_Some in Hi. by rewrite (ai_table _ _ _ _ HI) in Hi. Qed.

Lemma small_index i : i < MAX_PROCESSES -> (Z.of_nat i < 2 ^ 32)%Z.
Proof. unfold MAX_PROCESSES. lia. Qed.

Lemma ai_pid_index i p st : T !! i = Some (Some (p, st)) -> pid_index p = i.
Proof.
  intros Hi. destruct (ai_pid _ _ _ _ HI i p st Hi) as (g & _ & ->).
  apply pid_index_new. eapply small_index, ai_index, Hi.
Qed.

Lemma ai_pid_generation i p st :
  T !! i = Some (Some (p, st)) -> G !! i = Some (pid_generation p).
Proof.
  intros Hi. destruct (ai_pid _ _ _ _ HI i p st Hi) as (g & Hg & ->). rewrite Hg. f_equal.
  symmetry. apply pid_generation_new; [eapply small_index, ai_index, Hi|].
  by apply (Forall_lookup_1 _ _ _ _ (ai_width _ _ _ _ HI) Hg).
Qed.

Lemma ai_inj i j p st st' :
  T !! i = Some (Some (p, st)) -> T !! j = Some (Some (p, st')) -> i = j /\ st = st'.
Proof.
  intros Hi Hj. pose proof (ai_pid_index i p st Hi). pose proof (ai_pid_index j p st' Hj).
  simplify_eq. done.
Qed.

(** Distinct queue entries sit in distinct slots, so a process that is not
    ready leaves room in the queue. *)
Lemma ai_room i p st : T !! i = Some (Some (p, st)) -> st <> Ready -> length Q < MAX_PROCESSES.
Proof.
  intros Hi Hst. rewrite <- (ai_table _ _ _ _ HI).
  assert (NoDup (i :: (pid_index <$> Q))) as Hnd.
  { apply NoDup_cons. split.
    - intros (q & -> & Hq)%list_elem_of_fmap. apply (ai_queue _ _ _ _ HI) in Hq as [j Hj].
      rewrite (ai_pid_index j q Ready Hj) in Hi. simplify_eq.
    - apply NoDup_fmap_2_strong; [|apply (ai_nodup _ _ _ _ HI)].
      intros q q' [j Hj]%(ai_queue _ _ _ _ HI) [j' Hj']%(ai_queue _ _ _ _ HI) Heq.
      rewrite (ai_pid_index j q Ready Hj), (ai_pid_index j' q' Ready Hj') in Heq. by simplify_eq. }
  assert (length (i :: (pid_index <$> Q)) <= length (seq 0 (length T))) as Hle.
  { apply submseteq_length, NoDup_submseteq; [done|].
    intros k [->|(q & -> & Hq)%list_elem_of_fmap]%elem_of_cons; apply elem_of_seq.
    - split; [lia|]. by apply lookup_lt_Some in Hi.
    - apply (ai_queue _ _ _ _ HI) in Hq as [j Hj]. rewrite (ai_pid_index j q Ready Hj).
      apply lookup_lt_Some in Hj. lia. }
  simpl in Hle. rewrite length_fmap, length_seq in Hle. lia.
Qed.

Lemma ai_not_queued i p st : T !! i = Some (Some (p, st)) -> st <> Ready -> p ∉ Q.
Proof.
  intros Hi Hst [j Hj]%(ai_queue _ _ _ _ HI). by destruct (ai_inj i j p st Ready Hi Hj) as [_ ->].
Qed.

Lemma ai_not_running i p st c :
  T !! i = Some (Some (p, st)) -> st <> Running -> C !! c <> Some (Some p).
Proof.
  intros Hi Hst [j Hj]%(ai_running _ _ _ _ HI). by destruct (ai_inj i j p st Running Hi Hj) as [_ ->].
Qed.

(** Looking up another slot's process is unaffected by writing slot [i]. *)
Lemma table_insert_other i p st v q st' :
  T !! i = Some (Some (p, st)) -> q <> p ->
  (exists j, <[i := v]> T !! j = Some (Some (q, st'))) <->
  (exists j, T !! j = Some (Some (q, st'))) \/ v = Some (q, st').
Proof.
  intros Hi Hne. pose proof (lookup_lt_Some _ _ _ Hi) as Hlt. split.
  - intros [j Hj]. apply list_lookup_insert_Some in Hj as [(-> & -> & _)|[_ Hj]]; [by right|].
    left. by exists j.
  - intros [[j Hj]| ->].
    + exists j. rewrite list_lookup_insert_ne; [done|]. intros ->. by simplify_eq.
    + exists i. by rewrite list_lookup_insert_eq.
Qed.

(** ** Moves *)
Lemma ainv_set_pid i p st st' :
  T !! i = Some (Some (p, st)) ->
  forall j q sq, <[i := Some (p, st')]> T !! j = Some (Some (q, sq)) ->
  exists g, G !! j = Some g /\ q = pid_new j g.
Proof.
  intros Hi j q sq Hj. apply list_lookup_insert_Some in Hj as [(-> & ? & _)|[_ Hj]].
  - simplify_eq. by apply (ai_pid _ _ _ _ HI j q st).
  - by apply (ai_pid _ _ _ _ HI j q sq).
Qed.

(** A process not run by any core becomes ready and is queued last. *)
Lemma ainv_enqueue i p st :
  T !! i = Some (Some (p, st)) -> st <> Ready -> (forall c, C !! c <> Some (Some p)) ->
  ainv (<[i := Some (p, Ready)]> T) G (Q ++ [p]) C.
Proof.
  intros Hi Hst Hnc. pose proof (ai_not_queued i p st Hi Hst) as Hnq.
  pose proof (lookup_lt_Some _ _ _ Hi) as Hlt.
  destruct HI as [H1 H2 H3 H4 H5 H6 H7 H8 H9]. split; try done.
  - by rewrite length_insert.
  - by eapply ainv_set_pid.
  - apply NoDup_app. split_and!; [done| |apply NoDup_singleton].
    intros q Hq ->%list_elem_of_singleton. done.
  - intros q. rewrite elem_of_app, list_elem_of_singleton. destruct (decide (q = p)) as [->|Hne].
    + split; [|by right]. intros _. exists i. by rewrite list_lookup_insert_eq.
    + rewrite (table_insert_other i p st _ q Ready Hi Hne), H7. naive_solver.
  - intros c q Hc. destruct (decide (q = p)) as [->|Hne]; [by destruct (Hnc c)|].
    rewrite (table_insert_other i p st _ q Running Hi Hne). left. by apply (H8 c).
Qed.

(** A process that no core runs changes between states other than [Ready]. *)
Lemma ainv_set_state i p st st' :
  T !! i = Some (Some (p, st)) -> st <> Ready -> st' <> Ready -> (forall c, C !! c <> Some (Some p)) ->
  ainv (<[i := Some (p, st')]> T) G Q C.
Proof.
  intros Hi Hst Hst' Hnc. pose proof (ai_not_queued i p st Hi Hst) as Hnq.
  pose proof (lookup_lt_Some _ _ _ Hi) as Hlt.
  pose proof (ainv_set_pid i p st st' Hi) as Hpid.
  destruct HI as [H1 H2 H3 H4 H5 H6 H7 H8 H9]. split; try done.
  - by rewrite length_insert.
  - intros q. destruct (decide (q = p)) as [->|Hne].
    + split; [done|]. intros [j Hj].
      apply list_lookup_insert_Some in Hj as [(_ & ? & _)|[? Hj]]; [by simplify_eq|].
      destruct (ai_inj i j p st Ready Hi Hj); by subst.
    + rewrite (table_insert_other i p st _ q Ready Hi Hne), H7. naive_solver.
  - intros c q Hc. destruct (decide (q = p)) as [->|Hne]; [by destruct (Hnc c)|].
    rewrite (table_insert_other i p st _ q Running Hi Hne). left. by apply (H8 c).
Qed.

(** Some cores stop running their process. *)
Lemma ainv_sub_current C' :
  length C' = MAX_CORES ->
  (forall c p, C' !! c = Some (Some p) -> C !! c = Some (Some p)) ->
  ainv T G Q C'.
Proof.
  intros Hlen Hsub. destruct HI as [H1 H2 H3 H4 H5 H6 H7 H8 H9]. split; try done.
  - intros c p Hc. apply (H8 c). by apply Hsub.
  - intros c1 c2 p Hc1 Hc2. apply (H9 c1 c2 p); by apply Hsub.
Qed.

Lemma ainv_clear_current c : ainv T G Q (<[c := None]> C).
Proof.
  apply ainv_sub_current; [by rewrite length_insert, (ai_cores _ _ _ _ HI)|].
  intros c' p Hc'. by apply list_lookup_insert_Some in Hc' as [(_ & ? & _)|[_ ?]].
Qed.

(** The process leaves the table, the queue and every core. *)
Lemma ainv_remove i p st C' :
  T !! i = Some (Some (p, st)) -> length C' = MAX_CORES ->
  (forall c q, C' !! c = Some (Some q) -> C !! c = Some (Some q) /\ q <> p) ->
  ainv (<[i := None]> T) G (filter (fun q => q <> p) Q) C'.
Proof.
  intros Hi Hlen Hsub. pose proof (lookup_lt_Some _ _ _ Hi) as Hlt.
  destruct HI as [H1 H2 H3 H4 H5 H6 H7 H8 H9]. split; try done.
  - by rewrite length_insert.
  - intros j q sq Hj. apply list_lookup_insert_Some in Hj as [(_ & ? & _)|[_ Hj]]; [done|].
    by apply (H5 j q sq).
  - by apply NoDup_filter.
  - intros q. rewrite list_elem_of_filter. destruct (decide (q = p)) as [->|Hne].
    + split; [by intros [? _]|]. intros [j Hj].
      apply list_lookup_insert_Some in Hj as [(_ & ? & _)|[? Hj]]; [done|].
      destruct (ai_inj i j p st Ready Hi Hj); by subst.
    + rewrite (table_insert_other i p st _ q Ready Hi Hne), H7. naive_solver.
  - intros c q [Hc Hne]%Hsub. rewrite (table_insert_other i p st _ q Running Hi Hne).
    left. by apply (H8 c).
  - intros c1 c2 q [Hc1 _]%Hsub [Hc2 _]%Hsub. by apply (H9 c1 c2 q).
Qed.

(** A new process enters a free slot, suspended. *)
Lemma ainv_add i g :
  T !! i = Some None -> G !! i = Some g -> ainv (<[i := Some (pid_new i g, Suspended)]> T) G Q C.
Proof.
  intros Hi Hg. pose proof (lookup_lt_Some _ _ _ Hi) as Hlt.
  destruct HI as [H1 H2 H3 H4 H5 H6 H7 H8 H9]. 
  assert (forall q st, st <> Suspended ->
    ((exists j, <[i := Some (pid_new i g, Suspended)]> T !! j = Some (Some (q, st))) <->
     exists j, T !! j = Some (Some (q, st)))) as Hother.
  { intros q st Hst. split; intros [j Hj].
    - apply list_lookup_insert_Some in Hj as [(_ & ? & _)|[_ Hj]]; [by simplify_eq|]. by exists j.
    - exists j. rewrite list_lookup_insert_ne; [done|]. by intros ->; simplify_eq. }
  split; try done.
  - by rewrite length_insert.
  - intros j q sq Hj. apply list_lookup_insert_Some in Hj as [(-> & ? & _)|[_ Hj]];
      [by simplify_eq; exists g|by apply (H5 j q sq)].
  - intros q. by rewrite Hother.
  - intros c q Hc. rewrite Hother by done. by apply (H8 c).
Qed.

(** A free slot's generation advances. *)
Lemma ainv_generation i g : T !! i = Some None -> is_u32 g -> ainv T (<[i := g]> G) Q C.
Proof.
  intros Hi Hg. destruct HI as [H1 H2 H3 H4 H5 H6 H7 H8 H9]. split; try done.
  - by rewrite length_insert.
  - by apply Forall_insert.
  - intros j p st Hj. destruct (H5 j p st Hj) as (g' & Hg' & ->). exists g'.
    split; [|done]. rewrite list_lookup_insert_ne; [done|]. by intros ->; simplify_eq.
Qed.
End ainv.

(** The head of the queue is dispatched on a core that runs nothing. *)
Lemma ainv_dispatch T G Q C p c :
  ainv T G (p :: Q) C -> C !! c = Some None ->
  exists i, T !! i = Some (Some (p, Ready)) /\
    ainv (<[i := Some (p, Running)]> T) G Q (<[c := Some p]> C).
Proof.
  intros HI Hc. destruct (proj1 (ai_queue _ _ _ _ HI p)) as [i Hi]; [by left|].
  exists i. split; [done|]. pose proof (lookup_lt_Some _ _ _ Hi) as Hlt.
  pose proof (ainv_set_pid HI i p Ready Running Hi) as Hpid.
  pose proof (fun c => ai_not_running HI i p Ready c Hi ltac:(done)) as Hnr.
  pose proof (table_insert_other (T := T) i p Ready) as Hother.
  pose proof (ai_inj HI) as Hinj.
  destruct HI as [H1 H2 H3 H4 H5 [Hnp H6]%NoDup_cons H7 H8 H9]. split; try done.
  - by rewrite length_insert.
  - by rewrite length_insert.
  - intros q. destruct (decide (q = p)) as [->|Hne].
    + split; [done|]. intros [j Hj].
      apply list_lookup_insert_Some in Hj as [(_ & ? & _)|[? Hj]]; [by simplify_eq|].
      destruct (Hinj i j p Ready Ready Hi Hj); by subst.
    + rewrite (Hother _ q Ready Hi Hne), <- H7, elem_of_cons. naive_solver.
  - intros c' q Hq. apply list_lookup_insert_Some in Hq as [(-> & ? & _)|[_ Hq]].
    + simplify_eq. exists i. by rewrite list_lookup_insert_eq.
    + destruct (decide (q = p)) as [->|Hne]; [by destruct (Hnr c')|].
      rewrite (Hother _ q Running Hi Hne). left. by apply (H8 c').
  - intros c1 c2 q Hc1 Hc2.
    apply list_lookup_insert_Some in Hc1 as [(<- & ? & _)|[? Hc1]];
    apply list_lookup_insert_Some in Hc2 as [(<- & ? & _)|[? Hc2]]; simplify_eq; try done.
    + by destruct (Hnr c2).
    + by destruct (Hnr c1).
    + by apply (H9 c1 c2 q).
Qed.
