(* ===== verification/SchedInv.v ===== *)
(** * The scheduler keeps its table, queue and cores consistent

    [rep] relates a concrete scheduler state to the abstract one of
    [SchedAbs]; [inv] is that relation with the abstract invariant and the
    shape of the per-core arrays.  Every operation of [Sched] is shown to
    preserve [inv], and under it to return: no index is out of range, no
    ready-queue push is refused, and no scheduling assertion of [switch_to]
    fails. *)
From S2P Require Import Prelude Abi Ring CapTable Virt Process Sched SchedAbs.
Open Scope nat_scope.

Definition slot_view (x : Slot) : option (Pid * ProcessState) :=
  match x with
  | Occupied b => Some (pid (box_process b), state (box_process b))
  | _ => None
  end.

Definition view (s : Sched) : table := slot_view <$> processes (inner s).

Record rep (s : Sched) (T : table) (G : list Z) (Q : list Pid) (C : list (option Pid)) : Prop := {
  rep_view : view s = T;
  rep_gens : generations (inner s) = G;
  rep_ready : Ring.ring_repr MAX_PROCESSES (ready (inner s)) Q;
  rep_current : current (inner s) = C;
}.

(** Identifiers stored in the table are 64-bit values. *)
Definition slot_ok (x : Slot) : Prop :=
  match x with
  | Occupied b => from_option pid_ok True (wait_waiter (box_process b))
  | _ => True
  end.

(** The lock-free mirror agrees with [current], and the arrays have the
    lengths of their types. *)
Record aux (s : Sched) : Prop := {
  aux_percpu : length (percpu s) = MAX_CORES;
  aux_mirror : forall c x, percpu s !! c = Some x -> pc_current x = pid_or_zero (current_of s c);
  aux_busy : length (stack_busy s) = MAX_PROCESSES;
  aux_cr3 : length (cr3 (hw s)) = MAX_CORES;
  aux_rsp0 : length (rsp0 (hw s)) = MAX_CORES;
  aux_krsp : length (kernel_rsp_slots (hw s)) = MAX_CORES;
  aux_boxes : length (process_slot_used s) = PROCESS_SLOT_COUNT;
  aux_slots : Forall slot_ok (processes (inner s));
}.

Definition inv (s : Sched) : Prop :=
  aux s /\ exists T G Q C, rep s T G Q C /\ ainv T G Q C.

(** ** Primitive updates *)
Lemma rep_put_slot s T G Q C i x :
  rep s T G Q C -> rep (put_slot s i x) (<[i := slot_view x]> T) G Q C.
Proof. intros [Hv Hg Hr Hc]. split; simpl; [|done..]. unfold view in *. simpl.
  by rewrite list_fmap_insert, Hv. Qed.

Lemma rep_ready_push s T G Q C p :
  rep s T G Q C -> length Q < MAX_PROCESSES -> rep (ready_push s p) T G (Q ++ [p]) C.
Proof.
  intros [Hv Hg Hr Hc] Hlt. unfold ready_push.
  destruct (Ring.ring_repr_push _ _ _ p Hr Hlt) as (r' & -> & Hr'). by split.
Qed.

Lemma rep_ready_pop s T G Q C p :
  rep s T G (p :: Q) C -> exists s', ready_pop s = (s', Some p) /\ rep s' T G Q C.
Proof.
  intros [Hv Hg Hr Hc]. unfold ready_pop.
  destruct (Ring.ring_repr_pop _ _ _ _ Hr) as (r' & -> & Hr').
  eexists. split; [done|]. by split.
Qed.

Lemma rep_ready_pop_nil s T G C : rep s T G [] C -> exists s', ready_pop s = (s', None) /\ rep s' T G [] C.
Proof.
  intros [Hv Hg Hr Hc]. unfold ready_pop. rewrite (Ring.ring_repr_pop_nil _ _ Hr).
  eexists. split; [done|]. by split.
Qed.

Lemma rep_set_current s T G Q C c p :
  rep s T G Q C -> rep (set_current s c p) T G Q (<[c := p]> C).
Proof. intros [Hv Hg Hr Hc]. split; simpl; [done..|]. by rewrite Hc. Qed.

Lemma notify_idle_cores_eq s :
  exists evs, notify_idle_cores s =
    mkSched (inner s) (percpu s) (stack_busy s) (process_slot_used s) (traces s)
      (last_print_tick s) (hw s) evs.
Proof.
  unfold notify_idle_cores. generalize (percpu s) at 1 as l. intros l. revert s.
  induction l as [|p l IH]; intros s; simpl; [exists (events s); by destruct s|].
  destruct (idle p); [|apply IH]. destruct (IH (send_ipi s (lapic_id p) RESCHEDULE_VECTOR)) as [evs ->].
  by exists evs.
Qed.

Lemma rep_notify s T G Q C : rep s T G Q C -> rep (notify_idle_cores s) T G Q C.
Proof. intros [Hv Hg Hr Hc]. destruct (notify_idle_cores_eq s) as [evs ->]. by split. Qed.

Lemma aux_notify s : aux s -> aux (notify_idle_cores s).
Proof. intros []. destruct (notify_idle_cores_eq s) as [evs ->]. by split. Qed.

Lemma aux_put_slot s i x : slot_ok x -> aux s -> aux (put_slot s i x).
Proof. intros Hx []. split; try done. by apply Forall_insert. Qed.

Lemma slot_ok_lookup s i x : aux s -> processes (inner s) !! i = Some x -> slot_ok x.
Proof. intros Ha Hx. by apply (Forall_lookup_1 _ _ _ _ (aux_slots _ Ha) Hx). Qed.

Lemma aux_ready_push s p : aux s -> aux (ready_push s p).
Proof. intros []. by split. Qed.

Lemma aux_ready_pop s s' o : ready_pop s = (s', o) -> aux s -> aux s'.
Proof. unfold ready_pop. destruct (Ring.pop _ _). intros [= <- <-] []. by split. Qed.

Lemma current_of_set_current s c c' p :
  c < length (current (inner s)) ->
  current_of (set_current s c p) c' = if decide (c = c') then p else current_of s c'.
Proof.
  intros Hc. unfold current_of. simpl. case_decide as Hcc.
  - subst c'. by rewrite list_lookup_insert_eq.
  - by rewrite list_lookup_insert_ne.
Qed.

Lemma aux_set_current s c p :
  length (current (inner s)) = MAX_CORES -> aux s -> aux (set_current s c p).
Proof.
  intros Hlen [Hp Hm Hb H1 H2 H3 H4 H5]. split; simpl; rewrite ?length_alter; try done.
  intros c' x Hx. destruct (decide (c < MAX_CORES)) as [Hc|Hc].
  - rewrite current_of_set_current by lia. destruct (decide (c = c')) as [->|Hne].
    + rewrite list_lookup_alter_eq in Hx. destruct (percpu s !! c'); simplify_eq/=. done.
    + rewrite list_lookup_alter_ne in Hx by done. by apply Hm.
  - assert (c' <> c). { intros ->. apply lookup_lt_Some in Hx. rewrite length_alter in Hx. lia. }
    rewrite list_lookup_alter_ne in Hx by done. rewrite (Hm c' x Hx).
    unfold current_of. simpl. by rewrite list_lookup_insert_ne.
Qed.

Create HintDb sched.
#[export] Hint Resolve rep_put_slot rep_notify rep_set_current aux_notify aux_put_slot
  aux_ready_push : sched.

(** ** Looking up processes *)
Lemma view_lookup s i x : processes (inner s) !! i = Some x -> view s !! i = Some (slot_view x).
Proof. intros Hx. unfold view. by rewrite list_lookup_fmap, Hx. Qed.

Lemma view_Some s i p st :
  view s !! i = Some (Some (p, st)) ->
  exists b, processes (inner s) !! i = Some (Occupied b) /\
    pid (box_process b) = p /\ state (box_process b) = st.
Proof.
  unfold view. rewrite list_lookup_fmap. destruct (processes (inner s) !! i) as [x|]; [|done].
  destruct x; simpl; intros Heq; simplify_eq. by eexists.
Qed.

Lemma view_None s i x : processes (inner s) !! i = Some x -> slot_view x = None -> view s !! i = Some None.
Proof. intros Hx Hn. by rewrite (view_lookup s i x Hx), Hn. Qed.

Lemma pid_current_generation_true s p :
  pid_current_generation s p = true <->
  pid_index p < MAX_PROCESSES /\ generations (inner s) !! pid_index p = Some (pid_generation p).
Proof.
  unfold pid_current_generation. by rewrite andb_true_iff, !bool_decide_eq_true.
Qed.

Lemma occupied_lookup s p b :
  occupied s p = Some b -> processes (inner s) !! pid_index p = Some (Occupied b).
Proof.
  unfold occupied, proc_at. destruct (pid_current_generation s p); [|done].
  destruct (processes (inner s) !! pid_index p) as [[]|]; intros; by simplify_eq.
Qed.

Lemma ready_pop_same s s' o :
  ready_pop s = (s', o) -> processes (inner s') = processes (inner s) /\
    current (inner s') = current (inner s).
Proof. unfold ready_pop. destruct (Ring.pop _ _). by intros [= <- <-]. Qed.

(** What [occupied] finds: the process of that very identifier. *)
Lemma occupied_Some s T G Q C p b :
  rep s T G Q C -> ainv T G Q C -> pid_ok p -> occupied s p = Some b ->
  processes (inner s) !! pid_index p = Some (Occupied b) /\ pid (box_process b) = p.
Proof.
  intros [Hv Hg _ _] HI Hp Hocc. unfold occupied, proc_at in Hocc.
  destruct (pid_current_generation s p) eqn:Hcg; [|done].
  apply pid_current_generation_true in Hcg as [Hlt Hgen].
  destruct (processes (inner s) !! pid_index p) as [[]|] eqn:Hx; simplify_eq.
  split; [done|]. apply view_lookup in Hx. simpl in Hx.
  destruct (ai_pid _ _ _ _ HI _ _ _ Hx) as (g & Hg' & ->). simplify_eq.
  by apply pid_new_index_generation.
Qed.

Lemma occupied_intro s T G Q C i p st :
  rep s T G Q C -> ainv T G Q C -> T !! i = Some (Some (p, st)) ->
  exists b, occupied s p = Some b /\ pid_index p = i /\
    processes (inner s) !! i = Some (Occupied b) /\
    pid (box_process b) = p /\ state (box_process b) = st.
Proof.
  intros Hrep HI Hi. pose proof (ai_pid_index HI i p st Hi) as Hidx.
  pose proof (ai_pid_generation HI i p st Hi) as Hgen. pose proof (ai_index HI i p st Hi) as Hlt.
  destruct Hrep as [Hv Hg _ _]. subst T G. destruct (view_Some s i p st Hi) as (b & Hb & Hpid & Hst).
  exists b. split_and!; try done. unfold occupied, proc_at.
  rewrite (proj2 (pid_current_generation_true s p)) by (by rewrite Hidx). by rewrite Hidx, Hb.
Qed.

Lemma pid_new_ok i g : i < MAX_PROCESSES -> is_u32 g -> pid_ok (pid_new i g).
Proof.
  intros Hi Hg. unfold pid_ok, in_width in *. rewrite pid_new_raw by (by apply small_index).
  unfold MAX_PROCESSES in Hi. lia.
Qed.

Lemma ai_pid_ok T G Q C i p st : ainv T G Q C -> T !! i = Some (Some (p, st)) -> pid_ok p.
Proof.
  intros HI Hi. destruct (ai_pid _ _ _ _ HI i p st Hi) as (g & Hg & ->).
  apply pid_new_ok; [by apply (ai_index HI) in Hi|].
  by apply (Forall_lookup_1 _ _ _ _ (ai_width _ _ _ _ HI) Hg).
Qed.

Lemma current_of_Some s T G Q C core p :
  rep s T G Q C -> current_of s core = Some p -> C !! core = Some (Some p).
Proof.
  intros [_ _ _ <-]. unfold current_of. by destruct (current (inner s) !! core) as [[]|]; intros [= ->].
Qed.

(** ** Waking *)
Lemma state_apply_wake q r : state (apply_wake_result q r) = Ready /\ pid (apply_wake_result q r) = pid q.
Proof. done. Qed.

(** A wake either readies a blocked process or leaves its result pending. *)
Lemma wake_inv s p r : inv s -> pid_ok p -> inv (wake_blocked_process_locked s p r).
Proof.
  intros (Ha & T & G & Q & C & Hrep & HI) Hp. unfold wake_blocked_process_locked.
  destruct (occupied s p) as [b|] eqn:Hocc; [|by split; [done|]; exists T, G, Q, C].
  destruct (occupied_Some s T G Q C p b Hrep HI Hp Hocc) as [Hb Hpid].
  pose proof (view_lookup s _ _ Hb) as Hv. rewrite (rep_view _ _ _ _ _ Hrep) in Hv.
  simpl in Hv. rewrite Hpid in Hv. pose proof (slot_ok_lookup s _ _ Ha Hb) as Hok.
  case_bool_decide as Hst.
  - split; [by apply aux_put_slot|]. exists T, G, Q, C. split; [|done].
    replace T with (<[pid_index p := slot_view (Occupied (mkBox (box_slot b)
      (set_pending_wake (box_process b) (Some r))))]> T); [by apply rep_put_slot|].
    simpl. rewrite Hpid. by apply list_insert_id.
  - rewrite Hst in Hv.
    split; [by apply aux_notify, aux_ready_push, aux_put_slot|].
    eexists _, G, (Q ++ [p]), C. split.
    + apply rep_notify, rep_ready_push; [by apply rep_put_slot|].
      by apply (ai_room HI (pid_index p) p Blocked).
    + simpl. rewrite Hpid. apply (ainv_enqueue HI _ _ Blocked); try done.
      intros c. by apply (ai_not_running HI (pid_index p) p Blocked).
Qed.

(** ** Blocking *)
Lemma block_inv s core frame :
  inv s -> core < MAX_CORES ->
  exists s', block_current_process_locked s core frame = Ret s' /\ inv s' /\
    current_of s' core = None.
Proof.
  intros (Ha & T & G & Q & C & Hrep & HI) Hcore. unfold block_current_process_locked.
  destruct (current_of s core) as [p|] eqn:Hcur;
    [|exists s; split_and!; [done| |done]; split; [done|]; by exists T, G, Q, C].
  pose proof (current_of_Some _ _ _ _ _ _ _ Hrep Hcur) as HC.
  destruct (ai_running _ _ _ _ HI core p HC) as [i Hi].
  destruct (occupied_intro s T G Q C i p Running Hrep HI Hi) as (b & _ & Hidx & Hb & Hpid & Hst).
  rewrite Hidx, (proj2 (index_or_panic_Ret _ _ _) Hb).
  pose proof (slot_ok_lookup s _ _ Ha Hb) as Hok.
  pose proof (ainv_clear_current HI core) as HI'.
  assert (forall c, <[core := None]> C !! c <> Some (Some p)) as Hnc.
  { intros c Hc. apply list_lookup_insert_Some in Hc as [(_ & ? & _)|[Hne Hc]]; [done|].
    by apply Hne, (ai_unique _ _ _ _ HI core c p). }
  assert (length (current (inner s)) = MAX_CORES) as Hlen.
  { rewrite (rep_current _ _ _ _ _ Hrep). apply (ai_cores _ _ _ _ HI). }
  destruct (pending_wake (set_state (set_trap_frame (box_process b) frame) Blocked)) as [r|];
    (eexists; split; [done|]; split; [split|]).
  - apply aux_set_current; [|by apply aux_notify, aux_ready_push, aux_put_slot].
    match goal with |- context [notify_idle_cores ?x] => destruct (notify_idle_cores_eq x) as [evs ->] end.
    done.
  - eexists _, G, (Q ++ [p]), (<[core := None]> C). split.
    + apply rep_set_current, rep_notify, rep_ready_push; [by apply rep_put_slot|].
      by apply (ai_room HI i p Running).
    + simpl. rewrite Hpid. by apply (ainv_enqueue HI' i p Running).
  - rewrite current_of_set_current; [by rewrite decide_True|].
    match goal with |- context [notify_idle_cores ?x] => destruct (notify_idle_cores_eq x) as [evs ->] end.
    simpl. by rewrite Hlen.
  - apply aux_set_current; [done|]. by apply aux_put_slot.
  - eexists _, G, Q, (<[core := None]> C). split.
    + apply rep_set_current. by apply rep_put_slot.
    + simpl. rewrite Hpid. by apply (ainv_set_state HI' i p Running).
  - rewrite current_of_set_current by (simpl; by rewrite Hlen). by rewrite decide_True.
Qed.

(** ** Dispatching *)
Section dispatch_inv.
Context `{Selectors}.

(** The four checks [switch_to] makes on the saved frame. *)
Definition frame_ok (f : TrapFrame) : bool :=
  (cs f =? user_code)%Z && (rip f <? USER_ADDRESS_END)%Z &&
  (ss f =? user_data)%Z && (rsp f <? USER_ADDRESS_END)%Z.

Lemma running_elsewhere_false s T G Q C core p :
  rep s T G Q C -> ainv T G (p :: Q) (<[core := None]> C) ->
  running_elsewhere s core p = false.
Proof.
  intros Hrep HI. apply not_true_is_false. unfold running_elsewhere.
  intros (c & _ & [Hne Hc]%andb_true_iff)%existsb_exists.
  apply negb_true_iff, Nat.eqb_neq in Hne. apply bool_decide_eq_true in Hc.
  apply (current_of_Some _ _ _ _ _ _ _ Hrep) in Hc.
  destruct (proj1 (ai_queue _ _ _ _ HI p)) as [i Hi]; [by left|].
  apply (ai_not_running HI i p Ready c Hi); [done|]. by rewrite list_lookup_insert_ne.
Qed.

(** The state [switch_to] leaves when every check passes. *)
Definition switched (s : Sched) (core : nat) (p : Pid) (b : ProcessBox) : Sched :=
  let q := set_state (box_process b) Running in
  let s := put_slot (set_current s core (Some p)) (pid_index p)
             (Occupied (mkBox (box_slot b) q)) in
  let top := kernel_stack_top q in
  set_hw s (hw_set_syscall_stack (hw_set_kernel_stack
    (hw_activate (hw s) core (pml4_frame (address_space q))) core top) core top).

Lemma switch_to_eq s T G Q C core p :
  aux s -> rep s T G Q C -> ainv T G (p :: Q) (<[core := None]> C) -> core < MAX_CORES ->
  exists b, occupied s p = Some b /\ pid (box_process b) = p /\ state (box_process b) = Ready /\
    let f := trap_frame (box_process b) in
    if frame_ok f
    then switch_to s core p = Ret (switched s core p b, (pid_index p, rax f, rbx f))
    else exists why, switch_to s core p = Panic why.
Proof.
  intros Ha Hrep HI Hcore. pose proof (running_elsewhere_false _ _ _ _ _ _ _ Hrep HI) as Hre.
  destruct (proj1 (ai_queue _ _ _ _ HI p)) as [i Hi]; [by left|].
  pose proof (ai_pid_index HI i p Ready Hi) as Hidx.
  pose proof (ai_pid_generation HI i p Ready Hi) as Hgen.
  pose proof (ai_index HI i p Ready Hi) as Hlt.
  assert (length C = MAX_CORES) as HlenC.
  { pose proof (ai_cores _ _ _ _ HI) as Hl. by rewrite length_insert in Hl. }
  destruct Hrep as [Hv Hg Hr Hc]. subst T G C.
  destruct (view_Some s i p Ready Hi) as (b & Hb & Hpid & Hst).
  exists b. split_and!; [|done|done|].
  { unfold occupied, proc_at. rewrite (proj2 (pid_current_generation_true s p)) by (by rewrite Hidx).
    by rewrite Hidx, Hb. }
  unfold switch_to. rewrite Hre. simpl negb. cbv iota.
  rewrite current_of_set_current, decide_True by (done || lia).
  rewrite bool_decide_true by done. rewrite Hidx.
  change (generations (inner (set_current s core (Some p)))) with (generations (inner s)).
  change (processes (inner (set_current s core (Some p)))) with (processes (inner s)).
  rewrite (proj2 (index_or_panic_Ret _ _ _) Hgen), Z.eqb_refl.
  rewrite (proj2 (index_or_panic_Ret _ _ _) Hb), Hpid, bool_decide_true by done.
  cbn [hw set_hw hw_activate hw_set_kernel_stack hw_set_syscall_stack cr3 rsp0 kernel_rsp_slots].
  rewrite !list_lookup_insert_eq by
    (simpl; rewrite ?(aux_cr3 _ Ha), ?(aux_rsp0 _ Ha), ?(aux_krsp _ Ha); done).
  rewrite !bool_decide_true by done. unfold switched. rewrite Hidx.
  unfold frame_ok. simpl trap_frame.
  destruct (_ =? user_code)%Z; simpl; [|by eexists].
  destruct (_ <? USER_ADDRESS_END)%Z; simpl; [|by eexists].
  destruct (_ =? user_data)%Z; simpl; [|by eexists].
  destruct (_ <? USER_ADDRESS_END)%Z; simpl; [|by eexists]. done.
Qed.

Lemma switched_inv s T G Q C core p b :
  aux s -> rep s T G Q C -> ainv T G (p :: Q) (<[core := None]> C) -> core < MAX_CORES ->
  occupied s p = Some b -> pid (box_process b) = p ->
  inv (switched s core p b) /\ current_of (switched s core p b) core = Some p.
Proof.
  intros Ha Hrep HI Hcore Hocc Hpid.
  assert (length C = MAX_CORES) as HlenC.
  { pose proof (ai_cores _ _ _ _ HI) as Hl. by rewrite length_insert in Hl. }
  assert (length (current (inner s)) = MAX_CORES) as Hlen by (by rewrite (rep_current _ _ _ _ _ Hrep)).
  destruct (ainv_dispatch _ _ _ _ p core HI) as (i & Hi & HI').
  { rewrite list_lookup_insert_eq; [done|lia]. }
  pose proof (ai_pid_index HI i p Ready Hi) as Hidx.
  unfold switched. split.
  - split.
    + assert (slot_ok (Occupied b)) as Hok.
      { apply (slot_ok_lookup s (pid_index p)); [done|]. by apply occupied_lookup. }
      pose proof (aux_put_slot (set_current s core (Some p)) (pid_index p)
        (Occupied (mkBox (box_slot b) (set_state (box_process b) Running))) Hok
        (aux_set_current s core (Some p) Hlen Ha)) as [].
      split; simpl; rewrite ?length_insert; done.
    + eexists _, G, Q, (<[core := Some p]> C). split.
      * pose proof (rep_put_slot _ _ _ _ _ (pid_index p)
          (Occupied (mkBox (box_slot b) (set_state (box_process b) Running)))
          (rep_set_current s T G Q C core (Some p) Hrep)) as [].
        by split.
      * simpl. rewrite Hpid, Hidx. by rewrite list_insert_insert_eq in HI'.
  - change (current_of (set_current s core (Some p)) core = Some p).
    by rewrite current_of_set_current, decide_True by (done || lia).
Qed.

Lemma maybe_print_switch_inv s core i a b :
  inv s -> inv (maybe_print_switch s core i a b) /\
  forall c, current_of (maybe_print_switch s core i a b) c = current_of s c.
Proof.
  intros (Ha & T & G & Q & C & Hrep & HI). unfold maybe_print_switch. case_decide; [|split; [|done]].
  - split; [|done]. split; [by destruct Ha|]. exists T, G, Q, C. split; [by destruct Hrep|done].
  - split; [done|]. by exists T, G, Q, C.
Qed.

(** How a slot's saved frame moves through a dispatch: only the interrupted
    process's frame is replaced. *)
Definition frames_saved (s s' : Sched) (cur : option Pid) (frame : TrapFrame) : Prop :=
  forall j b', processes (inner s') !! j = Some (Occupied b') ->
  exists b, processes (inner s) !! j = Some (Occupied b) /\
    pid (box_process b') = pid (box_process b) /\
    trap_frame (box_process b') =
      if decide (cur = Some (pid (box_process b))) then frame else trap_frame (box_process b).

Lemma frames_saved_refl s s' frame :
  processes (inner s') = processes (inner s) -> frames_saved s s' None frame.
Proof. intros Heq j b' Hj. rewrite Heq in Hj. by exists b'. Qed.

(** Saving the interrupted process puts it at the tail of the queue; its core
    is then free to dispatch. *)
Lemma preempt_current_spec s T G Q C core frame :
  aux s -> rep s T G Q C -> ainv T G Q C -> core < MAX_CORES ->
  exists s' T', preempt_current s core frame = Ret s' /\ aux s' /\
    rep s' T' G (Q ++ option_list (current_of s core)) C /\
    ainv T' G (Q ++ option_list (current_of s core)) (<[core := None]> C) /\
    frames_saved s s' (current_of s core) frame /\ events s' = events s.
Proof.
  intros Ha Hrep HI Hcore. unfold preempt_current.
  destruct (current_of s core) as [p|] eqn:Hcur; simpl option_list.
  - pose proof (current_of_Some _ _ _ _ _ _ _ Hrep Hcur) as HC.
    destruct (ai_running _ _ _ _ HI core p HC) as [i Hi].
    destruct (occupied_intro s T G Q C i p Running Hrep HI Hi) as (b & _ & Hidx & Hb & Hpid & Hst).
    pose proof (slot_ok_lookup s _ _ Ha Hb) as Hok.
    set (s1 := set_percpu s _).
    assert (aux s1) as Ha1.
    { destruct Ha as [H1 H2 H3 H4 H5 H6 H7 H8]. split; simpl; rewrite ?length_alter; try done.
      intros c x Hx. destruct (decide (c = core)) as [->|Hne].
      - rewrite list_lookup_alter_eq in Hx. destruct (percpu s !! core) eqn:Hpc; simplify_eq/=.
        by rewrite (H2 core _ Hpc).
      - rewrite list_lookup_alter_ne in Hx by done. by rewrite (H2 c x Hx). }
    assert (rep s1 T G Q C) as Hrep1 by (by destruct Hrep).
    change (processes (inner s1)) with (processes (inner s)).
    rewrite Hidx, (proj2 (index_or_panic_Ret _ _ _) Hb).
    eexists _, _. split_and!; [done|by apply aux_ready_push, aux_put_slot| | | |done].
    + apply rep_ready_push; [by apply rep_put_slot|]. by apply (ai_room HI i p Running).
    + simpl. rewrite Hpid. apply (ainv_enqueue (ainv_clear_current HI core) i p Running); try done.
      intros c Hc. apply list_lookup_insert_Some in Hc as [(_ & ? & _)|[Hne Hc]]; [done|].
      by apply Hne, (ai_unique _ _ _ _ HI core c p).
    + intros j b' Hj. simpl in Hj. apply list_lookup_insert_Some in Hj as [(<- & ? & _)|[Hne Hj]].
      * simplify_eq/=. exists b. by rewrite decide_True by congruence.
      * exists b'. split_and!; [done..|]. rewrite decide_False; [done|]. intros Heq.
        apply view_lookup in Hj. rewrite (rep_view _ _ _ _ _ Hrep) in Hj. simpl in Hj.
        injection Heq as ->. by destruct (ai_inj HI _ _ _ _ _ Hi Hj).
  - exists s, T. rewrite app_nil_r. split_and!; try done.
    + by apply ainv_clear_current.
    + by apply frames_saved_refl.
Qed.

Definition ready_list (s : Sched) : list Pid := Ring.elems MAX_PROCESSES (ready (inner s)).

Lemma rep_ready_list s T G Q C : rep s T G Q C -> ready_list s = Q.
Proof. intros [_ _ Hr _]. by apply Ring.ring_repr_elems. Qed.

Definition frames_ok (s : Sched) : Prop :=
  forall i b, processes (inner s) !! i = Some (Occupied b) -> frame_ok (trap_frame (box_process b)) = true.

Lemma frames_saved_ok s s' cur frame :
  frames_ok s -> frame_ok frame = true -> frames_saved s s' cur frame -> frames_ok s'.
Proof.
  intros Hs Hf Hsv i b' Hb'. destruct (Hsv i b' Hb') as (b & Hb & _ & ->).
  case_decide; [done|]. by apply (Hs i).
Qed.

Lemma switched_frames s core p b i b' :
  occupied s p = Some b ->
  processes (inner (switched s core p b)) !! i = Some (Occupied b') ->
  exists b0, processes (inner s) !! i = Some (Occupied b0) /\
    pid (box_process b') = pid (box_process b0) /\
    trap_frame (box_process b') = trap_frame (box_process b0).
Proof.
  intros Hocc Hi. simpl in Hi. apply list_lookup_insert_Some in Hi as [(<- & ? & _)|[_ Hi]].
  - simplify_eq/=. exists b. split; [by apply occupied_lookup|done].
  - by exists b'.
Qed.

Lemma current_of_switched s core p b c :
  core < length (current (inner s)) ->
  current_of (switched s core p b) c = if decide (core = c) then Some p else current_of s c.
Proof. intros Hc. change (current_of (switched s core p b) c) with (current_of (set_current s core (Some p)) c).
  by apply current_of_set_current. Qed.

Lemma preempt_currents s core frame s' :
  preempt_current s core frame = Ret s' -> current (inner s') = current (inner s).
Proof.
  unfold preempt_current. destruct (current_of s core); [|by intros [= <-]].
  intros Hp. inv_ret. destruct a; by simplify_eq/=.
Qed.

Lemma current_of_eq s s' c :
  current (inner s') = current (inner s) -> current_of s' c = current_of s c.
Proof. intros Heq. unfold current_of. by rewrite Heq. Qed.

Lemma current_insert_id s T G Q C core :
  rep s T G Q C -> length C = MAX_CORES -> core < MAX_CORES -> current_of s core = None ->
  <[core := None]> C = C.
Proof.
  intros Hrep Hlen Hcore Hcur. apply list_insert_id. unfold current_of in Hcur.
  rewrite (rep_current _ _ _ _ _ Hrep) in Hcur.
  destruct (lookup_lt_is_Some_2 C core) as [o Ho]; [lia|].
  rewrite Ho in Hcur |- *. simpl in Hcur. by subst.
Qed.

(** Popping the queue and switching to what was popped, on a core whose
    previous process is already accounted for. *)
Definition dispatch_next (s : Sched) (core : nat) : outcome (Sched * option nat) :=
  match ready_pop s with
  | (s, Some next) =>
      let! '(s, (index, vrax, vrbx)) := switch_to s core next in
      Ret (maybe_print_switch s core index vrax vrbx, Some index)
  | (s, None) => Ret (s, None)
  end.

Lemma dispatch_next_cons s T G p Q C core :
  aux s -> rep s T G (p :: Q) C -> ainv T G (p :: Q) (<[core := None]> C) -> core < MAX_CORES ->
  exists b, processes (inner s) !! pid_index p = Some (Occupied b) /\ pid (box_process b) = p /\
    if frame_ok (trap_frame (box_process b)) then
      exists s', dispatch_next s core = Ret (s', Some (pid_index p)) /\ inv s' /\
        ready_list s' = Q /\
        (forall c, current_of s' c = if decide (core = c) then Some p else current_of s c) /\
        (frames_ok s -> frames_ok s')
    else exists why, dispatch_next s core = Panic why.
Proof.
  intros Ha Hrep HI Hcore. unfold dispatch_next.
  destruct (rep_ready_pop _ _ _ _ _ _ Hrep) as (s2 & Hpop & Hrep2). rewrite Hpop.
  pose proof (aux_ready_pop _ _ _ Hpop Ha) as Ha2.
  destruct (ready_pop_same _ _ _ Hpop) as [Hp2 Hc2].
  destruct (switch_to_eq s2 T G Q C core p Ha2 Hrep2 HI Hcore) as (b & Hocc & Hpid & _ & Hsw).
  exists b. rewrite <- Hp2. split; [by apply occupied_lookup|]. split; [done|].
  cbv zeta in Hsw. destruct (frame_ok (trap_frame (box_process b))); [|by destruct Hsw as [why ->]; exists why]. rewrite Hsw.
  destruct (switched_inv s2 T G Q C core p b Ha2 Hrep2 HI Hcore Hocc Hpid) as [Hinv3 Hcur3].
  set (s3 := switched s2 core p b) in *.
  eexists. split; [done|]. split; [by apply maybe_print_switch_inv|].
  assert (length (current (inner s2)) = MAX_CORES) as Hlen.
  { rewrite (rep_current _ _ _ _ _ Hrep2). pose proof (ai_cores _ _ _ _ HI) as Hl.
    by rewrite length_insert in Hl. }
  split_and!.
  - rewrite <- (rep_ready_list _ _ _ _ _ Hrep2). unfold ready_list, maybe_print_switch.
    by case_decide.
  - intros c. rewrite (proj2 (maybe_print_switch_inv _ _ _ _ _ Hinv3)).
    unfold s3. rewrite current_of_switched by lia. case_decide; [done|]. by apply current_of_eq.
  - intros Hfok i b' Hb'.
    assert (processes (inner s3) !! i = Some (Occupied b')) as Hb3.
    { revert Hb'. unfold maybe_print_switch. by case_decide. }
    destruct (switched_frames _ _ _ _ _ _ Hocc Hb3) as (b0 & Hb0 & _ & ->).
    rewrite Hp2 in Hb0. by apply (Hfok i).
Qed.

(** What one tick does, when every saved frame passes [switch_to]'s checks. *)
Lemma tick_spec s core frame :
  inv s -> core < MAX_CORES -> frames_ok s -> frame_ok frame = true ->
  exists s' r, on_timer_tick_locked s core frame = Ret (s', r) /\ inv s' /\ frames_ok s' /\
    (forall c, c <> core -> current_of s' c = current_of s c) /\
    match r with
    | Some i => exists p, ready_list s ++ option_list (current_of s core) = p :: ready_list s' /\
                  current_of s' core = Some p /\ pid_index p = i
    | None => ready_list s = [] /\ current_of s core = None /\ ready_list s' = [] /\
              current_of s' core = None
    end.
Proof.
  intros (Ha & T & G & Q & C & Hrep & HI) Hcore Hfok Hframe.
  change (on_timer_tick_locked s core frame) with
    (let! s := preempt_current s core frame in dispatch_next s core).
  destruct (preempt_current_spec s T G Q C core frame Ha Hrep HI Hcore)
    as (s1 & T1 & Hpre & Ha1 & Hrep1 & HI1 & Hsv & _). rewrite Hpre.
  pose proof (frames_saved_ok _ _ _ _ Hfok Hframe Hsv) as Hfok1.
  pose proof (fun c => current_of_eq s s1 c (preempt_currents _ _ _ _ Hpre)) as Hco.
  rewrite (rep_ready_list _ _ _ _ _ Hrep).
  destruct (Q ++ option_list (current_of s core)) as [|p Q'] eqn:HQ.
  - apply app_nil in HQ as [-> Hnone]. destruct (current_of s core) eqn:Hcur; [done|].
    unfold dispatch_next.
    destruct (rep_ready_pop_nil _ _ _ _ Hrep1) as (s2 & Hpop & Hrep2). rewrite Hpop.
    destruct (ready_pop_same _ _ _ Hpop) as [Hp2 Hc2].
    eexists s2, None. split_and!; [done| | | |done|done| |].
    + split; [by eapply aux_ready_pop|]. exists T1, G, [], C. split; [done|].
      by rewrite (current_insert_id _ _ _ _ _ _ Hrep (ai_cores _ _ _ _ HI) Hcore Hcur) in HI1.
    + intros i b. rewrite Hp2. apply Hfok1.
    + intros c _. by rewrite (current_of_eq _ _ c Hc2).
    + by apply (rep_ready_list _ _ _ _ _ Hrep2).
    + by rewrite (current_of_eq _ _ core Hc2), Hco.
  - destruct (dispatch_next_cons s1 T1 G p Q' C core Ha1 Hrep1 HI1 Hcore) as (b & Hb & Hpid & Hd).
    rewrite (Hfok1 _ _ Hb) in Hd. destruct Hd as (s' & -> & Hinv & Hrl & Hcur & Hfok').
    eexists s', _. split_and!; [done|done|by apply Hfok'| |].
    + intros c Hc. by rewrite Hcur, decide_False.
    + exists p. rewrite Hrl, Hcur, decide_True by done. done.
Qed.

Lemma tick_lost_frame s core frame p :
  inv s -> core < MAX_CORES -> current_of s core = Some p -> ready_list s = [] ->
  frame_ok frame = false -> exists why, on_timer_tick_locked s core frame = Panic why.
Proof.
  intros (Ha & T & G & Q & C & Hrep & HI) Hcore Hcur HQ Hframe.
  rewrite (rep_ready_list _ _ _ _ _ Hrep) in HQ. subst Q.
  change (on_timer_tick_locked s core frame) with
    (let! s := preempt_current s core frame in dispatch_next s core).
  destruct (preempt_current_spec s T G [] C core frame Ha Hrep HI Hcore)
    as (s1 & T1 & -> & Ha1 & Hrep1 & HI1 & Hsv & _). rewrite Hcur in *. simpl in *.
  destruct (dispatch_next_cons s1 T1 G p [] C core Ha1 Hrep1 HI1 Hcore) as (b & Hb & Hpid & Hd).
  destruct (Hsv _ _ Hb) as (b0 & _ & Hp0 & Htf). rewrite Htf, decide_True in Hd by congruence.
  by rewrite Hframe in Hd.
Qed.
End dispatch_inv.
