(* ===== verification/SchedExit.v ===== *)
(** * Termination: finalizing a slot and reaping children

    [take_and_finalize_slot] removes a process from the table, the queue and
    every core, completes or records its exit for the parent, and deals with
    its children, calling itself on suspended ones.  Shown here: the recursion
    always finishes within its bound, the invariant is kept, and every process
    box leaves the table exactly when it enters the list of boxes to drop. *)
From S2P Require Import Prelude Abi Ring CapTable Virt Process Sched SchedAbs SchedInv.
Open Scope nat_scope.

(** A box is identified by its storage slot, its process and its address
    space. *)
Abbreviation Ident := (nat * Pid * AddressSpace)%type.

Definition box_ident (b : ProcessBox) : Ident :=
  (box_slot b, pid (box_process b), address_space (box_process b)).

Definition slot_ident (x : Slot) : option Ident :=
  match x with Occupied b => Some (box_ident b) | _ => None end.

(** Which box and process sits at each index. *)
Definition ids (s : Sched) : list (option Ident) := slot_ident <$> processes (inner s).

(** All boxes owned by the table. *)
Definition owned (s : Sched) : list Ident := omap id (ids s).

(** [s'] follows from [s] by removing exactly the processes of [d]. *)
Record shrinks (s s' : Sched) (d : list ProcessBox) : Prop := {
  sh_inv : inv s';
  sh_gens : generations (inner s') = generations (inner s);
  sh_sub : forall i x, ids s' !! i = Some (Some x) -> ids s !! i = Some (Some x);
  sh_perm : owned s ≡ₚ owned s' ++ (box_ident <$> d);
}.

Lemma shrinks_refl s : inv s -> shrinks s s [].
Proof. intros. split; try done. by rewrite app_nil_r. Qed.

Lemma shrinks_trans s1 s2 s3 d1 d2 : shrinks s1 s2 d1 -> shrinks s2 s3 d2 -> shrinks s1 s3 (d1 ++ d2).
Proof.
  intros [_ Hg1 Hs1 Hp1] [Hi Hg2 Hs2 Hp2]. split; [done|congruence|by eauto|].
  rewrite Hp1, Hp2, fmap_app. solve_Permutation.
Qed.

Lemma shrinks_same s s' :
  inv s' -> generations (inner s') = generations (inner s) -> ids s' = ids s -> shrinks s s' [].
Proof. intros Hi Hg Hids. split; try done; [by rewrite Hids|]. unfold owned. by rewrite Hids, app_nil_r. Qed.

Lemma procs_put_slot s i x : processes (inner (put_slot s i x)) = <[i := x]> (processes (inner s)).
Proof. reflexivity. Qed.

Lemma gens_put_slot s i x : generations (inner (put_slot s i x)) = generations (inner s).
Proof. reflexivity. Qed.

Lemma ids_put_slot s i x : ids (put_slot s i x) = <[i := slot_ident x]> (ids s).
Proof. unfold ids. simpl. by rewrite list_fmap_insert. Qed.

Lemma ids_put_same s i x y :
  processes (inner s) !! i = Some y -> slot_ident x = slot_ident y -> ids (put_slot s i x) = ids s.
Proof.
  intros Hy Hx. rewrite ids_put_slot, Hx. apply list_insert_id.
  unfold ids. by rewrite list_lookup_fmap, Hy.
Qed.

Lemma ids_notify s : ids (notify_idle_cores s) = ids s.
Proof. destruct (notify_idle_cores_eq s) as [evs ->]. done. Qed.

Lemma gens_notify s : generations (inner (notify_idle_cores s)) = generations (inner s).
Proof. destruct (notify_idle_cores_eq s) as [evs ->]. done. Qed.

Lemma wake_ids s p r :
  ids (wake_blocked_process_locked s p r) = ids s /\
  generations (inner (wake_blocked_process_locked s p r)) = generations (inner s).
Proof.
  unfold wake_blocked_process_locked. destruct (occupied s p) as [b|] eqn:Hocc; [|done].
  apply occupied_lookup in Hocc. case_bool_decide.
  - split; [|done]. by apply (ids_put_same s _ _ _ Hocc).
  - rewrite ids_notify, gens_notify. split; [|done]. by apply (ids_put_same s _ _ _ Hocc).
Qed.

(** Removing one entry of a list of options removes one element. *)
Lemma omap_insert_None {A} (l : list (option A)) i x :
  l !! i = Some (Some x) -> omap id l ≡ₚ x :: omap id (<[i := None]> l).
Proof.
  revert i. induction l as [|o l IH]; intros [|i] Hi; simplify_eq/=; [done|].
  destruct o; simpl; rewrite (IH i Hi); [apply Permutation_swap|done].
Qed.

(** ** The queue and the cores forget the process *)
Lemma drain_ready_repr fuel r kept Q K target :
  Ring.ring_repr MAX_PROCESSES r Q -> Ring.ring_repr MAX_PROCESSES kept K ->
  length Q < fuel -> length K + length Q <= MAX_PROCESSES ->
  Ring.ring_repr MAX_PROCESSES (drain_ready fuel r kept target)
    (K ++ filter (fun q => q <> target) Q).
Proof.
  revert r kept Q K. induction fuel as [|fuel IH]; intros r kept Q K Hr Hk Hf Hle; [lia|].
  simpl. destruct Q as [|q Q].
  - rewrite (Ring.ring_repr_pop_nil _ _ Hr). by rewrite app_nil_r.
  - destruct (Ring.ring_repr_pop _ _ _ _ Hr) as (r' & -> & Hr'). simpl in Hf, Hle.
    rewrite filter_cons. case_decide as Hq.
    + destruct (Ring.ring_repr_push _ _ _ q Hk) as (k' & -> & Hk'); [lia|]. simpl.
      rewrite cons_middle, (assoc_L (++)).
      apply IH; [done|done|lia|rewrite length_app; simpl; lia].
    + apply IH; [done|done|lia|lia].
Qed.

Lemma rep_remove_ready s T G Q C p :
  rep s T G Q C -> rep (remove_from_ready_queue s p) T G (filter (fun q => q <> p) Q) C.
Proof.
  intros [Hv Hg Hr Hc]. split; simpl; try done.
  pose proof (Ring.ring_repr_bound _ _ _ Hr). pose proof (Ring.ring_repr_len _ _ _ Hr) as Hl.
  apply (drain_ready_repr _ _ _ Q [] p Hr); [apply Ring.ring_repr_new| |simpl; lia].
  unfold Ring.ring_len in Hl. lia.
Qed.

Lemma aux_remove_ready s p : aux s -> aux (remove_from_ready_queue s p).
Proof. intros []. by split. Qed.

Lemma clear_current_spec l s T G Q C p :
  aux s -> rep s T G Q C -> length C = MAX_CORES ->
  let s' := foldl (fun s core => if decide (current_of s core = Some p)
                                 then set_current s core None else s) s l in
  exists C', aux s' /\ rep s' T G Q C' /\ length C' = MAX_CORES /\ ids s' = ids s /\
    (forall c q, C' !! c = Some (Some q) -> C !! c = Some (Some q)) /\
    (forall c, c ∈ l -> C' !! c <> Some (Some p)).
Proof.
  revert s C. induction l as [|c l IH]; intros s C Ha Hrep Hlen; simpl.
  { exists C. split_and!; try done. intros c Hc. by apply not_elem_of_nil in Hc. }
  assert (length (current (inner s)) = MAX_CORES) as Hlc by (by rewrite (rep_current _ _ _ _ _ Hrep)).
  case_decide as Hcur.
  - destruct (IH (set_current s c None) (<[c := None]> C)) as (C' & Ha' & Hrep' & Hlen' & Hids & Hsub & Hno).
    { by apply aux_set_current. } { by apply rep_set_current. } { by rewrite length_insert. }
    exists C'. split_and!; try done.
    + intros c' q Hq%Hsub. by apply list_lookup_insert_Some in Hq as [(_ & ? & _)|[_ ?]].
    + intros c' [->|Hc']%elem_of_cons; [|by apply Hno].
      intros Hq%Hsub. by apply list_lookup_insert_Some in Hq as [(_ & ? & _)|[? _]].
  - destruct (IH s C Ha Hrep Hlen) as (C' & Ha' & Hrep' & Hlen' & Hids & Hsub & Hno).
    exists C'. split_and!; try done.
    intros c' [->|Hc']%elem_of_cons; [|by apply Hno].
    intros Hq%Hsub. apply Hcur. unfold current_of.
    by rewrite (rep_current _ _ _ _ _ Hrep), Hq.
Qed.

(** Taking the process out: table slot, queue and cores together. *)
Definition taken_out (s : Sched) (p : Pid) : Sched :=
  clear_current_everywhere (remove_from_ready_queue (put_slot s (pid_index p) Empty) p) p.
#[global] Arguments taken_out : simpl never.

Lemma take_out_inv s p b :
  inv s -> processes (inner s) !! pid_index p = Some (Occupied b) -> pid (box_process b) = p ->
  let s' := taken_out s p in
  inv s' /\ ids s' = <[pid_index p := None]> (ids s) /\
  generations (inner s') = generations (inner s) /\
  (forall c, current_of s' c <> Some p) /\ p ∉ ready_list s' /\
  processes (inner s') !! pid_index p = Some Empty.
Proof.
  intros (Ha & T & G & Q & C & Hrep & HI) Hb Hpid.
  pose proof (view_lookup s _ _ Hb) as Hv. rewrite (rep_view _ _ _ _ _ Hrep) in Hv. simpl in Hv.
  rewrite Hpid in Hv.
  destruct (clear_current_spec (seq 0 MAX_CORES)
    (remove_from_ready_queue (put_slot s (pid_index p) Empty) p)
    (<[pid_index p := None]> T) G (filter (fun q => q <> p) Q) C p)
    as (C' & Ha' & Hrep' & Hlen' & Hids & Hsub & Hno).
  { by apply aux_remove_ready, aux_put_slot. }
  { by apply rep_remove_ready, rep_put_slot. }
  { apply (ai_cores _ _ _ _ HI). }
  assert (forall c, C' !! c <> Some (Some p)) as Hnoc.
  { intros c Hc. apply (Hno c); [|done]. apply elem_of_seq. apply lookup_lt_Some in Hc. lia. }
  unfold taken_out, clear_current_everywhere. split_and!.
  - split; [done|]. eexists _, G, _, C'. split; [done|].
    apply (ainv_remove HI _ p (state (box_process b)) C'); [done|done|].
    intros c q Hq. split; [by apply Hsub|]. intros ->. by apply (Hnoc c).
  - rewrite Hids. by apply ids_put_slot.
  - destruct Hrep' as [_ -> _ _]. by destruct Hrep.
  - intros c Hc. apply (current_of_Some _ _ _ _ _ _ _ Hrep') in Hc. by apply (Hnoc c).
  - rewrite (rep_ready_list _ _ _ _ _ Hrep'). rewrite list_elem_of_filter. by intros [].
  - generalize (seq 0 MAX_CORES) as l. intros l. clear - Hb. 
    assert (processes (inner (remove_from_ready_queue (put_slot s (pid_index p) Empty) p)) !! pid_index p
      = Some Empty) as H0.
    { simpl. rewrite list_lookup_insert_eq; [done|]. by apply lookup_lt_Some in Hb. }
    revert H0. generalize (remove_from_ready_queue (put_slot s (pid_index p) Empty) p) as s0.
    induction l as [|c l IH]; intros s0 H0; simpl; [done|]. apply IH. by case_decide.
Qed.

(** ** Reporting the exit to the parent *)
Definition report_exit (s : Sched) (index : nat) (q : Process) (status : ExitStatus) : Sched :=
  match wait_waiter q with
  | Some waiter => wake_blocked_process_locked s waiter (WaitCompleted status)
  | None =>
      match parent q with
      | Some par => put_slot s index (Zombie par status)
      | None => s
      end
  end.

Lemma inv_put_unoccupied s i x y :
  inv s -> processes (inner s) !! i = Some y -> slot_view y = None -> slot_view x = None -> slot_ok x ->
  inv (put_slot s i x).
Proof.
  intros (Ha & T & G & Q & C & Hrep & HI) Hy Hvy Hvx Hx. split; [by apply aux_put_slot|].
  exists T, G, Q, C. split; [|done].
  replace T with (<[i := slot_view x]> T); [by apply rep_put_slot|].
  rewrite Hvx. apply list_insert_id. rewrite <- (rep_view _ _ _ _ _ Hrep).
  by apply (view_None s i y).
Qed.

Lemma inv_put_same_view s i x y :
  inv s -> processes (inner s) !! i = Some y -> slot_view x = slot_view y -> slot_ok x ->
  inv (put_slot s i x).
Proof.
  intros (Ha & T & G & Q & C & Hrep & HI) Hy Hvx Hx. split; [by apply aux_put_slot|].
  exists T, G, Q, C. split; [|done].
  replace T with (<[i := slot_view x]> T); [by apply rep_put_slot|].
  rewrite Hvx. apply list_insert_id. rewrite <- (rep_view _ _ _ _ _ Hrep).
  by apply view_lookup.
Qed.

Lemma report_exit_shrinks s i q status :
  inv s -> processes (inner s) !! i = Some Empty -> from_option pid_ok True (wait_waiter q) ->
  inv (report_exit s i q status) /\ ids (report_exit s i q status) = ids s /\
  generations (inner (report_exit s i q status)) = generations (inner s).
Proof.
  intros Hinv Hi Hw. unfold report_exit. destruct (wait_waiter q) as [w|].
  - split; [by apply wake_inv|apply wake_ids].
  - destruct (parent q); [|done].
    split; [by apply (inv_put_unoccupied s i _ Empty)|]. split; [|done].
    by apply (ids_put_same s i _ Empty).
Qed.

(** ** The recursion *)
Lemma take_and_finalize_unfold n s p status drops b :
  processes (inner s) !! pid_index p = Some (Occupied b) ->
  take_and_finalize_slot (S n) s p status drops =
  let! '(s2, d) := reap_loop (take_and_finalize_slot n) p
    (report_exit (taken_out s p) (pid_index p) (box_process b) status, drops) (seq 0 MAX_PROCESSES) in
  Ret (s2, d ++ [b]).
Proof.
  intros Hb. cbn [take_and_finalize_slot].
  rewrite (proj2 (index_or_panic_Ret _ _ _) Hb). unfold report_exit, taken_out. reflexivity.
Qed.

Definition finalizer := Sched -> Pid -> ExitStatus -> list ProcessBox -> outcome (Sched * list ProcessBox).

(** What the recursive call promises on states with fewer than [n] processes. *)
Definition finalizes (f : finalizer) (n : nat) : Prop :=
  forall s p status drops,
    inv s -> pid_index p < MAX_PROCESSES ->
    (forall b, processes (inner s) !! pid_index p = Some (Occupied b) -> pid (box_process b) = p) ->
    length (owned s) < n ->
    exists s' d, f s p status drops = Ret (s', drops ++ d) /\ shrinks s s' d /\
      ids s' !! pid_index p = Some None.

Lemma ids_lookup_Some s i x :
  ids s !! i = Some (Some x) -> exists b, processes (inner s) !! i = Some (Occupied b) /\ box_ident b = x.
Proof.
  unfold ids. rewrite list_lookup_fmap. destruct (processes (inner s) !! i) as [[]|];
    simpl; intros Heq; simplify_eq. by eexists.
Qed.

Lemma inv_length s : inv s -> length (processes (inner s)) = MAX_PROCESSES.
Proof.
  intros (_ & T & G & Q & C & Hrep & HI). rewrite <- (ai_table _ _ _ _ HI).
  rewrite <- (rep_view _ _ _ _ _ Hrep). unfold view. by rewrite length_fmap.
Qed.

Lemma ids_unoccupied s i y :
  processes (inner s) !! i = Some y -> slot_ident y = None -> ids s !! i = Some None.
Proof. intros Hy Hn. unfold ids. by rewrite list_lookup_fmap, Hy; simpl; rewrite Hn. Qed.

Lemma shrinks_stays_out s s' d i :
  inv s -> shrinks s s' d -> ids s !! i = Some None -> ids s' !! i = Some None.
Proof.
  intros Hs [Hinv' _ Hsub _] Hi. apply lookup_lt_Some in Hi as Hlt.
  unfold ids in Hlt. rewrite length_fmap, (inv_length s Hs) in Hlt.
  destruct (lookup_lt_is_Some_2 (ids s') i) as [[x|] Hx]; [|by apply Hsub in Hx; congruence|done].
  unfold ids. by rewrite length_fmap, (inv_length s' Hinv').
Qed.

Lemma occupied_pid s i b :
  inv s -> processes (inner s) !! i = Some (Occupied b) ->
  exists g, generations (inner s) !! i = Some g /\ pid (box_process b) = pid_new i g /\
    pid_index (pid (box_process b)) = i /\ i < MAX_PROCESSES.
Proof.
  intros (_ & T & G & Q & C & Hrep & HI) Hb. pose proof (view_lookup s i _ Hb) as Hv.
  rewrite (rep_view _ _ _ _ _ Hrep) in Hv. simpl in Hv.
  destruct (ai_pid _ _ _ _ HI _ _ _ Hv) as (g & Hg & Hpid). exists g.
  rewrite (rep_gens _ _ _ _ _ Hrep). split_and!; [done|done| |].
  - by apply (ai_pid_index HI) in Hv.
  - by apply (ai_index HI) in Hv.
Qed.

Lemma reap_one_shrinks f n exiting s drops i :
  finalizes f n -> inv s -> length (owned s) < n ->
  exists s' d, reap_one f exiting (s, drops) i = Ret (s', drops ++ d) /\ shrinks s s' d.
Proof.
  intros Hf Hinv Hn. unfold reap_one, proc_at.
  destruct (processes (inner s) !! i) as [[| |b|par status]|] eqn:Hi;
    try (exists s, []; rewrite app_nil_r; split; [done|by apply shrinks_refl]).
  - destruct (occupied_pid s i b Hinv Hi) as (g & Hg & Hpid & Hidx & Hlt).
    case_bool_decide as Hpar; simpl; [case_bool_decide as Hst; simpl|].
    + rewrite Hg. simpl. rewrite <- Hpid.
      destruct (Hf s (pid (box_process b)) Killed drops Hinv) as (s' & d & Heq & Hsh & _).
      * by rewrite Hidx.
      * rewrite Hidx, Hi. by intros b' [= <-].
      * done.
      * by exists s', d.
    + eexists _, []. rewrite app_nil_r. split; [done|]. apply shrinks_same; [|done|].
      * apply (inv_put_same_view s i _ (Occupied b)); try done.
        destruct Hinv as [Ha _]. by apply (slot_ok_lookup s i (Occupied b)) in Hi.
      * by apply (ids_put_same s i _ (Occupied b)).
    + exists s, []. rewrite app_nil_r. split; [done|by apply shrinks_refl].
  - case_decide; eexists _, []; rewrite app_nil_r; (split; [done|]); [|by apply shrinks_refl].
    apply shrinks_same; [by eapply inv_put_unoccupied|done|by eapply ids_put_same].
Qed.

Lemma shrinks_owned_le s s' d : shrinks s s' d -> length (owned s') <= length (owned s).
Proof. intros [_ _ _ Hp]. rewrite Hp, length_app. lia. Qed.

Lemma reap_loop_shrinks f n exiting l s drops :
  finalizes f n -> inv s -> length (owned s) < n ->
  exists s' d, reap_loop f exiting (s, drops) l = Ret (s', drops ++ d) /\ shrinks s s' d.
Proof.
  intros Hf. revert s drops. induction l as [|i l IH]; intros s drops Hinv Hn; cbn [reap_loop].
  { exists s, []. rewrite app_nil_r. split; [done|by apply shrinks_refl]. }
  destruct (reap_one_shrinks f n exiting s drops i Hf Hinv Hn) as (s1 & d1 & -> & Hsh1).
  pose proof (shrinks_owned_le _ _ _ Hsh1).
  destruct (IH s1 (drops ++ d1) (sh_inv _ _ _ Hsh1)) as (s2 & d2 & -> & Hsh2); [lia|].
  exists s2, (d1 ++ d2). rewrite (assoc_L (++)). split; [done|]. by eapply shrinks_trans.
Qed.

(** Each nested call works on a table with one process fewer. *)
Lemma take_and_finalize_finalizes n : finalizes (take_and_finalize_slot n) n.
Proof.
  induction n as [|n IH]; intros s p status drops Hinv Hlt Hpid Hn; [lia|].
  destruct (index_or_panic_total (processes (inner s)) (pid_index p)) as (x & Heq & Hx).
  { by rewrite inv_length. }
  destruct x as [| |b|par st];
    try (exists s, []; cbn [take_and_finalize_slot]; rewrite Heq, app_nil_r; split_and!;
         [done|by apply shrinks_refl|by apply (ids_unoccupied s _ _ Hx)]).
  rewrite (take_and_finalize_unfold n s p status drops b Hx).
  destruct (take_out_inv s p b Hinv Hx (Hpid b Hx)) as (Hinv1 & Hids1 & Hg1 & _ & _ & He1).
  set (s1 := taken_out s p) in *.
  assert (from_option pid_ok True (wait_waiter (box_process b))) as Hw.
  { destruct Hinv as [Ha _]. by apply (slot_ok_lookup s _ _ Ha Hx). }
  destruct (report_exit_shrinks s1 (pid_index p) (box_process b) status Hinv1 He1 Hw) as (Hinv2 & Hids2 & Hg2).
  set (s2 := report_exit _ _ _ _) in *.
  assert (ids s !! pid_index p = Some (Some (box_ident b))) as Hid.
  { unfold ids. by rewrite list_lookup_fmap, Hx. }
  assert (owned s ≡ₚ box_ident b :: owned s2) as Hperm.
  { unfold owned. rewrite Hids2, Hids1. by apply omap_insert_None. }
  destruct (reap_loop_shrinks _ n p (seq 0 MAX_PROCESSES) s2 drops IH Hinv2) as (s3 & d & -> & Hsh).
  { rewrite Hperm in Hn. simpl in Hn. lia. }
  exists s3, (d ++ [b]). rewrite (assoc_L (++)). split; [done|].
  assert (ids s2 !! pid_index p = Some None) as Hout.
  { rewrite Hids2, Hids1, list_lookup_insert_eq; [done|]. by apply lookup_lt_Some in Hid. }
  split; [|by apply (shrinks_stays_out s2 s3 d)].
  destruct Hsh as [Hi3 Hg3 Hsub3 Hp3]. split; [done|congruence| |].
  - intros i y Hy%Hsub3. rewrite Hids2, Hids1 in Hy.
    by apply list_lookup_insert_Some in Hy as [(_ & ? & _)|[_ ?]].
  - rewrite Hperm, Hp3, fmap_app. simpl. solve_Permutation.
Qed.

Lemma owned_le s : inv s -> length (owned s) <= MAX_PROCESSES.
Proof.
  intros Hinv. rewrite <- (inv_length s Hinv). unfold owned, ids. clear Hinv.
  generalize (processes (inner s)) as l. intros l.
  induction l as [|x l IH]; [done|]. cbn [fmap list_fmap omap list_omap].
  destruct (id (slot_ident x)); cbn [length]; lia.
Qed.

(** ** What finalizing leaves alone *)
Definition active (st : ProcessState) : Prop := st = Ready \/ st = Running.

(** Outside slot [e], runnable processes keep their registers and state, and
    empty slots stay empty. *)
Definition keeps (e : nat) (s s' : Sched) : Prop :=
  forall i, i <> e ->
    (forall b, processes (inner s) !! i = Some (Occupied b) -> active (state (box_process b)) ->
       exists b', processes (inner s') !! i = Some (Occupied b') /\
         pid (box_process b') = pid (box_process b) /\
         trap_frame (box_process b') = trap_frame (box_process b) /\
         state (box_process b') = state (box_process b)) /\
    (processes (inner s) !! i = Some Empty -> processes (inner s') !! i = Some Empty).

Lemma keeps_refl e s : keeps e s s.
Proof. intros i _. split; [|done]. intros b Hb _. by exists b. Qed.

Lemma keeps_trans e s1 s2 s3 : keeps e s1 s2 -> keeps e s2 s3 -> keeps e s1 s3.
Proof.
  intros H12 H23 i Hi. destruct (H12 i Hi) as [Ha He], (H23 i Hi) as [Ha' He']. split; [|by auto].
  intros b Hb Hact. destruct (Ha b Hb Hact) as (b2 & Hb2 & Hp2 & Ht2 & Hs2).
  destruct (Ha' b2 Hb2) as (b3 & Hb3 & Hp3 & Ht3 & Hs3); [by rewrite Hs2|].
  exists b3. split_and!; congruence.
Qed.

Lemma keeps_procs e s s' : processes (inner s') = processes (inner s) -> keeps e s s'.
Proof. intros Heq i _. rewrite Heq. split; [|done]. intros b Hb _. by exists b. Qed.

Lemma keeps_put e s x : keeps e s (put_slot s e x).
Proof.
  intros i Hi. simpl. rewrite list_lookup_insert_ne by done. split; [|done].
  intros b Hb _. by exists b.
Qed.

(** Rewriting a slot that holds no runnable process and is not empty, or
    replacing a process by one with the same registers and state. *)
Lemma keeps_put_other e s i x y :
  processes (inner s) !! i = Some y ->
  (forall b, y = Occupied b -> active (state (box_process b)) ->
     exists b', x = Occupied b' /\ pid (box_process b') = pid (box_process b) /\
       trap_frame (box_process b') = trap_frame (box_process b) /\
       state (box_process b') = state (box_process b)) ->
  (y = Empty -> x = Empty) ->
  keeps e s (put_slot s i x).
Proof.
  intros Hy Ha He j Hj. simpl. destruct (decide (j = i)) as [->|Hne].
  - rewrite list_lookup_insert_eq by (by apply lookup_lt_Some in Hy). rewrite Hy. split.
    + intros b [= ->] Hact. destruct (Ha b eq_refl Hact) as (b' & -> & ?). by exists b'.
    + intros [= ->]. by rewrite He.
  - rewrite list_lookup_insert_ne by done. split; [|done]. intros b Hb _. by exists b.
Qed.

Lemma procs_notify s : processes (inner (notify_idle_cores s)) = processes (inner s).
Proof. destruct (notify_idle_cores_eq s) as [evs ->]. done. Qed.

Lemma keeps_wake e s p r : keeps e s (wake_blocked_process_locked s p r).
Proof.
  unfold wake_blocked_process_locked. destruct (occupied s p) as [b|] eqn:Hocc; [|apply keeps_refl].
  apply occupied_lookup in Hocc. case_bool_decide as Hst.
  - apply (keeps_put_other e s _ _ (Occupied b)); [done| |done].
    intros b' [= <-] _. by eexists.
  - eapply keeps_trans; [|apply keeps_procs, procs_notify].
    eapply keeps_trans; [|by apply keeps_procs].
    apply (keeps_put_other e s _ _ (Occupied b)); [done| |done].
    intros b' [= <-] [Hact|Hact]; congruence.
Qed.

Lemma procs_clear_current s p : processes (inner (clear_current_everywhere s p)) = processes (inner s).
Proof.
  unfold clear_current_everywhere. generalize (seq 0 MAX_CORES) as l. intros l. revert s.
  induction l as [|c l IH]; intros s; simpl; [done|]. rewrite IH. by case_decide.
Qed.

Lemma keeps_report_exit s i q status : keeps i s (report_exit s i q status).
Proof.
  unfold report_exit. destruct (wait_waiter q); [apply keeps_wake|].
  destruct (parent q); [apply keeps_put|apply keeps_refl].
Qed.

Lemma reap_loop_keeps f exiting e l s drops s' d :
  (forall s p st drops s' d, f s p st drops = Ret (s', d) -> keeps (pid_index p) s s') ->
  Forall (fun i => i < MAX_PROCESSES) l ->
  reap_loop f exiting (s, drops) l = Ret (s', d) -> keeps e s s'.
Proof.
  intros Hf Hl. revert s drops. induction Hl as [|i l Hi _ IH]; intros s drops; cbn [reap_loop].
  { intros [= <- <-]. apply keeps_refl. }
  destruct (reap_one f exiting (s, drops) i) as [[s1 d1]|] eqn:Hone; [|done].
  intros Hrest%IH. eapply keeps_trans; [|done]. clear Hrest. revert Hone. unfold reap_one, proc_at.
  destruct (processes (inner s) !! i) as [[| |b|par status]|] eqn:Hx;
    try (intros [= <- <-]; apply keeps_refl).
  - case_bool_decide as Hpar; simpl; [case_bool_decide as Hst|].
    + intros Hk%Hf j Hj. rewrite pid_index_new in Hk by (by apply small_index).
      destruct (decide (j = i)) as [->|Hne]; [|by apply Hk]. rewrite Hx.
      split; [|done]. intros b' [= <-] [Hact|Hact]; congruence.
    + intros [= <- <-]. apply (keeps_put_other e s i _ (Occupied b)); [done| |done].
      intros b' [= <-] _. by eexists.
    + intros [= <- <-]. apply keeps_refl.
  - case_decide; intros [= <- <-]; [|apply keeps_refl].
    by apply (keeps_put_other e s i _ (Zombie par status)).
Qed.

Lemma take_and_finalize_keeps n s p status drops s' d :
  take_and_finalize_slot n s p status drops = Ret (s', d) -> keeps (pid_index p) s s'.
Proof.
  revert s p status drops s' d. induction n as [|n IH]; intros s p status drops s' d; [done|].
  destruct (index_or_panic (processes (inner s)) (pid_index p)) as [x|] eqn:Hx;
    [|cbn [take_and_finalize_slot]; by rewrite Hx].
  destruct x as [| |b|par st];
    try (cbn [take_and_finalize_slot]; rewrite Hx; intros [= <- <-]; apply keeps_refl).
  rewrite (take_and_finalize_unfold n s p status drops b) by (by apply index_or_panic_Ret).
  set (s1 := taken_out s p).
  destruct (reap_loop _ p (report_exit s1 (pid_index p) (box_process b) status, drops) _)
    as [[s2 d2]|] eqn:Hreap; [|done].
  intros [= <- <-].
  eapply keeps_trans; [apply (keeps_put _ s Empty)|].
  apply (keeps_trans _ _ s1).
  { apply keeps_procs. unfold s1, taken_out. by rewrite procs_clear_current. }
  eapply keeps_trans; [apply keeps_report_exit|].
  apply (reap_loop_keeps _ _ (pid_index p) _ _ _ _ _ IH) in Hreap; [done|].
  apply Forall_forall. intros i Hi%elem_of_seq. lia.
Qed.

(** ** A finalization, step by step *)
Lemma finalize_unfold s p status b :
  processes (inner s) !! pid_index p = Some (Occupied b) ->
  finalize_slot s p status =
  let! '(s2, d) := reap_loop (take_and_finalize_slot MAX_PROCESSES) p
    (report_exit (taken_out s p) (pid_index p) (box_process b) status, []) (seq 0 MAX_PROCESSES) in
  Ret (s2, d ++ [b]).
Proof.
  exact (take_and_finalize_unfold MAX_PROCESSES s p status [] b).
Qed.

Lemma indices_below : Forall (fun i => i < MAX_PROCESSES) (seq 0 MAX_PROCESSES).
Proof. apply Forall_forall. intros i Hi%elem_of_seq. lia. Qed.

Lemma pid_index_inj s p q b b' :
  inv s -> pid_ok p -> pid_ok q -> occupied s p = Some b -> occupied s q = Some b' ->
  pid_index p = pid_index q -> p = q.
Proof.
  intros (_ & T & G & Q & C & Hrep & HI) Hp Hq Hb Hb' Heq.
  destruct (occupied_Some _ _ _ _ _ _ _ Hrep HI Hp Hb) as [H1 <-].
  destruct (occupied_Some _ _ _ _ _ _ _ Hrep HI Hq Hb') as [H2 <-].
  rewrite Heq in H1. congruence.
Qed.

Lemma taken_out_other s c i :
  i <> pid_index c -> processes (inner (taken_out s c)) !! i = processes (inner s) !! i.
Proof.
  intros Hi. unfold taken_out. rewrite procs_clear_current. simpl.
  by rewrite list_lookup_insert_ne.
Qed.

Lemma occupied_gens s s' p b :
  generations (inner s') = generations (inner s) ->
  pid_current_generation s p = true ->
  processes (inner s') !! pid_index p = Some (Occupied b) -> occupied s' p = Some b.
Proof.
  intros Hg Hcg Hb. unfold occupied, proc_at. rewrite Hb.
  assert (pid_current_generation s' p = true) as -> by (unfold pid_current_generation in *; by rewrite Hg).
  done.
Qed.

Lemma occupied_current_generation s p b : occupied s p = Some b -> pid_current_generation s p = true.
Proof. unfold occupied. by destruct (pid_current_generation s p). Qed.

Lemma ready_in_queue s p b :
  inv s -> occupied s p = Some b -> pid (box_process b) = p -> state (box_process b) = Ready -> p ∈ ready_list s.
Proof.
  intros (_ & T & G & Q & C & Hrep & HI) Hocc Hp Hst.
  rewrite (rep_ready_list _ _ _ _ _ Hrep), (ai_queue _ _ _ _ HI). exists (pid_index p).
  apply occupied_lookup, view_lookup in Hocc. rewrite (rep_view _ _ _ _ _ Hrep) in Hocc.
  simpl in Hocc. by rewrite Hp, Hst in Hocc.
Qed.

(** Waking a blocked process, seen at its slot. *)
Lemma wake_blocked_slot s p b r :
  occupied s p = Some b -> state (box_process b) = Blocked ->
  processes (inner (wake_blocked_process_locked s p r)) !! pid_index p =
    Some (Occupied (mkBox (box_slot b) (apply_wake_result (box_process b) r))) /\
  forall i, i <> pid_index p ->
    processes (inner (wake_blocked_process_locked s p r)) !! i = processes (inner s) !! i.
Proof.
  intros Hocc Hst. unfold wake_blocked_process_locked. rewrite Hocc, bool_decide_false by auto.
  rewrite procs_notify. simpl. apply occupied_lookup in Hocc. split.
  - rewrite list_lookup_insert_eq; [done|]. by apply lookup_lt_Some in Hocc.
  - intros i Hi. by rewrite list_lookup_insert_ne.
Qed.

(** ** A process without children leaves a zombie for its parent *)
Definition childless (s : Sched) (c : Pid) : Prop :=
  forall i b, processes (inner s) !! i = Some (Occupied b) -> parent (box_process b) <> Some c.

Lemma reap_loop_childless f c l s drops :
  childless s c ->
  exists s', reap_loop f c (s, drops) l = Ret (s', drops) /\
    generations (inner s') = generations (inner s) /\
    forall i par st, par <> c -> processes (inner s) !! i = Some (Zombie par st) ->
      processes (inner s') !! i = Some (Zombie par st).
Proof.
  revert s. induction l as [|i l IH]; intros s Hc; cbn [reap_loop]; [by exists s|].
  unfold reap_one, proc_at.
  destruct (processes (inner s) !! i) as [[| |b|par st]|] eqn:Hi; try by apply IH.
  - rewrite (bool_decide_false (parent (box_process b) = Some c)) by (by apply (Hc i)).
    by apply IH.
  - case_decide as Hp; [|by apply IH].
    destruct (IH (put_slot s i Empty)) as (s' & -> & Hg & Hz).
    { intros j b Hj. apply (Hc j).
      by apply list_lookup_insert_Some in Hj as [(_ & ? & _)|[_ ?]]. }
    exists s'. split_and!; [done|done|]. intros j q sq Hq Hj. apply Hz; [done|].
    simpl. rewrite list_lookup_insert_ne; [done|]. intros ->. by simplify_eq.
Qed.

Lemma finalize_childless s c b p status :
  inv s -> pid_ok c -> occupied s c = Some b -> childless s c ->
  wait_waiter (box_process b) = None -> parent (box_process b) = Some p -> p <> c ->
  exists s', finalize_slot s c status = Ret (s', [b]) /\
    generations (inner s') = generations (inner s) /\
    processes (inner s') !! pid_index c = Some (Zombie p status).
Proof.
  intros Hinv Hok Hocc Hchild Hw Hpar Hne. pose proof (occupied_lookup _ _ _ Hocc) as Hb.
  pose proof Hinv as (_ & T & G & Q & C & Hrep & HI).
  destruct (occupied_Some _ _ _ _ _ _ _ Hrep HI Hok Hocc) as [_ Hpid].
  destruct (take_out_inv s c b Hinv Hb Hpid) as (_ & _ & Hg & _ & _ & He).
  rewrite (finalize_unfold s c status b Hb). unfold report_exit. rewrite Hw, Hpar.
  destruct (reap_loop_childless (take_and_finalize_slot MAX_PROCESSES) c (seq 0 MAX_PROCESSES)
    (put_slot (taken_out s c) (pid_index c) (Zombie p status)) []) as (s' & -> & Hg' & Hz).
  { intros i b' Hi. rewrite procs_put_slot in Hi. apply list_lookup_insert_Some in Hi as [(_ & ? & _)|[Hi Hx]]; [done|].
    rewrite taken_out_other in Hx by done. by apply (Hchild i). }
  exists s'. rewrite gens_put_slot in Hg'. split_and!; [done|congruence|]. apply Hz; [done|].
  rewrite procs_put_slot, list_lookup_insert_eq; [done|]. by apply lookup_lt_Some in He.
Qed.
