(* ===== verification/SchedSteps.v ===== *)
(** * Scheduler executions

    The remaining operations preserve the invariant, and so does every
    interleaving of critical sections by any number of cores: [sched_step] has
    one rule per critical section of [task/scheduler.rs] (each runs under the
    scheduler lock, so it is one step), and [reachable_inv] is the invariant of
    every reachable state. *)
From S2P Require Import Prelude Abi Ring CapTable Virt Process Sched SchedAbs SchedInv SchedExit.
Open Scope nat_scope.

(** ** Allocation and creation *)
Lemma slot_allocatable_Empty s i :
  slot_allocatable s i = true -> processes (inner s) !! i = Some Empty /\ stack_busy s !! i <> Some true.
Proof.
  unfold slot_allocatable. destruct (processes (inner s) !! i) as [[]|]; try done.
  intros Hb. split; [done|]. intros Ht. by rewrite Ht in Hb.
Qed.

Lemma allocate_pid_cases s :
  inv s ->
  (exists i g, allocate_pid s = (put_slot (set_inner s (set_generations (inner s)
       (<[i := wrap32 (g + 1)]> (generations (inner s))))) i Reserved, pid_new i (wrap32 (g + 1))) /\
     i < MAX_PROCESSES /\ generations (inner s) !! i = Some g /\
     processes (inner s) !! i = Some Empty /\ stack_busy s !! i <> Some true /\
     (forall j, j < i -> slot_allocatable s j = false)) \/
  (allocate_pid s = (s, pid_new MAX_PROCESSES 0) /\ forall j, j < MAX_PROCESSES -> slot_allocatable s j = false).
Proof.
  intros Hinv. unfold allocate_pid.
  destruct (position _ _) as [i|] eqn:Hp.
  - left. pose proof (position_lt _ _ _ Hp) as Hlt. rewrite length_seq in Hlt.
    apply position_Some in Hp as [(x & Hx & Hal) Hmin]. apply lookup_seq in Hx as [-> _].
    simpl in Hal. destruct (slot_allocatable_Empty s i Hal) as [He Hb].
    destruct Hinv as (_ & T & G & Q & C & Hrep & HI).
    destruct (lookup_lt_is_Some_2 (generations (inner s)) i) as [g Hg].
    { rewrite (rep_gens _ _ _ _ _ Hrep), (ai_gens _ _ _ _ HI). done. }
    exists i, g. rewrite Hg. simpl. split_and!; try done.
    intros j Hj. apply (Hmin j); [done|]. apply lookup_seq. lia.
  - right. split; [done|]. intros j Hj. rewrite position_None in Hp. apply Hp. apply elem_of_seq. lia.
Qed.

Lemma allocate_pid_inv s : inv s -> inv (fst (allocate_pid s)).
Proof.
  intros Hinv. destruct (allocate_pid_cases s Hinv) as [(i & g & -> & Hi & Hg & He & _)|[-> _]]; [|done].
  simpl. destruct Hinv as (Ha & T & G & Q & C & Hrep & HI).
  pose proof (view_None s i Empty He eq_refl) as Hv. rewrite (rep_view _ _ _ _ _ Hrep) in Hv.
  assert (is_u32 (wrap32 (g + 1))) as Hw by (apply wrap_in_width; lia).
  split; [apply aux_put_slot; [done|]; by destruct Ha|].
  exists T, (<[i := wrap32 (g + 1)]> G), Q, C. split.
  - replace T with (<[i := slot_view Reserved]> T) by (by apply list_insert_id).
    apply rep_put_slot. destruct Hrep as [? <- ??]. by split.
  - by apply ainv_generation.
Qed.

Lemma release_reservation_inv s p : inv s -> inv (release_reservation s p).
Proof.
  intros Hinv. unfold release_reservation, proc_at.
  destruct (pid_current_generation s p); [|done].
  destruct (processes (inner s) !! pid_index p) as [[]|] eqn:Hx; try done.
  by eapply inv_put_unoccupied.
Qed.

(** A process under construction fits the slot reserved for it. *)
Record fits (s : Sched) (q : Process) (st : ProcessState) : Prop := {
  fit_slot : processes (inner s) !! pid_index (pid q) = Some Reserved;
  fit_pid : pid_ok (pid q);
  fit_gen : generations (inner s) !! pid_index (pid q) = Some (pid_generation (pid q));
  fit_state : state q = st;
  fit_waiter : wait_waiter q = None;
}.

Lemma alloc_process_slot_same s s' slot :
  alloc_process_slot s = Ret (s', slot) ->
  inner s' = inner s /\ (aux s -> aux s') /\ process_slot_used s !! slot = Some false.
Proof.
  unfold alloc_process_slot. destruct (position _ _) as [i|] eqn:Hp; [|done].
  intros [= <- <-]. split_and!; [done| |].
  - intros []. split; simpl; rewrite ?length_insert; done.
  - apply position_Some in Hp as [(x & Hx & Hn) _]. destruct x; done.
Qed.

Lemma put_suspended_inv s q slot :
  inv s -> fits s q Suspended -> inv (put_slot s (pid_index (pid q)) (Occupied (mkBox slot q))).
Proof.
  intros (Ha & T & G & Q & C & Hrep & HI) [Hs Hp Hg Hst Hw].
  pose proof (view_None s _ Reserved Hs eq_refl) as Hv. rewrite (rep_view _ _ _ _ _ Hrep) in Hv.
  split; [apply aux_put_slot; [simpl; by rewrite Hw|done]|].
  eexists _, G, Q, C. split; [by apply rep_put_slot|]. simpl. rewrite Hst.
  rewrite (rep_gens _ _ _ _ _ Hrep) in Hg.
  pose proof (ainv_add HI _ _ Hv Hg) as Hadd. by rewrite pid_new_index_generation in Hadd.
Qed.

Lemma spawn_suspended_inv s q s' r :
  inv s -> fits s q Suspended -> spawn_suspended s q = Ret (s', r) -> inv s'.
Proof.
  intros Hinv Hfit. unfold spawn_suspended, process_box_new. case_decide; [by intros [= <- <-]|].
  destruct (alloc_process_slot s) as [[s1 slot]|] eqn:Hal; [|done]. intros [= <- <-].
  destruct (alloc_process_slot_same _ _ _ Hal) as (Hin & Haux & _).
  destruct Hinv as (Ha & T & G & Q & C & Hrep & HI).
  apply put_suspended_inv.
  - split; [by apply Haux|]. exists T, G, Q, C. split; [|done].
    destruct Hrep as [Hv Hg Hr Hc]. unfold view in *. split; unfold view; by rewrite Hin.
  - destruct Hfit. split; by rewrite ?Hin.
Qed.

(** Readying a process that no core runs: shared by [spawn] and [start_child]. *)
Lemma make_ready_inv s p i b q st :
  inv s -> processes (inner s) !! i = Some (Occupied b) -> pid (box_process b) = p ->
  pid q = p -> state q = Ready -> state (box_process b) = st -> st <> Ready -> st <> Running ->
  from_option pid_ok True (wait_waiter q) ->
  inv (notify_idle_cores (ready_push (put_slot s i (Occupied (mkBox (box_slot b) q))) p)).
Proof.
  intros (Ha & T & G & Q & C & Hrep & HI) Hb Hp Hq Hst Hstb Hnr Hnrun Hw.
  pose proof (view_lookup s i _ Hb) as Hv. rewrite (rep_view _ _ _ _ _ Hrep) in Hv.
  simpl in Hv. rewrite Hp, Hstb in Hv.
  split; [by apply aux_notify, aux_ready_push, aux_put_slot|].
  eexists _, G, (Q ++ [p]), C. split.
  - apply rep_notify, rep_ready_push; [by apply rep_put_slot|]. by apply (ai_room HI i p st).
  - simpl. rewrite Hq, Hst. apply (ainv_enqueue HI i p st); [done|done|].
    intros c. by apply (ai_not_running HI i p st).
Qed.

Lemma start_child_inv s target caller : inv s -> pid_ok target -> inv (fst (start_child s target caller)).
Proof.
  intros Hinv Hok. unfold start_child. destruct (occupied s target) as [b|] eqn:Hocc; [|done].
  case_bool_decide as Hp; [done|]. simpl. case_bool_decide as Hst; [done|]. simpl.
  pose proof Hinv as (Ha & T & G & Q & C & Hrep & HI).
  destruct (occupied_Some s T G Q C target b Hrep HI Hok Hocc) as [Hb Hpid].
  apply (make_ready_inv s target (pid_index target) b _ Suspended); try done.
  by apply (slot_ok_lookup s _ _ Ha Hb).
Qed.

(** [spawn] is [spawn_suspended] of the same process followed by readying it. *)
Lemma spawn_inv s q s' r :
  inv s -> fits s q Ready -> spawn s q = Ret (s', r) -> inv s'.
Proof.
  intros Hinv Hfit. unfold spawn, process_box_new. case_decide; [by intros [= <- <-]|].
  destruct (alloc_process_slot s) as [[s1 slot]|] eqn:Hal; [|done]. intros [= <- <-].
  destruct (alloc_process_slot_same _ _ _ Hal) as (Hin & Haux & _).
  assert (inv (put_slot s1 (pid_index (pid q)) (Occupied (mkBox slot (set_state q Suspended))))) as Hsus.
  { destruct Hinv as (Ha & T & G & Q & C & Hrep & HI).
    apply (put_suspended_inv s1 (set_state q Suspended) slot).
    - split; [by apply Haux|]. exists T, G, Q, C. split; [|done].
      destruct Hrep as [Hv Hg Hr Hc]. unfold view in *. split; unfold view; by rewrite Hin.
    - destruct Hfit. split; simpl; by rewrite ?Hin. }
  destruct Hfit as [Hs Hp Hg Hst Hw].
  assert (pid_index (pid q) < length (processes (inner s1))) as Hlt.
  { rewrite Hin. by apply lookup_lt_Some in Hs. }
  pose proof (make_ready_inv _ (pid q) (pid_index (pid q)) (mkBox slot (set_state q Suspended)) q Suspended
    Hsus ltac:(simpl; by rewrite list_lookup_insert_eq) eq_refl eq_refl Hst eq_refl ltac:(done) ltac:(done)
    ltac:(by rewrite Hw)) as Hready.
  revert Hready. unfold put_slot. simpl. by rewrite list_insert_insert_eq.
Qed.

(** ** Waiting, eviction, idle dispatch *)
Lemma wait_inv s core frame target caller :
  inv s -> core < MAX_CORES -> pid_ok caller ->
  exists s' r, wait_for_child_locked s core frame target caller = Ret (s', r) /\ inv s' /\
    (r = None -> current_of s' core = None).
Proof.
  intros Hinv Hcore Hok. unfold wait_for_child_locked, proc_at.
  destruct (pid_current_generation s target); simpl; [|by eexists _, _].
  destruct (processes (inner s) !! pid_index target) as [[| |b|par status]|] eqn:Hx;
    try by eexists _, _.
  - case_decide; [|by eexists _, _].
    destruct (block_inv (put_slot s (pid_index target) (Occupied (mkBox (box_slot b)
      (set_wait_waiter (box_process b) (Some caller))))) core frame) as (s' & -> & Hinv' & Hcur); [|done|].
    { by apply (inv_put_same_view s _ _ (Occupied b)). }
    by eexists _, _.
  - case_decide; [|by eexists _, _].
    destruct (to_regs status). eexists _, _. split; [done|]. split; [|done].
    by eapply inv_put_unoccupied.
Qed.

(** Changing per-core fields other than the mirror of [current]. *)
Lemma inv_set_percpu s f c :
  inv s -> (forall x, pc_current (f x) = pc_current x) -> inv (set_percpu s (alter f c (percpu s))).
Proof.
  intros (Ha & T & G & Q & C & Hrep & HI) Hf. split.
  - destruct Ha as [H1 H2 H3 H4 H5 H6 H7 H8]. split; simpl; rewrite ?length_alter; try done.
    intros c' x Hx. destruct (decide (c' = c)) as [->|Hne].
    + rewrite list_lookup_alter_eq in Hx. destruct (percpu s !! c) eqn:Hpc; simplify_eq/=.
      rewrite Hf. by apply (H2 c).
    + rewrite list_lookup_alter_ne in Hx by done. by apply (H2 c').
  - exists T, G, Q, C. split; [|done]. by destruct Hrep.
Qed.

Lemma inv_set_current_None s core : inv s -> inv (set_current s core None).
Proof.
  intros (Ha & T & G & Q & C & Hrep & HI). split.
  - apply aux_set_current; [|done]. rewrite (rep_current _ _ _ _ _ Hrep). apply (ai_cores _ _ _ _ HI).
  - exists T, G, Q, (<[core := None]> C). split; [by apply rep_set_current|by apply ainv_clear_current].
Qed.

Lemma inv_set_stack_busy s i v : inv s -> inv (set_stack_busy s (<[i := v]> (stack_busy s))).
Proof.
  intros (Ha & T & G & Q & C & Hrep & HI). split.
  - destruct Ha. split; simpl; rewrite ?length_insert; done.
  - exists T, G, Q, C. split; [by destruct Hrep|done].
Qed.

Lemma current_index s core p :
  inv s -> current_of s core = Some p -> pid_index p < MAX_PROCESSES /\ pid_ok p /\
  exists b, processes (inner s) !! pid_index p = Some (Occupied b) /\ pid (box_process b) = p.
Proof.
  intros (_ & T & G & Q & C & Hrep & HI) Hc. apply (current_of_Some _ _ _ _ _ _ _ Hrep) in Hc.
  destruct (ai_running _ _ _ _ HI core p Hc) as [i Hi].
  destruct (occupied_intro s T G Q C i p Running Hrep HI Hi) as (b & _ & Hidx & Hb & Hpid & _).
  rewrite Hidx. split_and!; [by apply (ai_index HI) in Hi|by eapply ai_pid_ok|by exists b].
Qed.

Lemma mark_stack_busy_inv s i :
  inv s -> i < MAX_PROCESSES -> exists s', mark_stack_busy s i = Ret s' /\ inv s' /\ inner s' = inner s /\
    stack_busy s' !! i = Some true.
Proof.
  intros Hinv Hi. unfold mark_stack_busy. pose proof (aux_busy _ (proj1 Hinv)) as Hl.
  destruct (index_or_panic_total (stack_busy s) i) as (x & -> & _); [lia|].
  eexists. split_and!; [done|by apply inv_set_stack_busy|done|].
  simpl. rewrite list_lookup_insert_eq; [done|lia].
Qed.

Lemma clear_stack_busy_inv s i :
  inv s -> i < MAX_PROCESSES -> exists s', clear_stack_busy s i = Ret s' /\ inv s' /\ inner s' = inner s.
Proof.
  intros Hinv Hi. unfold clear_stack_busy. pose proof (aux_busy _ (proj1 Hinv)) as Hl.
  destruct (index_or_panic_total (stack_busy s) i) as (x & -> & _); [lia|].
  eexists. split_and!; [done|by apply inv_set_stack_busy|done].
Qed.

Lemma reschedule_inv s core :
  inv s -> core < MAX_CORES ->
  exists s' r, reschedule_ipi_locked s core = Ret (s', r) /\ inv s' /\
    match r with
    | None => current_of s' core = current_of s core
    | Some i => current_of s' core = None /\ stack_busy s' !! i = Some true /\
        exists p, current_of s core = Some p /\ pid_index p = i
    end.
Proof.
  intros Hinv Hcore. unfold reschedule_ipi_locked.
  set (s1 := set_percpu s _). set (evict := from_option _ _ _).
  assert (inv s1) as Hinv1 by (by apply inv_set_percpu).
  change (current_of s1 core) with (current_of s core).
  destruct (evict =? 0)%Z; simpl; [by eexists s1, None|].
  case_bool_decide as Hcur; [by eexists s1, None|].
  destruct (current_of s core) as [p|] eqn:Hc; simplify_eq/=.
  destruct (current_index s core p Hinv Hc) as (Hlt & _ & _).
  rewrite <- Hcur. replace (mkPid (pid_raw p)) with p by (by destruct p).
  destruct (mark_stack_busy_inv (set_current s1 core None) (pid_index p)) as (s2 & -> & Hinv2 & Hin & Hb);
    [by apply inv_set_current_None|done|].
  exists s2, (Some (pid_index p)). split_and!; [done|done| |done|by exists p].
  unfold current_of. rewrite Hin. simpl. rewrite list_lookup_insert_eq; [done|].
  destruct Hinv as (_ & T & G & Q & C & Hrep & HI).
  rewrite (rep_current _ _ _ _ _ Hrep), (ai_cores _ _ _ _ HI). done.
Qed.

Lemma finalize_slot_spec s p status :
  inv s -> pid_index p < MAX_PROCESSES ->
  (forall b, processes (inner s) !! pid_index p = Some (Occupied b) -> pid (box_process b) = p) ->
  exists s' d, finalize_slot s p status = Ret (s', d) /\ shrinks s s' d /\
    ids s' !! pid_index p = Some None.
Proof.
  intros Hinv Hlt Hpid. unfold finalize_slot. pose proof (owned_le s Hinv).
  destruct (take_and_finalize_finalizes (S MAX_PROCESSES) s p status [] Hinv Hlt Hpid)
    as (s' & d & Heq & Hsh & Hout); [lia|]. by exists s', d.
Qed.

Lemma kill_scan_spec s target :
  inv s -> pid_index target < MAX_PROCESSES ->
  (forall b, processes (inner s) !! pid_index target = Some (Occupied b) -> pid (box_process b) = target) ->
  exists s' d o, kill_scan s target = Ret (s', d, o) /\ shrinks s s' d /\
    match o with
    | Some core => s' = s /\ d = [] /\ current_of s core = Some target
    | None => ids s' !! pid_index target = Some None
    end.
Proof.
  intros Hinv Hlt Hpid. unfold kill_scan. destruct (position _ _) as [c|] eqn:Hp.
  - exists s, [], (Some c). split_and!; [done|by apply shrinks_refl|done|done|].
    apply position_Some in Hp as [(x & Hx & Hc%bool_decide_eq_true) _].
    by apply lookup_seq in Hx as [-> _].
  - destruct (finalize_slot_spec s target Killed Hinv Hlt Hpid) as (s' & d & -> & Hsh & Hout).
    by exists s', d, None.
Qed.

(** Editing a control block without touching its identity, state, waiter or
    address space. *)
Definition edits_quietly {R} (f : Process -> Process * R) : Prop :=
  forall q, pid (fst (f q)) = pid q /\ state (fst (f q)) = state q /\
            wait_waiter (fst (f q)) = wait_waiter q /\ address_space (fst (f q)) = address_space q.

Lemma with_process_inv {R} s p (f : Process -> Process * R) :
  inv s -> edits_quietly f -> inv (fst (with_process s p f)).
Proof.
  intros Hinv Hf. unfold with_process. destruct (occupied s p) as [b|] eqn:Hocc; [|done].
  apply occupied_lookup in Hocc. destruct (Hf (box_process b)) as (H1 & H2 & H3 & _).
  destruct (f (box_process b)) as [q r]. simpl in *.
  apply (inv_put_same_view s _ _ (Occupied b)); [done|done|simpl; by rewrite H1, H2|].
  simpl. rewrite H3. by apply (slot_ok_lookup s _ _ (proj1 Hinv) Hocc).
Qed.

(** ** The step relation *)
Section steps.
Context `{Selectors}.

Inductive sched_step : Sched -> Sched -> Prop :=
| st_assign_slot s i id : sched_step s (assign_slot s i id)
| st_allocate_pid s : sched_step s (fst (allocate_pid s))
| st_release s p : sched_step s (release_reservation s p)
| st_spawn s q s' r : fits s q Ready -> spawn s q = Ret (s', r) -> sched_step s s'
| st_spawn_suspended s q s' r :
    fits s q Suspended -> spawn_suspended s q = Ret (s', r) -> sched_step s s'
| st_start_child s target caller : pid_ok target -> sched_step s (fst (start_child s target caller))
| st_with_process {R} s p (f : Process -> Process * R) :
    edits_quietly f -> sched_step s (fst (with_process s p f))
| st_tick s core frame s' r :
    core < MAX_CORES -> on_timer_tick_locked s core frame = Ret (s', r) -> sched_step s s'
| st_dispatch s core s' r :
    core < MAX_CORES -> current_of s core = None -> dispatch_next s core = Ret (s', r) -> sched_step s s'
| st_wake s p r : pid_ok p -> sched_step s (wake_blocked_process_locked s p r)
| st_block s core frame s' :
    core < MAX_CORES -> block_current_process_locked s core frame = Ret s' -> sched_step s s'
| st_wait s core frame target caller s' r :
    core < MAX_CORES -> pid_ok caller ->
    wait_for_child_locked s core frame target caller = Ret (s', r) -> sched_step s s'
| st_exit s core p status s' d :
    current_of s core = Some p -> finalize_slot s p status = Ret (s', d) -> sched_step s s'
| st_kill_scan s target s' d o :
    pid_ok target -> pid_current_generation s target = true ->
    kill_scan s target = Ret (s', d, o) -> sched_step s s'
| st_request_eviction s core target : sched_step s (request_eviction s core target)
| st_reschedule s core s' r :
    core < MAX_CORES -> reschedule_ipi_locked s core = Ret (s', r) -> sched_step s s'
| st_mark_busy s i s' : mark_stack_busy s i = Ret s' -> sched_step s s'
| st_clear_busy s i s' : clear_stack_busy s i = Ret s' -> sched_step s s'
| st_free_box s slot : sched_step s (free_process_slot s slot)
| st_idle s core v :
    sched_step s (set_percpu s (alter (fun c => set_idle c v) core (percpu s)))
| st_clock s t k :
    sched_step s (set_hw s (mkHw (cr3 (hw s)) (rsp0 (hw s)) (kernel_rsp_slots (hw s)) t k)).

Lemma inv_same_inner s s' : inner s' = inner s -> aux s' -> inv s -> inv s'.
Proof.
  intros Hin Ha (_ & T & G & Q & C & Hrep & HI). split; [done|]. exists T, G, Q, C.
  split; [|done]. destruct Hrep as [Hv Hg Hr Hc]. split; unfold view in *; by rewrite Hin.
Qed.

Lemma dispatch_next_inv s core s' r :
  inv s -> core < MAX_CORES -> current_of s core = None -> dispatch_next s core = Ret (s', r) -> inv s'.
Proof.
  intros Hinv Hcore Hcur Hd. pose proof Hinv as (Ha & T & G & Q & C & Hrep & HI).
  pose proof (current_insert_id _ _ _ _ _ _ Hrep (ai_cores _ _ _ _ HI) Hcore Hcur) as HC.
  destruct Q as [|p Q].
  - unfold dispatch_next in Hd. destruct (rep_ready_pop_nil _ _ _ _ Hrep) as (s1 & Hpop & Hrep1).
    rewrite Hpop in Hd. simplify_eq. split; [by eapply aux_ready_pop|]. by exists T, G, [], C.
  - destruct (dispatch_next_cons s T G p Q C core Ha Hrep) as (b & _ & _ & Hres); [by rewrite HC|done|].
    destruct (frame_ok _); [|by destruct Hres as [why Hw]; rewrite Hd in Hw].
    destruct Hres as (s1 & Heq & Hinv1 & _). by rewrite Hd in Heq; simplify_eq.
Qed.

Lemma tick_inv s core frame s' r :
  inv s -> core < MAX_CORES -> on_timer_tick_locked s core frame = Ret (s', r) -> inv s'.
Proof.
  intros (Ha & T & G & Q & C & Hrep & HI) Hcore.
  change (on_timer_tick_locked s core frame) with
    (let! s := preempt_current s core frame in dispatch_next s core).
  destruct (preempt_current_spec s T G Q C core frame Ha Hrep HI Hcore)
    as (s1 & T1 & Hpre & Ha1 & Hrep1 & HI1 & _). rewrite Hpre. intros Hd.
  destruct (current_of s core) as [p|] eqn:Hcur.
  - destruct (Q ++ option_list (Some p)) as [|p' Q'] eqn:HQ; [by destruct Q|].
    destruct (dispatch_next_cons s1 T1 G p' Q' C core Ha1 Hrep1 HI1 Hcore) as (b & _ & _ & Hres).
    destruct (frame_ok _); [|by destruct Hres as [why Hw]; rewrite Hd in Hw].
    destruct Hres as (s2 & Heq & Hinv2 & _). by rewrite Hd in Heq; simplify_eq.
  - apply (dispatch_next_inv s1 core s' r); try done.
    + split; [done|]. exists T1, G, (Q ++ option_list None), C. split; [done|].
      by rewrite (current_insert_id _ _ _ _ _ _ Hrep (ai_cores _ _ _ _ HI) Hcore Hcur) in HI1.
    + by rewrite (current_of_eq _ _ _ (preempt_currents _ _ _ _ Hpre)).
Qed.

Lemma live_target s target :
  inv s -> pid_ok target -> pid_current_generation s target = true ->
  pid_index target < MAX_PROCESSES /\
  forall b, processes (inner s) !! pid_index target = Some (Occupied b) -> pid (box_process b) = target.
Proof.
  intros Hinv Hok [Hlt Hg]%pid_current_generation_true. split; [done|]. intros b Hb.
  destruct (occupied_pid s _ b Hinv Hb) as (g & Hg' & -> & _). simplify_eq.
  by apply pid_new_index_generation.
Qed.

Lemma sched_step_inv s s' : sched_step s s' -> inv s -> inv s'.
Proof.
  intros Hst Hinv. destruct Hst as
    [s i id|s|s p|s q s' r Hf Hs|s q s' r Hf Hs|s t c Ht|R s p f Hf|s core fr s' r Hc Hs|s core s' r Hc Hn Hs
    |s p r Hp|s core fr s' Hc Hs|s core fr t c s' r Hc Hp Hs|s core p st s' d Hp Hs|s t s' d o Hp Hg Hs
    |s core t|s core s' r Hc Hs|s i s' Hs|s i s' Hs|s slot|s core v|s t k].
  - by apply inv_set_percpu.
  - by apply allocate_pid_inv.
  - by apply release_reservation_inv.
  - by eapply spawn_inv.
  - by eapply spawn_suspended_inv.
  - by apply start_child_inv.
  - by apply with_process_inv.
  - by eapply tick_inv.
  - by eapply dispatch_next_inv.
  - by apply wake_inv.
  - destruct (block_inv s core fr Hinv Hc) as (s1 & Heq & ? & _). by rewrite Hs in Heq; simplify_eq.
  - destruct (wait_inv s core fr t c Hinv Hc Hp) as (s1 & r1 & Heq & ? & _). by rewrite Hs in Heq; simplify_eq.
  - destruct (current_index s core p Hinv Hp) as (Hlt & _ & b & Hb & Hpid).
    destruct (finalize_slot_spec s p st Hinv Hlt) as (s1 & d1 & Heq & Hsh & _).
    { intros b'. rewrite Hb. by intros [= <-]. }
    rewrite Hs in Heq. simplify_eq. by apply sh_inv in Hsh.
  - destruct (live_target s t Hinv Hp Hg) as [Hlt Hpid].
    destruct (kill_scan_spec s t Hinv Hlt Hpid) as (s1 & d1 & o1 & Heq & Hsh & _).
    rewrite Hs in Heq. simplify_eq. by apply sh_inv in Hsh.
  - unfold request_eviction, send_ipi.
    apply (inv_same_inner (set_percpu s (alter (fun c => set_evict_request c (pid_raw t)) core (percpu s))));
      [done| |by apply inv_set_percpu].
    by destruct (inv_set_percpu s (fun c => set_evict_request c (pid_raw t)) core Hinv (fun _ => eq_refl)) as [[] _].
  - destruct (reschedule_inv s core Hinv Hc) as (s1 & r1 & Heq & ? & _). by rewrite Hs in Heq; simplify_eq.
  - unfold mark_stack_busy in Hs. inv_ret. by apply inv_set_stack_busy.
  - unfold clear_stack_busy in Hs. inv_ret. by apply inv_set_stack_busy.
  - apply (inv_same_inner s); [done| |done]. destruct Hinv as [[] _]. split; simpl; rewrite ?length_insert; done.
  - by apply inv_set_percpu.
  - apply (inv_same_inner s); [done| |done]. by destruct Hinv as [[] _].
Qed.

Lemma ainv_new :
  ainv (replicate MAX_PROCESSES None) (replicate MAX_PROCESSES 0%Z) [] (replicate MAX_CORES None).
Proof.
  assert (forall i x, (replicate MAX_PROCESSES None : table) !! i = Some (Some x) -> False) as HT.
  { intros i x [? _]%lookup_replicate. done. }
  split; rewrite ?length_replicate; try done.
  - apply Forall_replicate. unfold in_width. lia.
  - intros i p st Hi. by destruct (HT i _ Hi).
  - constructor.
  - intros p. split; [by intros ?%not_elem_of_nil|]. intros [i Hi]. by destruct (HT i _ Hi).
  - intros c p [? _]%lookup_replicate. done.
  - intros c1 c2 p [? _]%lookup_replicate. done.
Qed.

Lemma inv_new : inv sched_new.
Proof.
  split.
  - split; try (rewrite ?length_replicate; done).
    + intros c x [-> Hc]%lookup_replicate.
      change (current_of sched_new c) with (mjoin ((replicate MAX_CORES None : list (option Pid)) !! c)).
      rewrite lookup_replicate_2; done.
    + by apply Forall_replicate.
  - eexists _, _, [], _. split; [|apply ainv_new]. split; [|done|apply Ring.ring_repr_new|done].
    reflexivity.
Qed.

Lemma reachable_inv s : rtc sched_step sched_new s -> inv s.
Proof.
  intros Hr. pose proof inv_new as H0. revert H0.
  induction Hr as [|s1 s2 s3 Hst _ IH]; [done|]. intros H1. apply IH. by eapply sched_step_inv.
Qed.
End steps.
