(* ===== verification/SchedProps.v ===== *)
(** * What the scheduler guarantees

    The properties of the scheduler, each a consequence of the invariant of
    [SchedInv] and of the operation lemmas of [SchedExit] and [SchedSteps],
    with concrete executions as witnesses. *)
From S2P Require Import Prelude Abi Ring CapTable Virt Process Sched SchedAbs SchedInv SchedExit SchedSteps.
Open Scope nat_scope.

(** ** Demonstration states *)
Definition demo_selectors : Selectors := {| user_code := 0x2b; user_data := 0x23 |}.

Definition demo_frame (r : Z) : TrapFrame :=
  @initial_user_frame demo_selectors r USER_STACK_TOP.

Definition demo_process (p : Pid) (par : option Pid) (st : ProcessState) : Process :=
  mkProcess p (mkAS 0x1000) (demo_frame 0x400000) Cap.new st par None None USER_HEAP_START.

(** Run a computation that is known to return. *)
Definition or_else {A} (d : A) (o : outcome A) : A := match o with Ret x => x | Panic _ => d end.

(** Process [1.0] running on core 0, its child [1.1] suspended in slot 1. *)
Definition demo_parent : Pid := pid_new 0 1.
Definition demo_child : Pid := pid_new 1 1.

Definition demo_s1 : Sched :=
  fst (or_else (sched_new, Ok tt)
    (spawn (fst (allocate_pid sched_new)) (demo_process demo_parent None Ready))).
Definition demo_s2 : Sched :=
  fst (or_else (demo_s1, None) (@dispatch_next demo_selectors demo_s1 0)).
Definition demo_s3 : Sched :=
  fst (or_else (demo_s2, Ok tt)
    (spawn_suspended (fst (allocate_pid demo_s2)) (demo_process demo_child (Some demo_parent) Suspended))).

Lemma demo_s2_reachable : rtc (@sched_step demo_selectors) sched_new demo_s2.
Proof.
  eapply rtc_l; [apply st_allocate_pid|].
  eapply rtc_l; [apply (st_spawn _ (demo_process demo_parent None Ready) demo_s1 (Ok tt))|].
  - split; vm_compute; done.
  - vm_compute. reflexivity.
  - apply rtc_once. apply (st_dispatch demo_s1 0 demo_s2 (Some 0)); vm_compute; try done. lia.
Qed.

Lemma demo_s3_reachable : rtc (@sched_step demo_selectors) sched_new demo_s3.
Proof.
  etrans; [apply demo_s2_reachable|].
  eapply rtc_l; [apply st_allocate_pid|].
  apply rtc_once, (st_spawn_suspended _ (demo_process demo_child (Some demo_parent) Suspended) demo_s3 (Ok tt)).
  - split; vm_compute; done.
  - vm_compute. reflexivity.
Qed.

Section props.
Context `{Selectors}.

(** ** Safety on any number of cores *)

(** C1: in every state reachable by any interleaving of scheduler critical
    sections on any cores: no process is current on two cores; a core's current
    process is live under its own generation and Running; the ready queue has
    no duplicates and lists exactly the live Ready processes; and the lock-free
    per-core mirror agrees with the table. *)
Theorem scheduler_smp_safe (s : Sched) (Hr : rtc sched_step sched_new s) :
  (forall c1 c2 p, current_of s c1 = Some p -> current_of s c2 = Some p -> c1 = c2) /\
  (forall c p, current_of s c = Some p ->
     exists b, occupied s p = Some b /\ pid (box_process b) = p /\ state (box_process b) = Running) /\
  NoDup (ready_list s) /\
  (forall p, p ∈ ready_list s <->
     exists b, occupied s p = Some b /\ pid (box_process b) = p /\ state (box_process b) = Ready) /\
  (forall c x, percpu s !! c = Some x -> pc_current x = pid_or_zero (current_of s c)).
Proof.
  destruct (reachable_inv s Hr) as (Ha & T & G & Q & C & Hrep & HI).
  pose proof (rep_ready_list _ _ _ _ _ Hrep) as HQ.
  pose proof (fun c p => current_of_Some s T G Q C c p Hrep) as HC.
  split_and!.
  - intros c1 c2 p H1%HC H2%HC. by apply (ai_unique _ _ _ _ HI c1 c2 p).
  - intros c p Hc%HC. destruct (ai_running _ _ _ _ HI c p Hc) as [i Hi].
    destruct (occupied_intro s T G Q C i p Running Hrep HI Hi) as (b & Hocc & _ & _ & Hp & Hs). by exists b.
  - rewrite HQ. apply (ai_nodup _ _ _ _ HI).
  - intros p. rewrite HQ, (ai_queue _ _ _ _ HI). split.
    + intros [i Hi]. destruct (occupied_intro s T G Q C i p Ready Hrep HI Hi) as (b & Hocc & _ & _ & Hp & Hs).
      by exists b.
    + intros (b & Hocc & Hp & Hs). apply occupied_lookup in Hocc. exists (pid_index p).
      apply view_lookup in Hocc. rewrite (rep_view _ _ _ _ _ Hrep) in Hocc. simpl in Hocc. by rewrite Hp, Hs in Hocc.
  - apply (aux_mirror _ Ha).
Qed.

(** ** Round robin *)


Fixpoint run_ticks (s : Sched) (l : list (nat * TrapFrame)) : outcome Sched :=
  match l with
  | [] => Ret s
  | (core, frame) :: l => let! '(s, _) := on_timer_tick_locked s core frame in run_ticks s l
  end.

Lemma run_ticks_dispatch l s k p core frame :
  inv s -> frames_ok s -> Forall (fun cf => fst cf < MAX_CORES /\ frame_ok (snd cf) = true) l ->
  core < MAX_CORES -> frame_ok frame = true ->
  ready_list s !! k = Some p -> length l = k ->
  exists s', run_ticks s (l ++ [(core, frame)]) = Ret s' /\ current_of s' core = Some p.
Proof.
  intros Hinv Hfok Hl Hcore Hframe. revert s k Hinv Hfok.
  induction Hl as [|[c f] l [Hc Hf] _ IH]; intros s k Hinv Hfok Hk Hlen; simpl in *; subst k.
  - destruct (tick_spec s core frame Hinv Hcore Hfok Hframe) as (s' & r & -> & _ & _ & _ & Hr).
    exists s'. split; [done|]. destruct r; [|destruct Hr as [HQ _]; by rewrite HQ in Hk].
    destruct Hr as (q & HQ & Hcur & _). destruct (ready_list s); simplify_eq/=. done.
  - destruct (tick_spec s c f Hinv Hc Hfok Hf) as (s' & r & -> & Hinv' & Hfok' & _ & Hr).
    destruct r as [i|]; [|destruct Hr as [HQ _]; by rewrite HQ in Hk].
    apply (IH s' (length l)); try done. destruct Hr as (q & HQ & _ & _).
    apply (lookup_app_l_Some _ (option_list (current_of s c))) in Hk. by rewrite HQ in Hk.
Qed.

(** C38: bounded waiting.  A process with [k] processes ahead of it in the ready
    queue is running after exactly [k + 1] ticks, on whichever core takes the
    last of them and whatever the registers of the interrupted processes. *)
Theorem ready_process_runs (l : list (nat * TrapFrame)) (s : Sched) (k : nat) (p : Pid)
    (core : nat) (frame : TrapFrame)
    (Hinv : inv s) (Hfok : frames_ok s)
    (Hl : Forall (fun cf => fst cf < MAX_CORES /\ frame_ok (snd cf) = true) l)
    (Hcore : core < MAX_CORES) (Hframe : frame_ok frame = true)
    (Hk : ready_list s !! k = Some p) (Hlen : length l = k) :
  exists s', run_ticks s (l ++ [(core, frame)]) = Ret s' /\ current_of s' core = Some p.
Proof. by eapply run_ticks_dispatch. Qed.

(** a process controls its own stack pointer, so it can stop the kernel: if
    it is alone on its core and the saved stack pointer is not below 2^47 when
    it yields or is preempted, the switch back to it fails an assertion of
    [switch_to] and the kernel panics. *)
Theorem high_rsp_panics_kernel (s : Sched) (core : nat) (frame : TrapFrame) (p : Pid)
    (Hinv : inv s) (Hcore : core < MAX_CORES) (Hcur : current_of s core = Some p)
    (Hq : ready_list s = []) (Hrsp : (2 ^ 47 <= rsp frame)%Z) :
  exists why, on_timer_tick_locked s core frame = Panic why.
Proof.
  apply (tick_lost_frame s core frame p); try done. unfold frame_ok.
  rewrite (proj2 (Z.ltb_ge (rsp frame) USER_ADDRESS_END) Hrsp). by rewrite andb_false_r.
Qed.
End props.

Lemma scheduler_smp_safe_witness :
  rtc (@sched_step demo_selectors) sched_new demo_s3 /\
  (forall c1 c2 p, current_of demo_s3 c1 = Some p -> current_of demo_s3 c2 = Some p -> c1 = c2).
Proof.
  split; [exact demo_s3_reachable|].
  exact (proj1 (@scheduler_smp_safe demo_selectors demo_s3 demo_s3_reachable)).
Defined.

(** [frames_ok] decided by computation. *)
Definition frames_okb `{Selectors} (s : Sched) : bool :=
  forallb (fun x => match x with Occupied b => frame_ok (trap_frame (box_process b)) | _ => true end)
    (processes (inner s)).

Lemma frames_okb_ok `{Selectors} s : frames_okb s = true -> frames_ok s.
Proof.
  unfold frames_okb. rewrite forallb_forall. intros Hall i b Hb.
  apply (Hall (Occupied b)). apply list_elem_of_In. by apply (list_elem_of_lookup_2 _ i).
Qed.

Lemma demo_s3_frames_ok : @frames_ok demo_selectors demo_s3.
Proof. apply frames_okb_ok. vm_compute. reflexivity. Qed.

Lemma demo_s3_inv : inv demo_s3.
Proof. exact (@reachable_inv demo_selectors _ demo_s3_reachable). Qed.


Lemma high_rsp_panics_kernel_witness :
  current_of demo_s3 0 = Some demo_parent /\
  exists why, @on_timer_tick_locked demo_selectors demo_s3 0
    (@initial_user_frame demo_selectors 0x400000 (2 ^ 47)) = Panic why.
Proof.
  split; [vm_compute; reflexivity|].
  apply (@high_rsp_panics_kernel demo_selectors demo_s3 0 _ demo_parent demo_s3_inv).
  - unfold MAX_CORES; lia.
  - vm_compute; reflexivity.
  - vm_compute; reflexivity.
  - cbn. lia.
Defined.

Lemma ready_process_runs_witness :
  exists s', @run_ticks demo_selectors demo_s1 [(0, demo_frame 0x400100)] = Ret s' /\
    current_of s' 0 = Some demo_parent.
Proof.
  assert (rtc (@sched_step demo_selectors) sched_new demo_s1) as Hr.
  { eapply rtc_l; [apply st_allocate_pid|].
    apply rtc_once, (st_spawn _ (demo_process demo_parent None Ready) demo_s1 (Ok tt)).
    - split; vm_compute; done.
    - vm_compute. reflexivity. }
  apply (@ready_process_runs demo_selectors [] demo_s1 0 demo_parent 0 (demo_frame 0x400100)
    (@reachable_inv demo_selectors _ Hr)).
  - apply frames_okb_ok. vm_compute. reflexivity.
  - constructor.
  - unfold MAX_CORES. lia.
  - reflexivity.
  - vm_compute. reflexivity.
  - reflexivity.
Defined.

(** ** Waking and blocking never race *)

(** The notification sends interrupts only. *)
Lemma inner_notify s : inner (notify_idle_cores s) = inner s.
Proof. destruct (notify_idle_cores_eq s) as [evs ->]. done. Qed.

Lemma occupied_put s T G Q C p b b' :
  rep s T G Q C -> ainv T G Q C -> occupied s p = Some b ->
  occupied (put_slot s (pid_index p) (Occupied b')) p = Some b'.
Proof.
  intros _ _ Hocc. pose proof (occupied_lookup _ _ _ Hocc) as Hb.
  unfold occupied, proc_at in *. destruct (pid_current_generation s p) eqn:Hg; [|done].
  change (pid_current_generation (put_slot s (pid_index p) (Occupied b')) p) with (pid_current_generation s p).
  rewrite Hg. simpl. rewrite list_lookup_insert_eq; [done|]. by apply lookup_lt_Some in Hb.
Qed.

Lemma occupied_set_current s c x p : occupied (set_current s c x) p = occupied s p.
Proof. done. Qed.

(** C25: no wake-up is lost.  If another core completes a process's request
    before the process has finished blocking, the completion is kept pending
    and applied when it blocks: the scheduler's table, queue and cores end up
    exactly as if it had blocked first and been woken afterwards, and the
    process is ready with the result in its registers. *)
Theorem wake_commutes_with_block (s : Sched) (core : nat) (p : Pid) (b : ProcessBox)
    (frame : TrapFrame) (r : WakeResult)
    (Hinv : inv s) (Hcore : core < MAX_CORES) (Hcur : current_of s core = Some p)
    (Hocc : occupied s p = Some b) (Hpend : pending_wake (box_process b) = None) :
  exists s1 s2,
    block_current_process_locked (wake_blocked_process_locked s p r) core frame = Ret s1 /\
    block_current_process_locked s core frame = Ret s2 /\
    inner s1 = inner (wake_blocked_process_locked s2 p r) /\
    p ∈ ready_list s1 /\ current_of s1 core = None /\
    exists b1, occupied s1 p = Some b1 /\
      trap_frame (box_process b1) =
        trap_frame (apply_wake_result (set_trap_frame (box_process b) frame) r).
Proof.
  pose proof Hinv as (Ha & T & G & Q & C & Hrep & HI).
  pose proof (current_of_Some _ _ _ _ _ _ _ Hrep Hcur) as HC.
  destruct (ai_running _ _ _ _ HI core p HC) as [i Hi].
  destruct (occupied_intro s T G Q C i p Running Hrep HI Hi) as (b' & Hocc' & <- & Hb & Hpid & Hst).
  assert (b' = b) as -> by congruence. pose proof (lookup_lt_Some _ _ _ Hb) as Hlt.
  pose proof (ai_room HI _ p Running Hi ltac:(done)) as Hroom.
  destruct (block_inv (wake_blocked_process_locked s p r) core frame) as (s1 & Hs1 & Hinv1 & Hcur1);
    [by apply wake_inv, (ai_pid_ok _ _ _ _ _ _ _ HI Hi)|done|].
  destruct (block_inv s core frame Hinv Hcore) as (s2 & Hs2 & _ & _).
  exists s1, s2. do 2 (split; [done|]).
  set (q' := apply_wake_result (set_trap_frame (box_process b) frame) r).
  assert (inner s1 = mkInner (<[pid_index p := Occupied (mkBox (box_slot b) q')]> (processes (inner s)))
    (generations (inner s)) (fst (Ring.push MAX_PROCESSES (ready (inner s)) p))
    (<[core := None]> (current (inner s)))) as Hin1.
  { revert Hs1. unfold wake_blocked_process_locked, put_process. rewrite Hocc, bool_decide_true by congruence.
    unfold block_current_process_locked.
    change (current_of (put_slot s _ _) core) with (current_of s core). rewrite Hcur.
    unfold index_or_panic. simpl. rewrite list_lookup_insert_eq by done. simpl. intros [= <-].
    simpl. rewrite inner_notify. simpl. rewrite list_insert_insert_eq. unfold q'.
    destruct (box_process b); simpl in *; by subst. }
  assert (inner (wake_blocked_process_locked s2 p r) = inner s1) as Hin2.
  { revert Hs2. unfold block_current_process_locked. rewrite Hcur.
    rewrite (proj2 (index_or_panic_Ret _ _ _) Hb). simpl. rewrite Hpend. intros [= <-].
    unfold wake_blocked_process_locked. rewrite occupied_set_current.
    rewrite (occupied_put s T G Q C p b _ Hrep HI Hocc). simpl.
    rewrite inner_notify, Hin1. simpl. rewrite list_insert_insert_eq. unfold q'.
    destruct (box_process b); simpl in *; by subst. }
  split_and!; [done| |done|].
  - unfold ready_list. rewrite Hin1. simpl.
    destruct (Ring.ring_repr_push _ _ _ p (rep_ready _ _ _ _ _ Hrep) Hroom) as (r' & -> & Hr').
    simpl. rewrite (Ring.ring_repr_elems _ _ _ Hr'). apply elem_of_app. right. by apply list_elem_of_singleton.
  - exists (mkBox (box_slot b) q'). split; [|done].
    apply (occupied_put s T G Q C p b (mkBox (box_slot b) q') Hrep HI) in Hocc.
    unfold occupied, proc_at, pid_current_generation in *. by rewrite Hin1.
Qed.

Lemma wake_commutes_with_block_witness :
  exists s1 s2,
    block_current_process_locked (wake_blocked_process_locked demo_s3 demo_parent SendCompleted) 0
      (demo_frame 0x400100) = Ret s1 /\
    block_current_process_locked demo_s3 0 (demo_frame 0x400100) = Ret s2 /\
    inner s1 = inner (wake_blocked_process_locked s2 demo_parent SendCompleted).
Proof.
  destruct (wake_commutes_with_block demo_s3 0 demo_parent
    (mkBox 0 (set_state (demo_process demo_parent None Ready) Running))
    (demo_frame 0x400100) SendCompleted demo_s3_inv) as (s1 & s2 & H1 & H2 & H3 & _).
  - unfold MAX_CORES; lia.
  - vm_compute; reflexivity.
  - vm_compute; reflexivity.
  - reflexivity.
  - exists s1, s2. split; [exact H1|]. split; [exact H2|exact H3].
Defined.

(** ** Exit and wait *)

(** C24: finalizing a process always returns, within the nesting bound and with
    no index out of range, and accounts for every process box: the boxes in the
    table before are exactly the boxes in the table after together with the
    boxes handed over to be dropped, so none is leaked and none is dropped
    twice.  The process is gone from its slot, generations are unchanged, and
    the scheduler invariant holds again. *)
Theorem finalize_accounts_for_boxes (s : Sched) (p : Pid) (b : ProcessBox) (status : ExitStatus)
    (Hinv : inv s) (Hok : pid_ok p) (Hocc : occupied s p = Some b) :
  exists s' d, finalize_slot s p status = Ret (s', d) /\ inv s' /\
    owned s ≡ₚ owned s' ++ (box_ident <$> d) /\
    generations (inner s') = generations (inner s) /\
    occupied s' p = None /\ p ∉ ready_list s' /\ (forall c, current_of s' c <> Some p).
Proof.
  destruct (live_target s p Hinv Hok (occupied_current_generation _ _ _ Hocc)) as [Hlt Hpid].
  destruct (finalize_slot_spec s p status Hinv Hlt Hpid) as (s' & d & Heq & Hsh & Hout).
  exists s', d. pose proof Hsh as [Hinv' Hg _ Hperm].
  assert (forall b', processes (inner s') !! pid_index p <> Some (Occupied b')) as Hno.
  { intros b' Hb'. unfold ids in Hout. by rewrite list_lookup_fmap, Hb' in Hout. }
  pose proof Hinv' as (_ & T & G & Q & C & Hrep & HI).
  assert (forall i st, T !! i <> Some (Some (p, st))) as Hnt.
  { intros i st Hi. destruct (occupied_intro s' T G Q C i p st Hrep HI Hi) as (b' & _ & <- & Hb' & _).
    by apply (Hno b'). }
  split_and!; try done.
  - destruct (occupied s' p) as [b'|] eqn:Ho; [|done]. apply occupied_lookup in Ho. by apply Hno in Ho.
  - rewrite (rep_ready_list _ _ _ _ _ Hrep), (ai_queue _ _ _ _ HI). intros [i Hi]. by apply Hnt in Hi.
  - intros c Hc%(current_of_Some _ _ _ _ _ _ _ Hrep).
    destruct (ai_running _ _ _ _ HI _ _ Hc) as [i Hi]. by apply Hnt in Hi.
Qed.

Lemma finalize_accounts_for_boxes_witness :
  exists s' d, finalize_slot demo_s3 demo_parent (Exited 7) = Ret (s', d) /\
    owned demo_s3 ≡ₚ owned s' ++ (box_ident <$> d).
Proof.
  destruct (finalize_accounts_for_boxes demo_s3 demo_parent
    (mkBox 0 (set_state (demo_process demo_parent None Ready) Running)) (Exited 7) demo_s3_inv)
    as (s' & d & H1 & _ & H2 & _).
  - vm_compute. split; congruence.
  - vm_compute. reflexivity.
  - exists s', d. split; [exact H1|exact H2].
Defined.

(** a parent blocked in [wait] receives its child's exit.  When the child
    is finalized the parent becomes ready and queued with 0 in rax and the two
    registers of its saved frame decode to the child's exit status; the child's
    slot is free again. *)
Theorem exit_completes_wait (s : Sched) (c p : Pid) (bc bp : ProcessBox) (status : ExitStatus)
    (Hinv : inv s) (Hc : pid_ok c) (Hp : pid_ok p) (Hne : c <> p)
    (Hbc : occupied s c = Some bc) (Hbp : occupied s p = Some bp)
    (Hwait : wait_waiter (box_process bc) = Some p) (Hblk : state (box_process bp) = Blocked)
    (Hstatus : match status with Exited z => (- 2 ^ 31 <= z < 2 ^ 31)%Z | _ => True end) :
  exists s' d bp', finalize_slot s c status = Ret (s', d) /\
    occupied s' p = Some bp' /\ state (box_process bp') = Ready /\ p ∈ ready_list s' /\
    rax (trap_frame (box_process bp')) = 0%Z /\
    from_regs (rdi (trap_frame (box_process bp'))) (rsi (trap_frame (box_process bp'))) = status /\
    processes (inner s') !! pid_index c = Some Empty.
Proof.
  assert (pid_index p <> pid_index c) as Hidx.
  { intros Heq. apply Hne. symmetry. by eapply pid_index_inj. }
  pose proof (occupied_lookup _ _ _ Hbc) as Hlc. pose proof (occupied_lookup _ _ _ Hbp) as Hlp.
  destruct (live_target s c Hinv Hc (occupied_current_generation _ _ _ Hbc)) as [Hlt Hpid].
  destruct (live_target s p Hinv Hp (occupied_current_generation _ _ _ Hbp)) as [_ Hpidp].
  destruct (finalize_slot_spec s c status Hinv Hlt Hpid) as (s' & d & Heq & [Hinv' Hg _ _] & _).
  destruct (take_out_inv s c bc Hinv Hlc (Hpid bc Hlc)) as (_ & _ & Hg1 & _ & _ & Hempty).
  assert (occupied (taken_out s c) p = Some bp) as Hocc1.
  { apply (occupied_gens s); [done|by eapply occupied_current_generation|].
    by rewrite taken_out_other. }
  destruct (wake_blocked_slot _ p bp (WaitCompleted status) Hocc1 Hblk) as [Hw Hwo].
  rewrite (finalize_unfold s c status bc Hlc) in Heq. unfold report_exit in Heq. rewrite Hwait in Heq.
  destruct (reap_loop _ c _ _) as [[s2 d2]|] eqn:Hreap; [|done]. injection Heq as <- <-.
  pose proof (reap_loop_keeps _ _ MAX_PROCESSES _ _ _ _ _
    (take_and_finalize_keeps MAX_PROCESSES) indices_below Hreap) as Hkeep.
  destruct (Hkeep (pid_index p)) as [Hkp _].
  { apply lookup_lt_Some in Hlp. rewrite (inv_length s Hinv) in Hlp. lia. }
  destruct (Hkp _ Hw ltac:(by left)) as (bp' & Hbp' & Hp' & Ht' & Hs').
  destruct (Hkeep (pid_index c)) as [_ Hkc]; [lia|].
  assert (occupied s2 p = Some bp') as Hocc2.
  { apply (occupied_gens s); [done|by eapply occupied_current_generation|done]. }
  exists s2, (d2 ++ [bc]), bp'. rewrite (finalize_unfold s c status bc Hlc). unfold report_exit.
  rewrite Hwait, Hreap. split_and!; [done|done|done| | | |].
  - apply (ready_in_queue s2 p bp' Hinv' Hocc2); [|done]. rewrite Hp'. simpl. by apply Hpidp.
  - rewrite Ht'. simpl. by destruct (to_regs status).
  - rewrite Ht'. pose proof (exit_status_decodes status Hstatus) as Hd.
    simpl. destruct (to_regs status) as [k v]. exact Hd.
  - apply Hkc. by rewrite Hwo.
Qed.

(** Parent blocked in [wait] on its started child, which now runs on core 0. *)
Definition demo_s4 : Sched := fst (start_child demo_s3 demo_child demo_parent).
Definition demo_s5 : Sched :=
  fst (or_else (demo_s4, None)
    (wait_for_child_locked demo_s4 0 (demo_frame 0x400200) demo_child demo_parent)).

Lemma demo_s5_inv : inv demo_s5.
Proof.
  apply (@reachable_inv demo_selectors). etrans; [apply demo_s3_reachable|].
  eapply rtc_l; [apply (st_start_child demo_s3 demo_child demo_parent); vm_compute; split; congruence|].
  apply rtc_once, (st_wait demo_s4 0 (demo_frame 0x400200) demo_child demo_parent demo_s5 None).
  - unfold MAX_CORES. lia.
  - vm_compute. split; congruence.
  - vm_compute. reflexivity.
Qed.

Lemma exit_completes_wait_witness :
  exists s' d bp', finalize_slot demo_s5 demo_child (Exited (-3)) = Ret (s', d) /\
    occupied s' demo_parent = Some bp' /\
    from_regs (rdi (trap_frame (box_process bp'))) (rsi (trap_frame (box_process bp'))) = Exited (-3).
Proof.
  destruct (occupied demo_s5 demo_child) as [bc|] eqn:Hbc; [|vm_compute in Hbc; discriminate Hbc].
  destruct (occupied demo_s5 demo_parent) as [bp|] eqn:Hbp; [|vm_compute in Hbp; discriminate Hbp].
  destruct (exit_completes_wait demo_s5 demo_child demo_parent bc bp (Exited (-3)) demo_s5_inv)
    as (s' & d & bp' & H1 & H2 & _ & _ & _ & H3 & _); try exact Hbc; try exact Hbp.
  - vm_compute. split; congruence.
  - vm_compute. split; congruence.
  - intros Heq. vm_compute in Heq. discriminate Heq.
  - vm_compute in Hbc. injection Hbc as <-. reflexivity.
  - vm_compute in Hbp. injection Hbp as <-. reflexivity.
  - lia.
  - exists s', d, bp'. split; [exact H1|]. split; [exact H2|exact H3].
Defined.

(** exit before wait.  A process without children that exits while its
    parent is not waiting leaves a zombie; the parent's later [wait] returns at
    once with 0 in rax and registers that decode to the exit status, and frees
    the slot. *)
Theorem exit_then_wait (s : Sched) (c p : Pid) (b : ProcessBox) (status : ExitStatus)
    (core : nat) (frame : TrapFrame)
    (Hinv : inv s) (Hc : pid_ok c) (Hocc : occupied s c = Some b) (Hchild : childless s c)
    (Hw : wait_waiter (box_process b) = None) (Hpar : parent (box_process b) = Some p) (Hne : p <> c)
    (Hstatus : match status with Exited z => (- 2 ^ 31 <= z < 2 ^ 31)%Z | _ => True end) :
  exists s' s'' frame', finalize_slot s c status = Ret (s', [b]) /\
    wait_for_child_locked s' core frame c p = Ret (s'', Some frame') /\
    rax frame' = 0%Z /\ from_regs (rdi frame') (rsi frame') = status /\
    processes (inner s'') !! pid_index c = Some Empty.
Proof.
  destruct (finalize_childless s c b p status Hinv Hc Hocc Hchild Hw Hpar Hne) as (s' & Hf & Hg & Hz).
  exists s'. unfold wait_for_child_locked, proc_at.
  assert (pid_current_generation s' c = true) as ->.
  { apply occupied_current_generation in Hocc. unfold pid_current_generation in *. by rewrite Hg. }
  rewrite Hz, decide_True by done. simpl negb. cbv iota.
  pose proof (exit_status_decodes status Hstatus) as Hd. destruct (to_regs status) as [k v].
  eexists _, _. split_and!; [done|done|done|exact Hd|].
  simpl. rewrite list_lookup_insert_eq; [done|]. by apply lookup_lt_Some in Hz.
Qed.

Lemma exit_then_wait_witness :
  exists s' s'' frame' b, finalize_slot demo_s4 demo_child (Exited 5) = Ret (s', [b]) /\
    wait_for_child_locked s' 0 (demo_frame 0x400200) demo_child demo_parent = Ret (s'', Some frame') /\
    from_regs (rdi frame') (rsi frame') = Exited 5.
Proof.
  assert (inv demo_s4) as Hinv.
  { apply start_child_inv; [exact demo_s3_inv|]. vm_compute. split; congruence. }
  destruct (occupied demo_s4 demo_child) as [b|] eqn:Hb; [|vm_compute in Hb; discriminate Hb].
  destruct (exit_then_wait demo_s4 demo_child demo_parent b (Exited 5) 0 (demo_frame 0x400200) Hinv)
    as (s' & s'' & frame' & H1 & H2 & _ & H3 & _).
  - vm_compute. split; congruence.
  - exact Hb.
  - intros i b' Hi Hp.
    assert (forallb (fun x => match x with
      | Occupied b => negb (bool_decide (parent (box_process b) = Some demo_child)) | _ => true end)
      (processes (inner demo_s4)) = true) as Hall by (vm_compute; reflexivity).
    rewrite forallb_forall in Hall.
    specialize (Hall (Occupied b') ltac:(apply list_elem_of_In, (list_elem_of_lookup_2 _ i), Hi)).
    simpl in Hall. by rewrite bool_decide_true in Hall.
  - vm_compute in Hb. injection Hb as <-. reflexivity.
  - vm_compute in Hb. injection Hb as <-. reflexivity.
  - intros Heq. vm_compute in Heq. discriminate Heq.
  - lia.
  - exists s', s'', frame', b. split; [exact H1|]. split; [exact H2|exact H3].
Defined.

(** an orphaned suspended child is never freed.  When a process that still
    has a suspended child exits, the child is finalized while its recorded
    parent is the exiting process, so its slot becomes a zombie whose parent no
    longer exists: no process can reap it, and the table never counts as empty
    again, so the machine never reaches its final halt. *)
Theorem orphaned_suspended_child_leaks :
  exists s' d, finalize_slot demo_s3 demo_parent (Exited 0) = Ret (s', d) /\
    processes (inner s') !! pid_index demo_child = Some (Zombie demo_parent Killed) /\
    occupied s' demo_parent = None /\ all_processes_empty s' = false /\
    forall core frame caller, caller <> demo_parent ->
      wait_for_child_locked s' core frame demo_child caller =
      Ret (s', Some (set_rax frame (retval_u64 InvalidTarget))).
Proof.
  destruct (finalize_slot demo_s3 demo_parent (Exited 0)) as [[s' d]|] eqn:Hf;
    [|vm_compute in Hf; discriminate Hf].
  exists s', d. vm_compute in Hf. injection Hf as <- <-. split; [reflexivity|].
  split; [reflexivity|]. split; [reflexivity|]. split; [reflexivity|].
  intros core frame caller Hne. unfold wait_for_child_locked.
  match goal with |- context [pid_current_generation ?s ?p] =>
    replace (pid_current_generation s p) with true by (vm_compute; reflexivity) end.
  match goal with |- context [proc_at ?s ?i] =>
    replace (proc_at s i) with (Some (Zombie demo_parent Killed)) by (vm_compute; reflexivity) end.
  simpl negb. cbv iota. by rewrite decide_False.
Qed.

(** ** Process identifiers never come back *)

(** [allocate_pid] reserves the lowest slot that is empty and whose kernel
    stack no core is still using, under a generation different from the last
    one used there: every identifier that named the slot's previous occupant
    stops being valid, and no other identifier is affected.  When no slot
    qualifies, nothing changes and the returned index is out of range. *)
Theorem allocate_pid_fresh (s s' : Sched) (p : Pid) (Hinv : inv s) (Ha : allocate_pid s = (s', p)) :
  inv s' /\
  ((exists i, pid_index p = i /\ i < MAX_PROCESSES /\
      processes (inner s) !! i = Some Empty /\ stack_busy s !! i <> Some true /\
      (forall j, j < i -> slot_allocatable s j = false) /\
      processes (inner s') !! i = Some Reserved /\
      pid_current_generation s' p = true /\
      (forall q, pid_index q = i -> pid_current_generation s q = true -> pid_current_generation s' q = false) /\
      (forall q, pid_index q <> i -> pid_current_generation s' q = pid_current_generation s q)) \/
   (s' = s /\ pid_index p = MAX_PROCESSES /\ forall j, j < MAX_PROCESSES -> slot_allocatable s j = false)).
Proof.
  pose proof (allocate_pid_inv s Hinv) as Hinv'. rewrite Ha in Hinv'. split; [done|].
  destruct (allocate_pid_cases s Hinv) as [(i & g & Heq & Hi & Hg & He & Hb & Hmin)|[Heq Hno]];
    rewrite Heq in Ha; simplify_eq; [left|right; split_and!; [done|by rewrite pid_index_new by (by vm_compute)|done]].
  pose proof Hinv as (_ & T & G & Q & C & Hrep & HI).
  pose proof (Forall_lookup_1 _ _ _ _ (ai_width _ _ _ _ HI) ltac:(by rewrite <- (rep_gens _ _ _ _ _ Hrep))) as Hw.
  assert (is_u32 (wrap32 (g + 1))) as Hw' by (apply wrap_in_width; lia).
  pose proof (small_index i Hi) as Hsm. exists i. rewrite pid_index_new by done.
  assert (i < length (generations (inner s))) as Hlt by (by apply lookup_lt_Some in Hg).
  split_and!; try done.
  - rewrite procs_put_slot, list_lookup_insert_eq; [done|]. by apply lookup_lt_Some in He.
  - apply pid_current_generation_true. rewrite pid_index_new, pid_generation_new by done.
    split; [done|]. simpl. by rewrite list_lookup_insert_eq.
  - intros q Hq [_ Hgq]%pid_current_generation_true. apply not_true_is_false.
    intros [_ Hgq']%pid_current_generation_true. simpl in Hgq'. rewrite Hq in *.
    rewrite list_lookup_insert_eq in Hgq' by done. rewrite Hg in Hgq. simplify_eq.
    unfold in_width, wrap in *. div_lia.
  - intros q Hq. unfold pid_current_generation. simpl. by rewrite list_lookup_insert_ne.
Qed.

Lemma allocate_pid_fresh_witness :
  exists s' p, allocate_pid demo_s3 = (s', p) /\ inv s' /\ pid_index p = 2.
Proof.
  destruct (allocate_pid demo_s3) as [s' p] eqn:Ha. exists s', p.
  split; [reflexivity|]. split.
  - exact (proj1 (allocate_pid_fresh demo_s3 s' p demo_s3_inv Ha)).
  - vm_compute in Ha. injection Ha as _ <-. reflexivity.
Defined.
