(* ===== verification/SchedTrace.v ===== *)
(** * The dispatch trace

    Each core keeps its last [TRACE_LEN] dispatches in a ring that is only
    read when the kernel panics; the dump lists them oldest first. *)
From S2P Require Import Prelude Abi Ring CapTable Virt Process Sched.
Open Scope nat_scope.

(** The ring after recording [l]: entry [i] of the last [TRACE_LEN] entries is
    in slot [i mod TRACE_LEN]. *)
Record trace_repr (t : DispatchTrace) (l : list (Z * Z)) : Prop := {
  tr_cursor : cursor t = Z.of_nat (length l);
  tr_seqs : length (seqs t) = TRACE_LEN;
  tr_raws : length (pid_raws t) = TRACE_LEN;
  tr_entries : forall i e, l !! i = Some e -> length l <= i + TRACE_LEN ->
    seqs t !! (i mod TRACE_LEN) = Some (fst e) /\ pid_raws t !! (i mod TRACE_LEN) = Some (snd e);
}.

Lemma trace_repr_new : trace_repr trace_new [].
Proof. by split. Qed.

Lemma trace_repr_push t l e :
  trace_repr t l -> (Z.of_nat (length l) + 1 < 2 ^ 64)%Z -> trace_repr (trace_push t e) (l ++ [e]).
Proof.
  intros [Hc Hs Hr He] Hlt. unfold trace_push.
  assert (Z.to_nat (cursor t mod Z.of_nat TRACE_LEN) = length l mod TRACE_LEN) as Hslot.
  { rewrite Hc. unfold TRACE_LEN. div_lia. }
  rewrite Hslot. unfold TRACE_LEN in *. split; simpl.
  - rewrite Hc, length_app. simpl. rewrite wrap_small by (unfold in_width; lia). lia.
  - by rewrite length_insert.
  - by rewrite length_insert.
  - intros i x Hi Hwin. rewrite length_app in Hwin. unfold TRACE_LEN in *. simpl in Hwin.
    apply lookup_app_Some in Hi as [Hi|[Hge Hi]].
    + assert (i mod 24 <> length l mod 24) as Hne.
      { apply lookup_lt_Some in Hi. div_lia. }
      rewrite !list_lookup_insert_ne by done. apply He; [done|lia].
    + apply list_lookup_singleton_Some in Hi as [Hi <-].
      assert (i = length l) as -> by lia. rewrite !list_lookup_insert_eq; [done|..];
        rewrite ?Hs, ?Hr; div_lia.
Qed.

Lemma trace_repr_foldl l0 l t :
  trace_repr t l0 -> (Z.of_nat (length l0 + length l) < 2 ^ 64)%Z ->
  trace_repr (foldl trace_push t l) (l0 ++ l).
Proof.
  revert l0 t. induction l as [|e l IH]; intros l0 t Ht Hlt; simpl in *; [by rewrite app_nil_r|].
  rewrite cons_middle, (assoc_L (++)). apply IH.
  - apply trace_repr_push; [done|lia].
  - rewrite length_app. simpl. lia.
Qed.

Lemma dump_slot (n i : nat) :
  i < Nat.min n 24 ->
  Z.to_nat (((if decide (Z.of_nat n <= 24) then 0 else Z.of_nat n mod 24) + Z.of_nat i) mod 24)%Z =
  (n - 24 + i) mod 24.
Proof. intros Hi. case_decide; div_lia. Qed.

Lemma dump_spec t l :
  trace_repr t l -> dispatch_trace_dump t = drop (length l - TRACE_LEN) l.
Proof.
  intros [Hc Hs Hr He]. unfold dispatch_trace_dump. rewrite Hc. unfold TRACE_LEN in *.
  change (Z.of_nat 24) with 24%Z.
  replace (Z.to_nat (Z.min (Z.of_nat (length l)) 24)) with (Nat.min (length l) 24) by lia.
  apply list_eq. intros i. rewrite lookup_drop, list_lookup_fmap.
  destruct (decide (i < Nat.min (length l) 24)) as [Hi|Hi].
  - rewrite lookup_seq_lt by done. simpl.
    rewrite dump_slot by done. destruct (lookup_lt_is_Some_2 l (length l - 24 + i)) as [e Hle]; [lia|].
    destruct (He _ _ Hle) as [-> ->]; [lia|]. simpl. rewrite Hle. by destruct e.
  - rewrite !lookup_ge_None_2; [done|lia|rewrite length_seq; lia].
Qed.

(** After any number of dispatches on a core, the panic dump prints exactly
    the last 24 of them (all of them if there were fewer), oldest first, each
    with the time stamp and identifier it was recorded with. *)
Theorem trace_dump_last (l : list (Z * Z)) (Hlen : (Z.of_nat (length l) < 2 ^ 64)%Z) :
  dispatch_trace_dump (foldl trace_push trace_new l) = drop (length l - TRACE_LEN) l.
Proof. apply dump_spec. by apply (trace_repr_foldl [] l trace_new trace_repr_new). Qed.

Lemma trace_dump_last_witness :
  dispatch_trace_dump (foldl trace_push trace_new ((fun i => (Z.of_nat i, 7%Z)) <$> seq 0 30)) =
  (fun i => (Z.of_nat i, 7%Z)) <$> seq 6 24.
Proof.
  rewrite (trace_dump_last ((fun i => (Z.of_nat i, 7%Z)) <$> seq 0 30)); [reflexivity|].
  rewrite length_fmap, length_seq. lia.
Defined.
