(* ===== verification/Uart.v ===== *)
(** * The serial console device ([kernel/src/driver/uart.rs])

    The 16550's receive FIFO, with the line-status error bits each byte
    arrived with, the transmitter (how many status reads until its holding
    register is empty) and what was sent.  Port writes of the initialization
    are recorded in order. *)
From S2P Require Import Prelude.
Open Scope Z_scope.

Definition COM1_BASE : Z := 0x3F8.
Definition IER_RX_AVAILABLE : Z := 0x01.
Definition FCR_ENABLE_FIFO_CLEAR : Z := 0xC7.
Definition LCR_8N1 : Z := 0x03.
Definition LCR_DLAB : Z := 0x80.
Definition MCR_INIT : Z := 0x0B.
Definition LSR_DATA_READY : Z := 0x01.
Definition LSR_OVERRUN_ERROR : Z := 0x02.
Definition LSR_PARITY_ERROR : Z := 0x04.
Definition LSR_FRAMING_ERROR : Z := 0x08.
Definition LSR_ERROR_BITS : Z := Z.lor (Z.lor LSR_OVERRUN_ERROR LSR_PARITY_ERROR) LSR_FRAMING_ERROR.
Definition LSR_THR_EMPTY : Z := 0x20.
Definition BAUD_DIVISOR : Z := 3.

(** [rx]: bytes waiting, each with its error bits; [tx_busy]: status reads
    before the transmitter accepts a byte; [rx_waker]: the task to wake on
    input ([RX_WAKER]). *)
Record Uart := mkUart {
  rx : list (Z * Z);
  tx_busy : nat;
  tx : list Z;
  ports : list (Z * Z);
  lsr_errors : Z;
  rx_waker : option nat;
}.

Definition set_rx (u : Uart) (l : list (Z * Z)) (n : Z) : Uart :=
  mkUart l (tx_busy u) (tx u) (ports u) n (rx_waker u).
Definition set_rx_waker (u : Uart) (w : option nat) : Uart :=
  mkUart (rx u) (tx_busy u) (tx u) (ports u) (lsr_errors u) w.

Module Com1.
(** Bit 1 of the FIFO control register empties the receive FIFO. *)
Definition outb (u : Uart) (port v : Z) : Uart :=
  mkUart (if (port =? COM1_BASE + 2) && Z.testbit v 1 then [] else rx u)
    (tx_busy u) (tx u) (ports u ++ [(port, v)]) (lsr_errors u) (rx_waker u).

Definition init (u : Uart) : Uart :=
  let u := outb u (COM1_BASE + 1) 0x00 in
  let u := outb u (COM1_BASE + 3) LCR_DLAB in
  let u := outb u COM1_BASE (Z.land BAUD_DIVISOR 0xFF) in
  let u := outb u (COM1_BASE + 1) (Z.shiftr BAUD_DIVISOR 8) in
  let u := outb u (COM1_BASE + 3) LCR_8N1 in
  let u := outb u (COM1_BASE + 2) FCR_ENABLE_FIFO_CLEAR in
  let u := outb u (COM1_BASE + 4) MCR_INIT in
  outb u (COM1_BASE + 1) IER_RX_AVAILABLE.

(** The line-status register: data ready with the head byte's error bits, and
    transmitter empty. *)
Definition line_status (u : Uart) : Z :=
  Z.lor (match rx u with [] => 0 | (err, _) :: _ => Z.lor LSR_DATA_READY err end)
        (if decide (tx_busy u = 0%nat) then LSR_THR_EMPTY else 0).

(** Polling the transmitter: each status read brings it closer to empty. *)
Fixpoint write_byte_loop (fuel : nat) (u : Uart) (byte : Z) : option Uart :=
  match fuel with
  | O => None
  | S fuel =>
      if decide (Z.land (line_status u) LSR_THR_EMPTY = 0)
      then write_byte_loop fuel
             (mkUart (rx u) (pred (tx_busy u)) (tx u) (ports u) (lsr_errors u) (rx_waker u)) byte
      else Some (mkUart (rx u) (tx_busy u) (tx u ++ [byte]) (ports u) (lsr_errors u) (rx_waker u))
  end.

Definition write_byte (u : Uart) (byte : Z) : Uart :=
  default u (write_byte_loop (S (tx_busy u)) u byte).

Fixpoint write_bytes (u : Uart) (bytes : list Z) : Uart :=
  match bytes with
  | [] => u
  | b :: bytes => write_bytes (write_byte u b) bytes
  end.

Definition write_line (u : Uart) (text : list Z) : Uart :=
  write_bytes (write_bytes u text) [13; 10].

(** [try_read_byte]: reading the data port consumes the head of the FIFO. *)
Fixpoint try_read_loop (l : list (Z * Z)) (errors : Z) : list (Z * Z) * Z * option Z :=
  match l with
  | [] => ([], errors, None)
  | (err, byte) :: l =>
      if decide (Z.land (Z.lor LSR_DATA_READY err) LSR_ERROR_BITS <> 0)
      then try_read_loop l (wrap64 (errors + 1))
      else (l, errors, Some byte)
  end.

Definition try_read_byte (u : Uart) : Uart * option Z :=
  let '(l, n, r) := try_read_loop (rx u) (lsr_errors u) in (set_rx u l n, r).

(** ** Transmission *)
Lemma line_status_thr u :
  Forall (fun e => Z.land (fst e) LSR_THR_EMPTY = 0) (rx u) ->
  Z.land (line_status u) LSR_THR_EMPTY = if decide (tx_busy u = 0%nat) then LSR_THR_EMPTY else 0.
Proof.
  intros Hrx. unfold line_status. rewrite Z.land_lor_distr_l.
  assert (Z.land (match rx u with [] => 0 | (err, _) :: _ => Z.lor LSR_DATA_READY err end)
            LSR_THR_EMPTY = 0) as ->.
  { destruct Hrx as [|[err b] l He _]; [done|]. rewrite Z.land_lor_distr_l. simpl in He. by rewrite He. }
  by case_decide.
Qed.

Lemma write_byte_loop_sends n u byte :
  tx_busy u = n -> Forall (fun e => Z.land (fst e) LSR_THR_EMPTY = 0) (rx u) ->
  write_byte_loop (S n) u byte =
  Some (mkUart (rx u) 0 (tx u ++ [byte]) (ports u) (lsr_errors u) (rx_waker u)).
Proof.
  revert u. induction n as [|n IH]; intros u Hn Hrx; cbn [write_byte_loop];
    rewrite line_status_thr by done; rewrite Hn; simpl.
  - done.
  - apply (IH (mkUart (rx u) n (tx u) (ports u) (lsr_errors u) (rx_waker u))); done.
Qed.

(** Writing a byte string waits for the transmitter before every byte,
    always finishes when the transmitter drains, and puts exactly the bytes on
    the wire in order; reception is untouched. *)
Theorem write_bytes_sends (bytes : list Z) (u : Uart)
    (Hrx : Forall (fun e => Z.land (fst e) LSR_THR_EMPTY = 0) (rx u)) :
  tx (write_bytes u bytes) = tx u ++ bytes /\ rx (write_bytes u bytes) = rx u.
Proof.
  revert u Hrx. induction bytes as [|b l IH]; intros u Hrx; simpl; [by rewrite app_nil_r|].
  destruct (IH (write_byte u b)) as [-> ->].
  - unfold write_byte. by rewrite (write_byte_loop_sends (tx_busy u)).
  - unfold write_byte. rewrite (write_byte_loop_sends (tx_busy u)) by done. simpl.
    by rewrite <- (assoc_L (++)).
Qed.

(** [try_read_byte] returns the oldest byte received without a line error,
    dropping and counting every byte before it that arrived with an overrun,
    parity or framing error; it returns nothing exactly when only such bytes,
    or none, were waiting. *)
Theorem try_read_byte_skips_errors (u : Uart) :
  exists bad rest, rx u = bad ++ rest /\
    Forall (fun e => Z.land (Z.lor LSR_DATA_READY (fst e)) LSR_ERROR_BITS <> 0) bad /\
    match rest with
    | [] => snd (try_read_byte u) = None /\ rx (fst (try_read_byte u)) = []
    | e :: rest' =>
        Z.land (Z.lor LSR_DATA_READY (fst e)) LSR_ERROR_BITS = 0 /\
        snd (try_read_byte u) = Some (snd e) /\ rx (fst (try_read_byte u)) = rest'
    end.
Proof.
  unfold try_read_byte. generalize (lsr_errors u) as n.
  assert (forall l n, exists bad rest, l = bad ++ rest /\
    Forall (fun e => Z.land (Z.lor LSR_DATA_READY (fst e)) LSR_ERROR_BITS <> 0) bad /\
    match rest with
    | [] => snd (try_read_loop l n) = None /\ fst (fst (try_read_loop l n)) = []
    | e :: rest' => Z.land (Z.lor LSR_DATA_READY (fst e)) LSR_ERROR_BITS = 0 /\
        snd (try_read_loop l n) = Some (snd e) /\ fst (fst (try_read_loop l n)) = rest'
    end) as Hl.
  { induction l as [|[err b] l IH]; intros n; [by exists [], []|]. cbn [try_read_loop].
    case_decide as Hd.
    - destruct (IH (wrap64 (n + 1))) as (bad & rest & -> & Hbad & Hrest).
      exists ((err, b) :: bad), rest. split_and!; [done|by constructor|done].
    - exists [], ((err, b) :: l). split_and!; [done|constructor| |done|done]. simpl. lia. }
  intros n. destruct (Hl (rx u) n) as (bad & rest & Hrx & Hbad & Hrest).
  exists bad, rest. split_and!; [done|done|].
  destruct (try_read_loop (rx u) n) as [[l' n'] r]. destruct rest; simpl in *; naive_solver.
Qed.
End Com1.

Lemma write_bytes_sends_witness :
  tx (Com1.write_bytes (mkUart [(0, 65)] 3 [] [] 0 None) [72; 105]) = [72; 105].
Proof.
  apply (Com1.write_bytes_sends [72; 105] (mkUart [(0, 65)] 3 [] [] 0 None)).
  repeat constructor.
Defined.
