(* ===== verification/Kernel.v ===== *)
(** * The kernel's shared state, IPC endpoints and the executor
      ([kernel/src/ipc/endpoint.rs], [kernel/src/task/executor.rs])

    [Kernel] puts the scheduler beside memory, the endpoint store (an
    [Arc<Endpoint>] is a key of it), the task executor and the serial device.
    A [Waker] is the task id it wakes.  The kernel tasks the boot code spawns
    are the console server, the echo task and the receivers and senders of the
    IPC smoke test.  Each endpoint operation is the source's sequence of
    lock-protected steps. *)
From stdpp Require Import sorting.
From S2P Require Import Prelude Abi Ring Rendezvous CapTable Phys Virt Process Sched Uart.
Open Scope nat_scope.

Inductive Task :=
| ConsoleServer (endpoint : nat)
| EchoTask
| SmokeRecv (endpoint : nat) (expected : Z)
| SmokeSend (endpoint : nat) (message : option Message).

Definition READY_QUEUE_CAPACITY : nat := 64.

Record Exec := mkExec {
  tasks : gmap nat Task;
  wakers : gset nat;
  task_ready : RingBuffer nat;
  overflowed : bool;
  next_task : nat;
}.

Abbreviation EpSlot := (Rendezvous.Slot MessagePayload nat Pid).

Record Kernel := mkKernel {
  ksched : Sched;
  kmem : Mem;
  kendpoints : gmap nat EpSlot;
  kexec : Exec;
  kuart : Uart;
  kidle : AddressSpace;
}.

Definition set_sched (k : Kernel) (s : Sched) : Kernel :=
  mkKernel s (kmem k) (kendpoints k) (kexec k) (kuart k) (kidle k).
Definition set_mem (k : Kernel) (m : Mem) : Kernel :=
  mkKernel (ksched k) m (kendpoints k) (kexec k) (kuart k) (kidle k).
Definition set_endpoints (k : Kernel) (e : gmap nat EpSlot) : Kernel :=
  mkKernel (ksched k) (kmem k) e (kexec k) (kuart k) (kidle k).
Definition set_exec (k : Kernel) (x : Exec) : Kernel :=
  mkKernel (ksched k) (kmem k) (kendpoints k) x (kuart k) (kidle k).
Definition set_uart (k : Kernel) (u : Uart) : Kernel :=
  mkKernel (ksched k) (kmem k) (kendpoints k) (kexec k) u (kidle k).

(** ** Waking tasks *)
Definition set_task_ready (x : Exec) (r : RingBuffer nat) : Exec :=
  mkExec (tasks x) (wakers x) r (overflowed x) (next_task x).
Definition set_overflowed (x : Exec) (b : bool) : Exec :=
  mkExec (tasks x) (wakers x) (task_ready x) b (next_task x).
Definition set_tasks (x : Exec) (t : gmap nat Task) (w : gset nat) : Exec :=
  mkExec t w (task_ready x) (overflowed x) (next_task x).

Definition wake_task (k : Kernel) (id : nat) : Kernel :=
  let '(r, pushed) := Ring.push READY_QUEUE_CAPACITY (task_ready (kexec k)) id in
  let x := set_task_ready (kexec k) r in
  set_exec k (if pushed then x else set_overflowed x true).

Definition wake_blocked_process (k : Kernel) (p : Pid) (r : WakeResult) : Kernel :=
  set_sched k (wake_blocked_process_locked (ksched k) p r).

(** ** Endpoints *)
Inductive SendResult := SDelivered | SBlocked | SQueueFull.
Inductive RecvResult := RDelivered (m : Message) | RBlocked | RQueueFull.

Definition ep_slot (k : Kernel) (e : nat) : EpSlot := default SlotEmpty (kendpoints k !! e).
Definition put_ep (k : Kernel) (e : nat) (s : EpSlot) : Kernel :=
  set_endpoints k (<[e := s]> (kendpoints k)).

Definition wake_sender (k : Kernel) (sender : Waiter nat Pid) : Kernel :=
  match sender with
  | WTask id => wake_task k id
  | WProcess p => wake_blocked_process k p SendCompleted
  | WNone => k
  end.

Definition ep_try_recv (k : Kernel) (e : nat) (receiver : Pid) : outcome (Kernel * RecvResult) :=
  let! '(s, out) := Rdv.try_recv MAX_PROCESSES (ep_slot k e) (WProcess receiver) in
  let k := put_ep k e s in
  match out with
  | RecvDelivered message sender =>
      let k := wake_sender k sender in
      let! m := into_inline message in Ret (k, RDelivered m)
  | RecvEnqueued => Ret (k, RBlocked)
  | RecvQueueFull => Ret (k, RQueueFull)
  end.

Definition word (m : Message) (i : nat) : Z := default 0%Z (words m !! i).

Definition wake_receiver (k : Kernel) (e : nat) (receiver : Waiter nat Pid) : outcome Kernel :=
  match receiver with
  | WTask id => Ret (wake_task k id)
  | WProcess p =>
      let! '(k, r) := ep_try_recv k e p in
      match r with
      | RDelivered m =>
          Ret (wake_blocked_process k p (RecvCompleted (tag m) (word m 0) (word m 1) (word m 2)))
      | _ => Ret k
      end
  | WNone => Ret k
  end.

Definition ep_try_send (k : Kernel) (e : nat) (m : Message) (sender : Pid)
    : outcome (Kernel * SendResult) :=
  let '(s, out) := Rdv.try_send MAX_PROCESSES (ep_slot k e) (inline m) (WProcess sender) in
  let k := put_ep k e s in
  match out with
  | SendDelivered receiver =>
      let! k := wake_receiver k e receiver in Ret (k, SDelivered)
  | SendEnqueued => Ret (k, SBlocked)
  | SendQueueFull => Ret (k, SQueueFull)
  end.

Definition take_waiting_process_receiver (k : Kernel) (e : nat) : Kernel * option Pid :=
  match ep_slot k e with
  | ReceiverWaiting (WProcess p) => (put_ep k e SlotEmpty, Some p)
  | _ => (k, None)
  end.

(** [SendFuture::poll]; the future's state is the message not yet handed over.
    The result is the new state and whether the future is ready. *)
Definition send_future_poll (k : Kernel) (e : nat) (id : nat) (message : option Message)
    : outcome (Kernel * option Message * bool) :=
  match message with
  | Some m =>
      let '(s, out) := Rdv.try_send MAX_PROCESSES (ep_slot k e) (inline m) (WTask id) in
      let k := put_ep k e s in
      match out with
      | SendDelivered receiver =>
          let! k := wake_receiver k e receiver in Ret (k, None, true)
      | SendEnqueued => Ret (k, None, false)
      | SendQueueFull => Ret (wake_task k id, Some m, false)
      end
  | None => Ret (k, None, true)
  end.

(** [RecvFuture::poll]: [None] is [Pending]. *)
Definition recv_future_poll (k : Kernel) (e : nat) (id : nat) : outcome (Kernel * option Message) :=
  let! '(s, out) := Rdv.try_recv MAX_PROCESSES (ep_slot k e) (WTask id) in
  let k := put_ep k e s in
  match out with
  | RecvDelivered message sender =>
      let k := wake_sender k sender in
      let! m := into_inline message in Ret (k, Some m)
  | RecvEnqueued => Ret (k, None)
  | RecvQueueFull => Ret (wake_task k id, None)
  end.

(** ** Kernel tasks

    One poll of a task runs it up to its next suspension.  The console server
    prints every message it can receive; it takes one queued message per turn,
    so a full queue and one more turn bound its loop. *)
Fixpoint console_server_poll (fuel : nat) (k : Kernel) (e : nat) (id : nat) : outcome Kernel :=
  match fuel with
  | O => Panic "console turn bound exceeded"
  | S fuel =>
      let! '(k, r) := recv_future_poll k e id in
      match r with
      | None => Ret k
      | Some m =>
          console_server_poll fuel
            (set_uart k (Com1.write_line (kuart k) (as_str_lossy m))) e id
      end
  end.

(** [RxAvailable::poll]: arm the waker between two attempts to read. *)
Definition rx_available_poll (k : Kernel) (id : nat) : Kernel * option Z :=
  let '(u, r) := Com1.try_read_byte (kuart k) in
  match r with
  | Some byte => (set_uart k u, Some byte)
  | None =>
      let '(u, r) := Com1.try_read_byte (set_rx_waker u (Some id)) in
      (set_uart k u, r)
  end.

Fixpoint echo_task_poll (fuel : nat) (k : Kernel) (id : nat) : outcome Kernel :=
  match fuel with
  | O => Panic "echo turn bound exceeded"
  | S fuel =>
      match rx_available_poll k id with
      | (k, Some byte) => echo_task_poll fuel (set_uart k (Com1.write_byte (kuart k) byte)) id
      | (k, None) => Ret k
      end
  end.

(** The first two tasks loop forever, so their poll is never ready; the tasks of
    the smoke test end with their future.  A sender keeps its future's state. *)
Definition poll (k : Kernel) (id : nat) (t : Task) : outcome (Kernel * bool) :=
  match t with
  | ConsoleServer e => let! k := console_server_poll (S (S MAX_PROCESSES)) k e id in Ret (k, false)
  | EchoTask => let! k := echo_task_poll (S (length (rx (kuart k)))) k id in Ret (k, false)
  | SmokeRecv e expected =>
      let! '(k, r) := recv_future_poll k e id in
      match r with
      | None => Ret (k, false)
      | Some m =>
          assert! (tag m =? expected)%Z else "assertion `left == right` failed";
          Ret (k, true)
      end
  | SmokeSend e message =>
      let! '(k, message, is_ready) := send_future_poll k e id message in
      Ret (set_exec k (set_tasks (kexec k) (<[id := SmokeSend e message]> (tasks (kexec k))) (wakers (kexec k))), is_ready)
  end.

(** [uart::handle_irq] through the driver's interrupt handler. *)
Definition uart_handle_irq (k : Kernel) : Kernel :=
  match rx_waker (kuart k) with
  | Some id => wake_task (set_uart k (set_rx_waker (kuart k) None)) id
  | None => k
  end.

(** ** The executor *)
Definition task_new (k : Kernel) : Kernel * nat :=
  let x := kexec k in
  (set_exec k (mkExec (tasks x) (wakers x) (task_ready x) (overflowed x) (S (next_task x))),
   next_task x).

Definition exec_spawn (k : Kernel) (id : nat) (t : Task) : Kernel :=
  let k := set_exec k (set_tasks (kexec k) (<[id := t]> (tasks (kexec k))) (wakers (kexec k))) in
  set_exec k (set_task_ready (kexec k)
    (fst (Ring.push READY_QUEUE_CAPACITY (task_ready (kexec k)) id))).

Definition poll_task (k : Kernel) (id : nat) : outcome Kernel :=
  match tasks (kexec k) !! id with
  | None => Ret k
  | Some t =>
      let k := set_exec k (set_tasks (kexec k) (tasks (kexec k)) ({[id]} ∪ wakers (kexec k))) in
      let! '(k, is_ready) := poll k id t in
      Ret (if is_ready : bool
           then set_exec k (set_tasks (kexec k) (delete id (tasks (kexec k)))
                              (wakers (kexec k) ∖ {[id]}))
           else k)
  end.

Fixpoint poll_all (k : Kernel) (ids : list nat) : outcome Kernel :=
  match ids with
  | [] => Ret k
  | id :: ids => let! k := poll_task k id in poll_all k ids
  end.

Fixpoint poll_ready_loop (fuel : nat) (k : Kernel) : outcome Kernel :=
  match fuel with
  | O => Panic "poll bound exceeded"
  | S fuel =>
      let '(r, o) := Ring.pop READY_QUEUE_CAPACITY (task_ready (kexec k)) in
      let k := set_exec k (set_task_ready (kexec k) r) in
      match o with
      | Some id => let! k := poll_task k id in poll_ready_loop fuel k
      | None => Ret k
      end
  end.

(** [run_ready_tasks]: after an overflow every task is polled once, in key
    order; otherwise the ready queue is drained.  [fuel] bounds the polls. *)
Definition run_ready_tasks (fuel : nat) (k : Kernel) : outcome Kernel :=
  if overflowed (kexec k) then
    poll_all (set_exec k (set_overflowed (kexec k) false))
      (merge_sort (≤) (elements (dom (tasks (kexec k)))))
  else poll_ready_loop fuel k.

(** A kernel around a scheduler state, with no endpoints and no tasks. *)
Definition demo_kernel (s : Sched) : Kernel :=
  mkKernel s demo_mem ∅ (mkExec ∅ ∅ (Ring.new READY_QUEUE_CAPACITY) false 0)
    (mkUart [] 0 [] [] 0 None) (mkAS 0).
