(* ===== verification/Handlers.v ===== *)
(** * Kernel entry points of the scheduler ([kernel/src/task/scheduler.rs])

    The handlers that combine scheduler critical sections with memory
    release, IPC wake-ups and the executor: switching away, exiting, killing,
    blocking, the timer tick, the reschedule interrupt and the idle loop.

    A handler receives the interrupted register frame and returns where the
    core continues: in the caller's frame, in the saved frame of a table slot,
    in its idle loop, or halted.  While the killer of a process running
    elsewhere spins, other cores act; [env] is what they do. *)
From stdpp Require Import sorting.
From S2P Require Import Prelude Abi Ring Rendezvous CapTable Phys Virt Process Sched Uart Kernel.
Open Scope nat_scope.

Inductive Resume :=
| RCaller (frame : TrapFrame)
| RProcess (index : nat)
| RIdle (halt_message : option string)
| RHalt (message : string).

Section handlers.
Context (W : nat) `{X86} `{Selectors} `{RightsOps} (poll_fuel : nat).

(** ** Releasing process boxes *)
Definition drop_box (k : Kernel) (b : ProcessBox) : outcome Kernel :=
  let! m := Virt.address_space_drop W (kmem k) (address_space (box_process b)) in
  Ret (set_sched (set_mem k m) (free_process_slot (ksched k) (box_slot b))).

Fixpoint drop_boxes (k : Kernel) (l : list ProcessBox) : outcome Kernel :=
  match l with
  | [] => Ret k
  | b :: l => let! k := drop_box k b in drop_boxes k l
  end.

(** ** Waking receivers whose last sender is gone *)
Definition is_endpoint (e : nat) (o : KernelObjectRef) : bool :=
  match o with OEndpoint e' => e' =? e | _ => false end.

Definition holds_send (t : CapTable KernelObjectRef) (e : nat) : bool :=
  existsb (fun sl => contains (rights sl) SEND && is_endpoint e (object sl)) (Cap.iter t).

Definition still_has_a_live_sender (s : Sched) (e : nat) : bool :=
  existsb (fun x => match x with
                    | Occupied b => holds_send (cap_table (box_process b)) e
                    | _ => false
                    end) (processes (inner s)).

(** The endpoints of a dying process that no live process can send to. *)
Definition orphaned_of (s : Sched) (q : Process) : list nat :=
  omap (fun sl =>
    if contains (rights sl) SEND then
      match object sl with
      | OEndpoint e => if still_has_a_live_sender s e then None else Some e
      | _ => None
      end
    else None) (Cap.iter (cap_table q)).

Fixpoint wake_peer_closed (k : Kernel) (es : list nat) : Kernel :=
  match es with
  | [] => k
  | e :: es =>
      let '(k, o) := take_waiting_process_receiver k e in
      let k := match o with Some p => wake_blocked_process k p WakePeerClosed | None => k end in
      wake_peer_closed k es
  end.

Definition wake_orphaned_receivers (k : Kernel) (dying : list ProcessBox) : Kernel :=
  wake_peer_closed k (dying ≫= fun b => orphaned_of (ksched k) (box_process b)).

(** ** Switching away *)
Definition activate_idle_address_space (k : Kernel) (core : nat) : Kernel :=
  set_sched k (set_hw (ksched k) (hw_activate (hw (ksched k)) core (pml4_frame (kidle k)))).

Definition clear_busy_opt (k : Kernel) (o : option nat) : outcome Kernel :=
  match o with
  | Some i => let! s := clear_stack_busy (ksched k) i in Ret (set_sched k s)
  | None => Ret k
  end.

Definition finish_switch (k : Kernel) (core : nat) (next : Pid) (outgoing : option nat)
    (pending : list ProcessBox) : outcome (Kernel * Resume) :=
  let! '(s, (index, vrax, vrbx)) := switch_to (ksched k) core next in
  let! k := drop_boxes (set_sched k s) pending in
  let k := set_sched k (maybe_print_switch (ksched k) core index vrax vrbx) in
  let! k := run_ready_tasks poll_fuel k in
  let! k := clear_busy_opt k outgoing in
  Ret (k, RProcess index).

(** The trampoline onto the idle stack: leave the process's address space
    before anything of it is freed, then release its stack slot and boxes. *)
Definition abandon_process_stack_and_idle (k : Kernel) (core : nat) (msg : string)
    (outgoing : option nat) (pending : list ProcessBox) : outcome (Kernel * Resume) :=
  let k := activate_idle_address_space k core in
  let! k := clear_busy_opt k outgoing in
  let! k := drop_boxes k pending in
  Ret (k, RIdle (Some msg)).

Definition switch_to_next_or_halt (k : Kernel) (core : nat) (msg : string)
    (outgoing : option nat) (pending : list ProcessBox) : outcome (Kernel * Resume) :=
  match ready_pop (ksched k) with
  | (s, Some next) => finish_switch (set_sched k s) core next outgoing pending
  | (s, None) => abandon_process_stack_and_idle (set_sched k s) core msg outgoing pending
  end.

(** ** Handlers *)
Definition on_timer_tick (k : Kernel) (core : nat) (frame : TrapFrame) : outcome (Kernel * Resume) :=
  let! '(s, r) := on_timer_tick_locked (ksched k) core frame in
  let! k := run_ready_tasks poll_fuel (set_sched k s) in
  Ret (k, match r with Some i => RProcess i | None => RCaller frame end).

Definition on_syscall_yield := on_timer_tick.

Definition terminate_slot (k : Kernel) (p : Pid) (status : ExitStatus)
    : outcome (Kernel * list ProcessBox) :=
  let! '(s, drops) := finalize_slot (ksched k) p status in
  Ret (wake_orphaned_receivers (set_sched k s) drops, drops).

Definition terminate_current_process (k : Kernel) (core : nat) (status : ExitStatus)
    : outcome (Kernel * Resume) :=
  let cur := current_of (ksched k) core in
  let! '(k, pending) :=
    match cur with
    | Some p =>
        let! s := mark_stack_busy (ksched k) (pid_index p) in
        terminate_slot (set_sched k s) p status
    | None => Ret (k, [])
    end in
  switch_to_next_or_halt k core "[sched] last process exited, halting." (pid_index <$> cur) pending.

(** [code as i32]. *)
Definition on_syscall_exit (k : Kernel) (core : nat) (frame : TrapFrame) : outcome (Kernel * Resume) :=
  terminate_current_process k core (Exited (to_signed 32 (rdi frame))).

Definition kill_round (k : Kernel) (target : Pid) : outcome (Kernel * option nat) :=
  let! '(s, pending, owning_core) := kill_scan (ksched k) target in
  let k := wake_orphaned_receivers (set_sched k s) pending in
  let! k := drop_boxes k pending in
  match owning_core with
  | None => Ret (k, None)
  | Some core => Ret (set_sched k (request_eviction (ksched k) core target), Some core)
  end.

(** [env] runs while the killer spins on the victim core's mirror; if the
    mirror still names the target afterwards, the wait timed out. *)
Fixpoint kill_loop (rounds : nat) (env : Kernel -> Kernel) (k : Kernel) (target : Pid)
    : outcome (Kernel * result unit SyscallError) :=
  match rounds with
  | O => Panic "target never evicted"
  | S rounds =>
      let! '(k, o) := kill_round k target in
      match o with
      | None => Ret (k, Ok tt)
      | Some core =>
          let k := env k in
          let s := ksched k in
          let s :=
            if decide (from_option pc_current 0%Z (percpu s !! core) = pid_raw target)
            then emit (set_percpu s (alter (fun c => set_evict_request c 0) core (percpu s)))
                      (EvEvictTimeout core (pid_index target))
            else s in
          kill_loop rounds env (set_sched k s) target
      end
  end.

Definition terminate_process (rounds : nat) (env : Kernel -> Kernel) (k : Kernel)
    (target caller : Pid) : outcome (Kernel * result unit SyscallError) :=
  if kill_permitted (ksched k) target caller
  then kill_loop rounds env k target
  else Ret (k, Err InvalidTarget).

Definition on_reschedule_ipi (k : Kernel) (core : nat) (frame : TrapFrame) : outcome (Kernel * Resume) :=
  let! '(s, r) := reschedule_ipi_locked (ksched k) core in
  let k := set_sched k s in
  match r with
  | None => Ret (k, RCaller frame)
  | Some i =>
      switch_to_next_or_halt k core "[sched] evicted core found nothing else ready, halting."
        (Some i) []
  end.

Definition wait_for_child (k : Kernel) (core : nat) (frame : TrapFrame) (target caller : Pid)
    : outcome (Kernel * Resume) :=
  let! '(s, r) := wait_for_child_locked (ksched k) core frame target caller in
  let k := set_sched k s in
  match r with
  | Some f => Ret (k, RCaller f)
  | None =>
      switch_to_next_or_halt k core "[sched] every process blocked or exited, halting." None []
  end.

Definition block_current_process (k : Kernel) (core : nat) (frame : TrapFrame)
    : outcome (Kernel * Resume) :=
  let! s := block_current_process_locked (ksched k) core frame in
  switch_to_next_or_halt (set_sched k s) core
    "[sched] every process blocked or exited, halting." None [].

(** ** The idle loop *)

(** One turn of [idle_loop_on_own_stack] up to parking. *)
Definition idle_turn (k : Kernel) (core : nat) (halt_message : option string)
    : outcome (Kernel * Resume) :=
  let! k := run_ready_tasks poll_fuel k in
  match ready_pop (ksched k) with
  | (s, Some next) =>
      let! '(s, (index, vrax, vrbx)) := switch_to s core next in
      Ret (set_sched k (maybe_print_switch s core index vrax vrbx), RProcess index)
  | (s, None) =>
      let k := set_sched k s in
      match halt_message with
      | Some msg =>
          if all_processes_empty s
          then Ret (set_sched k (emit s (EvHalt msg (Phys.free_frame_count (frames (kmem k))))),
                    RHalt msg)
          else Ret (k, RIdle halt_message)
      | None => Ret (k, RIdle halt_message)
      end
  end.

(** [park_until_woken]: the two checks of the queue around setting the idle
    flag; [true] means the core goes to sleep.  [between] is what other cores
    do after the flag is set and before the second check. *)
Definition park_until_woken (between : Kernel -> Kernel) (k : Kernel) (core : nat) : Kernel * bool :=
  let set v k := set_sched k (set_percpu (ksched k)
                   (alter (fun c => set_idle c v) core (percpu (ksched k)))) in
  if Ring.is_empty (ready (inner (ksched k))) then
    let k := between (set true k) in
    if Ring.is_empty (ready (inner (ksched k))) then (k, true) else (set false k, false)
  else (k, false).

Definition unpark (k : Kernel) (core : nat) : Kernel :=
  set_sched k (set_percpu (ksched k) (alter (fun c => set_idle c false) core (percpu (ksched k)))).

Definition ap_enter_scheduler (k : Kernel) (core : nat) : Kernel * Resume :=
  (activate_idle_address_space k core, RIdle None).
End handlers.
