(* ===== verification/Block.v ===== *)
(** * Block devices ([kernel/src/driver/block.rs])

    The [BlockDevice] trait as a class of operations over a device state,
    with what its documentation promises of a successful read as laws: the
    bytes are those of the addressed sectors, the buffer's length is
    respected, and reading changes no sector. *)
From S2P Require Import Prelude.
Open Scope Z_scope.

Definition SECTOR_SIZE : nat := 512.

Inductive BlockError :=
| BufferNotSectorAligned
| OutOfRange
| RequestTooLarge
| DeviceError.

#[global] Instance BlockError_eq_dec : EqDecision BlockError.
Proof. solve_decision. Defined.

(** [read_sectors d lba len] fills a buffer of [len] bytes. *)
Class BlockDevice (D : Type) := {
  capacity_sectors : D -> Z;
  read_sectors : D -> Z -> nat -> D * result (list Z) BlockError;
}.

(** The [n] sectors from [lba] of an image. *)
Definition image_range (disk : Z -> list Z) (lba : Z) (n : nat) : list Z :=
  seq 0 n ≫= fun i => disk (lba + Z.of_nat i).

(** [wf] is the driver's own consistency condition, kept by every request. *)
Class BlockLaws (D : Type) `{BlockDevice D} (wf : D -> Prop) (image : D -> Z -> list Z) : Prop := {
  image_sector : forall d lba, length (image d lba) = SECTOR_SIZE /\ is_bytes (image d lba);
  read_keeps : forall d lba len, wf d ->
    wf (fst (read_sectors d lba len)) /\ image (fst (read_sectors d lba len)) = image d;
  read_ok : forall d lba len bs, wf d -> snd (read_sectors d lba len) = Ok bs ->
    exists n, len = (n * SECTOR_SIZE)%nat /\ bs = image_range (image d) lba n;
}.

Lemma length_image_range disk lba n :
  (forall l, length (disk l) = SECTOR_SIZE) -> length (image_range disk lba n) = (n * SECTOR_SIZE)%nat.
Proof.
  intros Hd. unfold image_range. generalize 0%nat as a.
  induction n as [|n IH]; intros a; simpl; [done|]. rewrite length_app, Hd, IH. unfold SECTOR_SIZE. lia.
Qed.

Lemma image_range_1 disk lba : image_range disk lba 1 = disk lba.
Proof. unfold image_range. simpl. by rewrite app_nil_r, Z.add_0_r. Qed.

(** ** A memory disk, for witnesses: sectors not listed read as zero *)
Record RamDisk := mkRamDisk { sectors : gmap Z (list Z) }.

Definition ram_image (d : RamDisk) (lba : Z) : list Z :=
  let s := default [] (sectors d !! lba) in
  take SECTOR_SIZE (((fun b => b mod 256) <$> s) ++ replicate SECTOR_SIZE 0).

#[global] Instance ram_disk : BlockDevice RamDisk := {|
  capacity_sectors _ := 2 ^ 20;
  read_sectors d lba len :=
    (d, if decide (len mod SECTOR_SIZE = 0)%nat
        then Ok (image_range (ram_image d) lba (len / SECTOR_SIZE))
        else Err BufferNotSectorAligned);
|}.

#[global] Instance ram_disk_laws : BlockLaws RamDisk (fun _ => True) ram_image.
Proof.
  split.
  - intros d lba. unfold ram_image. split.
    + rewrite length_take, length_app, length_replicate. lia.
    + apply Forall_take, Forall_app. split; [apply Forall_fmap, Forall_true|apply Forall_replicate].
      * intros b. simpl. apply Z.mod_pos_bound. lia.
      * unfold in_width. lia.
  - done.
  - intros d lba len bs _. simpl. case_decide as Hm; [|done]. intros [= <-].
    exists (len / SECTOR_SIZE)%nat. split; [|done]. unfold SECTOR_SIZE in *.
    pose proof (Nat.div_mod_eq len 512). lia.
Qed.
