(* ===== verification/Fat.v ===== *)
(** * The FAT12 file system ([kernel/src/fs/fat.rs])

    Mounting a volume, decoding the packed 12-bit allocation table, following
    cluster chains, looking a name up in the root directory and reading a
    file, all through the [BlockDevice] interface.  Bytes are read out of
    fixed-size buffers at constant offsets, so no index is out of range. *)
From S2P Require Import Prelude Block.
Open Scope Z_scope.

Definition BOOT_SIG_OFFSET : nat := 510.
Definition BPB_BYTS_PER_SEC : nat := 11.
Definition BPB_SEC_PER_CLUS : nat := 13.
Definition BPB_RSVD_SEC_CNT : nat := 14.
Definition BPB_NUM_FATS : nat := 16.
Definition BPB_ROOT_ENT_CNT : nat := 17.
Definition BPB_TOT_SEC_16 : nat := 19.
Definition BPB_FAT_SZ_16 : nat := 22.
Definition BPB_TOT_SEC_32 : nat := 32.

Definition DIRENT_SIZE : nat := 32.
Definition DIRENT_NAME_LEN : nat := 11.
Definition DIRENT_ATTR : nat := 11.
Definition DIRENT_FST_CLUS_LO : nat := 26.
Definition DIRENT_FILE_SIZE : nat := 28.
Definition DIRENT_FREE_REST : Z := 0x00.
Definition DIRENT_DELETED : Z := 0xE5.
Definition ATTR_VOLUME_ID : Z := 0x08.
Definition ATTR_LONG_NAME_MASK : Z := 0x0F.
Definition FAT12_EOC_MIN : Z := 0xFF8.
Definition FAT12_BAD_CLUSTER : Z := 0xFF7.
Definition FAT12_MAX_CLUSTERS : Z := 4085.
Definition FIRST_DATA_CLUSTER : Z := 2.

Definition byte_at (data : list Z) (off : nat) : Z := default 0 (data !! off).
Definition read_u16 (data : list Z) (off : nat) : Z := of_le_bytes (take 2 (drop off data)).
Definition read_u32 (data : list Z) (off : nat) : Z := of_le_bytes (take 4 (drop off data)).

Inductive FatError :=
| Io (e : BlockError)
| BadSignature
| UnsupportedSectorSize
| CorruptBootSector
| NotFat12
| NoSuchFile
| CorruptFat
| NameTooLong
| NoDevice.

Record Fat12Volume := mkVolume {
  sectors_per_cluster : Z;
  fat_size_sectors : Z;
  fat_start_lba : Z;
  root_dir_start_lba : Z;
  root_dir_sectors : Z;
  data_start_lba : Z;
  total_clusters : Z;
}.

Module Fat.

(** [fat12_entry]: two bytes at [cluster * 3 / 2], low or high 12 bits. *)
Definition fat12_entry (fat : list Z) (cluster : Z) : result Z FatError :=
  let offset := Z.to_nat (cluster * 3 / 2) in
  if decide (length fat <= offset + 1)%nat then Err CorruptFat
  else
    let packed := byte_at fat offset + 256 * byte_at fat (offset + 1) in
    Ok (if decide (cluster mod 2 = 0) then Z.land packed 0x0FFF else Z.shiftr packed 4).

(** The walk.  A turn pushes one cluster and the length is checked against
    [total_clusters], so [total_clusters + 1] turns are enough. *)
Fixpoint chain_loop (fuel : nat) (total : Z) (fat : list Z) (chain : list Z) (cluster : Z)
    : option (result (list Z) FatError) :=
  match fuel with
  | O => None
  | S fuel =>
      if decide (cluster < FIRST_DATA_CLUSTER) then Some (Err CorruptFat)
      else
        let chain := chain ++ [cluster] in
        if decide (total < Z.of_nat (length chain)) then Some (Err CorruptFat)
        else
          match fat12_entry fat cluster with
          | Err e => Some (Err e)
          | Ok next =>
              if decide (FAT12_EOC_MIN <= next) then Some (Ok chain)
              else if decide (next = 0 \/ next = FAT12_BAD_CLUSTER) then Some (Err CorruptFat)
              else chain_loop fuel total fat chain next
          end
  end.

Definition cluster_chain (v : Fat12Volume) (fat : list Z) (start : Z)
    : result (list Z) FatError :=
  default (Err CorruptFat)
    (chain_loop (S (Z.to_nat (total_clusters v))) (total_clusters v) fat [] start).

(** [str::rsplit_once('.')]: the parts around the last dot. *)
Fixpoint rsplit_dot (l : list Z) : option (list Z * list Z) :=
  match l with
  | [] => None
  | b :: l =>
      match rsplit_dot l with
      | Some (base, ext) => Some (b :: base, ext)
      | None => if decide (b = 46) then Some ([], l) else None
      end
  end.

Definition to_ascii_uppercase (b : Z) : Z :=
  if decide (97 <= b /\ b <= 122) then b - 32 else b.

Definition space_padded (n : nat) (l : list Z) : list Z :=
  take n ((to_ascii_uppercase <$> l) ++ replicate n 32).

Definition to_83_name (name : list Z) : option (list Z) :=
  let '(base, ext) := default (name, []) (rsplit_dot name) in
  if decide (base = [] \/ (8 < length base)%nat \/ (3 < length ext)%nat \/
             ~ Forall (fun b => b < 128) name)
  then None
  else Some (space_padded 8 base ++ space_padded 3 ext).

(** The scan of one sector's entries: [Some] ends the whole search. *)
Fixpoint scan_entries (entries : list (list Z)) (name83 : list Z)
    : option (result (Z * Z) FatError) :=
  match entries with
  | [] => None
  | entry :: entries =>
      let first_byte := byte_at entry 0 in
      if decide (first_byte = DIRENT_FREE_REST) then Some (Err NoSuchFile)
      else if decide (first_byte = DIRENT_DELETED) then scan_entries entries name83
      else
        let attr := byte_at entry DIRENT_ATTR in
        if decide (Z.land attr ATTR_LONG_NAME_MASK = ATTR_LONG_NAME_MASK)
        then scan_entries entries name83
        else if decide (Z.land attr ATTR_VOLUME_ID <> 0) then scan_entries entries name83
        else if decide (take DIRENT_NAME_LEN entry = name83)
        then Some (Ok (read_u16 entry DIRENT_FST_CLUS_LO, read_u32 entry DIRENT_FILE_SIZE))
        else scan_entries entries name83
  end.

(** [as_chunks::<32>().0] of a sector. *)
Definition chunks (sector : list Z) : list (list Z) :=
  (fun i => take DIRENT_SIZE (drop (i * DIRENT_SIZE) sector)) <$>
    seq 0 (length sector / DIRENT_SIZE).

Section volume.
Context {D : Type} `{BlockDevice D}.

Definition io {A} (r : result A BlockError) : result A FatError :=
  match r with Ok a => Ok a | Err e => Err (Io e) end.

Definition mount (d : D) : D * result Fat12Volume FatError :=
  let '(d, r) := read_sectors d 0 SECTOR_SIZE in
  (d,
   let? boot := io r in
   if decide (take 2 (drop BOOT_SIG_OFFSET boot) <> [0x55; 0xAA]) then Err BadSignature
   else
     let bytes_per_sector := read_u16 boot BPB_BYTS_PER_SEC in
     if decide (bytes_per_sector <> Z.of_nat SECTOR_SIZE) then Err UnsupportedSectorSize
     else
       let spc := byte_at boot BPB_SEC_PER_CLUS in
       let reserved_sector_count := read_u16 boot BPB_RSVD_SEC_CNT in
       let num_fats := byte_at boot BPB_NUM_FATS in
       let root_entry_count := read_u16 boot BPB_ROOT_ENT_CNT in
       let total_sectors_16 := read_u16 boot BPB_TOT_SEC_16 in
       let fat_size := read_u16 boot BPB_FAT_SZ_16 in
       let total_sectors_32 := read_u32 boot BPB_TOT_SEC_32 in
       if decide (spc = 0 \/ num_fats = 0 \/ fat_size = 0) then Err CorruptBootSector
       else
         let root_sectors := div_ceil (root_entry_count * Z.of_nat DIRENT_SIZE) bytes_per_sector in
         let fat_lba := reserved_sector_count in
         let root_lba := fat_lba + num_fats * fat_size in
         let data_lba := root_lba + root_sectors in
         let total_sectors := if decide (total_sectors_16 <> 0) then total_sectors_16
                              else total_sectors_32 in
         let data_sectors := Z.max 0 (total_sectors - data_lba) in
         let clusters := data_sectors / spc in
         if decide (FAT12_MAX_CLUSTERS <= clusters) then Err NotFat12
         else Ok (mkVolume spc fat_size fat_lba root_lba root_sectors data_lba clusters)).

(** Reading runs of [len] bytes at a list of addresses into one buffer. *)
Fixpoint read_runs (d : D) (lbas : list Z) (len : nat) : D * result (list Z) FatError :=
  match lbas with
  | [] => (d, Ok [])
  | lba :: lbas =>
      match read_sectors d lba len with
      | (d, Err e) => (d, Err (Io e))
      | (d, Ok bs) =>
          let '(d, r) := read_runs d lbas len in
          (d, let? rest := r in Ok (bs ++ rest))
      end
  end.

Definition read_fat_table (v : Fat12Volume) (d : D) : D * result (list Z) FatError :=
  read_runs d ((fun i => fat_start_lba v + Z.of_nat i) <$> seq 0 (Z.to_nat (fat_size_sectors v)))
    SECTOR_SIZE.

Fixpoint scan_sectors (d : D) (lbas : list Z) (name83 : list Z) : D * result (Z * Z) FatError :=
  match lbas with
  | [] => (d, Err NoSuchFile)
  | lba :: lbas =>
      match read_sectors d lba SECTOR_SIZE with
      | (d, Err e) => (d, Err (Io e))
      | (d, Ok sector) =>
          match scan_entries (chunks sector) name83 with
          | Some r => (d, r)
          | None => scan_sectors d lbas name83
          end
      end
  end.

Definition find_dir_entry (v : Fat12Volume) (d : D) (name83 : list Z)
    : D * result (Z * Z) FatError :=
  scan_sectors d
    ((fun i => root_dir_start_lba v + Z.of_nat i) <$> seq 0 (Z.to_nat (root_dir_sectors v))) name83.

Definition cluster_lba (v : Fat12Volume) (cluster : Z) : Z :=
  data_start_lba v + (cluster - FIRST_DATA_CLUSTER) * sectors_per_cluster v.

Definition cluster_bytes (v : Fat12Volume) : nat :=
  (Z.to_nat (sectors_per_cluster v) * SECTOR_SIZE)%nat.

(** The part of [read_file] after a directory entry was found. *)
Definition read_contents (v : Fat12Volume) (d : D) (first_cluster file_size : Z)
    : D * result (list Z) FatError :=
  if decide (file_size = 0) then (d, Ok [])
  else
    match read_fat_table v d with
    | (d, Err e) => (d, Err e)
    | (d, Ok fat) =>
        match cluster_chain v fat first_cluster with
        | Err e => (d, Err e)
        | Ok chain =>
            let '(d, r) := read_runs d (cluster_lba v <$> chain) (cluster_bytes v) in
            (d, let? data := r in Ok (take (Z.to_nat file_size) data))
        end
    end.

Definition read_file (v : Fat12Volume) (d : D) (name : list Z) : D * result (list Z) FatError :=
  match to_83_name name with
  | None => (d, Err NameTooLong)
  | Some name83 =>
      match find_dir_entry v d name83 with
      | (d, Err e) => (d, Err e)
      | (d, Ok (first_cluster, file_size)) => read_contents v d first_cluster file_size
      end
  end.
End volume.

(** ** Cluster chains *)

(** The clusters of a file: each entry names the next cluster, the last one
    holds an end marker, and no entry is free, bad or outside the table. *)
Inductive chain_path (fat : list Z) : Z -> list Z -> Prop :=
| path_end c next :
    FIRST_DATA_CLUSTER <= c -> fat12_entry fat c = Ok next -> FAT12_EOC_MIN <= next ->
    chain_path fat c [c]
| path_next c next l :
    FIRST_DATA_CLUSTER <= c -> fat12_entry fat c = Ok next -> next < FAT12_EOC_MIN ->
    next <> 0 -> next <> FAT12_BAD_CLUSTER -> chain_path fat next l ->
    chain_path fat c (c :: l).

Lemma chain_path_det fat c l1 l2 : chain_path fat c l1 -> chain_path fat c l2 -> l1 = l2.
Proof.
  intros Hp1. revert l2.
  induction Hp1 as [c n Hc He Hn|c n l Hc He Hn H0 Hb Hl IH]; intros l2 Hp2;
    inversion Hp2 as [c' n' Hc' He' Hn'|c' n' l' Hc' He' Hn' H0' Hb' Hl']; subst;
    assert (n' = n) as -> by congruence; [done|lia|lia|].
  f_equal. by apply IH.
Qed.

Lemma chain_path_length fat c l : chain_path fat c l -> (1 <= length l)%nat.
Proof. destruct 1; simpl; lia. Qed.

Lemma chain_path_suffix fat c l x :
  chain_path fat c l -> x ∈ l -> exists l', chain_path fat x l' /\ (length l' <= length l)%nat.
Proof.
  induction 1 as [c next|c next l ? ? ? ? ? Hl IH]; intros Hx.
  - apply list_elem_of_singleton in Hx as ->. exists [c]. split; [by econstructor|done].
  - apply elem_of_cons in Hx as [->|Hx].
    + exists (c :: l). split; [by econstructor|done].
    + destruct (IH Hx) as (l' & ? & ?). exists l'. split; [done|]. simpl. lia.
Qed.

(** A walk that ends never visits a cluster twice. *)
Lemma chain_path_NoDup fat c l : chain_path fat c l -> NoDup l.
Proof.
  induction 1 as [c next|c next l ? ? ? ? ? Hl IH]; [apply NoDup_singleton|].
  apply NoDup_cons. split; [|done]. intros Hx.
  destruct (chain_path_suffix _ _ _ _ Hl Hx) as (l' & Hl' & Hlen).
  assert (l' = c :: l) as -> by (eapply chain_path_det; [done|by econstructor]).
  simpl in Hlen. lia.
Qed.

Lemma fat12_entry_err fat c e : fat12_entry fat c = Err e -> e = CorruptFat.
Proof. unfold fat12_entry. case_decide; congruence. Qed.

Lemma chain_path_inv fat c l next :
  fat12_entry fat c = Ok next -> chain_path fat c l ->
  FAT12_EOC_MIN <= next \/
  (next <> 0 /\ next <> FAT12_BAD_CLUSTER /\ exists l', l = c :: l' /\ chain_path fat next l').
Proof.
  intros He Hp. inversion Hp as [c' n' Hc' He' Hn'|c' n' l' Hc' He' Hn' H0' Hb' Hl']; subst;
    assert (n' = next) as -> by congruence; naive_solver.
Qed.

Lemma chain_loop_spec fuel total fat acc c :
  Z.of_nat (length acc + fuel) = total + 1 -> Z.of_nat (length acc) <= total ->
  (exists l, chain_loop fuel total fat acc c = Some (Ok (acc ++ l)) /\ chain_path fat c l /\
     Z.of_nat (length acc + length l) <= total) \/
  (chain_loop fuel total fat acc c = Some (Err CorruptFat) /\
     forall l, chain_path fat c l -> total < Z.of_nat (length acc + length l)).
Proof.
  revert acc c. induction fuel as [|fuel IH]; intros acc c Hf Hacc; [lia|].
  cbn [chain_loop]. case_decide as Hc.
  { right. split; [done|]. intros l Hl. inversion Hl; lia. }
  rewrite length_app. simpl. case_decide as Ht.
  { right. split; [done|]. intros l Hl%chain_path_length. lia. }
  destruct (fat12_entry fat c) as [next|e] eqn:He.
  2: { right. pose proof (fat12_entry_err _ _ _ He) as ->. split; [done|].
       intros l Hl. inversion Hl; congruence. }
  case_decide as Heoc.
  { left. exists [c]. split; [done|]. split; [econstructor; (done || lia)|simpl; lia]. }
  case_decide as Hbad.
  { right. split; [done|]. intros l Hl. destruct (chain_path_inv _ _ _ _ He Hl); [lia|naive_solver]. }
  destruct (IH (acc ++ [c]) next) as [(l & -> & Hl & Hlen)|[-> Hno]];
    rewrite ?length_app in *; simpl in *; [lia|lia| |].
  - left. exists (c :: l). rewrite <- (assoc_L (++)). split; [done|].
    split; [econstructor; (done || lia || naive_solver)|simpl; lia].
  - right. split; [done|]. intros l Hl.
    destruct (chain_path_inv _ _ _ _ He Hl) as [?|(_ & _ & l' & -> & Hl')]; [lia|].
    specialize (Hno _ Hl'). simpl. lia.
Qed.

Lemma cluster_chain_Ok v fat start chain :
  0 <= total_clusters v ->
  cluster_chain v fat start = Ok chain <->
  chain_path fat start chain /\ Z.of_nat (length chain) <= total_clusters v.
Proof.
  intros Ht. unfold cluster_chain.
  destruct (chain_loop_spec (S (Z.to_nat (total_clusters v))) (total_clusters v) fat [] start)
    as [(l & -> & Hl & Hlen)|[-> Hno]]; simpl in *; [lia|lia| |].
  - split; [by intros [= <-]|]. intros [Hp _]. f_equal. by eapply chain_path_det.
  - split; [done|]. intros [Hp Hle]. specialize (Hno chain Hp). lia.
Qed.

(** following a file's cluster chain always ends, and succeeds exactly when
    the table links the first cluster to an end marker within the volume's
    cluster count without meeting a free, bad or out-of-table entry.  The
    clusters returned are those of that path, in order and without repetition,
    so a cyclic table is always reported as corrupt. *)
Theorem cluster_chain_correct (v : Fat12Volume) (fat : list Z) (start : Z)
    (Ht : 0 <= total_clusters v) :
  match cluster_chain v fat start with
  | Ok chain => chain_path fat start chain /\ NoDup chain /\
      Z.of_nat (length chain) <= total_clusters v
  | Err e => e = CorruptFat /\
      forall chain, chain_path fat start chain -> total_clusters v < Z.of_nat (length chain)
  end.
Proof.
  destruct (cluster_chain v fat start) as [chain|e] eqn:Hc.
  - apply cluster_chain_Ok in Hc as [Hp Hle]; [|done]. by split_and!; [|eapply chain_path_NoDup|].
  - split.
    + unfold cluster_chain in Hc.
      destruct (chain_loop_spec (S (Z.to_nat (total_clusters v))) (total_clusters v) fat [] start)
        as [(l & Hl & _)|[Hl _]]; simpl in *; [lia|lia|rewrite Hl in Hc..]; simplify_eq/=; done.
    + intros chain Hp. apply Znot_ge_lt. intros Hge. 
      assert (cluster_chain v fat start = Ok chain) by (apply cluster_chain_Ok; [done|split; [done|lia]]).
      congruence.
Qed.

(** ** Packed entries *)

(** Two 12-bit entries in three bytes, as FAT12 stores them. *)
Definition pack_pair (a b : Z) : list Z := [a mod 256; a / 256 + 16 * (b mod 16); b / 16].

Fixpoint pack_entries (l : list (Z * Z)) : list Z :=
  match l with
  | [] => []
  | (a, b) :: l => pack_pair a b ++ pack_entries l
  end.

Lemma byte_at_pack l i a b k :
  l !! i = Some (a, b) -> (k < 3)%nat ->
  byte_at (pack_entries l) (3 * i + k) = byte_at (pack_pair a b) k.
Proof.
  revert i. induction l as [|[a' b'] l IH]; intros i Hi Hk; [done|].
  destruct i as [|i]; simplify_eq/=.
  - unfold byte_at. do 3 (destruct k as [|k]; [done|]). lia.
  - replace (i + S (i + S (i + 0)) + k)%nat with (S (S (3 * i + k))) by lia. simpl.
    by apply IH.
Qed.

Lemma length_pack l : length (pack_entries l) = (3 * length l)%nat.
Proof. induction l as [|[a b] l IH]; simpl; [done|]. rewrite IH. lia. Qed.

(** The 12-bit decoding is the inverse of FAT12's packing: entry [2i] is the
    first of pair [i] and entry [2i + 1] the second, and an entry past the table
    is reported as corrupt instead of read. *)
Theorem fat12_entry_unpacks (l : list (Z * Z)) (i : nat)
    (Hl : Forall (fun ab => 0 <= fst ab < 4096 /\ 0 <= snd ab < 4096) l) :
  match l !! i with
  | Some (a, b) => fat12_entry (pack_entries l) (2 * Z.of_nat i) = Ok a /\
                   fat12_entry (pack_entries l) (2 * Z.of_nat i + 1) = Ok b
  | None => fat12_entry (pack_entries l) (2 * Z.of_nat i) = Err CorruptFat /\
            fat12_entry (pack_entries l) (2 * Z.of_nat i + 1) = Err CorruptFat
  end.
Proof.
  unfold fat12_entry. rewrite length_pack.
  replace (2 * Z.of_nat i * 3 / 2) with (3 * Z.of_nat i) by div_lia.
  replace ((2 * Z.of_nat i + 1) * 3 / 2) with (3 * Z.of_nat i + 1) by div_lia.
  replace (Z.to_nat (3 * Z.of_nat i)) with (3 * i + 0)%nat by lia.
  replace (Z.to_nat (3 * Z.of_nat i + 1)) with (3 * i + 1)%nat by lia.
  rewrite (decide_True _ _ (P := (2 * Z.of_nat i) mod 2 = 0)) by div_lia.
  rewrite (decide_False _ _ (P := (2 * Z.of_nat i + 1) mod 2 = 0)) by div_lia.
  destruct (l !! i) as [[a b]|] eqn:Hi.
  - pose proof (lookup_lt_Some _ _ _ Hi) as Hlt.
    destruct (Forall_lookup_1 _ _ _ _ Hl Hi) as [Ha Hb]. simpl in Ha, Hb.
    rewrite !decide_False by lia. rewrite <- !Nat.add_assoc. simpl (0 + 1)%nat. simpl (1 + 1)%nat.
    rewrite !(byte_at_pack l i a b) by (done || lia). unfold byte_at. simpl.
    rewrite (Z.land_ones _ 12), Z.shiftr_div_pow2 by lia. split; f_equal; div_lia.
  - apply lookup_ge_None in Hi. by rewrite !decide_True by lia.
Qed.

(** ** The root directory *)

(** Entries the search passes over. *)
Definition skipped (name83 entry : list Z) : Prop :=
  byte_at entry 0 <> DIRENT_FREE_REST /\
  (byte_at entry 0 = DIRENT_DELETED \/
   Z.land (byte_at entry DIRENT_ATTR) ATTR_LONG_NAME_MASK = ATTR_LONG_NAME_MASK \/
   Z.land (byte_at entry DIRENT_ATTR) ATTR_VOLUME_ID <> 0 \/
   take DIRENT_NAME_LEN entry <> name83).

(** The first live file entry with the given name, before any free entry. *)
Definition dir_entry (entries : list (list Z)) (name83 : list Z) (first size : Z) : Prop :=
  exists pre entry post, entries = pre ++ entry :: post /\ Forall (skipped name83) pre /\
    byte_at entry 0 <> DIRENT_FREE_REST /\ ~ skipped name83 entry /\
    first = read_u16 entry DIRENT_FST_CLUS_LO /\ size = read_u32 entry DIRENT_FILE_SIZE.

Lemma scan_entries_skip pre rest name83 :
  Forall (skipped name83) pre -> scan_entries (pre ++ rest) name83 = scan_entries rest name83.
Proof.
  induction 1 as [|e pre [Hf Hs] _ IH]; [done|]. simpl.
  repeat case_decide; try done; naive_solver.
Qed.

Lemma scan_entries_None l name83 : scan_entries l name83 = None <-> Forall (skipped name83) l.
Proof.
  split.
  - induction l as [|e l IH]; simpl; intros Hs; [constructor|].
    repeat case_decide; try done; constructor; (by apply IH) || (split; naive_solver).
  - intros Hl. pose proof (scan_entries_skip l [] name83 Hl) as Hs. by rewrite app_nil_r in Hs.
Qed.

Lemma scan_entries_Ok l name83 first size :
  scan_entries l name83 = Some (Ok (first, size)) <-> dir_entry l name83 first size.
Proof.
  split.
  - induction l as [|e l IH]; simpl; intros Hs; [done|].
    assert (skipped name83 e -> scan_entries l name83 = Some (Ok (first, size)) ->
      dir_entry (e :: l) name83 first size) as Hskip.
    { intros He (pre & en & post & -> & Hpre & Hrest)%IH.
      exists (e :: pre), en, post. split_and!; [done|by constructor|apply Hrest..]. }
    repeat case_decide; simplify_eq; try (apply Hskip; [split; tauto|done]).
    exists [], e, l. unfold skipped. split_and!; (done || constructor || tauto).
  - intros (pre & e & post & -> & Hpre & Hf & Hs & -> & ->).
    rewrite scan_entries_skip by done. simpl. unfold skipped in Hs.
    repeat case_decide; try done; naive_solver.
Qed.

Lemma scan_entries_app l1 l2 name83 :
  scan_entries (l1 ++ l2) name83 =
  match scan_entries l1 name83 with Some r => Some r | None => scan_entries l2 name83 end.
Proof.
  induction l1 as [|e l1 IH]; simpl; [done|]. repeat case_decide; done.
Qed.

(** ** Files on a device that keeps the trait's promises *)
Section on_device.
Context {D : Type} `{BlockDevice D} (wf : D -> Prop) (image : D -> Z -> list Z)
  `{!BlockLaws D wf image}.

(** The device serves every request of up to [n] sectors. *)
Definition serves (n : nat) : Prop :=
  forall d lba k, wf d -> (0 < k <= n)%nat -> exists bs, snd (read_sectors d lba (k * SECTOR_SIZE)) = Ok bs.

Definition root_entries (v : Fat12Volume) (disk : Z -> list Z) : list (list Z) :=
  seq 0 (Z.to_nat (root_dir_sectors v)) ≫= fun i => chunks (disk (root_dir_start_lba v + Z.of_nat i)).

Definition fat_bytes (v : Fat12Volume) (disk : Z -> list Z) : list Z :=
  seq 0 (Z.to_nat (fat_size_sectors v)) ≫= fun i => disk (fat_start_lba v + Z.of_nat i).

(** The contents of the file whose directory entry names [first] and [size]:
    the bytes of its clusters in chain order, cut to the size. *)
Definition file_contents (v : Fat12Volume) (disk : Z -> list Z) (first size : Z) (data : list Z)
    : Prop :=
  (size = 0 /\ data = []) \/
  (size <> 0 /\ exists chain, chain_path (fat_bytes v disk) first chain /\
    Z.of_nat (length chain) <= total_clusters v /\
    data = take (Z.to_nat size)
      (chain ≫= fun c => image_range disk (cluster_lba v c) (Z.to_nat (sectors_per_cluster v)))).

Lemma read_sectors_ok d lba n bs :
  wf d -> snd (read_sectors d lba (n * SECTOR_SIZE)) = Ok bs -> bs = image_range (image d) lba n.
Proof.
  intros Hd (k & Hk & ->)%(read_ok (image := image)); [|done].
  assert (k = n) as -> by (unfold SECTOR_SIZE in Hk; lia). done.
Qed.

Lemma read_runs_keeps d lbas len :
  wf d -> wf (fst (read_runs d lbas len)) /\ image (fst (read_runs d lbas len)) = image d.
Proof.
  revert d. induction lbas as [|lba l IH]; intros d Hd; simpl; [done|].
  destruct (read_keeps (image := image) d lba len Hd) as [Hw Hi].
  destruct (read_sectors d lba len) as [d' [bs|e]]; simpl in *; [|done].
  specialize (IH d' Hw). destruct (read_runs d' l len) as [d'' r]. simpl in *.
  destruct IH. split; [done|congruence].
Qed.

Lemma read_runs_ok d lbas n bs :
  wf d -> snd (read_runs d lbas (n * SECTOR_SIZE)) = Ok bs ->
  bs = lbas ≫= fun lba => image_range (image d) lba n.
Proof.
  revert d bs. induction lbas as [|lba l IH]; intros d bs Hd; simpl; [congruence|].
  destruct (read_keeps (image := image) d lba (n * SECTOR_SIZE) Hd) as [Hw Hi].
  pose proof (fun b => read_sectors_ok d lba n b Hd) as Hr.
  destruct (read_sectors d lba (n * SECTOR_SIZE)) as [d' [b|e]]; simpl in *; [|done].
  specialize (IH d'). destruct (read_runs d' l (n * SECTOR_SIZE)) as [d'' [rest|]]; simpl in *; [|done].
  intros [= <-]. rewrite (Hr b eq_refl), (IH rest Hw eq_refl), Hi. done.
Qed.

Lemma read_runs_serves m d lbas n :
  serves m -> wf d -> (0 < n <= m)%nat ->
  exists bs, snd (read_runs d lbas (n * SECTOR_SIZE)) = Ok bs.
Proof.
  intros Hs Hd Hn. revert d Hd. induction lbas as [|lba l IH]; intros d Hd; simpl; [by eexists|].
  destruct (Hs d lba n Hd Hn) as [b Hb].
  destruct (read_keeps (image := image) d lba (n * SECTOR_SIZE) Hd) as [Hw _].
  destruct (read_sectors d lba (n * SECTOR_SIZE)) as [d' r']. simpl in *. subst r'.
  destruct (IH d' Hw) as [rest Hrest].
  destruct (read_runs d' l (n * SECTOR_SIZE)) as [d'' r'']. simpl in *. subst r''. by eexists.
Qed.

Lemma one_sector : SECTOR_SIZE = (1 * SECTOR_SIZE)%nat.
Proof. done. Qed.

Lemma scan_sectors_spec d lbas name83 :
  wf d ->
  (wf (fst (scan_sectors d lbas name83)) /\ image (fst (scan_sectors d lbas name83)) = image d) /\
  (forall r, snd (scan_sectors d lbas name83) = Ok r ->
     scan_entries (lbas ≫= fun lba => chunks (image d lba)) name83 = Some (Ok r)) /\
  (serves 1 -> forall r, scan_entries (lbas ≫= fun lba => chunks (image d lba)) name83 = Some (Ok r) ->
     snd (scan_sectors d lbas name83) = Ok r).
Proof.
  revert d. induction lbas as [|lba l IH]; intros d Hd; cbn [scan_sectors]; [done|].
  destruct (read_keeps (image := image) d lba SECTOR_SIZE Hd) as [Hw Hi].
  rewrite one_sector in *. pose proof (fun b => read_sectors_ok d lba 1 b Hd) as Hr.
  rewrite image_range_1 in Hr.
  pose proof (fun Hs : serves 1 => Hs d lba 1%nat Hd ltac:(lia)) as Hsv.
  destruct (read_sectors d lba (1 * SECTOR_SIZE)) as [d' [b|e]]; cbn [fst snd] in *.
  2: { split_and!; [done|done|done|]. intros Hs. by destruct (Hsv Hs). }
  rewrite (Hr b eq_refl). cbn [mbind list_bind]. setoid_rewrite scan_entries_app.
  destruct (IH d' Hw) as (IH1 & IH2 & IH3). rewrite Hi in *.
  destruct (scan_entries (chunks (image d lba)) name83) as [r|]; simpl; [|done].
  split_and!; [done|done|congruence|congruence].
Qed.

Lemma find_dir_entry_spec v d name83 first size :
  wf d ->
  (wf (fst (find_dir_entry v d name83)) /\ image (fst (find_dir_entry v d name83)) = image d) /\
  (snd (find_dir_entry v d name83) = Ok (first, size) ->
     dir_entry (root_entries v (image d)) name83 first size) /\
  (serves 1 -> dir_entry (root_entries v (image d)) name83 first size ->
     snd (find_dir_entry v d name83) = Ok (first, size)).
Proof.
  intros Hd. unfold find_dir_entry, root_entries.
  destruct (scan_sectors_spec d ((fun i => root_dir_start_lba v + Z.of_nat i) <$>
    seq 0 (Z.to_nat (root_dir_sectors v))) name83 Hd) as (H1 & H2 & H3).
  rewrite bind_fmap in H2, H3. rewrite <- scan_entries_Ok. auto.
Qed.

Lemma read_fat_table_spec v d :
  wf d ->
  (wf (fst (read_fat_table v d)) /\ image (fst (read_fat_table v d)) = image d) /\
  (forall bs, snd (read_fat_table v d) = Ok bs -> bs = fat_bytes v (image d)) /\
  (serves 1 -> snd (read_fat_table v d) = Ok (fat_bytes v (image d))).
Proof.
  intros Hd. unfold read_fat_table. split; [by apply read_runs_keeps|].
  assert (forall bs, snd (read_runs d ((fun i => fat_start_lba v + Z.of_nat i) <$>
    seq 0 (Z.to_nat (fat_size_sectors v))) SECTOR_SIZE) = Ok bs -> bs = fat_bytes v (image d)) as Hok.
  { intros bs. rewrite one_sector. intros Hr%read_runs_ok; [|done]. rewrite Hr, bind_fmap. unfold fat_bytes.
    apply list_bind_ext; [|done]. intros i. by rewrite image_range_1. }
  split; [exact Hok|]. intros Hs.
  destruct (read_runs_serves 1 d ((fun i => fat_start_lba v + Z.of_nat i) <$>
    seq 0 (Z.to_nat (fat_size_sectors v))) 1 Hs Hd ltac:(lia)) as [bs Hbs].
  rewrite <- one_sector in Hbs. rewrite Hbs. by rewrite (Hok bs Hbs).
Qed.

Lemma read_contents_sound v d first size data :
  0 <= total_clusters v -> wf d ->
  snd (read_contents v d first size) = Ok data -> file_contents v (image d) first size data.
Proof.
  intros Ht Hd. unfold read_contents, file_contents. case_decide as Hz; [intros [= <-]; by left|].
  destruct (read_fat_table_spec v d Hd) as ([Hw Hi] & Hok & _).
  destruct (read_fat_table v d) as [d' [fat|e]]; [|done]. simpl in *.
  destruct (cluster_chain v fat first) as [chain|e] eqn:Hc; [|done].
  apply cluster_chain_Ok in Hc as [Hp Hle]; [|done].
  pose proof (fun bs => read_runs_ok d' (cluster_lba v <$> chain)
    (Z.to_nat (sectors_per_cluster v)) bs) as Hr.
  fold (cluster_bytes v) in Hr.
  destruct (read_runs d' (cluster_lba v <$> chain) (cluster_bytes v)) as [d'' [bs|e]]; [|done].
  simpl in *. intros [= <-]. right. split; [done|]. exists chain.
  rewrite (Hok fat eq_refl) in Hp. split_and!; [done|done|].
  rewrite (Hr bs Hw eq_refl), bind_fmap, Hi. done.
Qed.

Lemma read_contents_complete v d first size data :
  0 <= total_clusters v -> 0 < sectors_per_cluster v -> wf d ->
  serves (Nat.max 1 (Z.to_nat (sectors_per_cluster v))) ->
  file_contents v (image d) first size data -> snd (read_contents v d first size) = Ok data.
Proof.
  intros Ht Hspc Hd Hs. unfold read_contents.
  intros [[-> ->]|(Hz & chain & Hp & Hle & ->)]; [by rewrite decide_True|].
  rewrite decide_False by done.
  destruct (read_fat_table_spec v d Hd) as ([Hw Hi] & _ & Hsv).
  assert (serves 1) as Hs1 by (intros ?????; apply Hs; (done || lia)). specialize (Hsv Hs1).
  destruct (read_fat_table v d) as [d' r]. simpl in *. subst r.
  rewrite (proj2 (cluster_chain_Ok v _ first chain Ht) (conj Hp Hle)).
  destruct (read_runs_serves _ d' (cluster_lba v <$> chain) (Z.to_nat (sectors_per_cluster v)) Hs Hw)
    as [bs Hbs]; [lia|].
  pose proof (read_runs_ok _ _ _ _ Hw Hbs) as Heq. fold (cluster_bytes v) in Hbs.
  destruct (read_runs d' (cluster_lba v <$> chain) (cluster_bytes v)) as [d'' r]. simpl in *. subst r.
  by rewrite Heq, bind_fmap, Hi.
Qed.

Definition is_file (v : Fat12Volume) (img : Z -> list Z) (name data : list Z) : Prop :=
  exists name83 first size, to_83_name name = Some name83 /\
    dir_entry (root_entries v img) name83 first size /\ file_contents v img first size data.

Lemma read_file_sound v d name data :
  wf d -> 0 <= total_clusters v -> 0 < sectors_per_cluster v ->
  snd (read_file v d name) = Ok data -> is_file v (image d) name data.
Proof.
  intros Hd Ht Hspc. unfold read_file, is_file. destruct (to_83_name name) as [name83|]; simpl; [|naive_solver].
  pose proof (fun f z => find_dir_entry_spec v d name83 f z Hd) as Hf.
  destruct (find_dir_entry v d name83) as [d' [[first size]|e]]; [|done].
  destruct (Hf first size) as ([Hw Hi] & Hok & _). simpl in *.
  intros Hc%read_contents_sound; [|done..]. rewrite Hi in Hc. exists name83, first, size. auto.
Qed.

(** C27: reading a file by name through any device that keeps the block-device
    contract.  What is returned is the contents of the first live root
    directory entry with the name's 8.3 form, the concatenated clusters of its
    chain cut to the recorded size; and on a device that serves requests up to
    a cluster every such file is returned.  The disk is not changed. *)
Theorem read_file_contents (v : Fat12Volume) (d : D) (name data : list Z)
    (Hd : wf d) (Ht : 0 <= total_clusters v) (Hspc : 0 < sectors_per_cluster v) :
  (snd (read_file v d name) = Ok data -> is_file v (image d) name data) /\
  (serves (Nat.max 1 (Z.to_nat (sectors_per_cluster v))) -> is_file v (image d) name data ->
   snd (read_file v d name) = Ok data).
Proof.
  split; [by apply read_file_sound|]. intros Hs (name83 & first & size & Hn & Hde & Hfc).
  unfold read_file. rewrite Hn. simpl.
  assert (serves 1) as Hs1 by (intros ?????; apply Hs; (done || lia)).
  destruct (find_dir_entry_spec v d name83 first size Hd) as ([Hw Hi] & _ & Hc). specialize (Hc Hs1 Hde).
  destruct (find_dir_entry v d name83) as [d' r]. simpl in *. subst r.
  apply read_contents_complete; try done. by rewrite Hi.
Qed.
End on_device.
End Fat.

(** ** A small volume, for witnesses

    One FAT sector, one root directory sector and one file of two clusters. *)
Definition demo_volume : Fat12Volume := mkVolume 1 1 1 2 1 3 8.

Definition demo_name83 : list Z := [72; 69; 76; 76; 79; 32; 32; 32; 84; 88; 84].

Definition demo_dirent : list Z :=
  demo_name83 ++ [0x20] ++ replicate 14 0 ++ le_bytes 2 2 ++ le_bytes 4 600.

Definition demo_disk : RamDisk :=
  mkRamDisk (<[1 := Fat.pack_entries [(0xFF0, 0xFFF); (3, 0xFFF)]]> (<[2 := demo_dirent]>
    (<[3 := replicate 512 65]> (<[4 := replicate 512 66]> ∅)))).

Lemma cluster_chain_correct_witness :
  NoDup [2; 3] /\ 0 <= total_clusters demo_volume.
Proof.
  split; [|done].
  pose proof (Fat.cluster_chain_correct demo_volume
    (Fat.pack_entries [(0xFF0, 0xFFF); (3, 0xFFF)]) 2 ltac:(done)) as Hc.
  replace (Fat.cluster_chain _ _ _) with (@Ok (list Z) FatError [2; 3]) in Hc
    by (vm_compute; reflexivity).
  exact (proj1 (proj2 Hc)).
Defined.

Lemma fat12_entry_unpacks_witness :
  Fat.fat12_entry (Fat.pack_entries [(0xFF0, 0xFFF); (3, 0xABC)]) 3 = Ok 0xABC.
Proof.
  apply (Fat.fat12_entry_unpacks [(0xFF0, 0xFFF); (3, 0xABC)] 1).
  repeat constructor; simpl; lia.
Defined.

Lemma read_file_contents_witness :
  Fat.is_file demo_volume (ram_image demo_disk) [104; 101; 108; 108; 111; 46; 116; 120; 116]
    (replicate 512 65 ++ replicate 88 66).
Proof.
  apply (Fat.read_file_contents (fun _ => True) ram_image demo_volume demo_disk
    [104; 101; 108; 108; 111; 46; 116; 120; 116] (replicate 512 65 ++ replicate 88 66)).
  - done.
  - done.
  - done.
  - vm_compute. reflexivity.
Defined.
