(* ===== verification/Virtio.v ===== *)
(** * The virtio block driver ([kernel/src/driver/virtio_blk.rs])

    [VirtioBlk::read_sectors]: argument checks, the request header and the
    three-descriptor chain written to the shared queue, publication through
    the available ring, the poll of the used index, and the copy out of the
    bounce buffer.  The device on the other side of the queue is hardware: it
    is a parameter with its own state, and [VirtioLaws] is what the virtio
    specification says it does with a published chain.  [virtio_laws]
    discharges the [BlockDevice] contract for the driver. *)
From S2P Require Import Prelude Block Fat.
Open Scope Z_scope.

Definition VIRTQ_DESC_F_NEXT : Z := 1.
Definition VIRTQ_DESC_F_WRITE : Z := 2.
Definition VIRTIO_BLK_T_IN : Z := 0.
Definition VIRTIO_BLK_S_OK : Z := 0.
Definition STATUS_PENDING : Z := 0xFF.
Definition MAX_SECTORS_PER_REQUEST : nat := 8.
Definition DATA_BUFFER_SIZE : nat := MAX_SECTORS_PER_REQUEST * SECTOR_SIZE.

Record Desc := mkDesc {
  desc_addr : Z;
  desc_len : Z;
  desc_flags : Z;
  desc_next : Z;
}.

(** The memory shared with the device: descriptor table, available and used
    rings, and the header, data and status buffers. *)
Record Dma := mkDma {
  descs : list Desc;
  avail_idx : Z;
  avail_ring : list Z;
  used_idx : Z;
  header : Z * Z * Z;
  dma_data : list Z;
  dma_status : Z;
}.

(** Addresses of the three buffers and the negotiated queue size. *)
Record Layout := mkLayout {
  queue_size : Z;
  header_phys : Z;
  data_phys : Z;
  status_phys : Z;
}.

Record VirtioBlk (H : Type) := mkVirtio {
  vb_capacity : Z;
  layout : Layout;
  dma : Dma;
  hw : H;
}.
Arguments mkVirtio {H} vb_capacity layout dma hw.
Arguments vb_capacity {H} v.
Arguments layout {H} v.
Arguments dma {H} v.
Arguments hw {H} v.

(** The device: ringing its doorbell, what it does between two polls, and how
    many polls a request takes. *)
Class VirtioHw (H : Type) := {
  hw_notify : H -> H;
  hw_step : Layout -> Dma * H -> Dma * H;
  hw_latency : Layout -> Dma * H -> nat;
  hw_disk : H -> Z -> list Z;
}.

Definition set_header (m : Dma) (ty reserved sector : Z) : Dma :=
  mkDma (descs m) (avail_idx m) (avail_ring m) (used_idx m) (ty, reserved, sector) (dma_data m)
    (dma_status m).
Definition set_status (m : Dma) (v : Z) : Dma :=
  mkDma (descs m) (avail_idx m) (avail_ring m) (used_idx m) (header m) (dma_data m) v.
Definition write_desc (m : Dma) (index : nat) (addr len flags next : Z) : Dma :=
  mkDma (<[index := mkDesc addr len flags next]> (descs m)) (avail_idx m) (avail_ring m) (used_idx m)
    (header m) (dma_data m) (dma_status m).
Definition write_avail_ring_entry (m : Dma) (slot : Z) (desc_index : Z) : Dma :=
  mkDma (descs m) (avail_idx m) (<[Z.to_nat slot := desc_index]> (avail_ring m)) (used_idx m)
    (header m) (dma_data m) (dma_status m).
Definition write_avail_idx (m : Dma) (v : Z) : Dma :=
  mkDma (descs m) v (avail_ring m) (used_idx m) (header m) (dma_data m) (dma_status m).
Definition device_result (m : Dma) (used : Z) (data : list Z) (st : Z) : Dma :=
  mkDma (descs m) (avail_idx m) (avail_ring m) used (header m) data st.

(** The request as written and published by the driver. *)
Definition publish (l : Layout) (m : Dma) (lba : Z) (len : nat) : Dma :=
  let m := set_header m VIRTIO_BLK_T_IN 0 lba in
  let m := set_status m STATUS_PENDING in
  let m := write_desc m 0 (header_phys l) 16 VIRTQ_DESC_F_NEXT 1 in
  let m := write_desc m 1 (data_phys l) (Z.of_nat len)
             (Z.lor VIRTQ_DESC_F_NEXT VIRTQ_DESC_F_WRITE) 2 in
  let m := write_desc m 2 (status_phys l) 1 VIRTQ_DESC_F_WRITE 0 in
  let idx := avail_idx m in
  let m := write_avail_ring_entry m (idx mod queue_size l) 0 in
  write_avail_idx m (wrap 16 (idx + 1)).

Section driver.
Context {H : Type} `{VirtioHw H}.

(** [while read_used_idx() != target { spin_loop() }]. *)
Fixpoint poll_used (fuel : nat) (l : Layout) (mh : Dma * H) (target : Z) : option (Dma * H) :=
  match fuel with
  | O => None
  | S fuel =>
      if decide (used_idx (fst mh) = target) then Some mh
      else poll_used fuel l (hw_step l mh) target
  end.

(** A device that never completes is polled forever; [hw_latency] polls and
    the last look are all that is needed of one that does. *)
Definition transfer (v : VirtioBlk H) (lba : Z) (len : nat) : VirtioBlk H * result (list Z) BlockError :=
  let m := publish (layout v) (dma v) lba len in
  let mh := (m, hw_notify (hw v)) in
  let target := avail_idx m in
  let '(m, h) := default mh (poll_used (S (hw_latency (layout v) mh)) (layout v) mh target) in
  let v := mkVirtio (vb_capacity v) (layout v) m h in
  (v, if decide (dma_status m <> VIRTIO_BLK_S_OK) then Err DeviceError
      else Ok (take len (dma_data m))).

Definition virtio_read_sectors (v : VirtioBlk H) (lba : Z) (len : nat)
    : VirtioBlk H * result (list Z) BlockError :=
  if decide (len = 0 \/ len mod SECTOR_SIZE <> 0)%nat then (v, Err BufferNotSectorAligned)
  else if decide (DATA_BUFFER_SIZE < len)%nat then (v, Err RequestTooLarge)
  else
    match checked_add64 lba (Z.of_nat (len / SECTOR_SIZE)) with
    | None => (v, Err OutOfRange)
    | Some e =>
        if decide (vb_capacity v < e) then (v, Err OutOfRange) else transfer v lba len
    end.

#[global] Instance virtio_block : BlockDevice (VirtioBlk H) := {|
  capacity_sectors := vb_capacity;
  read_sectors := virtio_read_sectors;
|}.
End driver.

(** ** What the device does with a chain

    The read request a device finds in the queue: the head named by the ring
    entry of its next used index, a device-readable header, a device-writable
    data buffer and a device-writable status byte, linked by their next
    fields.  The result is the sector and the length of the data buffer. *)
Definition found_request (l : Layout) (m : Dma) : option (Z * Z) :=
  if decide (avail_idx m = wrap 16 (used_idx m + 1)) then
    head ← avail_ring m !! Z.to_nat (used_idx m mod queue_size l);
    d0 ← descs m !! Z.to_nat head;
    d1 ← descs m !! Z.to_nat (desc_next d0);
    d2 ← descs m !! Z.to_nat (desc_next d1);
    let '(ty, _, sector) := header m in
    if decide (desc_addr d0 = header_phys l /\ desc_len d0 = 16 /\ desc_flags d0 = VIRTQ_DESC_F_NEXT /\
               desc_addr d1 = data_phys l /\
               desc_flags d1 = Z.lor VIRTQ_DESC_F_NEXT VIRTQ_DESC_F_WRITE /\
               desc_addr d2 = status_phys l /\ desc_len d2 = 1 /\ desc_flags d2 = VIRTQ_DESC_F_WRITE /\
               ty = VIRTIO_BLK_T_IN)
    then Some (sector, desc_len d1) else None
  else None.

Class VirtioLaws (H : Type) `{VirtioHw H} : Prop := {
  hw_disk_sector : forall h lba, length (hw_disk h lba) = SECTOR_SIZE /\ is_bytes (hw_disk h lba);
  hw_notify_disk : forall h, hw_disk (hw_notify h) = hw_disk h;
  (** Nothing is reported used before the request is done. *)
  hw_pending : forall l m h sector n k,
    found_request l m = Some (sector, Z.of_nat (n * SECTOR_SIZE)) ->
    (k < hw_latency l (m, h))%nat ->
    used_idx (fst (Nat.iter k (hw_step l) (m, h))) <> avail_idx m;
  (** When it is done, the used index has advanced, only the data buffer and
      the status byte were written, and a success status means the sectors
      were transferred. *)
  hw_done : forall l m h sector n,
    found_request l m = Some (sector, Z.of_nat (n * SECTOR_SIZE)) ->
    exists h' data st,
      Nat.iter (hw_latency l (m, h)) (hw_step l) (m, h) = (device_result m (avail_idx m) data st, h') /\
      hw_disk h' = hw_disk h /\
      (st = VIRTIO_BLK_S_OK -> take (n * SECTOR_SIZE) data = image_range (hw_disk h) sector n);
}.

(** The driver's own consistency: nothing outstanding, rings of the right
    size, and a queue long enough for the three descriptors. *)
Record virtio_wf {H} (v : VirtioBlk H) : Prop := {
  vw_queue : 3 <= queue_size (layout v) <= 8;
  vw_descs : (3 <= length (descs (dma v)))%nat;
  vw_ring : (8 <= length (avail_ring (dma v)))%nat;
  vw_idle : used_idx (dma v) = avail_idx (dma v);
  vw_idx : is_u16 (avail_idx (dma v));
  vw_capacity : is_u64 (vb_capacity v);
}.

Section correct.
Context {H : Type} `{VirtioHw H} `{!VirtioLaws H}.
Implicit Types v : VirtioBlk H.

(** The chain the driver publishes is a read request for the right range. *)
Lemma publish_found v lba len :
  virtio_wf v -> found_request (layout v) (publish (layout v) (dma v) lba len) = Some (lba, Z.of_nat len).
Proof.
  intros [[Hq1 Hq2] Hd Hr Hi Hx Hc]. unfold found_request, publish. simpl.
  rewrite decide_True by by rewrite Hi.
  assert (0 <= avail_idx (dma v) mod queue_size (layout v) < 8) as Hm.
  { pose proof (Z.mod_pos_bound (avail_idx (dma v)) (queue_size (layout v)) ltac:(lia)). lia. }
  rewrite Hi, list_lookup_insert_eq by lia. simpl.
  destruct (descs (dma v)) as [|d0 [|d1 [|d2 ds]]]; simpl in Hd; [lia..|]. simpl.
  by rewrite decide_True.
Qed.

Lemma poll_used_iter n l mh target :
  (forall k, (k < n)%nat -> used_idx (fst (Nat.iter k (hw_step l) mh)) <> target) ->
  used_idx (fst (Nat.iter n (hw_step l) mh)) = target ->
  poll_used (S n) l mh target = Some (Nat.iter n (hw_step l) mh).
Proof.
  revert mh. induction n as [|n IH]; intros mh Hlt Heq; cbn [poll_used].
  - simpl in Heq. by rewrite decide_True.
  - rewrite decide_False by (apply (Hlt 0%nat); lia).
    rewrite Nat.iter_succ_r in Heq |- *. apply IH; [|done].
    intros k Hk. specialize (Hlt (S k)). rewrite Nat.iter_succ_r in Hlt. apply Hlt. lia.
Qed.

Lemma transfer_spec v lba n :
  virtio_wf v ->
  exists v', fst (transfer v lba (n * SECTOR_SIZE)) = v' /\ virtio_wf v' /\
    hw_disk (hw v') = hw_disk (hw v) /\ vb_capacity v' = vb_capacity v /\
    (snd (transfer v lba (n * SECTOR_SIZE)) = Err DeviceError \/
     snd (transfer v lba (n * SECTOR_SIZE)) = Ok (image_range (hw_disk (hw v)) lba n)).
Proof.
  intros Hwf. eexists. split; [done|]. unfold transfer.
  pose proof (publish_found v lba (n * SECTOR_SIZE) Hwf) as Hf.
  set (m := publish (layout v) (dma v) lba (n * SECTOR_SIZE)) in *.
  destruct (hw_done (layout v) m (hw_notify (hw v)) lba n Hf) as (h' & data & st & Hit & Hdk & Hok).
  rewrite (poll_used_iter _ (layout v) (m, hw_notify (hw v)) (avail_idx m)).
  2: { intros k Hk. by eapply hw_pending. }
  2: { by rewrite Hit. }
  rewrite Hit. simpl. rewrite hw_notify_disk in Hdk, Hok.
  split_and!; [|done|done|].
  - destruct Hwf as [Hq Hd Hr Hi Hx Hc]. split; simpl; try done.
    + by rewrite !length_insert.
    + by rewrite length_insert.
    + apply wrap_in_width. lia.
  - case_decide as Hst; [by left|right]. f_equal. by apply Hok.
Qed.

(** C3: the driver's read.  Each argument error is reported exactly for the
    arguments it names and touches nothing; an accepted request always
    completes, with the device's failure or with exactly the addressed sectors;
    and the driver is ready for the next request, the disk unchanged. *)
Theorem virtio_read_sectors_correct (v : VirtioBlk H) (lba : Z) (len : nat)
    (Hwf : virtio_wf v) (Hlba : 0 <= lba) :
  let n := (len / SECTOR_SIZE)%nat in
  let '(v', r) := virtio_read_sectors v lba len in
  virtio_wf v' /\ hw_disk (hw v') = hw_disk (hw v) /\ vb_capacity v' = vb_capacity v /\
  match r with
  | Err BufferNotSectorAligned => v' = v /\ (len = 0 \/ len mod SECTOR_SIZE <> 0)%nat
  | Err RequestTooLarge => v' = v /\ len = (n * SECTOR_SIZE)%nat /\ (8 < n)%nat
  | Err OutOfRange => v' = v /\ len = (n * SECTOR_SIZE)%nat /\ vb_capacity v < lba + Z.of_nat n
  | Err DeviceError => len = (n * SECTOR_SIZE)%nat /\ lba + Z.of_nat n <= vb_capacity v
  | Ok bs => len = (n * SECTOR_SIZE)%nat /\ (0 < n <= 8)%nat /\ lba + Z.of_nat n <= vb_capacity v /\
      bs = image_range (hw_disk (hw v)) lba n
  end.
Proof.
  unfold virtio_read_sectors. case_decide as Ha; [done|].
  assert (len = len / SECTOR_SIZE * SECTOR_SIZE)%nat as Hlen.
  { pose proof (Nat.div_mod_eq len SECTOR_SIZE). unfold SECTOR_SIZE in *. lia. }
  case_decide as Hl.
  { split_and!; try done. unfold DATA_BUFFER_SIZE, MAX_SECTORS_PER_REQUEST, SECTOR_SIZE in *. lia. }
  pose proof (vw_capacity v Hwf) as [_ Hcap].
  destruct (checked_add64 _ _) as [e|] eqn:He.
  2: { split_and!; try done. unfold checked_add64 in He. case_decide; [done|lia]. }
  apply checked_add64_Some in He as [-> _]. case_decide as Hc; [by split_and!|].
  destruct (transfer_spec v lba (len / SECTOR_SIZE) Hwf) as (v' & Hv' & Hw & Hd & Hk & Hr).
  rewrite <- Hlen in Hv', Hr. destruct (transfer v lba len) as [v'' r]. simpl in *. subst v''.
  split_and!; try done. destruct Hr as [-> | ->]; split_and!; try done; try lia.
  unfold DATA_BUFFER_SIZE, MAX_SECTORS_PER_REQUEST, SECTOR_SIZE in *. lia.
Qed.

(** The driver keeps the [BlockDevice] contract. *)
#[global] Instance virtio_laws : BlockLaws (VirtioBlk H) virtio_wf (fun v => hw_disk (hw v)).
Proof.
  assert (forall v lba n, virtio_wf v -> virtio_wf (fst (transfer v lba (n * SECTOR_SIZE))) /\
    hw_disk (hw (fst (transfer v lba (n * SECTOR_SIZE)))) = hw_disk (hw v)) as Ht.
  { intros v lba n Hwf. destruct (transfer_spec v lba n Hwf) as (v' & <- & ? & ? & _). done. }
  assert (forall len, ~ (len = 0 \/ len mod SECTOR_SIZE <> 0)%nat ->
    len = len / SECTOR_SIZE * SECTOR_SIZE)%nat as Hlen.
  { intros len Ha. pose proof (Nat.div_mod_eq len SECTOR_SIZE). unfold SECTOR_SIZE in *. lia. }
  split.
  - intros v lba. apply hw_disk_sector.
  - intros v lba len Hwf. simpl. unfold virtio_read_sectors.
    case_decide as Ha; [done|]. case_decide; [done|].
    destruct (checked_add64 _ _); [|done]. case_decide; [done|]. rewrite (Hlen len Ha). by apply Ht.
  - intros v lba len bs Hwf. simpl. unfold virtio_read_sectors.
    case_decide as Ha; [done|]. case_decide; [done|].
    destruct (checked_add64 _ _); [|done]. case_decide; [done|]. intros Hs.
    exists (len / SECTOR_SIZE)%nat. split; [by apply Hlen|].
    destruct (transfer_spec v lba (len / SECTOR_SIZE) Hwf) as (_ & _ & _ & _ & _ & Hr).
    rewrite <- (Hlen len Ha) in Hr. destruct Hr; congruence.
Qed.

Lemma read_runs_too_large (d : VirtioBlk H) lba lbas n :
  (8 < n)%nat -> exists e, snd (Fat.read_runs d (lba :: lbas) (n * SECTOR_SIZE)) = Err (Io e).
Proof.
  intros Hn. cbn [Fat.read_runs]. unfold read_sectors, virtio_block, virtio_read_sectors.
  case_decide; [by eexists|]. rewrite decide_True; [by eexists|].
  unfold DATA_BUFFER_SIZE, MAX_SECTORS_PER_REQUEST, SECTOR_SIZE. lia.
Qed.

(** a volume whose clusters are larger than the driver's eight-sector
    request limit mounts, but none of its non-empty files can be read: the
    whole cluster is asked for in one request, which the driver refuses. *)
Theorem large_clusters_unreadable (vol : Fat12Volume) (d : VirtioBlk H) (name data : list Z)
    (Hspc : 8 < sectors_per_cluster vol) (Ht : 0 <= total_clusters vol)
    (Hok : snd (Fat.read_file vol d name) = Ok data) :
  data = [].
Proof.
  unfold Fat.read_file in Hok. destruct (Fat.to_83_name name) as [name83|]; [|done].
  destruct (Fat.find_dir_entry vol d name83) as [d1 [[first size]|e]]; [|done].
  unfold Fat.read_contents in Hok. case_decide; [by simplify_eq/=|].
  destruct (Fat.read_fat_table vol d1) as [d2 [fat|e]]; [|done].
  destruct (Fat.cluster_chain vol fat first) as [chain|e] eqn:Hch; [|done].
  apply Fat.cluster_chain_Ok in Hch as [Hp _]; [|done].
  destruct chain as [|c chain]; [by apply Fat.chain_path_length in Hp; simpl in Hp; lia|].
  destruct (read_runs_too_large d2 (Fat.cluster_lba vol c) (Fat.cluster_lba vol <$> chain)
    (Z.to_nat (sectors_per_cluster vol))) as [e He]; [lia|].
  unfold Fat.cluster_bytes in Hok. rewrite fmap_cons in Hok.
  destruct (Fat.read_runs d2 _ _) as [d3 r]. simpl in He, Hok. by subst r.
Qed.
End correct.

(** ** An ideal device, for witnesses: it answers on the second poll *)
Record Ideal := mkIdeal { ideal_disk : RamDisk; countdown : nat }.

Definition ideal_step (l : Layout) (mh : Dma * Ideal) : Dma * Ideal :=
  let '(m, h) := mh in
  match countdown h with
  | S (S n) => (m, mkIdeal (ideal_disk h) (S n))
  | _ =>
      match found_request l m with
      | Some (sector, len) =>
          (device_result m (avail_idx m)
             (image_range (ram_image (ideal_disk h)) sector (Z.to_nat len / SECTOR_SIZE)) VIRTIO_BLK_S_OK,
           mkIdeal (ideal_disk h) 0)
      | None => mh
      end
  end.

#[global] Instance ideal_hw : VirtioHw Ideal := {|
  hw_notify h := mkIdeal (ideal_disk h) 2;
  hw_step := ideal_step;
  hw_latency _ mh := Nat.max 1 (countdown (snd mh));
  hw_disk h := ram_image (ideal_disk h);
|}.


Lemma found_request_avail l m r : found_request l m = Some r -> used_idx m <> avail_idx m.
Proof.
  unfold found_request. case_decide as Ha; [|done]. intros _. rewrite Ha. unfold wrap. intros Heq.
  pose proof (Z.mod_pos_bound (used_idx m + 1) (2 ^ 16)).
  destruct (decide (used_idx m + 1 = 2 ^ 16)) as [Hw|]; [rewrite Hw, Z.mod_same in Heq; lia|].
  rewrite Z.mod_small in Heq; lia.
Qed.

#[global] Instance ideal_laws : VirtioLaws Ideal.
Proof.
  assert (forall l n (m : Dma) (d : RamDisk), 
    Nat.iter n (ideal_step l) (m, mkIdeal d (S n)) = (m, mkIdeal d 1)) as Hwait.
  { intros l n m d. induction n as [|n IH]; [done|]. rewrite Nat.iter_succ_r. apply IH. }
  split.
  - intros h lba. apply ram_disk_laws.
  - done.
  - intros l m [d c] sector n k Hf Hk. apply found_request_avail in Hf. simpl in *.
    destruct c as [|[|c]]; simpl in Hk; [by destruct k; [|lia]|by destruct k; [|lia]|].
    assert (exists c', Nat.iter k (ideal_step l) (m, mkIdeal d (S (S c))) = (m, mkIdeal d c')) as [c' ->]; [|done].
    replace (S (S c)) with (k + S (S c - k))%nat by lia. generalize (S c - k)%nat as r. clear Hk.
    induction k as [|k IH]; intros r; [by eexists|]. rewrite Nat.iter_succ_r.
    simpl. destruct (k + S r)%nat eqn:Hkr; [lia|]. rewrite <- Hkr. apply IH.
  - intros l m [d c] sector n Hf. simpl. do 3 eexists. split.
    + assert (Nat.iter (Nat.max 1 c) (ideal_step l) (m, mkIdeal d c) =
        ideal_step l (m, mkIdeal d (Nat.min 1 c))) as ->.
      { destruct c as [|c]; [done|]. replace (Nat.max 1 (S c)) with (S c) by lia.
        rewrite Nat.iter_succ, Hwait. by replace (Nat.min 1 (S c)) with 1%nat by lia. }
      unfold ideal_step. cbn [countdown].
      replace (Nat.min 1 c) with (if decide (c = 0)%nat then 0 else 1)%nat by (case_decide; lia).
      case_decide; rewrite Hf; done.
    + split; [done|]. intros _. rewrite Nat2Z.id, Nat.div_mul by done.
      rewrite take_ge; [done|]. rewrite length_image_range; [done|]. intros. apply ram_disk_laws.
Qed.

Definition demo_layout : Layout := mkLayout 8 0x1000 0x2000 0x3000.
Definition demo_virtio (d : RamDisk) : VirtioBlk Ideal :=
  mkVirtio 64 demo_layout
    (mkDma (replicate 8 (mkDesc 0 0 0 0)) 0xFFFF (replicate 8 0) 0xFFFF (0, 0, 0) [] 0) (mkIdeal d 0).

Lemma demo_virtio_wf d : virtio_wf (demo_virtio d).
Proof. split; simpl; unfold in_width; lia. Qed.

Lemma virtio_read_sectors_correct_witness :
  snd (virtio_read_sectors (demo_virtio demo_disk) 3 1024) =
    Ok (replicate 512 65 ++ replicate 512 66) /\
  virtio_wf (fst (virtio_read_sectors (demo_virtio demo_disk) 3 1024)).
Proof.
  split; [vm_compute; reflexivity|].
  pose proof (virtio_read_sectors_correct (demo_virtio demo_disk) 3 1024
    (demo_virtio_wf demo_disk) ltac:(lia)) as Hc. cbv zeta in Hc.
  destruct (virtio_read_sectors (demo_virtio demo_disk) 3 1024). exact (proj1 Hc).
Defined.

(** The same file with the cluster size of the volume set to nine sectors. *)
Definition demo_large : Fat12Volume := mkVolume 9 1 1 2 1 3 8.

Definition demo_empty_disk : RamDisk :=
  mkRamDisk (<[2 := demo_name83 ++ [0x20] ++ replicate 14 0 ++ le_bytes 2 0 ++ le_bytes 4 0]> ∅).

Lemma large_clusters_unreadable_witness :
  snd (Fat.read_file demo_large (demo_virtio demo_disk) [104; 101; 108; 108; 111; 46; 116; 120; 116]) =
    Err (Io RequestTooLarge) /\
  exists data, snd (Fat.read_file demo_large (demo_virtio demo_empty_disk)
    [104; 101; 108; 108; 111; 46; 116; 120; 116]) = Ok data /\ data = [].
Proof.
  split; [vm_compute; reflexivity|]. exists []. split; [vm_compute; reflexivity|].
  apply (large_clusters_unreadable demo_large (demo_virtio demo_empty_disk)
    [104; 101; 108; 108; 111; 46; 116; 120; 116]); [done|done|vm_compute; reflexivity].
Defined.
