(* ===== verification/Syscall.v ===== *)
(** * System calls ([kernel/src/arch/x86_64/syscall.rs])

    [syscall_dispatch] and its twelve handlers over the whole kernel state:
    the kernel proper, the block device, the mounted volume and the programs
    shipped at boot.  A handler gets the caller's register frame and returns
    where the core continues. *)
From S2P Require Import Prelude Abi CapTable Phys Virt Process Elf Sched Kernel Handlers Block Fat Virtio.
Open Scope Z_scope.

Definition USER_HEAP_MAX_SIZE : Z := 64 * 1024 * 1024.

Definition align_up (addr align : Z) : Z := Z.land (addr + align - 1) (Z.lnot (align - 1)).

Record Sys (D : Type) := mkSys {
  sk : Kernel;
  sys_device : option D;
  sys_root : option Fat12Volume;
  sys_modules : list (list Z * list Z);
}.
Arguments mkSys {D} sk sys_device sys_root sys_modules.
Arguments sk {D} s.
Arguments sys_device {D} s.
Arguments sys_root {D} s.
Arguments sys_modules {D} s.

Definition set_sk {D} (y : Sys D) (k : Kernel) : Sys D :=
  mkSys k (sys_device y) (sys_root y) (sys_modules y).
Definition set_device {D} (y : Sys D) (d : option D) : Sys D :=
  mkSys (sk y) d (sys_root y) (sys_modules y).

Section syscall.
Context (W : nat) {D : Type} `{X86} `{Selectors} `{RightsOps} `{BlockDevice D} (poll_fuel : nat).
Implicit Types (k : Kernel) (y : Sys D) (frame : TrapFrame).

(** [scheduler::with_current_process] and [with_process] on the kernel. *)
Definition with_current {R} k (core : nat) (f : Process -> Process * R) : Kernel * option R :=
  let '(s, r) := with_current_process (ksched k) core f in (set_sched k s, r).
Definition with_target {R} k (p : Pid) (f : Process -> Process * R) : Kernel * option R :=
  let '(s, r) := with_process (ksched k) p f in (set_sched k s, r).

Definition as_u32 (z : Z) : Z := wrap32 z.

Definition fail frame (e : SyscallError) : TrapFrame := set_rax frame (retval_u64 e).

(** [match result { Ok(v) => v, Err(e) => e.as_retval() as u64 }]. *)
Definition finish_with frame (r : result Z SyscallError) : Resume :=
  RCaller (match r with Ok v => set_rax frame v | Err e => fail frame e end).

(** ** IPC *)
Definition resolve_endpoint k (core : nat) (cap_index : CapIndex) (required : Rights)
    : Kernel * result (nat * Pid) SyscallError :=
  let '(k, r) := with_current k core (fun q =>
    (q, let? slot := Cap.lookup (cap_table q) cap_index required in
        match object slot with
        | OEndpoint e => Ok (e, pid q)
        | _ => Err BadCapability
        end)) in
  (k, default (Err BadCapability) r).

Definition sys_send k (core : nat) frame : outcome (Kernel * Resume) :=
  let cap_index := mkCapIndex (as_u32 (rdi frame)) in
  let message := message_new (rsi frame) [rdx frame; r10 frame; r8 frame; r9 frame] in
  match resolve_endpoint k core cap_index SEND with
  | (k, Err e) => Ret (k, RCaller (fail frame e))
  | (k, Ok (endpoint, p)) =>
      let! '(k, r) := ep_try_send k endpoint message p in
      match r with
      | SDelivered => Ret (k, RCaller (set_rax frame 0))
      | SBlocked => block_current_process W poll_fuel k core frame
      | SQueueFull => Ret (k, RCaller (fail frame ResourceExhausted))
      end
  end.

Definition sys_recv k (core : nat) frame : outcome (Kernel * Resume) :=
  let cap_index := mkCapIndex (as_u32 (rdi frame)) in
  match resolve_endpoint k core cap_index RECV with
  | (k, Err e) => Ret (k, RCaller (fail frame e))
  | (k, Ok (endpoint, p)) =>
      let! '(k, r) := ep_try_recv k endpoint p in
      match r with
      | RDelivered m =>
          Ret (k, RCaller (set_results (set_rax frame 0) (tag m) (word m 0) (word m 1) (word m 2)))
      | RBlocked => block_current_process W poll_fuel k core frame
      | RQueueFull => Ret (k, RCaller (fail frame ResourceExhausted))
      end
  end.

(** ** Process management *)
Definition current_pid k (core : nat) : Kernel * option Pid :=
  with_current k core (fun q => (q, pid q)).

Definition lookup_spawnable_module y (name : list Z) : option (list Z) :=
  snd <$> find (fun m => bool_decide (fst m = name)) (sys_modules y).

(** [fs::fat::mount_root]. *)
Definition mount_root y : Sys D * result unit FatError :=
  match sys_device y with
  | None => (y, Err NoDevice)
  | Some d =>
      let '(d, r) := Fat.mount d in
      match r with
      | Err e => (set_device y (Some d), Err e)
      | Ok volume => (mkSys (sk y) (Some d) (Some volume) (sys_modules y), Ok tt)
      end
  end.

(** [fs::fat::with_root]. *)
Definition with_root {R} y (f : Fat12Volume -> D -> D * R) : Sys D * option R :=
  match sys_root y, sys_device y with
  | Some volume, Some d => let '(d, r) := f volume d in (set_device y (Some d), Some r)
  | _, _ => (y, None)
  end.

Definition find_program y (name : list Z) : Sys D * result (list Z) SyscallError :=
  match lookup_spawnable_module y name with
  | Some bytes => (y, Ok bytes)
  | None =>
      match with_root y (fun volume d => Fat.read_file volume d name) with
      | (y, Some (Ok bytes)) => (y, Ok bytes)
      | (y, _) => (y, Err NoSuchProgram)
      end
  end.

(** The closure of [sys_spawn] from [allocate_pid] on. *)
Definition spawn_from k (elf_bytes : list Z) (caller : Pid) : outcome (Kernel * result Z SyscallError) :=
  let '(s, child_pid) := allocate_pid (ksched k) in
  let k := set_sched k s in
  let! '(m, r) := Elf.from_elf W (kmem k) child_pid elf_bytes (Some caller) in
  let k := set_mem k m in
  match r with
  | Err _ => Ret (set_sched k (release_reservation (ksched k) child_pid), Err SpawnFailed)
  | Ok child =>
      let! '(s, r) := spawn_suspended (ksched k) (set_state child Suspended) in
      Ret (set_sched k s, let? _ := r in Ok (pid_raw child_pid))
  end.

Definition sys_spawn y (core : nat) frame : outcome (Sys D * Resume) :=
  let name := unpack_short_name (rdi frame) (rsi frame) (rdx frame) in
  match current_pid (sk y) core with
  | (k, None) => Ret (set_sk y k, RCaller (fail frame InvalidTarget))
  | (k, Some caller) =>
      match find_program (set_sk y k) name with
      | (y, Err e) => Ret (y, RCaller (fail frame e))
      | (y, Ok bytes) =>
          let! '(k, r) := spawn_from (sk y) bytes caller in
          Ret (set_sk y k, finish_with frame r)
      end
  end.

Definition grant_into (object : KernelObjectRef) (caller : Pid) (dest : CapIndex) (requested : Rights)
    (child : Process) : Process * result unit SyscallError :=
  if bool_decide (parent child <> Some caller) || bool_decide (state child <> Suspended)
  then (child, Err InvalidTarget)
  else (set_cap_table child (Cap.insert (cap_table child) dest (mkCapSlot object requested)), Ok tt).

Definition sys_grant k (core : nat) frame : Kernel * Resume :=
  let target := mkPid (rdi frame) in
  let src_cap := mkCapIndex (as_u32 (rsi frame)) in
  let dest_cap := mkCapIndex (as_u32 (rdx frame)) in
  let requested := from_bits_truncate (wrap 8 (r10 frame)) in
  let '(k, r) := with_current k core (fun q =>
    (q, let? slot := Cap.get (cap_table q) src_cap in
        if negb (contains (rights slot) requested) then Err PermissionDenied
        else Ok (object slot, pid q))) in
  match default (Err BadCapability) r with
  | Err e => (k, RCaller (fail frame e))
  | Ok (object, caller) =>
      let '(k, r) := with_target k target (grant_into object caller dest_cap requested) in
      (k, finish_with frame (let? _ := default (Err InvalidTarget) r in Ok 0))
  end.

Definition sys_process_start k (core : nat) frame : Kernel * Resume :=
  match current_pid k core with
  | (k, None) => (k, RCaller (fail frame InvalidTarget))
  | (k, Some caller) =>
      let '(s, r) := start_child (ksched k) (mkPid (rdi frame)) caller in
      (set_sched k s, finish_with frame (let? _ := r in Ok 0))
  end.

Definition sys_wait k (core : nat) frame : outcome (Kernel * Resume) :=
  match current_pid k core with
  | (k, None) => Ret (k, RCaller (fail frame InvalidTarget))
  | (k, Some caller) => wait_for_child W poll_fuel k core frame (mkPid (rdi frame)) caller
  end.

Definition sys_kill (rounds : nat) (env : Kernel -> Kernel) k (core : nat) frame
    : outcome (Kernel * Resume) :=
  match current_pid k core with
  | (k, None) => Ret (k, RCaller (fail frame InvalidTarget))
  | (k, Some caller) =>
      let! '(k, r) := terminate_process W rounds env k (mkPid (rdi frame)) caller in
      Ret (k, finish_with frame (let? _ := r in Ok 0))
  end.

(** ** Memory *)
Fixpoint grow_heap (m : Mem) (pml4 : Z) (addrs : list Z) : outcome (Mem * result unit SyscallError) :=
  match addrs with
  | [] => Ret (m, Ok tt)
  | addr :: addrs =>
      let! '(a, r) := Phys.allocate_frame W (frames m) in
      let m := set_frames m a in
      match r with
      | None => Ret (m, Err ResourceExhausted)
      | Some new_frame =>
          let! v := Elf.new_virt_addr addr in
          match Virt.map_in m pml4 (page_of v) new_frame
                  (Z.lor PRESENT (Z.lor WRITABLE (Z.lor USER_ACCESSIBLE NO_EXECUTE))) with
          | (m, Err _) => Ret (m, Err ResourceExhausted)
          | (m, Ok _) => grow_heap m pml4 addrs
          end
      end
  end.

(** The addresses [addr, addr + 4096, ...] below [limit]. *)
Definition pages_below (addr limit : Z) : list Z :=
  (fun i => addr + Z.of_nat i * PAGE) <$> seq 0 (Z.to_nat ((limit - addr + PAGE - 1) / PAGE)).

Record SbrkPlan := mkPlan { old_end : Z; new_end : Z; old_top : Z; new_top : Z; plan_pml4 : Z }.

Definition sbrk_plan (increment : Z) (p : Process) : result SbrkPlan SyscallError :=
  if decide (increment < 0) then Err InvalidArgument
  else
    match checked_add64 (heap_end p) increment with
    | None => Err InvalidArgument
    | Some e =>
        if decide (USER_HEAP_MAX_SIZE < e - USER_HEAP_START) then Err InvalidArgument
        else Ok (mkPlan (heap_end p) e (align_up (heap_end p) PAGE) (align_up e PAGE)
                   (pml4_frame (address_space p)))
    end.

Definition sys_sbrk k (core : nat) frame : outcome (Kernel * Resume) :=
  let increment := to_signed 64 (rdi frame) in
  let '(k, r) := with_current k core (fun q => (q, sbrk_plan increment q)) in
  match default (Err InvalidTarget) r with
  | Err e => Ret (k, RCaller (fail frame e))
  | Ok plan =>
      let! '(m, r) := grow_heap (kmem k) (plan_pml4 plan) (pages_below (old_top plan) (new_top plan)) in
      let k := set_mem k m in
      match r with
      | Err e => Ret (k, RCaller (fail frame e))
      | Ok _ =>
          let '(k, r) := with_current k core (fun q => (set_heap_end q (new_end plan), tt)) in
          Ret (k, finish_with frame
                    (match r with Some _ => Ok (old_end plan) | None => Err InvalidTarget end))
      end
  end.

(** ** Buffers in user memory *)
Definition required_flags : Z := Z.lor PRESENT (Z.lor WRITABLE USER_ACCESSIBLE).

Fixpoint validate_pages (m : Mem) (pml4 : Z) (pages : list Z) : outcome (result unit SyscallError) :=
  match pages with
  | [] => Ret (Ok tt)
  | page :: pages =>
      let! v := Elf.new_virt_addr page in
      match Virt.translate_in m pml4 v with
      | None => Ret (Err InvalidArgument)
      | Some (_, flags) =>
          if decide (Z.land flags required_flags <> required_flags) then Ret (Err InvalidArgument)
          else validate_pages m pml4 pages
      end
  end.

(** [page_addr.saturating_add(4096)] never wraps back below [end], which is a
    64-bit value, so the loop visits exactly [pages_below]. *)
Definition validate_write_range (m : Mem) (pml4 ptr len : Z) : outcome (result Z SyscallError) :=
  match checked_add64 ptr len with
  | None => Ret (Err InvalidArgument)
  | Some e =>
      let! r := validate_pages m pml4 (pages_below (page_of ptr) e) in
      Ret (let? _ := r in Ok e)
  end.

Fixpoint copy_pages (m : Mem) (pml4 ptr limit : Z) (src : list Z) (pages : list Z) : outcome Mem :=
  match pages with
  | [] => Ret m
  | page :: pages =>
      let! v := Elf.new_virt_addr page in
      match Virt.translate_in m pml4 v with
      | None => Panic "page was already validated as mapped by validate_write_range"
      | Some (phys_page_base, _) =>
          let copy_start := Z.max ptr page in
          let copy_end := Z.min limit (Z.min (page + PAGE) (2 ^ 64 - 1)) in
          let chunk := take (Z.to_nat (copy_end - copy_start)) (drop (Z.to_nat (copy_start - ptr)) src) in
          copy_pages (store_bytes m phys_page_base (Z.to_nat (copy_start - page)) chunk)
            pml4 ptr limit src pages
      end
  end.

Definition copy_into_user_range (m : Mem) (pml4 ptr : Z) (src : list Z) : outcome Mem :=
  let limit := ptr + Z.of_nat (length src) in
  copy_pages m pml4 ptr limit src (pages_below (page_of ptr) limit).

(** The calling process's top table, if it holds the capability with read
    rights and the object is of the wanted kind. *)
Definition storage_cap k (core : nat) (cap_index : CapIndex) (wanted : KernelObjectRef)
    : Kernel * result Z SyscallError :=
  let '(k, r) := with_current k core (fun q =>
    (q, let? slot := Cap.lookup (cap_table q) cap_index READ in
        if decide (object slot = wanted) then Ok (pml4_frame (address_space q))
        else Err BadCapability)) in
  (k, default (Err BadCapability) r).

Definition device_read y (lba : Z) (len : nat) : Sys D * result (list Z) SyscallError :=
  match sys_device y with
  | None => (y, Err IoError)
  | Some d =>
      let '(d, r) := read_sectors d lba len in
      (set_device y (Some d),
       match r with
       | Ok bs => Ok bs
       | Err OutOfRange => Err IoOutOfRange
       | Err _ => Err IoError
       end)
  end.

Definition sys_block_read y (core : nat) frame : outcome (Sys D * Resume) :=
  let cap_index := mkCapIndex (as_u32 (rdi frame)) in
  let sector_count := r10 frame in
  if decide (sector_count = 0 \/ Z.of_nat MAX_SECTORS_PER_REQUEST < sector_count)
  then Ret (y, RCaller (fail frame InvalidArgument))
  else
    let len := sector_count * Z.of_nat SECTOR_SIZE in
    match storage_cap (sk y) core cap_index OBlockDevice with
    | (k, Err e) => Ret (set_sk y k, RCaller (fail frame e))
    | (k, Ok pml4) =>
        let y := set_sk y k in
        let! r := validate_write_range (kmem k) pml4 (rdx frame) len in
        match r with
        | Err e => Ret (y, RCaller (fail frame e))
        | Ok _ =>
            match device_read y (rsi frame) (Z.to_nat len) with
            | (y, Err e) => Ret (y, RCaller (fail frame e))
            | (y, Ok bs) =>
                let! m := copy_into_user_range (kmem (sk y)) pml4 (rdx frame) bs in
                Ret (set_sk y (set_mem (sk y) m), RCaller (set_rax frame 0))
            end
        end
    end.

Definition file_error (e : FatError) : SyscallError :=
  match e with
  | Fat.NoSuchFile => Abi.NoSuchFile
  | NameTooLong => InvalidArgument
  | _ => IoError
  end.

Definition sys_file_read y (core : nat) frame : outcome (Sys D * Resume) :=
  let cap_index := mkCapIndex (as_u32 (rdi frame)) in
  let name := unpack_short_name (rsi frame) (rdx frame) (r10 frame) in
  let buf_ptr := r8 frame in
  let buf_len := r9 frame in
  match storage_cap (sk y) core cap_index OFsRoot with
  | (k, Err e) => Ret (set_sk y k, RCaller (fail frame e))
  | (k, Ok pml4) =>
      let y := set_sk y k in
      let! r := validate_write_range (kmem k) pml4 buf_ptr buf_len in
      match r with
      | Err e => Ret (y, RCaller (fail frame e))
      | Ok _ =>
          match with_root y (fun volume d => Fat.read_file volume d name) with
          | (y, None) => Ret (y, RCaller (fail frame BadCapability))
          | (y, Some (Err e)) => Ret (y, RCaller (fail frame (file_error e)))
          | (y, Some (Ok data)) =>
              let copy_len := Nat.min (length data) (Z.to_nat buf_len) in
              let! m := copy_into_user_range (kmem (sk y)) pml4 buf_ptr (take copy_len data) in
              Ret (set_sk y (set_mem (sk y) m), RCaller (set_rax frame (Z.of_nat copy_len)))
          end
      end
  end.

(** ** Dispatch *)
Definition lift y (o : outcome (Kernel * Resume)) : outcome (Sys D * Resume) :=
  let! '(k, r) := o in Ret (set_sk y k, r).

Definition syscall_dispatch (rounds : nat) (env : Kernel -> Kernel) y (core : nat) frame
    : outcome (Sys D * Resume) :=
  let n := rax frame in
  let k := sk y in
  if decide (n = SYS_YIELD) then lift y (on_syscall_yield poll_fuel k core frame)
  else if decide (n = SYS_SEND) then lift y (sys_send k core frame)
  else if decide (n = SYS_RECV) then lift y (sys_recv k core frame)
  else if decide (n = SYS_EXIT) then lift y (on_syscall_exit W poll_fuel k core frame)
  else if decide (n = SYS_SPAWN) then sys_spawn y core frame
  else if decide (n = SYS_GRANT) then lift y (Ret (sys_grant k core frame))
  else if decide (n = SYS_PROCESS_START) then lift y (Ret (sys_process_start k core frame))
  else if decide (n = SYS_WAIT) then lift y (sys_wait k core frame)
  else if decide (n = SYS_KILL) then lift y (sys_kill rounds env k core frame)
  else if decide (n = SYS_SBRK) then lift y (sys_sbrk k core frame)
  else if decide (n = SYS_BLOCK_READ) then sys_block_read y core frame
  else if decide (n = SYS_FILE_READ) then sys_file_read y core frame
  else Ret (y, RCaller (fail frame NoSuchSyscall)).

Lemma lift_Ret y o y' r : lift y o = Ret (y', r) -> exists k', o = Ret (k', r) /\ sk y' = k'.
Proof. unfold lift. destruct o as [[k' x]|]; [|done]. intros [= <- <-]. by exists k'. Qed.
End syscall.
