(* ===== verification/Authority.v ===== *)
(** * Authority flows only by delegation

    [caps_from s s'] says that every capability table of [s'] is the table of
    a process of [s].  Every scheduler, IPC and executor operation keeps it,
    so of the system calls only [sys_grant] can put a capability into a table,
    and it copies one its caller holds with no more rights.  The theorem at
    the end is about [syscall_dispatch] as a whole. *)
From stdpp Require Import sorting.
From S2P Require Import Prelude Abi Ring Rendezvous CapTable Phys Virt Process Elf Sched Uart Kernel Handlers.
From S2P Require Import Block Fat Virtio Syscall SchedProps.
Open Scope nat_scope.

Definition caps_of (s : Sched) (t : CapTable KernelObjectRef) : Prop :=
  exists i b, processes (inner s) !! i = Some (Occupied b) /\ cap_table (box_process b) = t.

Definition caps_from (s s' : Sched) : Prop := forall t, caps_of s' t -> caps_of s t.

#[global] Instance caps_from_preorder : PreOrder caps_from.
Proof. split; [by intros s t|intros s1 s2 s3 H12 H23 t Ht; auto]. Qed.

Create HintDb caps.

(** ** Primitive updates *)
Lemma caps_same_table s s' : processes (inner s') = processes (inner s) -> caps_from s s'.
Proof. intros Heq t (i & b & Hi & Ht). exists i, b. by rewrite <- Heq. Qed.

(** A slot is overwritten by something whose capability table is known. *)
Lemma caps_put_slot s i x :
  (forall b, x = Occupied b -> caps_of s (cap_table (box_process b))) -> caps_from s (put_slot s i x).
Proof.
  intros Hx t (j & b & Hj & <-). unfold put_slot in Hj. simpl in Hj.
  apply list_lookup_insert_Some in Hj as [(_ & Heq & _)|[_ Hj]]; [by apply Hx|by exists j, b].
Qed.

Lemma caps_put_same s i b q slot :
  processes (inner s) !! i = Some (Occupied b) -> cap_table q = cap_table (box_process b) ->
  caps_from s (put_slot s i (Occupied (mkBox slot q))).
Proof. intros Hi Hq. apply caps_put_slot. intros b' [= <-]. exists i, b. by split. Qed.

Lemma occupied_slot s p b :
  occupied s p = Some b -> processes (inner s) !! pid_index p = Some (Occupied b).
Proof.
  unfold occupied, proc_at. destruct (pid_current_generation s p); [|done].
  destruct (processes (inner s) !! pid_index p) as [[]|]; congruence.
Qed.

Lemma caps_put_process s p b q :
  occupied s p = Some b -> cap_table q = cap_table (box_process b) -> caps_from s (put_process s p b q).
Proof. intros Hb%occupied_slot Hq. unfold put_process. by eapply caps_put_same. Qed.

Lemma procs_notify_idle s : processes (inner (notify_idle_cores s)) = processes (inner s).
Proof.
  unfold notify_idle_cores. generalize (percpu s) at 1 as l. intros l. revert s.
  induction l as [|p l IH]; intros s; simpl; [done|]. rewrite IH. by destruct (idle p).
Qed.

Lemma caps_notify s : caps_from s (notify_idle_cores s).
Proof. apply caps_same_table, procs_notify_idle. Qed.

Lemma caps_push s p : caps_from s (ready_push s p).
Proof. by apply caps_same_table. Qed.

Lemma procs_pop s s' o : ready_pop s = (s', o) -> processes (inner s') = processes (inner s).
Proof. unfold ready_pop. destruct (Ring.pop _ _). by intros [= <- <-]. Qed.

Lemma caps_pop s s' o : ready_pop s = (s', o) -> caps_from s s'.
Proof. intros Hp. eapply caps_same_table, procs_pop, Hp. Qed.

Lemma caps_set_current s c p : caps_from s (set_current s c p).
Proof. by apply caps_same_table. Qed.

#[export] Hint Resolve caps_notify caps_push caps_set_current caps_put_process caps_put_same
  caps_pop : caps.

(** ** Scheduler operations *)
Lemma cap_table_wake q r : cap_table (apply_wake_result q r) = cap_table q.
Proof. done. Qed.

Lemma caps_wake s p r : caps_from s (wake_blocked_process_locked s p r).
Proof.
  unfold wake_blocked_process_locked. destruct (occupied s p) as [b|] eqn:Hb; [|done].
  case_bool_decide; [by apply caps_put_process|].
  etrans; [|apply caps_notify]. etrans; [|apply caps_push]. by apply caps_put_process.
Qed.

Lemma caps_start_child s t c : caps_from s (fst (start_child s t c)).
Proof.
  unfold start_child. destruct (occupied s t) as [b|] eqn:Hb; [|done].
  destruct (_ || _); [done|]. cbn [fst].
  etrans; [|apply caps_notify]. etrans; [|apply caps_push]. by apply caps_put_process.
Qed.

Lemma index_or_panic_slot s i x :
  index_or_panic (processes (inner s)) i = Ret x -> processes (inner s) !! i = Some x.
Proof. apply index_or_panic_Ret. Qed.

Lemma caps_block s core f s' : block_current_process_locked s core f = Ret s' -> caps_from s s'.
Proof.
  unfold block_current_process_locked. destruct (current_of s core) as [p|]; [|by intros [= <-]].
  destruct (index_or_panic _ _) as [x|] eqn:Hx; [|done]. apply index_or_panic_slot in Hx.
  destruct x as [| |b|]; try (intros [= <-]; apply caps_set_current).
  intros [= <-]. etrans; [|apply caps_set_current].
  destruct (pending_wake _); [|by apply (caps_put_same _ _ b)].
  etrans; [|apply caps_notify]. etrans; [|apply caps_push]. by apply (caps_put_same _ _ b).
Qed.

Lemma caps_wait s core f t c s' r : wait_for_child_locked s core f t c = Ret (s', r) -> caps_from s s'.
Proof.
  unfold wait_for_child_locked, proc_at. destruct (negb _); [by intros [= <- <-]|].
  destruct (processes (inner s) !! pid_index t) as [[| |b|par st]|] eqn:Hi; try by intros [= <- <-].
  - case_decide; [|by intros [= <- <-]].
    destruct (block_current_process_locked _ core f) eqn:Hb; [|done].
    intros [= <- <-]. etrans; [|eapply caps_block, Hb]. by apply (caps_put_same _ _ b).
  - case_decide; [|by intros [= <- <-]]. destruct (to_regs st). intros [= <- <-].
    apply caps_put_slot. done.
Qed.

Section dispatch.
Context `{Selectors}.

Lemma caps_switch_to s core p s' r : switch_to s core p = Ret (s', r) -> caps_from s s'.
Proof.
  unfold switch_to. intros Hs. destruct (negb _); [|done].
  destruct (bool_decide _); [|done].
  destruct (index_or_panic (generations _) _); [|done]. destruct (_ =? _)%Z; [|done].
  destruct (index_or_panic (processes _) _) as [x|] eqn:Hx; [|done]. apply index_or_panic_slot in Hx.
  destruct x as [| |b|]; try done.
  repeat match type of Hs with (if ?c then _ else _) = _ => destruct c; [|done] end.
  injection Hs as <- _. etrans; [apply (caps_set_current s core (Some p))|].
  by apply (caps_put_same _ _ b).
Qed.

Lemma caps_print s core i a b : caps_from s (maybe_print_switch s core i a b).
Proof. unfold maybe_print_switch. case_decide; [by apply caps_same_table|done]. Qed.

Lemma caps_tick s core f s' r : on_timer_tick_locked s core f = Ret (s', r) -> caps_from s s'.
Proof.
  unfold on_timer_tick_locked. destruct (preempt_current s core f) as [s1|] eqn:Hp; [|done].
  assert (caps_from s s1) as H1.
  { unfold preempt_current in Hp. destruct (current_of s core) as [p|]; [|by injection Hp as <-].
    destruct (index_or_panic _ _) as [x|] eqn:Hx; [|done]. apply index_or_panic_slot in Hx.
    destruct x as [| |b|]; try (injection Hp as <-; by apply caps_same_table).
    injection Hp as <-. etrans; [|apply caps_push]. 
    etrans; [|by apply (caps_put_same _ _ b)]. by apply caps_same_table. }
  destruct (ready_pop s1) as [s2 [next|]] eqn:Hpop; apply caps_pop in Hpop.
  - destruct (switch_to s2 core next) as [[s3 [[i a] b]]|] eqn:Hs; [|done]. intros [= <- <-].
    etrans; [exact H1|]. etrans; [exact Hpop|]. etrans; [eapply caps_switch_to, Hs|apply caps_print].
  - intros [= <- <-]. by etrans.
Qed.
End dispatch.

Lemma caps_remove_ready s p : caps_from s (remove_from_ready_queue s p).
Proof. by apply caps_same_table. Qed.

Lemma caps_clear_current s p : caps_from s (clear_current_everywhere s p).
Proof.
  unfold clear_current_everywhere. generalize (seq 0 MAX_CORES) as l. intros l. revert s.
  induction l as [|c l IH]; intros s; cbn [foldl]; [done|]. etrans; [|apply IH].
  case_decide; [apply caps_set_current|done].
Qed.

Lemma caps_reap finalize exiting st l st' :
  (forall s p status d s' d', finalize s p status d = Ret (s', d') -> caps_from s s') ->
  reap_loop finalize exiting st l = Ret st' -> caps_from (fst st) (fst st').
Proof.
  intros Hf. revert st. induction l as [|i l IH]; intros [s d] Hr; cbn [reap_loop] in Hr.
  { by injection Hr as <-. }
  destruct (reap_one finalize exiting (s, d) i) as [st1|] eqn:H1; [|done].
  etrans; [|by apply IH]. clear IH Hr. unfold reap_one, proc_at in H1. cbn [fst].
  destruct (processes (inner s) !! i) as [[| |b|par status]|] eqn:Hi; try by injection H1 as <-.
  - destruct (_ && _); [destruct st1; by eapply Hf|].
    destruct (bool_decide _); injection H1 as <-; [|done]. by apply (caps_put_same _ _ b).
  - case_decide; injection H1 as <-; [|done]. by apply caps_put_slot.
Qed.

Lemma caps_finalize fuel s p status d s' d' :
  take_and_finalize_slot fuel s p status d = Ret (s', d') -> caps_from s s'.
Proof.
  revert s p status d s' d'. induction fuel as [|fuel IH]; intros s p status d s' d' Hr; [done|].
  cbn [take_and_finalize_slot] in Hr.
  destruct (index_or_panic _ _) as [[| |b|]|] eqn:Hx; try done; try by injection Hr as <- <-.
  apply index_or_panic_slot in Hx.
  destruct (reap_loop _ _ _ _) as [[s1 d1]|] eqn:Hl; [|done]. injection Hr as <- <-.
  apply caps_reap in Hl; [|exact IH]. cbn [fst] in Hl. etrans; [|exact Hl]. clear Hl.
  assert (caps_from s (clear_current_everywhere (remove_from_ready_queue
            (put_slot s (pid_index p) Empty) p) p)) as H0.
  { etrans; [|apply caps_clear_current]. etrans; [|apply caps_remove_ready]. by apply caps_put_slot. }
  etrans; [exact H0|]. destruct (wait_waiter _); [apply caps_wake|].
  destruct (parent _); [by apply caps_put_slot|done].
Qed.

Lemma caps_kill_scan s t s' d o : kill_scan s t = Ret (s', d, o) -> caps_from s s'.
Proof.
  unfold kill_scan. destruct (position _ _); [by intros [= <- <- <-]|].
  destruct (finalize_slot s t Killed) as [[s1 d1]|] eqn:Hf; [|done]. intros [= <- <- <-].
  by eapply caps_finalize.
Qed.

Lemma caps_allocate s : caps_from s (fst (allocate_pid s)).
Proof.
  unfold allocate_pid. destruct (position _ _); [|done]. cbn [fst].
  etrans; [|by apply caps_put_slot]. by apply caps_same_table.
Qed.

Lemma caps_release s p : caps_from s (release_reservation s p).
Proof.
  unfold release_reservation. destruct (pid_current_generation s p); [|done].
  destruct (proc_at s (pid_index p)) as [[]|]; try done. by apply caps_put_slot.
Qed.

(** A new process starts with the table it was built with. *)
Lemma caps_spawn_suspended s q s' r :
  spawn_suspended s q = Ret (s', r) -> forall t, caps_of s' t -> caps_of s t \/ t = cap_table q.
Proof.
  unfold spawn_suspended, process_box_new, alloc_process_slot.
  case_decide; [intros [= <- <-]; by left|].
  destruct (position _ _) as [slot|]; [|done]. intros [= <- <-] t (i & b & Hi & <-). simpl in Hi.
  apply list_lookup_insert_Some in Hi as [(_ & [= <-] & _)|[_ Hi]]; [by right|left; by exists i, b].
Qed.

Lemma caps_with_process {R} s p (f : Process -> Process * R) s' r :
  with_process s p f = (s', r) ->
  (forall q, cap_table (fst (f q)) = cap_table q) -> caps_from s s'.
Proof.
  unfold with_process. intros Hw Hf. destruct (occupied s p) as [b|] eqn:Hb; [|by injection Hw as <- <-].
  specialize (Hf (box_process b)). destruct (f (box_process b)) as [q x]. injection Hw as <- <-.
  by apply caps_put_process.
Qed.

(** ** The kernel proper *)
Definition kcaps (k k' : Kernel) : Prop := caps_from (ksched k) (ksched k').

#[global] Instance kcaps_preorder : PreOrder kcaps.
Proof. split; [intros k; unfold kcaps; reflexivity|intros k1 k2 k3; unfold kcaps; apply transitivity]. Qed.

Lemma kcaps_same k k' : ksched k' = ksched k -> kcaps k k'.
Proof. unfold kcaps. by intros ->. Qed.

Lemma kcaps_wake_task k id : kcaps k (wake_task k id).
Proof. apply kcaps_same. unfold wake_task. by destruct (Ring.push _ _ _). Qed.

Lemma kcaps_wake_process k p r : kcaps k (wake_blocked_process k p r).
Proof. apply caps_wake. Qed.

Lemma kcaps_wake_sender k w : kcaps k (wake_sender k w).
Proof. destruct w; cbn [wake_sender]; [apply kcaps_wake_task|apply kcaps_wake_process|done]. Qed.

Lemma kcaps_ep_try_recv k e p k' r : ep_try_recv k e p = Ret (k', r) -> kcaps k k'.
Proof.
  unfold ep_try_recv. destruct (Rdv.try_recv _ _ _) as [[s out]|]; [|done].
  destruct out as [m w| |]; try (intros [= <- <-]; by apply kcaps_same).
  destruct (into_inline m); [|done]. intros [= <- <-].
  etrans; [|apply kcaps_wake_sender]. by apply kcaps_same.
Qed.

Lemma kcaps_wake_receiver k e w k' : wake_receiver k e w = Ret k' -> kcaps k k'.
Proof.
  destruct w as [id|p|]; cbn [wake_receiver]; [intros [= <-]; apply kcaps_wake_task| |by intros [= <-]].
  destruct (ep_try_recv k e p) as [[k1 r]|] eqn:Hr; [|done]. apply kcaps_ep_try_recv in Hr.
  destruct r; intros [= <-]; try done. etrans; [exact Hr|apply kcaps_wake_process].
Qed.

Lemma kcaps_ep_try_send k e m p k' r : ep_try_send k e m p = Ret (k', r) -> kcaps k k'.
Proof.
  unfold ep_try_send. destruct (Rdv.try_send _ _ _ _) as [s out].
  destruct out as [w| |]; try (intros [= <- <-]; by apply kcaps_same).
  destruct (wake_receiver _ _ _) as [k1|] eqn:Hw; [|done]. intros [= <- <-].
  apply kcaps_wake_receiver in Hw. etrans; [|exact Hw]. by apply kcaps_same.
Qed.

Lemma kcaps_recv_future k e id k' r : recv_future_poll k e id = Ret (k', r) -> kcaps k k'.
Proof.
  unfold recv_future_poll. destruct (Rdv.try_recv _ _ _) as [[s out]|]; [|done].
  destruct out as [m w| |].
  - destruct (into_inline m); [|done]. intros [= <- <-].
    etrans; [|apply kcaps_wake_sender]. by apply kcaps_same.
  - intros [= <- <-]. by apply kcaps_same.
  - intros [= <- <-]. etrans; [|apply kcaps_wake_task]. by apply kcaps_same.
Qed.

Lemma kcaps_send_future k e id m k' m' b : send_future_poll k e id m = Ret (k', m', b) -> kcaps k k'.
Proof.
  unfold send_future_poll. destruct m as [m|]; [|by intros [= <- <- <-]].
  destruct (Rdv.try_send _ _ _ _) as [s out]. destruct out as [w| |].
  - destruct (wake_receiver _ _ _) as [k1|] eqn:Hw; [|done]. intros [= <- <- <-].
    apply kcaps_wake_receiver in Hw. etrans; [|exact Hw]. by apply kcaps_same.
  - intros [= <- <- <-]. by apply kcaps_same.
  - intros [= <- <- <-]. etrans; [|apply kcaps_wake_task]. by apply kcaps_same.
Qed.

Lemma kcaps_console fuel k e id k' : console_server_poll fuel k e id = Ret k' -> kcaps k k'.
Proof.
  revert k. induction fuel as [|fuel IH]; intros k; cbn [console_server_poll]; [done|].
  destruct (recv_future_poll k e id) as [[k1 [m|]]|] eqn:Hr; try done; apply kcaps_recv_future in Hr.
  - intros Hc%IH. etrans; [exact Hr|]. etrans; [|exact Hc]. by apply kcaps_same.
  - by intros [= <-].
Qed.

Lemma rx_available_sched k id : ksched (fst (rx_available_poll k id)) = ksched k.
Proof.
  unfold rx_available_poll. destruct (Com1.try_read_byte _) as [u [b|]]; [done|].
  by destruct (Com1.try_read_byte _).
Qed.

Lemma kcaps_echo fuel k id k' : echo_task_poll fuel k id = Ret k' -> kcaps k k'.
Proof.
  revert k. induction fuel as [|fuel IH]; intros k; cbn [echo_task_poll]; [done|].
  pose proof (rx_available_sched k id) as Hrx.
  destruct (rx_available_poll k id) as [k1 [b|]]; cbn [fst] in Hrx.
  - intros He%IH. etrans; [|exact He]. by apply kcaps_same.
  - intros [= <-]. by apply kcaps_same.
Qed.

Lemma kcaps_poll_task k id k' : poll_task k id = Ret k' -> kcaps k k'.
Proof.
  unfold poll_task. destruct (tasks (kexec k) !! id) as [t|]; [|by intros [= <-]].
  destruct (poll _ id t) as [[k1 b]|] eqn:Hp; [|done]. intros Hk.
  assert (kcaps k k1) as H1.
  { destruct t; cbn [poll] in Hp.
    - destruct (console_server_poll _ _ _ _) as [k2|] eqn:Hc; [|done]. injection Hp as <- <-.
      apply kcaps_console in Hc. etrans; [|exact Hc]. by apply kcaps_same.
    - destruct (echo_task_poll _ _ _) as [k2|] eqn:Hc; [|done]. injection Hp as <- <-.
      apply kcaps_echo in Hc. etrans; [|exact Hc]. by apply kcaps_same.
    - destruct (recv_future_poll _ _ _) as [[k2 [m|]]|] eqn:Hc; [|injection Hp as <- <-|done];
        [destruct (_ =? _)%Z; [|done]; injection Hp as <- <-|];
        apply kcaps_recv_future in Hc; (etrans; [|exact Hc]); by apply kcaps_same.
    - destruct (send_future_poll _ _ _ _) as [[[k2 m] b2]|] eqn:Hc; [|done]. injection Hp as <- <-.
      apply kcaps_send_future in Hc. etrans; [|by apply kcaps_same]. etrans; [|exact Hc]. by apply kcaps_same. }
  injection Hk as <-. etrans; [exact H1|]. apply kcaps_same. by destruct b.
Qed.

Lemma kcaps_run_ready fuel k k' : run_ready_tasks fuel k = Ret k' -> kcaps k k'.
Proof.
  unfold run_ready_tasks. destruct (overflowed (kexec k)).
  - generalize (merge_sort (≤) (elements (dom (tasks (kexec k))))) as l. intros l Hp.
    trans (set_exec k (set_overflowed (kexec k) false)); [by apply kcaps_same|].
    revert Hp. generalize (set_exec k (set_overflowed (kexec k) false)) as k0.
    induction l as [|id l IH]; intros k0; cbn [poll_all]; [by intros [= <-]|].
    destruct (poll_task k0 id) as [k1|] eqn:Hk; [|done]. intros Hr%IH.
    etrans; [by eapply kcaps_poll_task|exact Hr].
  - revert k. induction fuel as [|fuel IH]; intros k; cbn [poll_ready_loop]; [done|].
    destruct (Ring.pop _ _) as [r [id|]].
    + destruct (poll_task _ id) as [k1|] eqn:Hk; [|done]. intros Hr%IH.
      apply kcaps_poll_task in Hk. etrans; [|exact Hr]. etrans; [|exact Hk]. by apply kcaps_same.
    + intros [= <-]. by apply kcaps_same.
Qed.

(** ** Handlers *)
Section handlers.
Context (W : nat) `{X86} `{Selectors} `{RightsOps} (poll_fuel : nat).

Lemma kcaps_drop_boxes k l k' : drop_boxes W k l = Ret k' -> kcaps k k'.
Proof.
  revert k. induction l as [|b l IH]; intros k; cbn [drop_boxes]; [by intros [= <-]|].
  unfold drop_box. destruct (Virt.address_space_drop _ _ _); [|done]. intros Hd%IH.
  etrans; [|exact Hd]. unfold kcaps. simpl. by apply caps_same_table.
Qed.

Lemma take_waiting_sched k e : ksched (fst (take_waiting_process_receiver k e)) = ksched k.
Proof. unfold take_waiting_process_receiver. by repeat case_match. Qed.

Lemma kcaps_peer_closed k es : kcaps k (wake_peer_closed k es).
Proof.
  revert k. induction es as [|e es IH]; intros k; cbn [wake_peer_closed]; [done|].
  pose proof (take_waiting_sched k e) as Ht.
  destruct (take_waiting_process_receiver k e) as [k1 o]. cbn [fst] in Ht.
  etrans; [|apply IH]. trans k1; [by apply kcaps_same|].
  destruct o; [apply kcaps_wake_process|done].
Qed.

Lemma clear_busy_procs k o k' :
  clear_busy_opt k o = Ret k' -> processes (inner (ksched k')) = processes (inner (ksched k)).
Proof.
  destruct o as [i|]; cbn [clear_busy_opt]; [|by intros [= <-]]. unfold clear_stack_busy.
  destruct (index_or_panic _ _); [|done]. by intros [= <-].
Qed.

Lemma kcaps_finish_switch k core next o l k' r :
  finish_switch W poll_fuel k core next o l = Ret (k', r) -> kcaps k k'.
Proof.
  unfold finish_switch. destruct (switch_to _ _ _) as [[s [[i a] b]]|] eqn:Hs; [|done].
  apply caps_switch_to in Hs.
  destruct (drop_boxes _ _ _) as [k1|] eqn:Hd; [|done]. apply kcaps_drop_boxes in Hd.
  destruct (run_ready_tasks _ _) as [k2|] eqn:Hr; [|done]. apply kcaps_run_ready in Hr.
  destruct (clear_busy_opt k2 o) as [k3|] eqn:Hc; [|done]. intros [= <- <-].
  etrans; [|apply caps_same_table, (clear_busy_procs _ _ _ Hc)]. etrans; [|exact Hr].
  etrans; [|apply caps_print]. etrans; [|exact Hd]. exact Hs.
Qed.

Lemma kcaps_next_or_halt k core msg o l k' r :
  switch_to_next_or_halt W poll_fuel k core msg o l = Ret (k', r) -> kcaps k k'.
Proof.
  unfold switch_to_next_or_halt. destruct (ready_pop (ksched k)) as [s [next|]] eqn:Hp; apply caps_pop in Hp.
  - intros Hf%kcaps_finish_switch. by etrans; [|exact Hf].
  - unfold abandon_process_stack_and_idle.
    destruct (clear_busy_opt _ _) as [k1|] eqn:Hc; [|done]. apply clear_busy_procs in Hc.
    destruct (drop_boxes _ _ _) as [k2|] eqn:Hd; [|done]. apply kcaps_drop_boxes in Hd.
    intros [= <- <-]. etrans; [|exact Hd]. etrans; [|apply caps_same_table, Hc]. exact Hp.
Qed.

Lemma kcaps_block_current k core f k' r :
  block_current_process W poll_fuel k core f = Ret (k', r) -> kcaps k k'.
Proof.
  unfold block_current_process. destruct (block_current_process_locked _ _ _) as [s|] eqn:Hb; [|done].
  intros Hn%kcaps_next_or_halt. etrans; [|exact Hn]. by eapply caps_block.
Qed.

Lemma kcaps_wait_child k core f t c k' r :
  wait_for_child W poll_fuel k core f t c = Ret (k', r) -> kcaps k k'.
Proof.
  unfold wait_for_child. destruct (wait_for_child_locked _ _ _ _ _) as [[s o]|] eqn:Hw; [|done].
  apply caps_wait in Hw. destruct o; [by intros [= <- <-]|].
  intros Hn%kcaps_next_or_halt. by etrans; [|exact Hn].
Qed.

Lemma kcaps_exit k core f k' r : on_syscall_exit W poll_fuel k core f = Ret (k', r) -> kcaps k k'.
Proof.
  unfold on_syscall_exit, terminate_current_process. generalize (Exited (to_signed 32 (rdi f))) as st.
  intros st. destruct (current_of (ksched k) core) as [p|].
  - destruct (mark_stack_busy _ _) as [s|] eqn:Hm; [|done].
    assert (caps_from (ksched k) s) as Hk1.
    { unfold mark_stack_busy in Hm. destruct (index_or_panic _ _); [|done]. injection Hm as <-.
      by apply caps_same_table. }
    unfold terminate_slot. cbn [ksched set_sched].
    destruct (finalize_slot s p st) as [[s1 d]|] eqn:Hf; [|done]. apply caps_finalize in Hf.
    intros Hn%kcaps_next_or_halt. etrans; [|exact Hn]. etrans; [|apply kcaps_peer_closed].
    unfold kcaps. cbn [ksched set_sched]. by etrans; [exact Hk1|].
  - apply kcaps_next_or_halt.
Qed.

Lemma kcaps_tick k core f k' r : on_timer_tick poll_fuel k core f = Ret (k', r) -> kcaps k k'.
Proof.
  unfold on_timer_tick. destruct (on_timer_tick_locked _ _ _) as [[s o]|] eqn:Ht; [|done].
  apply caps_tick in Ht. destruct (run_ready_tasks _ _) as [k1|] eqn:Hr; [|done].
  apply kcaps_run_ready in Hr. intros [= <- <-]. by etrans; [|exact Hr].
Qed.

Lemma kcaps_kill rounds env k t c k' r :
  (forall k, kcaps k (env k)) ->
  terminate_process W rounds env k t c = Ret (k', r) -> kcaps k k'.
Proof.
  intros Henv. unfold terminate_process. destruct (kill_permitted _ _ _); [|by intros [= <- <-]].
  revert k. induction rounds as [|n IH]; intros k; cbn [kill_loop]; [done|].
  destruct (kill_round W k t) as [[k1 o]|] eqn:Hk; [|done].
  assert (kcaps k k1) as Hk1.
  { unfold kill_round in Hk. destruct (kill_scan _ _) as [[[s d] oc]|] eqn:Hs; [|done].
    apply caps_kill_scan in Hs. destruct (drop_boxes _ _ _) as [k2|] eqn:Hd; [|done].
    apply kcaps_drop_boxes in Hd.
    assert (kcaps k k2) by (etrans; [|exact Hd]; etrans; [|apply kcaps_peer_closed]; exact Hs).
    destruct oc; injection Hk as <- <-; [|done]. etrans; [done|]. by apply caps_same_table. }
  destruct o as [core|]; [|by intros [= <- <-]].
  intros Hl%IH. etrans; [exact Hk1|]. etrans; [apply (Henv k1)|]. etrans; [|exact Hl].
  unfold kcaps. cbn [ksched set_sched]. case_decide; [by apply caps_same_table|done].
Qed.
End handlers.

(** ** Creating a process *)
Section creation.
Context (W : nat) `{X86} `{Selectors}.

Lemma process_new_caps m p s entry par m' q :
  Elf.process_new W m p s entry par = Ret (m', Ok q) -> cap_table q = Cap.new.
Proof.
  unfold Elf.process_new. destruct (Elf.map_stack _ _ _ _) as [[m1 [[]|e]]|]; [| |done].
  - case_decide; [done|]. by intros [= <- <-].
  - by destruct (Virt.address_space_drop _ _ _).
Qed.

Lemma from_elf_caps m p bytes par m' q :
  Elf.from_elf W m p bytes par = Ret (m', Ok q) -> cap_table q = Cap.new.
Proof.
  unfold Elf.from_elf. destruct (Virt.address_space_new _ _) as [[m1 [s|]]|]; [|done..].
  destruct (Elf.load _ _ _ _) as [[m2 [entry|e]]|]; [| |done].
  - apply process_new_caps.
  - by destruct (Virt.address_space_drop _ _ _).
Qed.
End creation.

(** ** System calls *)

(** Some process holds a capability for the object with these rights. *)
Definition held (s : Sched) (o : KernelObjectRef) (r : Rights) : Prop :=
  exists t slot, caps_of s t /\ slot ∈ Cap.iter t /\ object slot = o /\ rights slot = r.

Section syscalls.
Context (W : nat) {D : Type} `{X86} `{Selectors} `{RightsOps} `{!RightsLaws} `{BlockDevice D}
  (poll_fuel : nat).
Implicit Types (k : Kernel) (y : Sys D) (frame : TrapFrame).

(** Every capability of [k'] is one of [k], possibly with fewer rights. *)
Definition delegated k k' : Prop :=
  forall o r, held (ksched k') o r -> exists r', held (ksched k) o r' /\ contains r' r = true.

Lemma contains_refl r : contains r r = true.
Proof. apply contains_spec, Z.land_diag. Qed.

Lemma delegated_kcaps k k' : kcaps k k' -> delegated k k'.
Proof.
  intros Hk o r (t & slot & Ht & Hs & Ho & Hr). exists r.
  split; [|apply contains_refl]. exists t, slot. auto.
Qed.

Lemma delegated_trans_l k1 k2 k3 : kcaps k1 k2 -> delegated k2 k3 -> delegated k1 k3.
Proof.
  intros H12 H23 o r (r' & (t & slot & Ht & Hs) & Hc)%H23. exists r'. split; [|done].
  exists t, slot. split; [by apply H12|done].
Qed.

Lemma kcaps_with_current {R} k core (f : Process -> Process * R) k' r :
  with_current k core f = (k', r) -> (forall q, cap_table (fst (f q)) = cap_table q) -> kcaps k k'.
Proof.
  unfold with_current, with_current_process. intros Hw Hf.
  destruct (current_of (ksched k) core) as [p|]; [|injection Hw as <- <-; by apply kcaps_same].
  destruct (with_process (ksched k) p f) as [s' o] eqn:Hp. injection Hw as <- <-.
  by eapply caps_with_process.
Qed.

Lemma kcaps_current_pid k core k' o : current_pid k core = (k', o) -> kcaps k k'.
Proof. intros Hc. by apply (kcaps_with_current _ _ _ _ _ Hc). Qed.

Lemma kcaps_resolve k core c r k' o : resolve_endpoint k core c r = (k', o) -> kcaps k k'.
Proof.
  unfold resolve_endpoint. destruct (with_current k core _) as [k1 x] eqn:Hw.
  intros [= <- _]. by apply (kcaps_with_current _ _ _ _ _ Hw).
Qed.

Lemma kcaps_storage k core c w k' o : storage_cap k core c w = (k', o) -> kcaps k k'.
Proof.
  unfold storage_cap. destruct (with_current k core _) as [k1 x] eqn:Hw.
  intros [= <- _]. by apply (kcaps_with_current _ _ _ _ _ Hw).
Qed.

Lemma kcaps_send k core frame k' r : sys_send W poll_fuel k core frame = Ret (k', r) -> kcaps k k'.
Proof.
  unfold sys_send. destruct (resolve_endpoint _ _ _ _) as [k1 [[e p]|err]] eqn:Hr;
    apply kcaps_resolve in Hr; [|by intros [= <- <-]].
  destruct (ep_try_send _ _ _ _) as [[k2 x]|] eqn:Hs; [|done]. apply kcaps_ep_try_send in Hs.
  destruct x; [intros [= <- <-]; by etrans|intros Hb%kcaps_block_current; by etrans; [|etrans]|].
  intros [= <- <-]. by etrans.
Qed.

Lemma kcaps_recv k core frame k' r : sys_recv W poll_fuel k core frame = Ret (k', r) -> kcaps k k'.
Proof.
  unfold sys_recv. destruct (resolve_endpoint _ _ _ _) as [k1 [[e p]|err]] eqn:Hr;
    apply kcaps_resolve in Hr; [|by intros [= <- <-]].
  destruct (ep_try_recv _ _ _) as [[k2 x]|] eqn:Hs; [|done]. apply kcaps_ep_try_recv in Hs.
  destruct x; [intros [= <- <-]; by etrans|intros Hb%kcaps_block_current; by etrans; [|etrans]|].
  intros [= <- <-]. by etrans.
Qed.

Lemma with_current_Some {R} k core (f : Process -> Process * R) k' r :
  with_current k core f = (k', Some r) ->
  exists p b, current_of (ksched k) core = Some p /\ occupied (ksched k) p = Some b /\
    snd (f (box_process b)) = r.
Proof.
  unfold with_current, with_current_process, with_process.
  destruct (current_of (ksched k) core) as [p|]; [|done].
  destruct (occupied (ksched k) p) as [b|] eqn:Hb; [|done].
  destruct (f (box_process b)) as [q x] eqn:Hf. intros [= <- <-]. exists p, b. by rewrite Hf.
Qed.

Lemma get_in_iter (t : CapTable KernelObjectRef) c slot : Cap.get t c = Ok slot -> slot ∈ Cap.iter t.
Proof.
  unfold Cap.get. destruct (slots t !! Cap.cap_slot_index c) as [[s|]|] eqn:Hi; [|done..].
  intros [= <-]. apply Cap.elem_of_iter. eauto.
Qed.

Lemma delegated_grant k core frame k' r : sys_grant k core frame = (k', r) -> delegated k k'.
Proof.
  unfold sys_grant. set (requested := from_bits_truncate _).
  destruct (with_current k core _) as [k1 x] eqn:Hw.
  assert (kcaps k k1) as Hk by by apply (kcaps_with_current _ _ _ _ _ Hw).
  destruct (default (Err BadCapability) x) as [[obj caller]|e] eqn:Hx;
    [|intros [= <- <-]; by apply delegated_kcaps].
  destruct x as [x|]; [|done]. simpl in Hx. subst x.
  apply with_current_Some in Hw as (p & b & Hcur & Hb & Hr). simpl in Hr.
  destruct (Cap.get _ _) as [slot|] eqn:Hget; [|done]. 
  destruct (contains (rights slot) requested) eqn:Hc; [|done]. simpl in Hr. simplify_eq.
  assert (held (ksched k) (object slot) (rights slot)) as Hheld.
  { exists (cap_table (box_process b)), slot. split_and!; [|by eapply get_in_iter|done|done].
    exists (pid_index p), b. split; [by apply occupied_slot|done]. }
  unfold with_target, with_process. destruct (occupied (ksched k1) _) as [tb|] eqn:Htb;
    [|intros [= <- <-]; by apply delegated_kcaps].
  unfold grant_into. destruct (_ || _).
  { intros [= <- <-]. apply delegated_kcaps. etrans; [exact Hk|]. by apply caps_put_process. }
  intros [= <- <-] o rr (t & s & (i & b' & Hi & <-) & Hs & <- & <-). simpl in Hi.
  apply list_lookup_insert_Some in Hi as [(_ & [= <-] & _)|[_ Hi]].
  - simpl in Hs. apply Cap.elem_of_iter_insert in Hs as [->|Hs]; [by exists (rights slot)|].
    apply (delegated_kcaps k k1 Hk). exists (cap_table (box_process tb)), s. split_and!; try done.
    exists (pid_index (mkPid (rdi frame))), tb. split; [by apply occupied_slot|done].
  - apply (delegated_kcaps k k1 Hk). exists (cap_table (box_process b')), s. split_and!; try done.
    by exists i, b'.
Qed.

Lemma delegated_spawn_from k bytes caller k' r :
  spawn_from W k bytes caller = Ret (k', r) -> delegated k k'.
Proof.
  unfold spawn_from. pose proof (caps_allocate (ksched k)) as Ha.
  destruct (allocate_pid (ksched k)) as [s child]. cbn [fst] in Ha.
  destruct (Elf.from_elf _ _ _ _ _) as [[m [q|e]]|] eqn:He; [| |done].
  - destruct (spawn_suspended _ _) as [[s' x]|] eqn:Hs; [|done]. intros [= <- <-].
    intros o rr (t & slot & Ht & Hs' & Ho & Hr).
    destruct (caps_spawn_suspended _ _ _ _ Hs t Ht) as [Hin| ->].
    + exists rr. split; [|apply contains_refl]. exists t, slot. split_and!; try done. by apply Ha.
    + change (cap_table (set_state q Suspended)) with (cap_table q) in Hs'.
      rewrite (from_elf_caps _ _ _ _ _ _ _ He) in Hs'. by apply elem_of_nil in Hs'.
  - intros [= <- <-]. apply delegated_kcaps. unfold kcaps. cbn [ksched set_sched set_mem].
    etrans; [exact Ha|apply caps_release].
Qed.

Lemma find_program_sk y name y' r : find_program y name = (y', r) -> sk y' = sk y.
Proof.
  unfold find_program, with_root. destruct (lookup_spawnable_module y name); [by intros [= <- <-]|].
  destruct (sys_root y), (sys_device y) as [d|]; try by intros [= <- <-].
  destruct (Fat.read_file _ d name) as [d' [bs|e]]; by intros [= <- <-].
Qed.

Lemma with_root_sk {R} y (f : Fat12Volume -> D -> D * R) y' r : with_root y f = (y', r) -> sk y' = sk y.
Proof.
  unfold with_root. destruct (sys_root y), (sys_device y) as [d|]; try by intros [= <- <-].
  destruct (f _ d). by intros [= <- <-].
Qed.

Lemma delegated_spawn y core frame y' r :
  sys_spawn W y core frame = Ret (y', r) -> delegated (sk y) (sk y').
Proof.
  unfold sys_spawn. destruct (current_pid (sk y) core) as [k1 [caller|]] eqn:Hc;
    apply kcaps_current_pid in Hc; [|intros [= <- <-]; by apply delegated_kcaps].
  destruct (find_program _ _) as [y1 [bytes|e]] eqn:Hf; apply find_program_sk in Hf; simpl in Hf.
  - rewrite Hf. destruct (spawn_from _ _ _ _) as [[k2 x]|] eqn:Hs; [|done]. intros [= <- <-].
    eapply delegated_trans_l; [exact Hc|]. by eapply delegated_spawn_from.
  - intros [= <- <-]. apply delegated_kcaps. by rewrite Hf.
Qed.

Lemma kcaps_process_start k core frame k' r : sys_process_start k core frame = (k', r) -> kcaps k k'.
Proof.
  unfold sys_process_start. destruct (current_pid k core) as [k1 [caller|]] eqn:Hc;
    apply kcaps_current_pid in Hc; [|by intros [= <- <-]].
  pose proof (caps_start_child (ksched k1) (mkPid (rdi frame)) caller) as Hs.
  destruct (start_child _ _ _) as [s x]. intros [= <- <-]. by etrans; [|exact Hs].
Qed.

Lemma kcaps_sbrk k core frame k' r : sys_sbrk W k core frame = Ret (k', r) -> kcaps k k'.
Proof.
  unfold sys_sbrk. destruct (with_current k core _) as [k1 x] eqn:Hw.
  apply kcaps_with_current in Hw; [|done].
  destruct (default (Err InvalidTarget) x) as [plan|e]; [|by intros [= <- <-]].
  destruct (grow_heap _ _ _ _) as [[m [[]|e]]|]; [| |done].
  - destruct (with_current _ core _) as [k2 z] eqn:Hw2. apply kcaps_with_current in Hw2; [|done].
    intros [= <- <-]. etrans; [exact Hw|]. etrans; [|exact Hw2]. by apply kcaps_same.
  - intros [= <- <-]. etrans; [exact Hw|]. by apply kcaps_same.
Qed.

Lemma kcaps_block_read y core frame y' r :
  sys_block_read y core frame = Ret (y', r) -> kcaps (sk y) (sk y').
Proof.
  unfold sys_block_read. case_decide; [by intros [= <- <-]|].
  destruct (storage_cap _ _ _ _) as [k1 [pml4|e]] eqn:Hs; apply kcaps_storage in Hs;
    [|by intros [= <- <-]].
  destruct (validate_write_range _ _ _ _) as [[z|e]|]; [| |done]; [|by intros [= <- <-]].
  unfold device_read. destruct (sys_device _) as [d|]; [|by intros [= <- <-]].
  destruct (read_sectors d _ _) as [d' [bs|e]]; [|by destruct e; intros [= <- <-]].
  cbn [sk set_device set_sk]. destruct (copy_into_user_range _ _ _ _) as [m|]; [|done].
  intros [= <- <-]. etrans; [exact Hs|]. by apply kcaps_same.
Qed.

Lemma kcaps_file_read y core frame y' r :
  sys_file_read y core frame = Ret (y', r) -> kcaps (sk y) (sk y').
Proof.
  unfold sys_file_read.
  destruct (storage_cap _ _ _ _) as [k1 [pml4|e]] eqn:Hs; apply kcaps_storage in Hs;
    [|by intros [= <- <-]].
  destruct (validate_write_range _ _ _ _) as [[z|e]|]; [| |done]; [|by intros [= <- <-]].
  destruct (with_root _ _) as [y1 [[data|e]|]] eqn:Hr; apply with_root_sk in Hr; simpl in Hr;
    [|intros [= <- <-]; by rewrite Hr..].
  destruct (copy_into_user_range _ _ _ _) as [m|]; [|done].
  intros [= <- <-]. etrans; [exact Hs|]. apply kcaps_same. cbn. by rewrite Hr.
Qed.

Lemma kcaps_sys_wait k core frame k' r : sys_wait W poll_fuel k core frame = Ret (k', r) -> kcaps k k'.
Proof.
  unfold sys_wait. destruct (current_pid k core) as [k1 [caller|]] eqn:Hc;
    apply kcaps_current_pid in Hc; [|by intros [= <- <-]].
  intros Hw%kcaps_wait_child. by etrans.
Qed.

Lemma kcaps_sys_kill rounds env k core frame k' r :
  (forall k, kcaps k (env k)) -> sys_kill W rounds env k core frame = Ret (k', r) -> kcaps k k'.
Proof.
  intros Henv. unfold sys_kill. destruct (current_pid k core) as [k1 [caller|]] eqn:Hc;
    apply kcaps_current_pid in Hc; [|by intros [= <- <-]].
  destruct (terminate_process _ _ _ _ _ _) as [[k2 x]|] eqn:Ht; [|done].
  apply kcaps_kill in Ht; [|done]. intros [= <- <-]. by etrans.
Qed.

(** C2: authority flows only by delegation.  Whatever system call a process
    makes, with whatever register contents, every capability held by any
    process afterwards was already held by some process for the same object
    with at least the same rights: no system call creates access to an object
    or widens rights.  ([env] is what other cores do while a kill spins, under
    the same restriction.) *)
Theorem authority_only_by_delegation (rounds : nat) (env : Kernel -> Kernel) (y y' : Sys D)
    (core : nat) (frame : TrapFrame) (res : Resume)
    (Henv : forall k, caps_from (ksched k) (ksched (env k)))
    (Hcall : syscall_dispatch W poll_fuel rounds env y core frame = Ret (y', res)) :
  forall o r, held (ksched (sk y')) o r ->
    exists r', held (ksched (sk y)) o r' /\ contains r' r = true.
Proof.
  change (delegated (sk y) (sk y')). unfold syscall_dispatch in Hcall.
  repeat match type of Hcall with (if decide ?c then _ else _) = _ => destruct (decide c) end;
    try (apply lift_Ret in Hcall as (k' & Hcall & <-)); try (injection Hcall as Hcall).
  all: try (apply delegated_kcaps; first
    [ by eapply kcaps_tick | by eapply kcaps_send | by eapply kcaps_recv | by eapply kcaps_exit
    | by eapply kcaps_process_start | by eapply kcaps_sys_wait | by eapply kcaps_sys_kill
    | by eapply kcaps_sbrk | by eapply kcaps_block_read | by eapply kcaps_file_read ]).
  - by eapply delegated_spawn.
  - by eapply delegated_grant.
  - apply delegated_kcaps. by subst y'.
Qed.
End syscalls.

(** ** A granting parent, for witnesses: the parent of [demo_s3] holds an
    endpoint with both rights and grants sending to its suspended child. *)
Definition demo_seed (cap : Z) (e : nat) (r : Z) (q : Process) : Process * unit :=
  (set_cap_table q (Cap.insert (cap_table q) (mkCapIndex cap) (mkCapSlot (OEndpoint e) (mkRights r))), tt).

Definition demo_sys (s : Sched) : Sys RamDisk := mkSys (demo_kernel s) None None [].

Definition demo_call (n vdi vsi vdx v10 : Z) : TrapFrame :=
  set_results (set_rax (demo_frame 0x400000) n) vdi vsi vdx v10.

Definition demo_granter : Sys RamDisk := demo_sys (fst (with_process demo_s3 demo_parent (demo_seed 0 7 3))).

Definition demo_grant_call : TrapFrame := demo_call SYS_GRANT (pid_raw demo_child) 0 3 1.

Definition demo_granted : Sys RamDisk * Resume :=
  or_else (demo_granter, RIdle None)
    (@syscall_dispatch 1 _ demo_x86 demo_selectors bitflags_ops _ 8 1 id demo_granter 0 demo_grant_call).

Lemma authority_only_by_delegation_witness :
  held (ksched (sk (fst demo_granted))) (OEndpoint 7) SEND /\
  exists r', held (ksched (sk demo_granter)) (OEndpoint 7) r' /\ @contains bitflags_ops r' SEND = true.
Proof.
  assert (@held (ksched (sk (fst demo_granted))) (OEndpoint 7) SEND) as Hheld.
  { eexists (mkCapTable [None; None; None; Some (mkCapSlot (OEndpoint 7) SEND)]), _.
    split; [exists 1%nat; eexists; split; vm_compute; reflexivity|].
    split; [apply list_elem_of_singleton; reflexivity|done]. }
  split; [exact Hheld|]. revert Hheld.
  apply (@authority_only_by_delegation 1 RamDisk demo_x86 demo_selectors bitflags_ops bitflags_laws _ 8
    1 id demo_granter (fst demo_granted) 0 demo_grant_call (snd demo_granted)).
  - intros k. reflexivity.
  - vm_compute. reflexivity.
Defined.
