(* ===== verification/UserMem.v ===== *)
(** * Writing into user memory

    [validate_write_range] and [copy_into_user_range] of
    [kernel/src/arch/x86_64/syscall.rs], the only code that writes through a
    pointer chosen by a process, and [SYS_BLOCK_READ] on top of them: the
    buffer receives exactly the bytes read, and no frame outside the caller's
    writable pages changes. *)
From S2P Require Import Prelude Abi CapTable Phys Virt Process Elf Sched SchedAbs SchedInv SchedExit.
From S2P Require Import SchedSteps SchedProps Kernel Handlers Block Fat Virtio Syscall.
Open Scope Z_scope.

(** What the page-table walk of the [x86_64] crate depends on: the table
    frames it visits.  [VirtAddr::new] returns the address it accepts. *)
Class PageWalk `{X86} := {
  tables : Mem -> Z -> list Z;
  walk_tables : forall m m' pml4, (forall f, f ∈ tables m pml4 -> ram m' !! f = ram m !! f) ->
    tables m' pml4 = tables m pml4 /\ forall a, translate m' pml4 a = translate m pml4 a;
  walk_address : forall a v, virt_addr_new a = Some v -> v = a;
}.

Section user.
Context `{X86} `{!PageWalk}.

(** The page at [p] of the process is the frame [f]. *)
Definition page_frame (m : Mem) (pml4 p f : Z) : Prop := exists fl, Virt.translate_in m pml4 p = Some (f, fl).

(** The pages of a buffer: ordinary frames, one per page, none of them a page
    table of the process. *)
Record buffer_ok (m : Mem) (pml4 : Z) (pages : list Z) : Prop := {
  bo_full : forall p f, p ∈ pages -> page_frame m pml4 p f -> length (frame_words (ram m) f) = 512%nat;
  bo_data : forall p f, p ∈ pages -> page_frame m pml4 p f -> f ∉ tables m pml4;
  bo_once : forall p p' f, p ∈ pages -> p' ∈ pages -> page_frame m pml4 p f -> page_frame m pml4 p' f -> p = p';
}.

(** The byte a process sees at an address. *)
Definition user_byte (m : Mem) (pml4 a : Z) : option Z :=
  match Virt.translate_in m pml4 (page_of a) with
  | Some (f, _) => frame_bytes (ram m) f !! Z.to_nat (a - page_of a)
  | None => None
  end.

(** ** Bytes of a frame *)
Lemma length_frame_bytes r f : length (frame_words r f) = 512%nat -> length (frame_bytes r f) = 4096%nat.
Proof.
  intros Hl. unfold frame_bytes. assert (forall ws, length (ws ≫= le_bytes 8) = (length ws * 8)%nat) as Hb.
  { induction ws as [|w ws IH]; [done|]. rewrite bind_cons, length_app, length_le_bytes, IH. simpl. lia. }
  rewrite Hb, Hl. done.
Qed.

Lemma is_bytes_frame r f : is_bytes (frame_bytes r f).
Proof.
  unfold frame_bytes. induction (frame_words r f) as [|w ws IH]; [constructor|].
  rewrite bind_cons. apply Forall_app. split; [apply is_bytes_le_bytes|exact IH].
Qed.

Lemma words_bytes n bs : length bs = (8 * n)%nat -> is_bytes bs -> words_of n bs ≫= le_bytes 8 = bs.
Proof.
  revert bs. induction n as [|n IH]; intros bs Hl Hb; [by destruct bs|].
  cbn [words_of]. rewrite bind_cons. rewrite <- (take_drop 8 bs) at 3. f_equal.
  - apply le_bytes_of_le_bytes_n; [rewrite length_take; lia|]. by apply Forall_take.
  - apply IH; [rewrite length_drop; lia|]. by apply Forall_drop.
Qed.

Lemma length_words_of n bs : length (words_of n bs) = n.
Proof. revert bs. induction n; intros bs; simpl; auto. Qed.

(** What one page of the buffer becomes. *)
Definition patch (off : nat) (bs old : list Z) : list Z := take off old ++ bs ++ drop (off + length bs) old.

Lemma store_frame_bytes m f off bs :
  length (frame_words (ram m) f) = 512%nat -> (off + length bs <= 4096)%nat -> is_bytes bs ->
  frame_bytes (ram (store_bytes m f off bs)) f = patch off bs (frame_bytes (ram m) f).
Proof.
  intros Hl Hle Hb. pose proof (length_frame_bytes _ _ Hl) as Hlen.
  unfold store_bytes, frame_bytes at 1, frame_words. cbn [ram set_ram].
  rewrite lookup_insert_eq. cbn [default from_option id]. apply words_bytes.
  - unfold patch. rewrite !length_app, length_take, length_drop. lia.
  - apply Forall_app. split; [apply Forall_take, is_bytes_frame|].
    apply Forall_app. split; [done|apply Forall_drop, is_bytes_frame].
Qed.

Lemma patch_in off bs old i b :
  (off <= length old)%nat -> bs !! i = Some b -> patch off bs old !! (off + i)%nat = Some b.
Proof.
  intros Hle Hi. pose proof (lookup_lt_Some _ _ _ Hi). unfold patch.
  rewrite lookup_app_r by (rewrite length_take; lia). rewrite length_take.
  rewrite lookup_app_l by lia. by replace (off + i - off `min` length old)%nat with i by lia.
Qed.

Lemma patch_out off bs old i :
  (off + length bs <= length old)%nat -> (i < off \/ off + length bs <= i)%nat -> patch off bs old !! i = old !! i.
Proof.
  intros Hle Hi. unfold patch. destruct (decide (i < off)%nat) as [Hlt|Hge].
  - rewrite lookup_app_l by (rewrite length_take; lia). by rewrite lookup_take_lt.
  - rewrite lookup_app_r by (rewrite length_take; lia). rewrite length_take.
    rewrite lookup_app_r by lia. rewrite lookup_drop. f_equal. lia.
Qed.

(** ** The pages of a range *)
Lemma elem_of_pages_below p addr limit :
  p ∈ pages_below addr limit <-> exists i, 0 <= i /\ p = addr + i * PAGE /\ p < limit.
Proof.
  unfold pages_below, PAGE. rewrite list_elem_of_fmap. setoid_rewrite elem_of_seq. split.
  - intros (i & -> & Hi). exists (Z.of_nat i). div_lia.
  - intros (i & Hi & -> & Hlt). exists (Z.to_nat i). split; [lia|]. div_lia.
Qed.

Lemma NoDup_pages_below addr limit : NoDup (pages_below addr limit).
Proof. apply NoDup_fmap_2_strong; [|apply NoDup_seq]. unfold PAGE. intros. lia. Qed.

Lemma page_of_range a ptr limit :
  ptr <= a < limit -> page_of a ∈ pages_below (page_of ptr) limit.
Proof.
  intros Ha. apply elem_of_pages_below. unfold page_of, PAGE. exists (a / 4096 - ptr / 4096).
  pose proof (Z.div_le_mono ptr a 4096). div_lia.
Qed.

Lemma pages_below_aligned p ptr limit :
  p ∈ pages_below (page_of ptr) limit -> page_of p = p /\ page_of ptr <= p < limit.
Proof.
  intros (i & Hi & -> & Hlt)%elem_of_pages_below. unfold page_of, PAGE in *.
  rewrite Z.div_add_l by lia. replace (ptr / 4096 * 4096) with (4096 * (ptr / 4096)) by lia. div_lia.
Qed.

(** ** Validation *)
Lemma validate_pages_ok m pml4 pages :
  validate_pages m pml4 pages = Ret (Ok tt) ->
  forall p, p ∈ pages -> virt_addr_new p = Some p /\
    exists f fl, Virt.translate_in m pml4 p = Some (f, fl) /\ Z.land fl required_flags = required_flags.
Proof.
  induction pages as [|q pages IH]; simpl; intros Hv p Hp; [by apply elem_of_nil in Hp|].
  unfold Elf.new_virt_addr in Hv. destruct (virt_addr_new q) as [v|] eqn:Hq; [|done]. simpl in Hv.
  pose proof (walk_address _ _ Hq) as ->.
  destruct (Virt.translate_in m pml4 q) as [[f fl]|] eqn:Ht; [|done]. case_decide; [done|].
  apply elem_of_cons in Hp as [->|Hp]; [|by apply IH]. split; [done|]. by exists f, fl.
Qed.

(** ** The copy, page by page *)
Definition first_byte (ptr p : Z) : nat := Z.to_nat (Z.max ptr p - p).
Definition page_chunk (ptr limit : Z) (src : list Z) (p : Z) : list Z :=
  take (Z.to_nat (Z.min limit (p + PAGE) - Z.max ptr p)) (drop (Z.to_nat (Z.max ptr p - ptr)) src).

(** What the copy does to memory, for the pages still to be copied. *)
Record copied (m m' : Mem) (pml4 ptr limit : Z) (src pages : list Z) : Prop := {
  cp_page : forall p f, p ∈ pages -> page_frame m pml4 p f ->
    frame_bytes (ram m') f = patch (first_byte ptr p) (page_chunk ptr limit src p) (frame_bytes (ram m) f);
  cp_else : forall f, (forall p, p ∈ pages -> ~ page_frame m pml4 p f) -> ram m' !! f = ram m !! f;
  cp_frames : frames m' = frames m /\ kernel_pml4 m' = kernel_pml4 m;
}.

Lemma page_chunk_fits ptr limit src p :
  p + PAGE > ptr -> (first_byte ptr p + length (page_chunk ptr limit src p) <= 4096)%nat.
Proof. intros. unfold first_byte, page_chunk, PAGE in *. rewrite length_take. lia. Qed.

Lemma store_ram_ne m f off bs g : g <> f -> ram (store_bytes m f off bs) !! g = ram m !! g.
Proof. intros Hne. unfold store_bytes. cbn [ram set_ram]. by rewrite lookup_insert_ne. Qed.

Lemma store_full m f off bs g :
  length (frame_words (ram m) g) = 512%nat -> length (frame_words (ram (store_bytes m f off bs)) g) = 512%nat.
Proof.
  intros Hg. unfold store_bytes, frame_words at 1. cbn [ram set_ram]. destruct (decide (g = f)) as [->|].
  - rewrite lookup_insert_eq. apply length_words_of.
  - by rewrite lookup_insert_ne.
Qed.

Lemma store_translate m pml4 f off bs a :
  f ∉ tables m pml4 -> Virt.translate_in (store_bytes m f off bs) pml4 a = Virt.translate_in m pml4 a.
Proof.
  intros Hf. unfold Virt.translate_in. rewrite (proj2 (walk_tables m _ pml4 ltac:(
    intros g Hg; apply store_ram_ne; intros ->; done))). done.
Qed.

Lemma store_tables m pml4 f off bs : f ∉ tables m pml4 -> tables (store_bytes m f off bs) pml4 = tables m pml4.
Proof. intros Hf. apply walk_tables. intros g Hg. apply store_ram_ne. by intros ->. Qed.

Lemma store_buffer_ok m pml4 f off bs pages :
  f ∉ tables m pml4 -> buffer_ok m pml4 pages -> buffer_ok (store_bytes m f off bs) pml4 pages.
Proof.
  intros Hf [Hfull Hdata Honce]. unfold page_frame in *.
  split; unfold page_frame; setoid_rewrite store_translate; try done.
  - intros p g Hp Hg. by apply store_full, (Hfull p).
  - intros p g Hp Hg. rewrite store_tables by done. by apply (Hdata p).
Qed.

Lemma buffer_ok_tail m pml4 p pages : buffer_ok m pml4 (p :: pages) -> buffer_ok m pml4 pages.
Proof. intros [? ? Ho]. split; intros; eauto using list_elem_of_further. Qed.

Lemma copy_pages_correct ptr limit src pml4 pages m :
  limit < 2 ^ 64 -> is_bytes src -> buffer_ok m pml4 pages -> NoDup pages ->
  (forall p, p ∈ pages -> virt_addr_new p = Some p /\ exists f, page_frame m pml4 p f) ->
  (forall p, p ∈ pages -> p + PAGE > ptr) ->
  exists m', copy_pages m pml4 ptr limit src pages = Ret m' /\ copied m m' pml4 ptr limit src pages.
Proof.
  intros Hlim Hsrc. revert m. induction pages as [|q pages IH]; intros m Hok Hnd Hval Hlow.
  { exists m. split; [done|]. split; [|done|done]. intros p f Hp. by apply elem_of_nil in Hp. }
  apply NoDup_cons in Hnd as [Hq Hnd].
  destruct (Hval q) as [Hv [f [fl Hf]]]; [left|].
  pose proof (bo_data _ _ _ Hok q f ltac:(left) (ex_intro _ fl Hf)) as Hdata.
  simpl. unfold Elf.new_virt_addr. rewrite Hv. simpl. rewrite Hf.
  replace (Z.min limit (Z.min (q + PAGE) (2 ^ 64 - 1))) with (Z.min limit (q + PAGE)) by lia.
  fold (page_chunk ptr limit src q) (first_byte ptr q).
  set (m1 := store_bytes _ _ _ _).
  destruct (IH m1) as (m' & Hc & [Hpage Helse Hfr]); try done.
  - by apply store_buffer_ok, (buffer_ok_tail _ _ q).
  - intros p Hp. destruct (Hval p) as [? [g Hg]]; [by right|]. split; [done|]. exists g.
    unfold page_frame, m1. by rewrite store_translate.
  - intros p Hp. apply Hlow. by right.
  - exists m'. split; [done|].
    assert (forall p g, page_frame m1 pml4 p g <-> page_frame m pml4 p g) as Hpf
      by (intros p g; unfold page_frame, m1; by rewrite store_translate).
    assert (forall p, p ∈ pages -> ~ page_frame m pml4 p f) as Hfresh.
    { intros p Hp Hpg. apply Hq. rewrite (bo_once _ _ _ Hok q p f); first done; [left|by right| |done]. by exists fl. }
    split; [| |by rewrite (proj1 Hfr), (proj2 Hfr)].
    + intros p g [->|Hp]%elem_of_cons Hg.
      * assert (g = f) as -> by (destruct Hg as [? Hg]; congruence).
        unfold frame_bytes, frame_words. rewrite Helse by (intros p Hp; rewrite Hpf; by apply Hfresh).
        apply (store_frame_bytes m f); [by apply (bo_full _ _ _ Hok q); [left|exists fl]| |].
        -- apply page_chunk_fits, Hlow. left.
        -- by apply Forall_take, Forall_drop.
      * rewrite (Hpage p g) by (done || by apply Hpf). f_equal. unfold frame_bytes, frame_words, m1.
        rewrite store_ram_ne; [done|]. intros ->. by apply (Hfresh p).
    + intros g Hg. rewrite Helse; [|intros p Hp; rewrite Hpf; apply Hg; by right].
      apply store_ram_ne. intros ->. apply (Hg q); [left|by exists fl].
Qed.

(** ** A whole buffer *)

(** The process whose top table is [pml4] sees [src] at [ptr]; the other bytes
    of those pages are as before, only frames behind pages the process itself
    may write changed, and the process's mappings are as before. *)
Record delivered (m m' : Mem) (pml4 ptr : Z) (src : list Z) : Prop := {
  dl_inside : forall i b, src !! i = Some b -> user_byte m' pml4 (ptr + Z.of_nat i) = Some b;
  dl_outside : forall a, page_of a ∈ pages_below (page_of ptr) (ptr + Z.of_nat (length src)) ->
    a < ptr \/ ptr + Z.of_nat (length src) <= a -> user_byte m' pml4 a = user_byte m pml4 a;
  dl_frames : forall f, ram m' !! f <> ram m !! f -> exists p fl,
    p ∈ pages_below (page_of ptr) (ptr + Z.of_nat (length src)) /\
    Virt.translate_in m pml4 p = Some (f, fl) /\ Z.land fl required_flags = required_flags;
  dl_walk : forall a, Virt.translate_in m' pml4 a = Virt.translate_in m pml4 a;
}.

Lemma copied_translate m m' pml4 ptr limit src pages a :
  buffer_ok m pml4 pages -> copied m m' pml4 ptr limit src pages ->
  Virt.translate_in m' pml4 a = Virt.translate_in m pml4 a.
Proof.
  intros Hok Hc. unfold Virt.translate_in. rewrite (proj2 (walk_tables m m' pml4 ltac:(
    intros f Hf; apply (cp_else _ _ _ _ _ _ _ Hc); intros p Hp Hpf; by apply (bo_data _ _ _ Hok p f)))). done.
Qed.

Lemma page_chunk_lookup ptr src i b p :
  src !! i = Some b -> p = page_of (ptr + Z.of_nat i) ->
  let limit := ptr + Z.of_nat (length src) in
  page_chunk ptr limit src p !! Z.to_nat (ptr + Z.of_nat i - Z.max ptr p) = Some b.
Proof.
  intros Hi -> limit. pose proof (lookup_lt_Some _ _ _ Hi). unfold page_chunk, page_of, PAGE, limit in *.
  assert (0 <= ptr + Z.of_nat i - (ptr + Z.of_nat i) / 4096 * 4096 < 4096) by div_lia.
  rewrite lookup_take_lt by lia. rewrite lookup_drop.
  rewrite <- Hi. f_equal. lia.
Qed.

Lemma length_page_chunk ptr src p :
  let limit := ptr + Z.of_nat (length src) in
  p < limit -> p + PAGE > ptr ->
  Z.of_nat (length (page_chunk ptr limit src p)) = Z.min limit (p + PAGE) - Z.max ptr p \/ src = [].
Proof.
  intros limit Hlt Hgt. destruct src as [|x src]; [by right|left].
  unfold page_chunk. rewrite length_take, length_drop. unfold limit, PAGE in *. cbn [length] in *. lia.
Qed.

Lemma page_of_bounds a : page_of a <= a < page_of a + 4096.
Proof. unfold page_of, PAGE. div_lia. Qed.

(** The byte at an address of a copied page. *)
Lemma copied_byte m m' pml4 ptr limit src pages a f fl :
  buffer_ok m pml4 pages -> copied m m' pml4 ptr limit src pages -> page_of a ∈ pages ->
  Virt.translate_in m pml4 (page_of a) = Some (f, fl) ->
  length (frame_bytes (ram m) f) = 4096%nat /\
  user_byte m pml4 a = frame_bytes (ram m) f !! Z.to_nat (a - page_of a) /\
  user_byte m' pml4 a = patch (first_byte ptr (page_of a)) (page_chunk ptr limit src (page_of a))
    (frame_bytes (ram m) f) !! Z.to_nat (a - page_of a).
Proof.
  intros Hok Hc Hin Hf. unfold user_byte. rewrite (copied_translate _ _ _ _ _ _ _ _ Hok Hc), Hf.
  split; [|split; [done|by rewrite (cp_page _ _ _ _ _ _ _ Hc _ f Hin (ex_intro _ fl Hf))]].
  apply length_frame_bytes, (bo_full _ _ _ Hok _ f Hin). by exists fl.
Qed.

Lemma copied_delivered m m' pml4 ptr src :
  let limit := ptr + Z.of_nat (length src) in
  let pages := pages_below (page_of ptr) limit in
  buffer_ok m pml4 pages -> copied m m' pml4 ptr limit src pages ->
  (forall p, p ∈ pages -> exists f fl, Virt.translate_in m pml4 p = Some (f, fl) /\
    Z.land fl required_flags = required_flags) ->
  delivered m m' pml4 ptr src.
Proof.
  intros limit pages Hok Hc Hval.
  split; [| | |by intros a; apply (copied_translate _ _ _ _ _ _ _ a Hok Hc)].
  - intros i b Hi. pose proof (lookup_lt_Some _ _ _ Hi).
    assert (page_of (ptr + Z.of_nat i) ∈ pages) as Hin by (apply page_of_range; unfold limit; lia).
    destruct (Hval _ Hin) as (f & fl & Hf & _).
    destruct (copied_byte _ _ _ _ _ _ _ _ _ _ Hok Hc Hin Hf) as (Hlen & _ & ->).
    pose proof (page_of_bounds (ptr + Z.of_nat i)).
    assert (first_byte ptr (page_of (ptr + Z.of_nat i)) <= length (frame_bytes (ram m) f))%nat as Hfit
      by (rewrite Hlen; unfold first_byte; lia).
    rewrite <- (patch_in _ _ _ _ _ Hfit (page_chunk_lookup ptr src i b _ Hi eq_refl)).
    f_equal. unfold first_byte. lia.
  - intros a Hin Ha. destruct (Hval _ Hin) as (f & fl & Hf & _).
    destruct (copied_byte _ _ _ _ _ _ _ _ _ _ Hok Hc Hin Hf) as (Hlen & -> & ->).
    apply pages_below_aligned in Hin as [_ Hin]. pose proof (page_of_bounds a). pose proof (page_of_bounds ptr).
    assert (page_of a + PAGE > ptr) as Hgt by (unfold PAGE; lia).
    apply patch_out; [rewrite Hlen; by apply page_chunk_fits|].
    destruct (length_page_chunk ptr src (page_of a) ltac:(lia) Hgt) as [Hl|Hnil].
    2: { unfold page_chunk. rewrite Hnil, drop_nil, take_nil. cbn [length]. lia. }
    fold limit in Ha, Hl. unfold first_byte, PAGE in *. lia.
  - intros f Hf. destruct (decide (Exists (fun p => fst <$> Virt.translate_in m pml4 p = Some f) pages)) as [He|He].
    + apply Exists_exists in He as (p & Hp & He). destruct (Hval p Hp) as (g & fl & Hg & Hfl).
      rewrite Hg in He. simpl in He. simplify_eq. by exists p, fl.
    + destruct Hf. apply (cp_else _ _ _ _ _ _ _ Hc). intros p Hp [fl Hpf]. apply He, Exists_exists.
      exists p. by rewrite Hpf.
Qed.

Lemma pages_below_mono p addr l l' : l <= l' -> p ∈ pages_below addr l -> p ∈ pages_below addr l'.
Proof. rewrite !elem_of_pages_below. intros Hl (i & ? & ? & ?). exists i. split_and!; [done..|lia]. Qed.

Lemma buffer_ok_mono m pml4 pages pages' :
  (forall p, p ∈ pages -> p ∈ pages') -> buffer_ok m pml4 pages' -> buffer_ok m pml4 pages.
Proof. intros Hs [? ? ?]. split; eauto. Qed.

(** Copying into user memory.  After [validate_write_range] accepted the
    range [ptr .. ptr + len], [copy_into_user_range] of at most [len] bytes
    never panics, the process then reads exactly those bytes at [ptr], every
    other byte of the touched pages is unchanged, the only frames written are
    those behind pages the process maps present, writable and
    user-accessible, and no mapping changes. *)
Lemma copy_into_user_range_correct (m : Mem) (pml4 ptr len e : Z) (src : list Z)
    (Hvalid : validate_write_range m pml4 ptr len = Ret (Ok e))
    (Hbuf : buffer_ok m pml4 (pages_below (page_of ptr) (ptr + len)))
    (Hbytes : is_bytes src) (Hlen : Z.of_nat (length src) <= len) :
  exists m', copy_into_user_range m pml4 ptr src = Ret m' /\ delivered m m' pml4 ptr src.
Proof.
  unfold validate_write_range in Hvalid. destruct (checked_add64 ptr len) as [e'|] eqn:He; [|done].
  apply checked_add64_Some in He as [-> He].
  destruct (validate_pages m pml4 _) as [[[]|]|] eqn:Hp; try done. clear Hvalid.
  assert (forall p, p ∈ pages_below (page_of ptr) (ptr + Z.of_nat (length src)) ->
            p ∈ pages_below (page_of ptr) (ptr + len)) as Hsub by (intros p; apply pages_below_mono; lia).
  pose proof (buffer_ok_mono _ _ _ _ Hsub Hbuf) as Hok.
  destruct (copy_pages_correct ptr (ptr + Z.of_nat (length src)) src pml4 _ m ltac:(lia) Hbytes Hok
    (NoDup_pages_below _ _)) as (m' & Hcopy & Hc).
  - intros p Hin. destruct (validate_pages_ok _ _ _ Hp p (Hsub p Hin)) as (Hv & f & fl & Hf & _).
    split; [done|]. by exists f, fl.
  - intros p Hin. apply pages_below_aligned in Hin as [_ ?]. pose proof (page_of_bounds ptr). unfold PAGE. lia.
  - exists m'. split; [done|]. apply copied_delivered; [done..|].
    intros p Hin. destruct (validate_pages_ok _ _ _ Hp p (Hsub p Hin)) as (_ & Hv). done.
Qed.

End user.

(** ** Storage system calls *)
Section storage.
Context {D : Type} `{X86} `{!PageWalk} `{RightsOps} `{BlockDevice D}.
Context (wf : D -> Prop) (image : D -> Z -> list Z) `{!BlockLaws D wf image}.
Implicit Types (k : Kernel) (y : Sys D) (frame : TrapFrame).

(** The process running on [core] holds, at [cap], a capability for [o] with
    read rights, and [pml4] is its top table. *)
Definition caller_holds k (core : nat) (cap : CapIndex) (o : KernelObjectRef) (pml4 : Z) : Prop :=
  exists p b slot, current_of (ksched k) core = Some p /\ occupied (ksched k) p = Some b /\
    Cap.lookup (cap_table (box_process b)) cap READ = Ok slot /\ object slot = o /\
    pml4 = pml4_frame (address_space (box_process b)).

Lemma storage_cap_spec k core cap o :
  exists k' r, storage_cap k core cap o = (k', r) /\ kmem k' = kmem k /\
    (forall pml4, caller_holds k core cap o pml4 <-> r = Ok pml4).
Proof.
  unfold storage_cap, with_current, with_current_process, with_process, caller_holds.
  destruct (current_of (ksched k) core) as [p|] eqn:Hp.
  2: { do 2 eexists. split; [done|]. split; [done|]. naive_solver. }
  destruct (occupied (ksched k) p) as [b|] eqn:Hb.
  2: { do 2 eexists. split; [done|]. split; [done|]. naive_solver. }
  do 2 eexists. split; [done|]. split; [done|]. intros pml4. cbn [default from_option id].
  destruct (Cap.lookup _ _ _) as [slot|e] eqn:Hl; simpl; [|naive_solver congruence].
  case_decide; naive_solver congruence.
Qed.

(** Why [SYS_BLOCK_READ] refuses. *)
Inductive block_refused y (core : nat) frame : SyscallError -> Prop :=
| br_count : r10 frame = 0 \/ Z.of_nat MAX_SECTORS_PER_REQUEST < r10 frame ->
    block_refused y core frame InvalidArgument
| br_cap e : snd (storage_cap (sk y) core (mkCapIndex (as_u32 (rdi frame))) OBlockDevice) = Err e ->
    (forall pml4, ~ caller_holds (sk y) core (mkCapIndex (as_u32 (rdi frame))) OBlockDevice pml4) ->
    block_refused y core frame e
| br_range pml4 e : caller_holds (sk y) core (mkCapIndex (as_u32 (rdi frame))) OBlockDevice pml4 ->
    validate_write_range (kmem (sk y)) pml4 (rdx frame) (r10 frame * 512) = Ret (Err e) ->
    block_refused y core frame e
| br_none : sys_device y = None -> block_refused y core frame IoError
| br_device d x : sys_device y = Some d ->
    snd (read_sectors d (rsi frame) (Z.to_nat (r10 frame * 512))) = Err x ->
    block_refused y core frame (if decide (x = OutOfRange) then IoOutOfRange else IoError).

Lemma validate_total m pml4 ptr len :
  (forall p, p ∈ pages_below (page_of ptr) (ptr + len) -> is_Some (virt_addr_new p)) ->
  exists r, validate_write_range m pml4 ptr len = Ret r.
Proof.
  intros Hc. unfold validate_write_range. destruct (checked_add64 ptr len) as [e|] eqn:He; [|by eexists].
  apply checked_add64_Some in He as [-> _].
  assert (exists r, validate_pages m pml4 (pages_below (page_of ptr) (ptr + len)) = Ret r) as [r ->]; [|by eexists].
  induction (pages_below (page_of ptr) (ptr + len)) as [|p pages IH]; [by eexists|]. simpl.
  unfold Elf.new_virt_addr. destruct (Hc p) as [v ->]; [left|]. simpl.
  destruct (Virt.translate_in m pml4 v) as [[]|]; [|by eexists]. case_decide; [by eexists|].
  apply IH. intros q Hq. apply Hc. by right.
Qed.

Lemma is_bytes_image_range d lba n : is_bytes (image_range (image d) lba n).
Proof.
  unfold image_range. apply Forall_bind, Forall_forall. intros i _. apply (image_sector d).
Qed.

Lemma is_bytes_file v d name data : Fat.is_file v (image d) name data -> is_bytes data.
Proof.
  intros (n & first & size & _ & _ & [[_ ->]|(_ & chain & _ & _ & ->)]); [constructor|].
  apply Forall_take, Forall_bind, Forall_forall. intros c _. apply is_bytes_image_range.
Qed.

End storage.

(** ** A reading process, for witnesses: one writable page at 0x10000 backed
    by the frame 0x5000, and read capabilities for the disk and the volume. *)
#[global] Instance demo_walk : @PageWalk demo_x86.
Proof.
  refine (@Build_PageWalk demo_x86 (fun _ pml4 => [- pml4 - 1]) _ _).
  - intros m m' pml4 Hf. split; [done|]. intros a. simpl. rewrite Hf; [done|left].
  - intros a v. simpl. destruct (demo_canonical a); congruence.
Defined.

Definition demo_give (o : KernelObjectRef) (q : Process) : Process * unit :=
  (set_cap_table q (Cap.insert (cap_table q) (mkCapIndex 0) (mkCapSlot o READ)), tt).

Definition demo_reader (o : KernelObjectRef) : Sys RamDisk :=
  let k := demo_kernel (fst (with_process demo_s3 demo_parent (demo_give o))) in
  mkSys (set_mem k (set_ram (kmem k) (<[- 0x1000 - 1 := [0x10000; 0x5000; 7]]> (ram (kmem k)))))
    (Some demo_disk) (Some demo_volume) [].

Definition demo_block_call : TrapFrame :=
  set_results (demo_frame 0x400000) 0 3 0x10010 1.

Lemma demo_buffer_ok o ptr len :
  pages_below (page_of ptr) (ptr + len) = [0x10000] ->
  @buffer_ok demo_x86 demo_walk (kmem (sk (demo_reader o))) 0x1000 (pages_below (page_of ptr) (ptr + len)).
Proof.
  intros ->. assert (forall p f, p ∈ [0x10000] -> @page_frame demo_x86 (kmem (sk (demo_reader o))) 0x1000 p f ->
    p = 0x10000 /\ f = 0x5000) as Hone.
  { intros p f ->%list_elem_of_singleton [fl Hf]. vm_compute in Hf. by simplify_eq. }
  split.
  - intros p f Hp Hf. destruct (Hone p f Hp Hf) as [-> ->]. reflexivity.
  - intros p f Hp Hf. destruct (Hone p f Hp Hf) as [-> ->]. vm_compute. intros Hin.
    apply list_elem_of_singleton in Hin. done.
  - intros p p' f Hp Hp' _ _. apply list_elem_of_singleton in Hp, Hp'. congruence.
Qed.

Lemma demo_caller o cap pml4 :
  @caller_holds bitflags_ops (sk (demo_reader o)) 0 cap o pml4 -> pml4 = 0x1000.
Proof.
  intros (p & b & slot & Hp & Hb & _ & _ & ->). vm_compute in Hp. injection Hp as <-.
  vm_compute in Hb. by injection Hb as <-.
Qed.

Definition demo_read_result : Sys RamDisk * Resume :=
  or_else (demo_reader OBlockDevice, RIdle None)
    (@sys_block_read _ demo_x86 bitflags_ops _ (demo_reader OBlockDevice) 0 demo_block_call).


(** "HELLO.TXT" into ten bytes. *)
Definition demo_file_call : TrapFrame :=
  let '(lo, hi, len) := pack_short_name [104; 101; 108; 108; 111; 46; 116; 120; 116] in
  mkFrame 0 0 0 0 0 len 10 0x10010 0 0 lo hi 0 0 SYS_FILE_READ 0x400000 0 0x202 0 0.

Definition demo_file_result : Sys RamDisk * Resume :=
  or_else (demo_reader OFsRoot, RIdle None)
    (@sys_file_read _ demo_x86 bitflags_ops _ (demo_reader OFsRoot) 0 demo_file_call).

