(* ===== verification/SchedFrame.v ===== *)
(** * What a scheduler step leaves alone

    Frame properties of the critical sections of [task/scheduler.rs], used to
    reason about several cores: how table slots evolve ([evolves]: a slot
    changes its process only by being freed, reserved and filled again), what
    a finalization touches ([fades]), what a switch writes
    ([switch_to_effect]), and that a slot whose kernel stack is marked busy
    stays unused ([parked]). *)
From S2P Require Import Prelude Abi Ring CapTable Virt Process Sched SchedAbs SchedInv SchedExit SchedSteps.
From S2P Require Import SchedProps.
Open Scope nat_scope.

(** ** How the process table evolves *)

(** A slot that holds, or is about to hold, a process. *)
Definition kind (x : Slot) : option (option Ident) :=
  match x with
  | Occupied b => Some (Some (box_ident b))
  | Reserved => Some None
  | _ => None
  end.

(** No slot gains a process or a reservation, and none changes its process. *)
Definition calm (s s' : Sched) : Prop :=
  forall i x', processes (inner s') !! i = Some x' -> kind x' <> None ->
    exists x, processes (inner s) !! i = Some x /\ kind x = kind x'.

#[global] Instance calm_preorder : PreOrder calm.
Proof.
  split; [intros s i x Hx _; by exists x|].
  intros s1 s2 s3 H12 H23 i x3 H3 Hk3. destruct (H23 i x3 H3 Hk3) as (x2 & H2 & Hk2).
  destruct (H12 i x2 H2) as (x1 & H1 & Hk1); [congruence|]. exists x1. split; [done|congruence].
Qed.

Lemma calm_same s s' : processes (inner s') = processes (inner s) -> calm s s'.
Proof. intros Heq i x Hx _. exists x. by rewrite <- Heq. Qed.

Lemma calm_put s i x y :
  processes (inner s) !! i = Some y -> kind x = None \/ kind x = kind y -> calm s (put_slot s i x).
Proof.
  intros Hy Hx j z. rewrite procs_put_slot.
  intros [(<- & -> & _)|[_ Hz]]%list_lookup_insert_Some Hk; [|by exists z].
  exists y. split; [done|]. destruct Hx; congruence.
Qed.

(** Writing back a control block that kept its identity and address space. *)
Lemma calm_put_box s i b q :
  processes (inner s) !! i = Some (Occupied b) -> pid q = pid (box_process b) ->
  address_space q = address_space (box_process b) ->
  calm s (put_slot s i (Occupied (mkBox (box_slot b) q))).
Proof.
  intros Hb Hp Ha. eapply calm_put; [done|]. right. unfold kind, box_ident. simpl. by rewrite Hp, Ha.
Qed.

Lemma calm_put_out s i x : kind x = None -> calm s (put_slot s i x).
Proof.
  intros Hx j z. rewrite procs_put_slot.
  intros [(<- & -> & _)|[_ Hz]]%list_lookup_insert_Some Hk; [done|by exists z].
Qed.

Lemma calm_notify s : calm s (notify_idle_cores s).
Proof. apply calm_same. by rewrite procs_notify. Qed.

Lemma calm_push s p : calm s (ready_push s p).
Proof. by apply calm_same. Qed.

Lemma calm_set_current s c p : calm s (set_current s c p).
Proof. by apply calm_same. Qed.

Lemma calm_pop s s' o : ready_pop s = (s', o) -> calm s s'.
Proof. intros Hp. apply calm_same. by apply (ready_pop_same _ _ _ Hp). Qed.

Lemma calm_block s core f s' : block_current_process_locked s core f = Ret s' -> calm s s'.
Proof.
  unfold block_current_process_locked. destruct (current_of s core) as [p|]; [|by intros [= <-]].
  destruct (index_or_panic _ _) as [x|] eqn:Hx; [|done]. apply index_or_panic_Ret in Hx.
  destruct x as [| |b|]; intros [= <-]; (etrans; [|apply calm_set_current]); try done.
  destruct (pending_wake _); [|by apply calm_put_box].
  etrans; [|apply calm_notify]. etrans; [|apply calm_push]. by apply calm_put_box.
Qed.

(** Finalizing only takes processes away: a core loses its current process
    only together with its table slot, and no hardware cell or stack flag is
    touched. *)
Record fades (s s' : Sched) : Prop := {
  fd_calm : calm s s';
  fd_busy : stack_busy s' = stack_busy s;
  fd_hw : hw s' = hw s;
  fd_current : forall c, current_of s' c = current_of s c \/
    current_of s' c = None /\ exists q, current_of s c = Some q /\
      forall b, processes (inner s') !! pid_index q <> Some (Occupied b);
}.

#[global] Instance fades_preorder : PreOrder fades.
Proof.
  split; [intros s; split; [done..|by left]|].
  intros s1 s2 s3 [C12 B12 H12 F12] [C23 B23 H23 F23].
  split; [by trans s2|congruence|congruence|]. intros c.
  destruct (F12 c) as [E12|(E12 & q & Hq & Hout)], (F23 c) as [E23|(E23 & q' & Hq' & Hout')].
  - left. congruence.
  - right. split; [done|]. exists q'. split; [congruence|done].
  - right. split; [congruence|]. exists q. split; [done|]. intros b Hb.
    destruct (C23 _ _ Hb ltac:(done)) as ([| |b2|] & Hb2 & Hk); try done. by apply (Hout b2).
  - congruence.
Qed.

(** Table writes and queue operations leave cores and hardware alone. *)
Lemma fades_put s i x y :
  processes (inner s) !! i = Some y -> kind x = None \/ kind x = kind y -> fades s (put_slot s i x).
Proof. intros Hy Hk. split; [by eapply calm_put|done..|by left]. Qed.

Lemma fades_put_out s i x : kind x = None -> fades s (put_slot s i x).
Proof. intros Hx. split; [by apply calm_put_out|done..|by left]. Qed.

Lemma fades_notify s : fades s (notify_idle_cores s).
Proof.
  destruct (notify_idle_cores_eq s) as [evs ->]. split; [by apply calm_same|done..|by left].
Qed.

Lemma fades_push s p : fades s (ready_push s p).
Proof. split; [apply calm_push|done..|by left]. Qed.

Lemma fades_wake s p r : fades s (wake_blocked_process_locked s p r).
Proof.
  unfold wake_blocked_process_locked. destruct (occupied s p) as [b|] eqn:Hb; [|done].
  apply occupied_lookup in Hb. case_bool_decide; [eapply fades_put; [done|by right]|].
  etrans; [|apply fades_notify]. etrans; [|apply fades_push]. eapply fades_put; [done|by right].
Qed.

Lemma fades_clear_current s p :
  (forall b, processes (inner s) !! pid_index p <> Some (Occupied b)) ->
  fades s (clear_current_everywhere s p).
Proof.
  unfold clear_current_everywhere. generalize (seq 0 MAX_CORES) as l. intros l. revert s.
  induction l as [|c l IH]; intros s Hout; [done|]. cbn [foldl]. case_decide as Hc; [|by apply IH].
  etrans; [|by apply IH]. split; [apply calm_set_current|done|done|]. intros c'.
  unfold current_of, set_current. cbn [current inner record_dispatch_trace set_traces set_percpu
    set_inner set_currents].
  destruct (decide (c' = c)) as [->|Hne]; [|left; by rewrite list_lookup_insert_ne by done].
  right. split; [|exists p; split; [exact Hc|exact Hout]].
  destruct (<[c:=None]> _ !! c) as [x|] eqn:Hx; [|done].
  by apply list_lookup_insert_Some in Hx as [(_ & <- & _)|[? _]].
Qed.

Lemma fades_reap (f : finalizer) exiting st l st' :
  (forall s p status d s' d', f s p status d = Ret (s', d') -> fades s s') ->
  reap_loop f exiting st l = Ret st' -> fades (fst st) (fst st').
Proof.
  intros Hf. revert st. induction l as [|i l IH]; intros [s d] Hr; cbn [reap_loop] in Hr.
  { by injection Hr as <-. }
  destruct (reap_one f exiting (s, d) i) as [st1|] eqn:H1; [|done].
  etrans; [|by apply IH]. clear IH Hr. unfold reap_one, proc_at in H1. cbn [fst].
  destruct (processes (inner s) !! i) as [[| |b|par status]|] eqn:Hi; try by injection H1 as <-.
  - destruct (_ && _); [destruct st1; by eapply Hf|].
    destruct (bool_decide _); injection H1 as <-; [|done]. eapply fades_put; [done|by right].
  - case_decide; injection H1 as <-; [|done]. by apply fades_put_out.
Qed.

Lemma fades_finalize fuel s p status d s' d' :
  take_and_finalize_slot fuel s p status d = Ret (s', d') -> fades s s'.
Proof.
  revert s p status d s' d'. induction fuel as [|fuel IH]; intros s p status d s' d' Hr; [done|].
  cbn [take_and_finalize_slot] in Hr.
  destruct (index_or_panic _ _) as [[| |b|]|] eqn:Hx; try done; try by injection Hr as <- <-.
  destruct (reap_loop _ _ _ _) as [[s1 d1]|] eqn:Hl; [|done]. injection Hr as <- <-.
  apply fades_reap in Hl; [|exact IH]. cbn [fst] in Hl. etrans; [|exact Hl]. clear Hl.
  trans (put_slot s (pid_index p) Empty); [by apply fades_put_out|].
  trans (remove_from_ready_queue (put_slot s (pid_index p) Empty) p).
  { split; [by apply calm_same|done..|by left]. }
  trans (clear_current_everywhere (remove_from_ready_queue (put_slot s (pid_index p) Empty) p) p).
  { apply fades_clear_current. intros b'. cbn [inner remove_from_ready_queue set_inner set_ready processes].
    by intros [(_ & ? & _)|[? _]]%list_lookup_insert_Some. }
  destruct (wait_waiter _); [apply fades_wake|]. destruct (parent _); [by apply fades_put_out|done].
Qed.

Section dispatch.
Context `{Selectors}.

(** The top of the kernel stack of a table slot. *)
Definition stack_top (i : nat) : Z :=
  (KERNEL_STACKS_BASE + Z.of_nat i * KERNEL_STACK_SLOT_STRIDE + (1 + KERNEL_STACK_PAGES) * 4096)%Z.

Lemma stack_top_inj i j : stack_top i = stack_top j -> i = j.
Proof. unfold stack_top, KERNEL_STACK_SLOT_STRIDE, KERNEL_STACK_PAGES. lia. Qed.

(** What a switch changes. *)
Lemma switch_to_effect s core p s' x :
  switch_to s core p = Ret (s', x) ->
  calm s s' /\ stack_busy s' = stack_busy s /\
  current (inner s') = <[core := Some p]> (current (inner s)) /\
  exists b, processes (inner s') !! pid_index p = Some (Occupied b) /\ pid (box_process b) = p /\
    kernel_rsp_slots (hw s') = <[core := stack_top (pid_index p)]> (kernel_rsp_slots (hw s)) /\
    rsp0 (hw s') = <[core := stack_top (pid_index p)]> (rsp0 (hw s)) /\
    cr3 (hw s') = <[core := pml4_frame (address_space (box_process b))]> (cr3 (hw s)).
Proof.
  unfold switch_to. intros Hs. destruct (negb _); [|done]. destruct (bool_decide _); [|done].
  destruct (index_or_panic (generations _) _); [|done]. destruct (_ =? _)%Z; [|done].
  destruct (index_or_panic (processes _) _) as [x0|] eqn:Hx; [|done]. apply index_or_panic_Ret in Hx.
  destruct x0 as [| |b|]; try done.
  destruct (bool_decide (pid (box_process b) = p)) eqn:Hp; [|done]. apply bool_decide_eq_true in Hp.
  repeat match type of Hs with (if ?c then _ else _) = _ => destruct c; [|done] end.
  injection Hs as <- _. split; [|split; [done|split; [done|]]].
  - etrans; [apply (calm_set_current s core (Some p))|]. by apply (calm_put_box _ _ b).
  - eexists. cbn [inner set_hw processes]. rewrite procs_put_slot, list_lookup_insert_eq;
      [|by apply lookup_lt_Some in Hx]. split; [done|]. split; [exact Hp|].
    cbn [hw set_hw kernel_rsp_slots rsp0 cr3 hw_set_syscall_stack hw_set_kernel_stack hw_activate
         box_process address_space set_state].
    unfold kernel_stack_top, kernel_stack_slot_base. cbn [pid set_state]. rewrite Hp. done.
Qed.
End dispatch.

(** Besides calm changes, a free slot whose stack is not in use is reserved
    and a reserved slot is filled. *)
Definition evolves (s s' : Sched) : Prop :=
  forall i x', processes (inner s') !! i = Some x' -> kind x' <> None ->
    (exists x, processes (inner s) !! i = Some x /\ kind x = kind x') \/
    (processes (inner s) !! i = Some Empty /\ stack_busy s !! i <> Some true) \/
    processes (inner s) !! i = Some Reserved.

Lemma calm_evolves s s' : calm s s' -> evolves s s'.
Proof. intros Hc i x' Hx Hk. left. by apply Hc. Qed.

Section steps.
Context `{Selectors}.

Lemma calm_dispatch s core s' r : dispatch_next s core = Ret (s', r) -> calm s s'.
Proof.
  unfold dispatch_next. destruct (ready_pop s) as [s1 [next|]] eqn:Hp; apply calm_pop in Hp.
  - destruct (switch_to s1 core next) as [[s2 [[i a] b]]|] eqn:Hs; [|done]. intros [= <- <-].
    apply switch_to_effect in Hs as [Hc _]. etrans; [exact Hp|]. etrans; [exact Hc|].
    apply calm_same. unfold maybe_print_switch. by case_decide.
  - intros [= <- <-]. exact Hp.
Qed.

Lemma calm_preempt s core f s' : preempt_current s core f = Ret s' -> calm s s'.
Proof.
  unfold preempt_current. destruct (current_of s core) as [p|]; [|by intros [= <-]].
  destruct (index_or_panic _ _) as [x|] eqn:Hx; [|done]. apply index_or_panic_Ret in Hx.
  destruct x as [| |b|]; intros [= <-]; try by apply calm_same.
  etrans; [|apply calm_push]. etrans; [|by apply (calm_put_box _ _ b)]. by apply calm_same.
Qed.

Lemma tick_unfold s core f :
  on_timer_tick_locked s core f = let! s1 := preempt_current s core f in dispatch_next s1 core.
Proof. reflexivity. Qed.

Lemma calm_tick s core f s' r : on_timer_tick_locked s core f = Ret (s', r) -> calm s s'.
Proof.
  rewrite tick_unfold. destruct (preempt_current s core f) as [s1|] eqn:Hp; [|done].
  intros Hd%calm_dispatch. etrans; [by eapply calm_preempt|exact Hd].
Qed.

Lemma evolves_spawned s q s' b :
  processes (inner s) !! pid_index (pid q) = Some Reserved ->
  processes (inner s') = <[pid_index (pid q) := Occupied b]> (processes (inner s)) -> evolves s s'.
Proof.
  intros Hr Hs' i x'. rewrite Hs'.
  intros [(<- & <- & _)|[_ Hx]]%list_lookup_insert_Some _; [by right; right|left; by exists x'].
Qed.

Lemma box_new_procs s q s' b :
  process_box_new s q = Ret (s', b) -> processes (inner s') = processes (inner s) /\
    stack_busy s' = stack_busy s.
Proof.
  unfold process_box_new, alloc_process_slot. destruct (position _ _); [|done]. by intros [= <- <-].
Qed.

Lemma step_evolves s s' : sched_step s s' -> inv s -> evolves s s'.
Proof.
  intros Hst Hinv. destruct Hst as
    [s i id|s|s p|s q s' r Hf Hs|s q s' r Hf Hs|s t c Ht|R s p f Hf|s core fr s' r Hc Hs|s core s' r Hc Hn Hs
    |s p r Hp|s core fr s' Hc Hs|s core fr t c s' r Hc Hp Hs|s core p st s' d Hp Hs|s t s' d o Hp Hg Hs
    |s core t|s core s' r Hc Hs|s i s' Hs|s i s' Hs|s slot|s core v|s t k];
    try (apply calm_evolves, calm_same; reflexivity).
  - destruct (allocate_pid_cases s Hinv) as [(i & g & -> & _ & _ & He & Hb & _)|[-> _]].
    2: by apply calm_evolves.
    intros j x'. cbn [fst]. rewrite procs_put_slot.
    intros [(<- & <- & _)|[_ Hx]]%list_lookup_insert_Some _; [by right; left|left; by exists x'].
  - apply calm_evolves. unfold release_reservation. destruct (pid_current_generation s p); [|done].
    destruct (proc_at s (pid_index p)) as [[]|]; try done. by apply calm_put_out.
  - destruct Hf as [Hslot _ _ _ _]. unfold spawn in Hs. case_decide; [by injection Hs as <- <-; apply calm_evolves|].
    destruct (process_box_new s q) as [[s1 b]|] eqn:Hb; [|done]. apply box_new_procs in Hb as [Hb _].
    injection Hs as <- <-. apply (evolves_spawned s q _ b Hslot). rewrite procs_notify. simpl. by rewrite Hb.
  - destruct Hf as [Hslot _ _ _ _]. unfold spawn_suspended in Hs.
    case_decide; [by injection Hs as <- <-; apply calm_evolves|].
    destruct (process_box_new s q) as [[s1 b]|] eqn:Hb; [|done]. apply box_new_procs in Hb as [Hb _].
    injection Hs as <- <-. apply (evolves_spawned s q _ b Hslot). simpl. by rewrite Hb.
  - apply calm_evolves. unfold start_child. destruct (occupied s t) as [b|] eqn:Hb; [|done].
    apply occupied_lookup in Hb. destruct (_ || _); [done|]. cbn [fst].
    etrans; [|apply calm_notify]. etrans; [|apply calm_push]. by apply calm_put_box.
  - apply calm_evolves. unfold with_process. destruct (occupied s p) as [b|] eqn:Hb; [|done].
    apply occupied_lookup in Hb. destruct (Hf (box_process b)) as (H1 & _ & _ & H4).
    destruct (f (box_process b)) as [q r]. by apply calm_put_box.
  - by eapply calm_evolves, calm_tick.
  - by eapply calm_evolves, calm_dispatch.
  - apply calm_evolves, fd_calm, fades_wake.
  - by eapply calm_evolves, calm_block.
  - apply calm_evolves. unfold wait_for_child_locked, proc_at in Hs.
    destruct (negb _); [by injection Hs as <- <-|].
    destruct (processes (inner s) !! pid_index t) as [[| |b|par st]|] eqn:Hi; try by injection Hs as <- <-.
    + case_decide; [|by injection Hs as <- <-].
      destruct (block_current_process_locked _ core fr) eqn:Hb; [|done].
      injection Hs as <- <-. etrans; [|eapply calm_block, Hb]. by apply calm_put_box.
    + case_decide; [|by injection Hs as <- <-]. destruct (to_regs st). injection Hs as <- <-.
      by apply calm_put_out.
  - by eapply calm_evolves, fd_calm, fades_finalize.
  - apply calm_evolves. unfold kill_scan in Hs. destruct (position _ _); [by injection Hs as <- <- <-|].
    destruct (finalize_slot s t Killed) as [[s1 d1]|] eqn:Hf; [|done]. injection Hs as <- <- <-.
    by eapply fd_calm, fades_finalize.
  - apply calm_evolves. unfold reschedule_ipi_locked in Hs.
    destruct (_ || _); [by injection Hs as <- <-; apply calm_same|].
    unfold mark_stack_busy in Hs. destruct (index_or_panic _ _); [|done]. injection Hs as <- <-.
    by apply calm_same.
  - apply calm_evolves. unfold mark_stack_busy in Hs. destruct (index_or_panic _ _); [|done].
    injection Hs as <-. by apply calm_same.
  - apply calm_evolves. unfold clear_stack_busy in Hs. destruct (index_or_panic _ _); [|done].
    injection Hs as <-. by apply calm_same.
Qed.

(** ** Slots whose stack is still in use *)

(** No core runs the slot's process and none will: the slot is free or holds
    an exit status, or its process was evicted and only waits to be killed. *)
Definition parked (s : Sched) (i : nat) : Prop :=
  match processes (inner s) !! i with
  | Some (Occupied b) => state (box_process b) = Running /\
      forall c, current_of s c <> Some (pid (box_process b))
  | Some Reserved | None => False
  | Some _ => True
  end.

(** No core starts running anything. *)
Definition no_start (s s' : Sched) : Prop :=
  forall c p, current_of s' c = Some p -> current_of s c = Some p.

Lemma no_start_same s s' : current (inner s') = current (inner s) -> no_start s s'.
Proof. intros Hc c p. by rewrite (current_of_eq s s' c Hc). Qed.

Lemma no_start_clear s c : no_start s (set_current s c None).
Proof.
  intros c' q. unfold current_of, set_current. simpl.
  destruct (<[c:=None]> _ !! c') as [o|] eqn:Ho; [|done].
  by apply list_lookup_insert_Some in Ho as [(_ & <- & _)|[_ ->]].
Qed.

Lemma fades_no_start s s' : fades s s' -> no_start s s'.
Proof. intros [_ _ _ Hc] c p Hp. destruct (Hc c) as [<-|[Hn _]]; [done|congruence]. Qed.

Lemma parked_same s s' i :
  no_start s s' -> processes (inner s') !! i = processes (inner s) !! i -> parked s i -> parked s' i.
Proof.
  unfold parked. intros Hc ->. destruct (processes (inner s) !! i) as [[]|]; try done.
  intros [Hst Hno]. split; [done|]. intros c Hp%Hc. by apply (Hno c).
Qed.

(** A slot is written with a value that is not a reservation and, where the
    slot holds a running process, leaves it running. *)
Lemma parked_put s s' i j x y :
  no_start s s' -> processes (inner s') = <[j := x]> (processes (inner s)) ->
  processes (inner s) !! j = Some y ->
  match x with
  | Occupied b' => exists b, y = Occupied b /\ pid (box_process b') = pid (box_process b) /\
      (state (box_process b) = Running ->
       state (box_process b') = Running \/ exists c, current_of s c = Some (pid (box_process b)))
  | Reserved => parked s i -> j <> i
  | _ => True
  end ->
  parked s i -> parked s' i.
Proof.
  intros Hc Hs' Hy Hx Hp. destruct (decide (j = i)) as [->|Hne].
  2: { apply (parked_same s); [done| |done]. by rewrite Hs', list_lookup_insert_ne. }
  unfold parked. rewrite Hs', list_lookup_insert_eq by (by eapply lookup_lt_Some).
  destruct x as [| |b'|]; [done|by destruct Hx| |done].
  destruct Hx as (b & -> & Hpid & Hrun). unfold parked in Hp. rewrite Hy in Hp.
  destruct Hp as [Hst Hno]. destruct (Hrun Hst) as [Hr|[c Hcc]]; [|by destruct (Hno c)].
  split; [done|]. intros c Hcc%Hc. rewrite Hpid in Hcc. by apply (Hno c).
Qed.

Lemma parked_block s core f s' i :
  inv s -> block_current_process_locked s core f = Ret s' -> parked s i -> parked s' i.
Proof.
  unfold block_current_process_locked. intros Hinv.
  destruct (current_of s core) as [p|] eqn:Hcur; [|by intros [= <-]].
  destruct (current_index s core p Hinv Hcur) as (_ & _ & b & Hb & Hpid).
  rewrite (proj2 (index_or_panic_Ret _ _ _) Hb). intros [= <-].
  intros Hp. eapply parked_same; [apply no_start_clear|reflexivity|].
  destruct (pending_wake _).
  - destruct (notify_idle_cores_eq (ready_push (put_slot s (pid_index p) (Occupied (mkBox (box_slot b)
      (apply_wake_result (set_pending_wake (set_state (set_trap_frame (box_process b) f) Blocked) None) w)))) p))
      as [evs ->].
    eapply (parked_put s _ i (pid_index p)); [by apply no_start_same|done|done| |done].
    exists b. split_and!; [done|done|]. intros _. right. exists core. by rewrite Hpid.
  - eapply (parked_put s _ i (pid_index p)); [by apply no_start_same|done|done| |done].
    exists b. split_and!; [done|done|]. intros _. right. exists core. by rewrite Hpid.
Qed.

Lemma parked_wake s p r i : parked s i -> parked (wake_blocked_process_locked s p r) i.
Proof.
  intros Hp. pose proof (fades_no_start _ _ (fades_wake s p r)) as Hns. revert Hns.
  unfold wake_blocked_process_locked. destruct (occupied s p) as [b|] eqn:Hb; [|done].
  apply occupied_lookup in Hb. case_bool_decide as Hst; intros Hns.
  - eapply (parked_put s _ i (pid_index p)); [done|done|done| |done].
    exists b. split_and!; [done|done|]. by left.
  - eapply (parked_put s _ i (pid_index p)); [done|by rewrite procs_notify|done| |done].
    exists b. split_and!; [done|done|]. congruence.
Qed.

Lemma ident_eq b b' : kind (Occupied b) = kind (Occupied b') ->
  pid (box_process b') = pid (box_process b) /\
  address_space (box_process b') = address_space (box_process b).
Proof. unfold kind, box_ident. by intros [= _ -> ->]. Qed.

Lemma parked_finalize s p status d s' d' n i :
  inv s -> inv s' -> take_and_finalize_slot n s p status d = Ret (s', d') ->
  ids s' !! pid_index p = Some None -> parked s i -> parked s' i.
Proof.
  intros Hinv Hinv' Hf Hout Hp. pose proof (fades_finalize _ _ _ _ _ _ _ Hf) as Hfd.
  pose proof (take_and_finalize_keeps _ _ _ _ _ _ _ Hf) as Hk.
  assert (is_Some (processes (inner s) !! i)) as Hlt.
  { unfold parked in Hp. by destruct (processes (inner s) !! i). }
  apply lookup_lt_is_Some in Hlt. rewrite inv_length in Hlt by done.
  rewrite <- (inv_length s' Hinv') in Hlt. apply lookup_lt_is_Some in Hlt as [x' Hx'].
  pose proof (fd_calm _ _ Hfd i x' Hx') as Hc. unfold parked in *. rewrite Hx'.
  destruct x' as [| |b'|]; [done| | |done];
    (destruct Hc as ([| |b|] & Hx & Hkind); [done|..]; try done).
  - by rewrite Hx in Hp.
  - rewrite Hx in Hp. destruct Hp as [Hst Hno]. apply ident_eq in Hkind as [Hpid _].
    assert (i <> pid_index p) as Hne.
    { intros ->. unfold ids in Hout. by rewrite list_lookup_fmap, Hx' in Hout. }
    destruct (proj1 (Hk i Hne) b Hx) as (b2 & Hb2 & _ & _ & Hst2); [by right|].
    rewrite Hx' in Hb2. injection Hb2 as <-. split; [congruence|].
    intros c Hcc%(fades_no_start _ _ Hfd). rewrite Hpid in Hcc. by apply (Hno c).
Qed.

(** The ready process a core switches to is not a parked one. *)
Lemma parked_dispatch s T G Q C core s' r i :
  aux s -> rep s T G Q C -> ainv T G Q (<[core := None]> C) -> core < MAX_CORES ->
  dispatch_next s core = Ret (s', r) -> parked s i -> parked s' i.
Proof.
  intros Ha Hrep HI Hcore Hd Hp. unfold dispatch_next in Hd. destruct Q as [|p Q].
  { destruct (rep_ready_pop_nil _ _ _ _ Hrep) as (s1 & Hpop & _). rewrite Hpop in Hd.
    injection Hd as <- <-. destruct (ready_pop_same _ _ _ Hpop) as [Hpr Hcu].
    apply (parked_same s); [by apply no_start_same|by rewrite Hpr|done]. }
  destruct (rep_ready_pop _ _ _ _ _ _ Hrep) as (s1 & Hpop & Hrep1). rewrite Hpop in Hd.
  destruct (ready_pop_same _ _ _ Hpop) as [Hpr Hcu].
  destruct (switch_to_eq s1 T G Q C core p (aux_ready_pop _ _ _ Hpop Ha) Hrep1 HI Hcore)
    as (b & Hocc & Hpid & Hst & Hsw).
  cbv zeta in Hsw. destruct (frame_ok _); [|destruct Hsw as [why Hsw]; by rewrite Hsw in Hd].
  rewrite Hsw in Hd. injection Hd as <- <-. apply occupied_lookup in Hocc.
  assert (parked (switched s1 core p b) i) as Hp'; [|by unfold maybe_print_switch; case_decide].
  assert (parked s1 i) as Hp1.
  { apply (parked_same s); [by apply no_start_same|by rewrite Hpr|done]. }
  assert (pid_index p <> i) as Hne.
  { intros <-. unfold parked in Hp1. rewrite Hocc in Hp1. destruct Hp1. congruence. }
  assert (processes (inner (switched s1 core p b)) !! i = processes (inner s1) !! i) as Hsame.
  { unfold switched. cbn [inner set_hw processes]. rewrite procs_put_slot.
    by rewrite list_lookup_insert_ne by done. }
  unfold parked in *. rewrite Hsame.
  destruct (processes (inner s1) !! i) as [[| |bi|]|] eqn:Hi; try done.
  destruct Hp1 as [Hsti Hno]. split; [done|]. intros c Hcc.
  assert (length (current (inner s1)) = MAX_CORES) as Hlen.
  { rewrite (rep_current _ _ _ _ _ Hrep1). pose proof (ai_cores _ _ _ _ HI) as Hl.
    by rewrite length_insert in Hl. }
  rewrite current_of_switched in Hcc by lia.
  case_decide; [|by apply (Hno c)]. injection Hcc as ->. apply Hne.
  apply view_lookup in Hi. rewrite (rep_view _ _ _ _ _ Hrep1) in Hi. by eapply (ai_pid_index HI).
Qed.

Lemma parked_tick s core f s' r i :
  inv s -> core < MAX_CORES -> on_timer_tick_locked s core f = Ret (s', r) -> parked s i -> parked s' i.
Proof.
  intros Hinv Hcore Hd Hp. pose proof Hinv as (Ha & T & G & Q & C & Hrep & HI).
  rewrite tick_unfold in Hd.
  destruct (preempt_current_spec s T G Q C core f Ha Hrep HI Hcore)
    as (s1 & T1 & Hpre & Ha1 & Hrep1 & HI1 & _).
  rewrite Hpre in Hd. refine (parked_dispatch _ _ _ _ _ _ _ _ i Ha1 Hrep1 HI1 Hcore Hd _).
  pose proof (no_start_same s s1 (preempt_currents _ _ _ _ Hpre)) as Hns.
  unfold preempt_current in Hpre. destruct (current_of s core) as [p|] eqn:Hcur; [|by injection Hpre as <-].
  destruct (current_index s core p Hinv Hcur) as (_ & _ & b & Hb & Hpid).
  cbn [inner set_percpu] in Hpre. rewrite (proj2 (index_or_panic_Ret _ _ _) Hb) in Hpre.
  injection Hpre as <-. eapply (parked_put s _ i (pid_index p)); [done|done|done| |done].
  exists b. split_and!; [done|done|]. intros _. right. exists core. by rewrite Hpid.
Qed.

Lemma parked_wait s core f t c s' r i :
  inv s -> pid_ok c -> wait_for_child_locked s core f t c = Ret (s', r) -> parked s i -> parked s' i.
Proof.
  intros Hinv Hc Hs Hp. unfold wait_for_child_locked, proc_at in Hs.
  destruct (negb _); [by injection Hs as <- <-|].
  destruct (processes (inner s) !! pid_index t) as [[| |b|par st]|] eqn:Hi; try by injection Hs as <- <-.
  - case_decide; [|by injection Hs as <- <-].
    destruct (block_current_process_locked _ core f) as [s2|] eqn:Hb; [|done]. injection Hs as <- <-.
    apply (parked_block _ _ _ _ i) in Hb; [done| |].
    + by apply (inv_put_same_view s _ _ (Occupied b)).
    + eapply (parked_put s _ i (pid_index t)); [by apply no_start_same|done|done| |done].
      exists b. split_and!; [done|done|]. by left.
  - case_decide; [|by injection Hs as <- <-]. destruct (to_regs st). injection Hs as <- <-.
    by eapply (parked_put s _ i (pid_index t)); [by apply no_start_same|..].
Qed.

Lemma parked_allocate s i :
  inv s -> stack_busy s !! i = Some true -> parked s i -> parked (fst (allocate_pid s)) i.
Proof.
  intros Hinv Hb Hp. destruct (allocate_pid_cases s Hinv) as [(j & g & -> & _ & _ & He & Hnb & _)|[-> _]]; [|done].
  eapply (parked_put s _ i j); [by apply no_start_same|done|done| |done]. by intros _ ->.
Qed.

Lemma parked_spawned s s' i q b :
  processes (inner s) !! pid_index (pid q) = Some Reserved ->
  processes (inner s') = <[pid_index (pid q) := Occupied b]> (processes (inner s)) ->
  no_start s s' -> parked s i -> parked s' i.
Proof.
  intros Hr Hs' Hns Hp. assert (pid_index (pid q) <> i) as Hne.
  { intros <-. unfold parked in Hp. by rewrite Hr in Hp. }
  apply (parked_same s); [done| |done]. by rewrite Hs', list_lookup_insert_ne.
Qed.

Lemma parked_start_child s t c i : parked s i -> parked (fst (start_child s t c)) i.
Proof.
  intros Hp. unfold start_child. destruct (occupied s t) as [b|] eqn:Hb; [|done].
  apply occupied_lookup in Hb. destruct (bool_decide (parent _ <> _)); [done|].
  destruct (bool_decide (state _ <> _)) eqn:Hst; [done|]. apply bool_decide_eq_false in Hst.
  cbn [orb fst]. destruct (notify_idle_cores_eq (ready_push (put_process s t b
    (set_state (box_process b) Ready)) t)) as [evs ->].
  eapply (parked_put s _ i (pid_index t)); [by apply no_start_same|done|done| |done].
  exists b. split_and!; [done|done|]. intros Hr. by destruct Hst; rewrite Hr.
Qed.

Lemma parked_kill s t s' d o i :
  inv s -> pid_ok t -> pid_current_generation s t = true -> kill_scan s t = Ret (s', d, o) ->
  parked s i -> parked s' i.
Proof.
  intros Hinv Hok Hg Hs Hp. destruct (live_target s t Hinv Hok Hg) as [Hlt Hpid].
  destruct (kill_scan_spec s t Hinv Hlt Hpid) as (s2 & d2 & o2 & Heq & Hsh & Ho).
  rewrite Hs in Heq. injection Heq as -> -> ->. destruct o2 as [core|]; [by destruct Ho as [-> _]|].
  unfold kill_scan in Hs. destruct (position _ _); [done|].
  destruct (finalize_slot s t Killed) as [[s1 d1]|] eqn:Hf; [|done]. injection Hs as <- <-.
  eapply parked_finalize; [exact Hinv| |exact Hf|exact Ho|exact Hp]. by destruct Hsh.
Qed.

Lemma parked_exit s core p status s' d i :
  inv s -> current_of s core = Some p -> finalize_slot s p status = Ret (s', d) ->
  (parked s i -> parked s' i) /\ parked s' (pid_index p) /\ exists b, b ∈ d /\
    processes (inner s) !! pid_index p = Some (Occupied b).
Proof.
  intros Hinv Hp Hs. destruct (current_index s core p Hinv Hp) as (Hlt & _ & b & Hb & Hpid).
  destruct (finalize_slot_spec s p status Hinv Hlt) as (s1 & d1 & Heq & Hsh & Ho).
  { intros b'. rewrite Hb. by intros [= <-]. }
  rewrite Hs in Heq. injection Heq as <- <-. apply sh_inv in Hsh. split; [|split].
  - by eapply parked_finalize.
  - unfold parked. unfold ids in Ho. rewrite list_lookup_fmap in Ho.
    destruct (processes (inner s') !! pid_index p) as [x|] eqn:Hx; [|done].
    pose proof (fd_calm _ _ (fades_finalize _ _ _ _ _ _ _ Hs) _ x Hx) as Hc.
    destruct x; [done| |done|done].
    destruct Hc as (y & Hy & Hk); [done|]. rewrite Hb in Hy. injection Hy as <-. done.
  - exists b. split; [|done]. rewrite (finalize_unfold _ _ _ _ Hb) in Hs.
    destruct (reap_loop _ _ _ _) as [[s2 d2]|]; [|done]. injection Hs as _ <-.
    apply elem_of_app. right. by apply list_elem_of_singleton.
Qed.

Lemma parked_step s s' i :
  sched_step s s' -> inv s -> stack_busy s !! i = Some true -> parked s i -> parked s' i.
Proof.
  intros Hst Hinv Hbusy Hpk. destruct Hst as
    [s j id|s|s p|s q s' r Hf Hs|s q s' r Hf Hs|s t c Ht|R s p f Hf|s core fr s' r Hc Hs|s core s' r Hc Hn Hs
    |s p r Hp|s core fr s' Hc Hs|s core fr t c s' r Hc Hp Hs|s core p st s' d Hp Hs|s t s' d o Hp Hg Hs
    |s core t|s core s' r Hc Hs|s j s' Hs|s j s' Hs|s slot|s core v|s t k];
    try (by apply (parked_same s); [apply no_start_same|..]).
  - by apply parked_allocate.
  - unfold release_reservation, proc_at. destruct (pid_current_generation s p); [|done].
    destruct (processes (inner s) !! pid_index p) as [[]|] eqn:Hx; try done.
    by eapply (parked_put s _ i (pid_index p)); [apply no_start_same|..].
  - destruct Hf as [Hslot _ _ _ _]. unfold spawn in Hs. case_decide; [by injection Hs as <- <-|].
    destruct (process_box_new s q) as [[s1 b]|] eqn:Hb; [|done].
    unfold process_box_new, alloc_process_slot in Hb. destruct (position _ _); [|done].
    injection Hb as <- <-. injection Hs as <- <-.
    eapply (parked_spawned s _ i q); [done|by rewrite procs_notify| |done].
    apply no_start_same. by rewrite inner_notify.
  - destruct Hf as [Hslot _ _ _ _]. unfold spawn_suspended in Hs. case_decide; [by injection Hs as <- <-|].
    destruct (process_box_new s q) as [[s1 b]|] eqn:Hb; [|done].
    unfold process_box_new, alloc_process_slot in Hb. destruct (position _ _); [|done].
    injection Hb as <- <-. injection Hs as <- <-.
    by eapply (parked_spawned s _ i q); [done|done|apply no_start_same|].
  - by apply parked_start_child.
  - unfold with_process. destruct (occupied s p) as [b|] eqn:Hb; [|done].
    apply occupied_lookup in Hb. destruct (Hf (box_process b)) as (H1 & H2 & _).
    destruct (f (box_process b)) as [q r]. cbn [fst] in *.
    eapply (parked_put s _ i (pid_index p)); [by apply no_start_same|done|done| |done].
    exists b. split_and!; [done|done|]. intros Hr. left. simpl. congruence.
  - by eapply parked_tick.
  - destruct Hinv as (Ha & T & G & Q & C & Hrep & HI).
    eapply parked_dispatch; [exact Ha|exact Hrep| |exact Hc|exact Hs|exact Hpk].
    by rewrite (current_insert_id _ _ _ _ _ _ Hrep (ai_cores _ _ _ _ HI) Hc Hn).
  - by apply parked_wake.
  - by eapply parked_block.
  - by eapply parked_wait.
  - by eapply parked_exit.
  - by eapply parked_kill.
  - unfold reschedule_ipi_locked in Hs. destruct (_ || _); [by injection Hs as <- <-|].
    unfold mark_stack_busy in Hs. destruct (index_or_panic _ _); [|done]. injection Hs as <- <-.
    by eapply parked_same; [apply no_start_clear|..].
  - unfold mark_stack_busy in Hs. destruct (index_or_panic _ _); [|done]. by injection Hs as <-.
  - unfold clear_stack_busy in Hs. destruct (index_or_panic _ _); [|done]. by injection Hs as <-.
Qed.
End steps.
