(* ===== verification/Smp.v ===== *)
(** * Cores, kernel stacks and address spaces

    What each core is executing on while the scheduler's critical sections
    interleave: user code, a trap handler on the kernel stack its entry stub
    loaded, the rest of a handler after it has released the scheduler lock, or
    its idle stack (the entry stubs of [arch/x86_64/context_switch.rs] and
    [syscall.rs], and the handlers of [task/scheduler.rs]).

    Two questions are answered for every interleaving.  Does a core's CR3 ever
    name an address space that has been dropped?  It does not.  Can two cores
    run on the same kernel stack?  They can, but only when one of them is
    finishing a tick, a yield or a blocking call: the exit and eviction paths
    are protected by the stack-busy flags. *)
From S2P Require Import Prelude Abi Ring CapTable Virt Process Sched SchedAbs SchedInv SchedExit SchedSteps.
From S2P Require Import SchedProps SchedFrame.
Open Scope nat_scope.

(** Where a core is.  [top] is the kernel stack its entry stub loaded, [i] the
    table slot whose stack was marked busy, [drops] the boxes of finalized
    processes the handler still owns. *)
Inductive Mode :=
| InUser
| InTrap (top : Z)
| InTail (top : Z)
| InExit (top : Z) (i : nat) (drops : list ProcessBox)
| InExitTail (top : Z) (i : nat)
| InIdleBusy (i : nat)
| InIdle.

Record Machine := mkMachine { msched : Sched; modes : list Mode }.

(** The kernel stack a core executes on. *)
Definition stack_of (m : Mode) : option Z :=
  match m with
  | InTrap top | InTail top | InExit top _ _ | InExitTail top _ => Some top
  | _ => None
  end.

(** The slot whose busy flag the core will clear. *)
Definition busy_of (m : Mode) : option nat :=
  match m with
  | InExit _ i _ | InExitTail _ i | InIdleBusy i => Some i
  | _ => None
  end.

Section machine.
Context `{Selectors} (idle_pml4 : Z).

(** [switch_to_next_or_halt] under the lock: switch to the next ready process
    ([true]), or load the idle address space and go to the idle stack. *)
Definition leave (s : Sched) (core : nat) : outcome (Sched * bool) :=
  let! '(s, r) := dispatch_next s core in
  match r with
  | Some _ => Ret (s, true)
  | None => Ret (set_hw s (hw_activate (hw s) core idle_pml4), false)
  end.

(** One move of one core, between two releases of the scheduler lock.  In
    [sm_service] a core runs any other critical section: one that changes
    neither the cores' processes nor the busy flags nor the registers that
    a switch loads. *)
Inductive smp_step : Machine -> Machine -> Prop :=
| sm_syscall s M c top :
    M !! c = Some InUser -> kernel_rsp_slots (hw s) !! c = Some top ->
    smp_step (mkMachine s M) (mkMachine s (<[c := InTrap top]> M))
| sm_interrupt s M c top :
    M !! c = Some InUser -> rsp0 (hw s) !! c = Some top ->
    smp_step (mkMachine s M) (mkMachine s (<[c := InTrap top]> M))
| sm_return s M c top :
    M !! c = Some (InTrap top) -> smp_step (mkMachine s M) (mkMachine s (<[c := InUser]> M))
| sm_tick s M c top f s' r :
    M !! c = Some (InTrap top) -> on_timer_tick_locked s c f = Ret (s', r) ->
    smp_step (mkMachine s M) (mkMachine s' (<[c := InTail top]> M))
| sm_block s M c top f s1 s' b :
    M !! c = Some (InTrap top) -> block_current_process_locked s c f = Ret s1 ->
    leave s1 c = Ret (s', b) ->
    smp_step (mkMachine s M) (mkMachine s' (<[c := if b : bool then InTail top else InIdle]> M))
| sm_wait s M c top f t p s1 s' b :
    M !! c = Some (InTrap top) -> current_of s c = Some p ->
    wait_for_child_locked s c f t p = Ret (s1, None) -> leave s1 c = Ret (s', b) ->
    smp_step (mkMachine s M) (mkMachine s' (<[c := if b : bool then InTail top else InIdle]> M))
| sm_exit s M c top p st s1 s' d :
    M !! c = Some (InTrap top) -> current_of s c = Some p ->
    mark_stack_busy s (pid_index p) = Ret s1 -> finalize_slot s1 p st = Ret (s', d) ->
    smp_step (mkMachine s M) (mkMachine s' (<[c := InExit top (pid_index p) d]> M))
| sm_leave s M c top i d s' b :
    M !! c = Some (InExit top i d) -> leave s c = Ret (s', b) ->
    smp_step (mkMachine s M)
      (mkMachine s' (<[c := if b : bool then InExitTail top i else InIdleBusy i]> M))
| sm_evict s M c top i s1 s' b :
    M !! c = Some (InTrap top) -> reschedule_ipi_locked s c = Ret (s1, Some i) ->
    leave s1 c = Ret (s', b) ->
    smp_step (mkMachine s M)
      (mkMachine s' (<[c := if b : bool then InExitTail top i else InIdleBusy i]> M))
| sm_exit_done s M c top i s' :
    M !! c = Some (InExitTail top i) -> clear_stack_busy s i = Ret s' ->
    smp_step (mkMachine s M) (mkMachine s' (<[c := InTail top]> M))
| sm_tail s M c top :
    M !! c = Some (InTail top) -> smp_step (mkMachine s M) (mkMachine s (<[c := InUser]> M))
| sm_idle_done s M c i s' :
    M !! c = Some (InIdleBusy i) -> clear_stack_busy s i = Ret s' ->
    smp_step (mkMachine s M) (mkMachine s' (<[c := InIdle]> M))
| sm_idle s M c s' j :
    M !! c = Some InIdle -> dispatch_next s c = Ret (s', Some j) ->
    smp_step (mkMachine s M) (mkMachine s' (<[c := InUser]> M))
| sm_service s M s' :
    sched_step s s' -> current (inner s') = current (inner s) -> stack_busy s' = stack_busy s ->
    cr3 (hw s') = cr3 (hw s) -> rsp0 (hw s') = rsp0 (hw s) ->
    kernel_rsp_slots (hw s') = kernel_rsp_slots (hw s) ->
    smp_step (mkMachine s M) (mkMachine s' M).

(** Boot: every core enters its idle loop with the idle address space. *)
Definition machine_new : Machine :=
  mkMachine (set_hw sched_new (mkHw (replicate MAX_CORES idle_pml4) (rsp0 (hw sched_new))
              (kernel_rsp_slots (hw sched_new)) 0 0)) (replicate MAX_CORES InIdle).

(** ** The invariant *)

(** Core [c] runs [p]: its registers are the ones [switch_to] loaded for it. *)
Record on_cpu (s : Sched) (c : nat) (p : Pid) : Prop := {
  oc_current : current_of s c = Some p;
  oc_box : exists b, processes (inner s) !! pid_index p = Some (Occupied b) /\
    cr3 (hw s) !! c = Some (pml4_frame (address_space (box_process b)));
  oc_rsp0 : rsp0 (hw s) !! c = Some (stack_top (pid_index p));
  oc_krsp : kernel_rsp_slots (hw s) !! c = Some (stack_top (pid_index p));
}.

Definition core_ok (s : Sched) (c : nat) (m : Mode) : Prop :=
  match m with
  | InUser | InTail _ => exists p, on_cpu s c p
  | InTrap top => exists p, on_cpu s c p /\ top = stack_top (pid_index p)
  | InExitTail top i => (exists p, on_cpu s c p) /\ top = stack_top i
  | InExit top i d => current_of s c = None /\ top = stack_top i /\
      exists b, b ∈ d /\ cr3 (hw s) !! c = Some (pml4_frame (address_space (box_process b)))
  | InIdleBusy _ | InIdle => current_of s c = None /\ cr3 (hw s) !! c = Some idle_pml4
  end.

Record minv (m : Machine) : Prop := {
  mi_inv : inv (msched m);
  mi_cores : length (modes m) = MAX_CORES;
  mi_ok : forall c x, modes m !! c = Some x -> core_ok (msched m) c x;
  mi_busy : forall c x i, modes m !! c = Some x -> busy_of x = Some i ->
    stack_busy (msched m) !! i = Some true /\ parked (msched m) i;
  mi_distinct : forall c1 c2 x1 x2 i, modes m !! c1 = Some x1 -> modes m !! c2 = Some x2 ->
    busy_of x1 = Some i -> busy_of x2 = Some i -> c1 = c2;
}.

(** A step of core [c] seen from the other cores. *)
Record local (c : nat) (s s' : Sched) : Prop := {
  lc_current : forall c', c' <> c -> current_of s' c' = current_of s c';
  lc_cr3 : forall c', c' <> c -> cr3 (hw s') !! c' = cr3 (hw s) !! c';
  lc_rsp0 : forall c', c' <> c -> rsp0 (hw s') !! c' = rsp0 (hw s) !! c';
  lc_krsp : forall c', c' <> c -> kernel_rsp_slots (hw s') !! c' = kernel_rsp_slots (hw s) !! c';
}.

#[local] Instance local_preorder c : PreOrder (local c).
Proof.
  split; [by split|]. intros s1 s2 s3 [A1 A2 A3 A4] [B1 B2 B3 B4].
  split; intros c' Hc'; [rewrite B1, A1|rewrite B2, A2|rewrite B3, A3|rewrite B4, A4]; done.
Qed.

Lemma local_hw c s s' :
  (forall c', c' <> c -> current_of s' c' = current_of s c') -> hw s' = hw s -> local c s s'.
Proof. intros Hc Hh. split; rewrite ?Hh; done. Qed.

Lemma local_set_current c s p : local c s (set_current s c p).
Proof.
  apply local_hw; [|done]. intros c' Hne. unfold current_of, set_current. simpl.
  by rewrite list_lookup_insert_ne.
Qed.

Lemma local_fades c s s' : fades s s' -> (forall c', c' <> c -> current_of s' c' = current_of s c') -> local c s s'.
Proof. intros Hf Hc. apply local_hw; [done|]. apply Hf. Qed.

Lemma on_cpu_frame s s' c p :
  inv s' -> evolves s s' -> current_of s' c = current_of s c -> cr3 (hw s') !! c = cr3 (hw s) !! c ->
  rsp0 (hw s') !! c = rsp0 (hw s) !! c -> kernel_rsp_slots (hw s') !! c = kernel_rsp_slots (hw s) !! c ->
  on_cpu s c p -> on_cpu s' c p.
Proof.
  intros Hinv' Hev Hc H3 H0 Hk [Hcur (b & Hb & Hcr) Hr Hkr]. rewrite <- Hc in Hcur.
  split; [done| |congruence|congruence].
  destruct (current_index s' c p Hinv' Hcur) as (_ & _ & b' & Hb' & _). exists b'. split; [done|].
  destruct (Hev _ _ Hb' ltac:(done)) as [(x & Hx & Hkind)|[[Hx _]|Hx]]; rewrite Hb in Hx;
    [|done..]. injection Hx as <-.
  apply ident_eq in Hkind as [_ Ha]. rewrite H3, Hcr. by rewrite Ha.
Qed.

Lemma core_ok_frame s s' c c' m :
  inv s' -> evolves s s' -> local c s s' -> c' <> c -> core_ok s c' m -> core_ok s' c' m.
Proof.
  intros Hinv' Hev [Hc H3 H0 Hk] Hne.
  assert (forall p, on_cpu s c' p -> on_cpu s' c' p) as Hon by (intros p; apply on_cpu_frame; auto).
  unfold core_ok. rewrite Hc, H3 by done. destruct m; naive_solver.
Qed.

Lemma minv_move s M c m0 s' m' :
  minv (mkMachine s M) -> M !! c = Some m0 -> inv s' -> evolves s s' -> local c s s' ->
  (forall c' x i, c' <> c -> M !! c' = Some x -> busy_of x = Some i ->
     stack_busy s' !! i = Some true /\ parked s' i) ->
  core_ok s' c m' ->
  (forall i, busy_of m' = Some i -> stack_busy s' !! i = Some true /\ parked s' i /\
     forall c' x, c' <> c -> M !! c' = Some x -> busy_of x <> Some i) ->
  minv (mkMachine s' (<[c := m']> M)).
Proof.
  intros [Hinv Hlen Hok Hbusy Hd] Hm Hinv' Hev Hl Hoth Hnew Hb. simpl in *.
  assert (forall c' x, <[c := m']> M !! c' = Some x ->
    c' = c /\ x = m' \/ c' <> c /\ M !! c' = Some x) as Hins.
  { intros c' x [(-> & -> & _)|[? ?]]%list_lookup_insert_Some; [by left|by right]. }
  split; simpl; [done|by rewrite length_insert|..].
  - intros c' x [[-> ->]|[Hne Hx]]%Hins; [done|]. by eapply core_ok_frame, Hok.
  - intros c' x i [[-> ->]|[Hne Hx]]%Hins Hi; [|by eapply Hoth]. by destruct (Hb i Hi) as (? & ? & _).
  - intros c1 c2 x1 x2 i [[-> ->]|[N1 H1]]%Hins [[-> ->]|[N2 H2]]%Hins B1 B2.
    + done.
    + by destruct (proj2 (proj2 (Hb i B1)) c2 x2).
    + by destruct (proj2 (proj2 (Hb i B2)) c1 x1).
    + by apply (Hd c1 c2 x1 x2 i).
Qed.

(** What core [c] does under the lock without touching the busy flags. *)
Record moves (c : nat) (s s' : Sched) : Prop := {
  mv_inv : inv s';
  mv_calm : calm s s';
  mv_local : local c s s';
  mv_busy : stack_busy s' = stack_busy s;
  mv_parked : forall i, parked s i -> parked s' i;
}.

Lemma moves_trans c s1 s2 s3 : moves c s1 s2 -> moves c s2 s3 -> moves c s1 s3.
Proof.
  intros [A1 A2 A3 A4 A5] [B1 B2 B3 B4 B5].
  split; [done|by trans s2|by trans s2|congruence|auto].
Qed.

Lemma minv_moves s M c m0 s' m' :
  minv (mkMachine s M) -> M !! c = Some m0 -> moves c s s' -> core_ok s' c m' ->
  (forall i, busy_of m' = Some i -> busy_of m0 = Some i) -> minv (mkMachine s' (<[c := m']> M)).
Proof.
  intros Hmi Hm [Hinv' Hc Hl Hb Hp] Hok Hbz. pose proof Hmi as [_ _ _ Hbusy Hd]. simpl in *.
  eapply minv_move; eauto; [by apply calm_evolves| |].
  - intros c' x i Hne Hx Hi. destruct (Hbusy c' x i Hx Hi). rewrite Hb. auto.
  - intros i Hi%Hbz. destruct (Hbusy c m0 i Hm Hi). rewrite Hb. split_and!; [done|auto|].
    intros c' x Hne Hx Hi'. by apply Hne, (Hd c' c x m0 i).
Qed.

Lemma inv_currents s : inv s -> length (current (inner s)) = MAX_CORES.
Proof.
  intros (_ & T & G & Q & C & Hrep & HI).
  by rewrite (rep_current _ _ _ _ _ Hrep), (ai_cores _ _ _ _ HI).
Qed.

(** Switching loads every register for the process it makes current. *)
Lemma dispatch_effect s c s' r :
  aux s -> length (current (inner s)) = MAX_CORES -> c < MAX_CORES -> dispatch_next s c = Ret (s', r) ->
  local c s s' /\ stack_busy s' = stack_busy s /\
  match r with
  | Some _ => exists p, on_cpu s' c p
  | None => hw s' = hw s /\ current (inner s') = current (inner s)
  end.
Proof.
  unfold dispatch_next. intros Ha Hlen Hc. destruct (ready_pop s) as [s1 o] eqn:Hpop.
  assert (hw s1 = hw s /\ stack_busy s1 = stack_busy s) as [Hh Hb].
  { unfold ready_pop in Hpop. destruct (Ring.pop _ _). by injection Hpop as <- _. }
  destruct (ready_pop_same _ _ _ Hpop) as [_ Hcu]. destruct o as [p|].
  2: { intros [= <- <-]. split; [|done]. apply local_hw; [|done]. intros c' _. by apply current_of_eq. }
  destruct (switch_to s1 c p) as [[s2 [[j a] b]]|] eqn:Hs; [|done]. intros [= <- <-].
  apply switch_to_effect in Hs as (_ & Hb2 & Hc2 & bx & Hbx & Hpid & Hk & H0 & H3).
  assert (forall x, local c s x -> local c s (maybe_print_switch x c j a b)) as Hpr.
  { intros x [L1 L2 L3 L4]. unfold maybe_print_switch. by case_decide; split. }
  assert (forall x, on_cpu x c p -> on_cpu (maybe_print_switch x c j a b) c p) as Hpo.
  { intros x [O1 O2 O3 O4]. unfold maybe_print_switch. by case_decide; split. }
  rewrite Hcu in Hc2. rewrite Hh in *. destruct Ha. split_and!.
  - apply Hpr. split; intros c' Hne; rewrite ?Hk, ?H0, ?H3, ?list_lookup_insert_ne by done; try done.
    unfold current_of. by rewrite Hc2, list_lookup_insert_ne.
  - rewrite <- Hb, <- Hb2. unfold maybe_print_switch. by case_decide.
  - exists p. apply Hpo. split.
    + unfold current_of. by rewrite Hc2, list_lookup_insert_eq by lia.
    + exists bx. split; [done|]. rewrite H3, list_lookup_insert_eq by lia. done.
    + rewrite H0, list_lookup_insert_eq by lia. done.
    + rewrite Hk, list_lookup_insert_eq by lia. done.
Qed.

Lemma leave_moves s c s' b :
  inv s -> c < MAX_CORES -> current_of s c = None -> leave s c = Ret (s', b) ->
  moves c s s' /\ core_ok s' c (if b then InUser else InIdle).
Proof.
  unfold leave. intros Hinv Hc Hcur Hl. destruct (dispatch_next s c) as [[s1 r]|] eqn:Hd; [|done].
  pose proof (dispatch_next_inv s c s1 r Hinv Hc Hcur Hd) as Hinv1.
  destruct (dispatch_effect s c s1 r (proj1 Hinv) (inv_currents s Hinv) Hc Hd) as (Hloc & Hb & Hr).
  assert (moves c s s1) as Hmv.
  { split; [done|by eapply calm_dispatch|done|done|]. intros i.
    destruct Hinv as (Ha & T & G & Q & C & Hrep & HI).
    eapply parked_dispatch; [exact Ha|exact Hrep| |exact Hc|exact Hd].
    by rewrite (current_insert_id _ _ _ _ _ _ Hrep (ai_cores _ _ _ _ HI) Hc Hcur). }
  destruct r as [j|]; injection Hl as <- <-; [by split|].
  destruct Hr as [Hh Hcu]. split.
  - eapply moves_trans; [exact Hmv|]. split; [|by apply calm_same| |done|done].
    + apply (inv_same_inner s1); [done| |done]. destruct (proj1 Hinv1). split; simpl; rewrite ?length_insert; done.
    + split; try done. intros c' Hne. simpl. by rewrite list_lookup_insert_ne.
  - split; [by rewrite <- Hcur; apply current_of_eq|]. simpl. rewrite list_lookup_insert_eq; [done|].
    by rewrite (aux_cr3 _ (proj1 Hinv1)).
Qed.

Lemma tick_moves s c f s' r p :
  inv s -> c < MAX_CORES -> current_of s c = Some p -> on_timer_tick_locked s c f = Ret (s', r) ->
  moves c s s' /\ exists q, on_cpu s' c q.
Proof.
  intros Hinv Hc Hcur Ht. pose proof (tick_inv s c f s' r Hinv Hc Ht) as Hinv'.
  pose proof (calm_tick _ _ _ _ _ Ht) as Hcalm.
  pose proof (fun i => parked_tick s c f s' r i Hinv Hc Ht) as Hpk.
  rewrite tick_unfold in Ht. destruct Hinv as (Ha & T & G & Q & C & Hrep & HI).
  destruct (preempt_current_spec s T G Q C c f Ha Hrep HI Hc) as (s1 & T1 & Hpre & Ha1 & Hrep1 & HI1 & _).
  rewrite Hpre in Ht. rewrite Hcur in *. simpl option_list in *.
  assert (hw s1 = hw s /\ stack_busy s1 = stack_busy s) as [Hh Hb].
  { unfold preempt_current in Hpre. rewrite Hcur in Hpre. destruct (index_or_panic _ _) as [[]|]; try done;
      by injection Hpre as <-. }
  destruct (dispatch_effect s1 c s' r Ha1) as (Hl & Hb' & Hr); [|done|done|].
  { rewrite (rep_current _ _ _ _ _ Hrep1). apply (ai_cores _ _ _ _ HI). }
  split.
  - split; [done|done| |congruence|done]. etrans; [|exact Hl]. apply local_hw; [|done].
    intros c' _. apply current_of_eq. by eapply preempt_currents.
  - destruct r; [done|]. destruct (Q ++ [p]) as [|p' Q'] eqn:HQ; [by destruct Q|].
    destruct (dispatch_next_cons s1 T1 G p' Q' C c Ha1 Hrep1 HI1 Hc) as (b & _ & _ & Hres).
    destruct (frame_ok _); [destruct Hres as (? & Heq & _)|destruct Hres as [? Heq]]; by rewrite Ht in Heq.
Qed.

Lemma block_moves s c f s' :
  inv s -> c < MAX_CORES -> block_current_process_locked s c f = Ret s' ->
  moves c s s' /\ current_of s' c = None.
Proof.
  intros Hinv Hc Hb. destruct (block_inv s c f Hinv Hc) as (s1 & Heq & Hinv' & Hcur).
  rewrite Hb in Heq. injection Heq as <-. split; [|done].
  assert (local c s s' /\ stack_busy s' = stack_busy s) as [Hl Hbz].
  { unfold block_current_process_locked in Hb. destruct (current_of s c); [|by injection Hb as <-].
    destruct (index_or_panic _ _) as [x|]; [|done]. injection Hb as <-.
    destruct x as [| |b|]; try (split; [apply local_set_current|done]).
    destruct (pending_wake _) as [w|].
    - match goal with |- context [notify_idle_cores ?x] => destruct (notify_idle_cores_eq x) as [evs ->] end.
      split; [|done]. etrans; [|apply local_set_current]. by apply local_hw.
    - split; [|done]. etrans; [|apply local_set_current]. by apply local_hw. }
  split; [done|by eapply calm_block|done|done|]. intros i. by eapply parked_block.
Qed.

Lemma wait_moves s c f t p s' :
  inv s -> c < MAX_CORES -> pid_ok p -> wait_for_child_locked s c f t p = Ret (s', None) ->
  moves c s s' /\ current_of s' c = None.
Proof.
  intros Hinv Hc Hok Hw. unfold wait_for_child_locked, proc_at in Hw.
  destruct (negb _); [done|].
  destruct (processes (inner s) !! pid_index t) as [[| |b|par st]|] eqn:Hi; try done.
  2: { case_decide; [|done]. by destruct (to_regs st). }
  case_decide; [|done]. destruct (block_current_process_locked _ c f) as [s2|] eqn:Hb; [|done].
  injection Hw as <-. pose proof (inv_put_same_view s (pid_index t) (Occupied (mkBox (box_slot b)
    (set_wait_waiter (box_process b) (Some p)))) (Occupied b) Hinv Hi eq_refl Hok) as Hinv1.
  apply block_moves in Hb as [Hmv Hcur]; [|done|done]. split; [|done].
  eapply moves_trans; [|exact Hmv]. split; [done|by apply calm_put_box|by apply local_hw|done|].
  intros i. eapply (parked_put s _ i (pid_index t)); [by apply no_start_same|done|done|].
  exists b. split_and!; [done|done|]. by left.
Qed.

(** The other cores keep their processes when core [c]'s process exits. *)
Lemma exit_local s c p status s' d :
  inv s -> current_of s c = Some p -> finalize_slot s p status = Ret (s', d) -> local c s s'.
Proof.
  intros Hinv Hp Hf. pose proof (fades_finalize _ _ _ _ _ _ _ Hf) as Hfd.
  apply local_fades; [done|]. intros c' Hne.
  destruct (fd_current _ _ Hfd c') as [->|(_ & q & Hq & Hout)]; [done|].
  destruct (current_index s c' q Hinv Hq) as (_ & _ & b & Hb & Hpid).
  destruct (current_index s c p Hinv Hp) as (_ & _ & b0 & Hb0 & Hpid0).
  destruct Hinv as (_ & T & G & Q & C & Hrep & HI).
  apply (current_of_Some _ _ _ _ _ _ _ Hrep) in Hq, Hp.
  assert (pid_index q <> pid_index p) as Hidx.
  { intros Heq. rewrite Heq in Hb. apply Hne. apply (ai_unique _ _ _ _ HI c' c p); [|done]. congruence. }
  destruct (ai_running _ _ _ _ HI c' q Hq) as [i Hi].
  pose proof (ai_pid_index HI i q Running Hi) as <-.
  apply view_lookup in Hb as Hv. rewrite (rep_view _ _ _ _ _ Hrep), Hi in Hv. injection Hv as _ Hst.
  destruct (proj1 (take_and_finalize_keeps _ _ _ _ _ _ _ Hf _ Hidx) b Hb) as (b' & Hb' & _); [by right|].
  by destruct (Hout b').
Qed.

(** A core runs a process whose slot is not parked, so its stack is not one
    another core has marked busy. *)
Lemma current_not_parked s c p : inv s -> current_of s c = Some p -> ~ parked s (pid_index p).
Proof.
  intros Hinv Hp Hpk. destruct (current_index s c p Hinv Hp) as (_ & _ & b & Hb & Hpid).
  unfold parked in Hpk. rewrite Hb in Hpk. destruct Hpk as [_ Hno]. apply (Hno c). by rewrite Hpid.
Qed.

(** ** Every step preserves the invariant *)
Lemma minv_current m c top :
  minv m -> modes m !! c = Some (InTrap top) -> c < MAX_CORES /\
  exists p, on_cpu (msched m) c p /\ top = stack_top (pid_index p).
Proof.
  intros Hmi Hm. split; [|exact (mi_ok _ Hmi c _ Hm)].
  rewrite <- (mi_cores _ Hmi). by eapply lookup_lt_Some.
Qed.

Lemma minv_exit s M c top p st s1 s' d :
  minv (mkMachine s M) -> M !! c = Some (InTrap top) -> current_of s c = Some p ->
  mark_stack_busy s (pid_index p) = Ret s1 -> finalize_slot s1 p st = Ret (s', d) ->
  minv (mkMachine s' (<[c := InExit top (pid_index p) d]> M)).
Proof.
  intros Hmi Hm Hp Hmark Hf. pose proof (mi_inv _ Hmi) as Hinv. simpl in Hinv.
  destruct (minv_current _ c top Hmi Hm) as (Hc & p' & [Hp' (b & Hb & Hcr) _ _] & Htop).
  simpl in *. rewrite Hp in Hp'. injection Hp' as <-.
  assert (s1 = set_stack_busy s (<[pid_index p := true]> (stack_busy s))) as ->.
  { unfold mark_stack_busy in Hmark. destruct (index_or_panic _ _); [|done]. by injection Hmark as <-. }
  pose proof (inv_set_stack_busy s (pid_index p) true Hinv) as Hinv1. set (s1 := set_stack_busy s _) in *.
  pose proof (fades_finalize _ _ _ _ _ _ _ Hf) as Hfd.
  assert (inv s') as Hinv' by (by apply (sched_step_inv s1); [apply (st_exit s1 c p st s' d)|]).
  assert (stack_busy s' = <[pid_index p := true]> (stack_busy s)) as Hbz by (by rewrite (fd_busy _ _ Hfd)).
  destruct (current_index s c p Hinv Hp) as (Hlt & _).
  assert (stack_busy s' !! pid_index p = Some true) as Hbp.
  { rewrite Hbz, list_lookup_insert_eq; [done|]. by rewrite (aux_busy _ (proj1 Hinv)). }
  pose proof (fun i => parked_exit s1 c p st s' d i Hinv1 Hp Hf) as Hpk.
  destruct (Hpk 0) as (_ & Hpp & b' & Hd & Hb'). change (processes (inner s1)) with (processes (inner s)) in Hb'.
  eapply minv_move; [done|done|done| | | | |].
  - apply calm_evolves. trans s1; [by apply calm_same|apply Hfd].
  - trans s1; [by apply local_hw|by eapply exit_local].
  - intros c' x i _ Hx Hi. destruct (mi_busy _ Hmi c' x i Hx Hi) as [Hbi Hpi]. simpl in *.
    split; [|by apply Hpk]. rewrite Hbz. destruct (decide (i = pid_index p)) as [->|Hne]; [by rewrite <- Hbz|].
    by rewrite list_lookup_insert_ne.
  - split; [|split; [done|]].
    + destruct (current_of s' c) as [q|] eqn:Hq; [|done]. apply (fades_no_start _ _ Hfd) in Hq as Hq1.
      change (current_of s1 c) with (current_of s c) in Hq1. rewrite Hp in Hq1. injection Hq1 as <-.
      by destruct (current_not_parked s' c p Hinv' Hq).
    + exists b. rewrite Hb in Hb'. injection Hb' as <-. split; [done|]. by rewrite (fd_hw _ _ Hfd).
  - intros i [= <-]. split_and!; [done|done|]. intros c' x _ Hx Hi.
    destruct (mi_busy _ Hmi c' x _ Hx Hi) as [_ Hpi]. by apply (current_not_parked s c p Hinv Hp).
Qed.

Lemma evict_effect s c i s1 :
  inv s -> c < MAX_CORES -> reschedule_ipi_locked s c = Ret (s1, Some i) ->
  inv s1 /\ calm s s1 /\ local c s s1 /\ current_of s1 c = None /\ parked s1 i /\
  (forall j, parked s j -> parked s1 j) /\ stack_busy s1 = <[i := true]> (stack_busy s) /\
  exists p, current_of s c = Some p /\ pid_index p = i.
Proof.
  intros Hinv Hc Hr. destruct (reschedule_inv s c Hinv Hc) as (s2 & r & Heq & Hinv1 & Hres).
  rewrite Hr in Heq. injection Heq as <- <-. destruct Hres as (Hcur & _ & p & Hp & <-).
  unfold reschedule_ipi_locked in Hr. destruct (_ || _); [done|].
  unfold mark_stack_busy in Hr. destruct (index_or_panic _ _); [|done]. injection Hr as <- Hi.
  rewrite Hi. rewrite Hi in Hinv1, Hcur. clear Hi. set (s0 := set_percpu s _) in *.
  assert (no_start s0 (set_current s0 c None)) as Hns by apply no_start_clear.
  split_and!; [done|by apply calm_same| |done| |intros j; by apply parked_same|done|by exists p].
  - trans s0; [by apply local_hw|]. trans (set_current s0 c None); [apply local_set_current|by apply local_hw].
  - destruct (current_index s c p Hinv Hp) as (_ & _ & b & Hb & Hpid).
    unfold parked.
    match goal with |- context [processes (inner ?x)] =>
      change (processes (inner x)) with (processes (inner s)) end.
    rewrite Hb. destruct Hinv as (_ & T & G & Q & C & Hrep & HI).
    apply (current_of_Some _ _ _ _ _ _ _ Hrep) in Hp. destruct (ai_running _ _ _ _ HI c p Hp) as [i Hi].
    pose proof (ai_pid_index HI i p Running Hi) as <-. apply view_lookup in Hb.
    rewrite (rep_view _ _ _ _ _ Hrep), Hi in Hb. injection Hb as _ Hst. split; [done|].
    intros c' Hc'. destruct (decide (c' = c)) as [->|Hne]; [by rewrite Hcur in Hc'|].
    apply Hns in Hc'. change (current_of s0 c') with (current_of s c') in Hc'.
    apply (current_of_Some _ _ _ _ _ _ _ Hrep) in Hc'. rewrite Hpid in Hc'.
    by apply Hne, (ai_unique _ _ _ _ HI c' c p).
Qed.

Lemma minv_evict s M c top i s1 s' b :
  minv (mkMachine s M) -> M !! c = Some (InTrap top) -> reschedule_ipi_locked s c = Ret (s1, Some i) ->
  leave s1 c = Ret (s', b) ->
  minv (mkMachine s' (<[c := if b : bool then InExitTail top i else InIdleBusy i]> M)).
Proof.
  intros Hmi Hm Hr Hl. pose proof (mi_inv _ Hmi) as Hinv. simpl in Hinv.
  destruct (minv_current _ c top Hmi Hm) as (Hc & q & [Hq _ _ _] & Htop). simpl in *.
  destruct (evict_effect s c i s1 Hinv Hc Hr) as (Hinv1 & Hcalm & Hloc & Hcur & Hpi & Hpk & Hbz & p & Hp & <-).
  rewrite Hp in Hq. injection Hq as <-.
  destruct (leave_moves s1 c s' b Hinv1 Hc Hcur Hl) as [[Hinv' Hcalm' Hloc' Hbz' Hpk'] Hok].
  destruct (current_index s c p Hinv Hp) as (Hlt & _).
  assert (forall i, stack_busy s !! i = Some true \/ i = pid_index p -> stack_busy s' !! i = Some true) as Hb'.
  { intros j Hj. rewrite Hbz', Hbz. destruct (decide (j = pid_index p)) as [->|Hne].
    - rewrite list_lookup_insert_eq; [done|]. by rewrite (aux_busy _ (proj1 Hinv)).
    - rewrite list_lookup_insert_ne by done. by destruct Hj. }
  eapply minv_move; [done|done|done| |by trans s1| | |].
  - apply calm_evolves. by trans s1.
  - intros c' x j _ Hx Hj. destruct (mi_busy _ Hmi c' x j Hx Hj) as [? ?]. simpl in *. auto.
  - by destruct b.
  - intros j Hj. assert (j = pid_index p) as -> by (destruct b; simpl in Hj; congruence).
    split_and!; [auto|auto|]. intros c' x _ Hx Hi.
    destruct (mi_busy _ Hmi c' x _ Hx Hi) as [_ Hpb]. by apply (current_not_parked s c p Hinv Hp).
Qed.

(** Clearing the flag of the slot the core itself had marked. *)
Lemma minv_clear s M c m0 m' i s' :
  minv (mkMachine s M) -> M !! c = Some m0 -> busy_of m0 = Some i -> busy_of m' = None ->
  (forall x, core_ok x c m0 -> core_ok x c m') -> clear_stack_busy s i = Ret s' ->
  minv (mkMachine s' (<[c := m']> M)).
Proof.
  intros Hmi Hm Hi Hm' Hok Hcl. pose proof (mi_inv _ Hmi) as Hinv. simpl in Hinv.
  unfold clear_stack_busy in Hcl. destruct (index_or_panic _ _); [|done]. injection Hcl as <-.
  eapply minv_move; [done|done|by apply inv_set_stack_busy| | | | |by rewrite Hm'].
  - by apply calm_evolves, calm_same.
  - by apply local_hw.
  - intros c' x j Hne Hx Hj. destruct (mi_busy _ Hmi c' x j Hx Hj) as [Hb Hp]. simpl in *. split; [|done].
    rewrite list_lookup_insert_ne; [done|]. intros ->. by apply Hne, (mi_distinct _ Hmi c' c x m0 j).
  - apply Hok, (core_ok_frame s _ (S c) c); [by apply inv_set_stack_busy|by apply calm_evolves, calm_same| |lia|].
    + by apply local_hw.
    + exact (mi_ok _ Hmi c m0 Hm).
Qed.

Lemma minv_service s M s' :
  minv (mkMachine s M) -> sched_step s s' -> current (inner s') = current (inner s) ->
  stack_busy s' = stack_busy s -> cr3 (hw s') = cr3 (hw s) -> rsp0 (hw s') = rsp0 (hw s) ->
  kernel_rsp_slots (hw s') = kernel_rsp_slots (hw s) -> minv (mkMachine s' M).
Proof.
  intros [Hinv Hlen Hok Hbusy Hd] Hst Hc Hb H3 H0 Hk. simpl in *.
  pose proof (sched_step_inv _ _ Hst Hinv) as Hinv'. split; simpl; try done.
  - intros c x Hx. apply (core_ok_frame s s' (S c) c); [done|by apply step_evolves| |lia|by apply Hok].
    split; intros c' _; rewrite ?H3, ?H0, ?Hk; try done. by apply current_of_eq.
  - intros c x i Hx Hi. destruct (Hbusy c x i Hx Hi). rewrite Hb. split; [done|]. by eapply parked_step.
Qed.

(** A core that takes the scheduler lock, switches and leaves its stack. *)
Lemma minv_switch s M c top s1 s' b :
  minv (mkMachine s M) -> M !! c = Some (InTrap top) -> moves c s s1 -> current_of s1 c = None ->
  leave s1 c = Ret (s', b) ->
  minv (mkMachine s' (<[c := if b : bool then InTail top else InIdle]> M)).
Proof.
  intros Hmi Hm Hmv Hcur Hl. destruct (minv_current _ c top Hmi Hm) as [Hc _].
  destruct (leave_moves s1 c s' b (mv_inv _ _ _ Hmv) Hc Hcur Hl) as [Hmv' Hok].
  eapply minv_moves; [done|done|by eapply moves_trans|by destruct b|by destruct b].
Qed.

Lemma minv_modes s M c m0 m' :
  minv (mkMachine s M) -> M !! c = Some m0 -> core_ok s c m' -> busy_of m' = None ->
  minv (mkMachine s (<[c := m']> M)).
Proof.
  intros Hmi Hm Hok Hb. eapply minv_moves; [done|done| |done|by rewrite Hb].
  split; [apply (mi_inv _ Hmi)|done..].
Qed.

Lemma minv_step m m' : smp_step m m' -> minv m -> minv m'.
Proof.
  intros Hst Hmi. destruct Hst as
    [s M c top Hm Hk|s M c top Hm Hk|s M c top Hm|s M c top f s' r Hm Ht|s M c top f s1 s' b Hm Hb Hl
    |s M c top f t p s1 s' b Hm Hp Hw Hl|s M c top p st s1 s' d Hm Hp Hmark Hf|s M c top i d s' b Hm Hl
    |s M c top i s1 s' b Hm Hr Hl|s M c top i s' Hm Hcl|s M c top Hm|s M c i s' Hm Hcl|s M c s' j Hm Hd
    |s M s' Hs Hc Hb H3 H0 Hk].
  - destruct (mi_ok _ Hmi c _ Hm) as [p Hon]. eapply minv_modes; [done|done| |done].
    exists p. split; [done|]. destruct Hon. simpl in *. congruence.
  - destruct (mi_ok _ Hmi c _ Hm) as [p Hon]. eapply minv_modes; [done|done| |done].
    exists p. split; [done|]. destruct Hon. simpl in *. congruence.
  - destruct (mi_ok _ Hmi c _ Hm) as (p & Hon & _). eapply minv_modes; [done|done|by exists p|done].
  - destruct (minv_current _ c top Hmi Hm) as (Hc & p & [Hp _ _ _] & _).
    destruct (tick_moves s c f s' r p (mi_inv _ Hmi) Hc Hp Ht) as [Hmv Hon].
    by eapply minv_moves.
  - destruct (minv_current _ c top Hmi Hm) as [Hc _].
    destruct (block_moves s c f s1 (mi_inv _ Hmi) Hc Hb) as [Hmv Hcur]. by eapply minv_switch.
  - destruct (minv_current _ c top Hmi Hm) as [Hc _].
    destruct (current_index s c p (mi_inv _ Hmi) Hp) as (_ & Hok & _).
    destruct (wait_moves s c f t p s1 (mi_inv _ Hmi) Hc Hok Hw) as [Hmv Hcur]. by eapply minv_switch.
  - by eapply minv_exit.
  - destruct (mi_ok _ Hmi c _ Hm) as (Hcur & Htop & _).
    assert (c < MAX_CORES) as Hc by (rewrite <- (mi_cores _ Hmi); by eapply lookup_lt_Some).
    destruct (leave_moves s c s' b (mi_inv _ Hmi) Hc Hcur Hl) as [Hmv Hok].
    eapply minv_moves; [done|done|done|by destruct b|]. by destruct b.
  - by eapply minv_evict.
  - by eapply (minv_clear s M c (InExitTail top i)); [..|intros x [? _]|].
  - destruct (mi_ok _ Hmi c _ Hm) as [p Hon]. eapply minv_modes; [done|done|by exists p|done].
  - by eapply (minv_clear s M c (InIdleBusy i)).
  - destruct (mi_ok _ Hmi c _ Hm) as [Hcur _].
    assert (c < MAX_CORES) as Hc by (rewrite <- (mi_cores _ Hmi); by eapply lookup_lt_Some).
    destruct (leave_moves s c s' true (mi_inv _ Hmi) Hc Hcur) as [Hmv Hok]; [by unfold leave; rewrite Hd|].
    by eapply minv_moves.
  - by eapply minv_service.
Qed.

Lemma minv_new : minv machine_new.
Proof.
  assert (forall c x, replicate MAX_CORES InIdle !! c = Some x -> x = InIdle /\ c < MAX_CORES) as Hr.
  { by intros c x [-> ?]%lookup_replicate. }
  unfold machine_new. split; cbn [msched modes]; [|done|..].
  - apply (inv_same_inner sched_new); [done| |apply inv_new]. by destruct (proj1 inv_new).
  - intros c x [-> Hc]%Hr. split; [|by apply lookup_replicate].
    unfold current_of. cbn [inner set_hw sched_new inner_new current]. by rewrite lookup_replicate_2 by done.
  - by intros c x i [-> _]%Hr.
  - by intros c1 c2 x1 x2 i [-> _]%Hr.
Qed.

Lemma reachable_minv m : rtc smp_step machine_new m -> minv m.
Proof.
  intros Hr. pose proof minv_new as H0. revert H0.
  induction Hr as [|m1 m2 m3 Hst _ IH]; [done|]. intros H1. apply IH. by eapply minv_step.
Qed.

(** ** Kernel stacks and address spaces *)

Lemma current_slot_unique s c1 c2 p1 p2 :
  inv s -> current_of s c1 = Some p1 -> current_of s c2 = Some p2 -> pid_index p1 = pid_index p2 -> c1 = c2.
Proof.
  intros Hinv H1 H2 Heq.
  destruct (current_index s c1 p1 Hinv H1) as (_ & _ & b1 & B1 & E1).
  destruct (current_index s c2 p2 Hinv H2) as (_ & _ & b2 & B2 & E2).
  rewrite Heq, B2 in B1. injection B1 as ->. rewrite E1 in E2. subst p2.
  destruct Hinv as (_ & T & G & Q & C & Hrep & HI).
  apply (current_of_Some _ _ _ _ _ _ _ Hrep) in H1, H2. by apply (ai_unique _ _ _ _ HI c1 c2 p1).
Qed.

(** Outside a handler's tail, a core's kernel stack is that of its current
    process or of the slot it has marked busy. *)
Lemma stack_slot m c x top :
  minv m -> modes m !! c = Some x -> stack_of x = Some top ->
  x = InTail top \/ exists i, top = stack_top i /\
    ((exists p, current_of (msched m) c = Some p /\ pid_index p = i) \/ busy_of x = Some i).
Proof.
  intros Hmi Hx Ht. pose proof (mi_ok _ Hmi c x Hx) as Hok.
  destruct x as [|t|t|t i d|t i|i|]; simpl in Ht; try done; injection Ht as ->.
  - destruct Hok as (p & [Hcur _ _ _] & ->). right. exists (pid_index p). split; [done|]. left. by exists p.
  - by left.
  - destruct Hok as (_ & -> & _). right. exists i. split; [done|]. by right.
  - destruct Hok as (_ & ->). right. exists i. split; [done|]. by right.
Qed.


(** C19: a core's page-table register never names an address space that may
    have been freed: it is the idle address space, that of the core's own
    current process, still in the table, or, between an exit and the switch
    that follows, that of a box the exiting core itself still owns. *)
Theorem cr3_never_dangles (m : Machine) (c : nat) (x : Mode)
    (Hr : rtc smp_step machine_new m) (Hx : modes m !! c = Some x) :
  exists f, cr3 (hw (msched m)) !! c = Some f /\
    ((exists p b, current_of (msched m) c = Some p /\
        processes (inner (msched m)) !! pid_index p = Some (Occupied b) /\
        f = pml4_frame (address_space (box_process b))) \/
     current_of (msched m) c = None /\ f = idle_pml4 \/
     exists top i d b, x = InExit top i d /\ b ∈ d /\ f = pml4_frame (address_space (box_process b))).
Proof.
  pose proof (mi_ok _ (reachable_minv m Hr) c x Hx) as Hok.
  assert (forall p, on_cpu (msched m) c p -> exists f, cr3 (hw (msched m)) !! c = Some f /\
    exists p b, current_of (msched m) c = Some p /\
      processes (inner (msched m)) !! pid_index p = Some (Occupied b) /\
      f = pml4_frame (address_space (box_process b))) as Hon.
  { intros p [Hcur (b & Hb & Hcr) _ _]. eexists. split; [done|]. by exists p, b. }
  destruct x as [|top|top|top i d|top i|i|]; simpl in Hok.
  1, 3: destruct Hok as [p (f & ? & ?)%Hon]; eauto.
  - destruct Hok as (p & (f & ? & ?)%Hon & _); eauto.
  - destruct Hok as (_ & _ & b & Hb & Hcr). eexists. split; [done|]. right; right. by exists top, i, d, b.
  - destruct Hok as ([p (f & ? & ?)%Hon] & _); eauto.
  - destruct Hok as [? ?]. eauto 10.
  - destruct Hok as [? ?]. eauto 10.
Qed.

(** A core in user mode traps and yields: its process goes to the tail of the
    queue and the head runs there, while the core is still on the stack of
    the process it gave away. *)
Lemma yield_run m c f p q Q :
  minv m -> modes m !! c = Some InUser -> frames_ok (msched m) -> frame_ok f = true ->
  current_of (msched m) c = Some p -> ready_list (msched m) = q :: Q ->
  exists m', rtc smp_step m m' /\ minv m' /\ frames_ok (msched m') /\
    modes m' = <[c := InTail (stack_top (pid_index p))]> (modes m) /\
    ready_list (msched m') = Q ++ [p] /\ current_of (msched m') c = Some q /\
    forall c', c' <> c -> current_of (msched m') c' = current_of (msched m) c'.
Proof.
  destruct m as [s M]. cbn [msched modes]. intros Hmi Hm Hf Hfr Hp HQ.
  destruct (mi_ok _ Hmi c _ Hm) as [p' [Hp' _ _ Hk]]. cbn [msched] in *. rewrite Hp in Hp'. injection Hp' as <-.
  pose proof (lookup_lt_Some _ _ _ Hm) as Hlen. pose proof (mi_cores _ Hmi) as Hcores. cbn [modes] in Hcores.
  destruct (tick_spec s c f (mi_inv _ Hmi) ltac:(lia) Hf Hfr) as (s' & r & Ht & _ & Hf' & Hoth & Hr).
  set (m1 := mkMachine s (<[c := InTrap (stack_top (pid_index p))]> M)).
  set (m2 := mkMachine s' (<[c := InTail (stack_top (pid_index p))]> M)).
  assert (smp_step (mkMachine s M) m1) as S1 by (by apply sm_syscall).
  assert (smp_step m1 m2) as S2.
  { unfold m1, m2. rewrite <- (list_insert_insert_eq M c (InTail (stack_top (pid_index p)))
      (InTrap (stack_top (pid_index p)))).
    eapply sm_tick; [by apply list_lookup_insert_eq|exact Ht]. }
  assert (minv m2) as Hmi2 by (eapply minv_step; [exact S2|]; by eapply minv_step).
  destruct r as [i|]; [|by destruct Hr as (_ & Hn & _); rewrite Hp in Hn].
  destruct Hr as (q' & Hq & Hcq & _). rewrite Hp, HQ in Hq. simpl in Hq. injection Hq as <- Hq.
  exists m2. split_and!; try done. eapply rtc_l; [exact S1|]. by apply rtc_once.
Qed.

(** The stacks of processes that yield are not protected.  Whenever two
    cores run user code and a third process is ready, there is a schedule in
    which the two cores end up on the same kernel stack: the first core yields
    and, before it has left the stack of its old process, the second yields
    too, picks that process up, and takes its next trap. *)
Theorem yield_shares_kernel_stack (m : Machine) (c0 c1 : nat) (q : Pid) (f0 f1 : TrapFrame)
    (Hr : rtc smp_step machine_new m) (H0 : modes m !! c0 = Some InUser)
    (H1 : modes m !! c1 = Some InUser) (Hne : c0 <> c1) (Hq : ready_list (msched m) = [q])
    (Hf : frames_ok (msched m)) (Hf0 : frame_ok f0 = true) (Hf1 : frame_ok f1 = true) :
  exists m' top, rtc smp_step m m' /\ modes m' !! c0 = Some (InTail top) /\
    modes m' !! c1 = Some (InTrap top).
Proof.
  pose proof (reachable_minv m Hr) as Hmi.
  destruct (mi_ok _ Hmi c0 _ H0) as [p [Hp _ _ _]], (mi_ok _ Hmi c1 _ H1) as [r [Hrr _ _ _]].
  destruct (yield_run m c0 f0 p q [] Hmi H0 Hf Hf0 Hp Hq) as (m1 & R1 & Hmi1 & Hfr1 & M1 & Q1 & _ & O1).
  destruct (yield_run m1 c1 f1 r p [] Hmi1) as (m2 & R2 & Hmi2 & _ & M2 & _ & P2 & _); try done.
  { by rewrite M1, list_lookup_insert_ne. }
  { by rewrite O1. }
  destruct m2 as [s M]. cbn [msched modes] in *.
  pose proof (lookup_lt_Some _ _ _ H0) as L0. pose proof (lookup_lt_Some _ _ _ H1) as L1.
  assert (modes m1 !! c0 = Some (InTail (stack_top (pid_index p)))) as E0.
  { by rewrite M1, list_lookup_insert_eq. }
  assert (M !! c1 = Some (InTail (stack_top (pid_index r)))) as E1.
  { rewrite M2, list_lookup_insert_eq; [done|]. by rewrite M1, length_insert. }
  destruct (mi_ok _ Hmi2 c1 _ E1) as [p' [Hp' _ _ Hk]]. cbn [msched] in *.
  rewrite P2 in Hp'. injection Hp' as <-.
  pose proof (lookup_lt_Some _ _ _ E1) as L2.
  exists (mkMachine s (<[c1 := InTrap (stack_top (pid_index p))]> (<[c1 := InUser]> M))), (stack_top (pid_index p)).
  split_and!.
  - etrans; [exact R1|]. etrans; [exact R2|]. eapply rtc_l; [by eapply sm_tail|]. apply rtc_once.
    apply sm_syscall; [by apply list_lookup_insert_eq|done].
  - cbn [modes]. rewrite M2, !list_lookup_insert_ne by done. done.
  - cbn [modes]. rewrite list_lookup_insert_eq; [done|]. by rewrite length_insert.
Qed.
End machine.

(** ** Demonstration machine: two cores in user mode, a third process ready *)
Section demo.
#[local] Existing Instance demo_selectors.

Definition spawn_demo (s : Sched) (p : Pid) : Sched :=
  fst (or_else (s, Ok tt) (spawn (fst (allocate_pid s)) (demo_process p None Ready))).

Definition demo_three : Sched :=
  spawn_demo (spawn_demo (spawn_demo sched_new (pid_new 0 1)) (pid_new 1 1)) (pid_new 2 1).

Definition demo_on0 : Sched := fst (or_else (sched_new, None) (dispatch_next demo_three 0)).
Definition demo_on1 : Sched := fst (or_else (sched_new, None) (dispatch_next demo_on0 1)).

Definition demo_machine : Machine :=
  mkMachine demo_on1 (<[1 := InUser]> (<[0 := InUser]> (replicate MAX_CORES InIdle))).

(** The rest of a handler after core 0 has given its process away. *)
Definition demo_tick0 : Sched :=
  fst (or_else (sched_new, None) (on_timer_tick_locked demo_on1 0 (demo_frame 0x400100))).
Definition demo_yielded : Machine :=
  mkMachine demo_tick0 (<[0 := InTail (stack_top 0)]> (<[0 := InTrap (stack_top 0)]> (modes demo_machine))).

Lemma spawn_demo_steps s p M :
  fits (fst (allocate_pid s)) (demo_process p None Ready) Ready ->
  spawn (fst (allocate_pid s)) (demo_process p None Ready) = Ret (spawn_demo s p, Ok tt) ->
  current (inner (fst (allocate_pid s))) = current (inner s) ->
  stack_busy (fst (allocate_pid s)) = stack_busy s -> hw (fst (allocate_pid s)) = hw s ->
  current (inner (spawn_demo s p)) = current (inner s) ->
  stack_busy (spawn_demo s p) = stack_busy s -> hw (spawn_demo s p) = hw s ->
  rtc (smp_step 0) (mkMachine s M) (mkMachine (spawn_demo s p) M).
Proof.
  intros Hf Hs C1 B1 W1 C2 B2 W2. eapply rtc_l.
  - apply (sm_service _ s M (fst (allocate_pid s))); rewrite ?W1; try done. apply st_allocate_pid.
  - apply rtc_once, sm_service; rewrite ?W1, ?W2; try congruence. by eapply st_spawn.
Qed.

Lemma demo_machine_reachable : rtc (smp_step 0) (machine_new 0) demo_machine.
Proof.
  assert (rtc (smp_step 0) (machine_new 0) (mkMachine demo_three (replicate MAX_CORES InIdle))) as H3.
  { etrans; [apply (spawn_demo_steps sched_new (pid_new 0 1)); [split|..]; vm_compute; done|].
    etrans; [apply (spawn_demo_steps _ (pid_new 1 1)); [split|..]; vm_compute; done|].
    apply (spawn_demo_steps _ (pid_new 2 1)); [split|..]; vm_compute; done. }
  etrans; [exact H3|]. eapply rtc_l; [apply (sm_idle 0 demo_three _ 0 demo_on0 0); vm_compute; reflexivity|].
  apply rtc_once, (sm_idle 0 demo_on0 _ 1 demo_on1 1); vm_compute; reflexivity.
Qed.

Lemma demo_yielded_reachable : rtc (smp_step 0) (machine_new 0) demo_yielded.
Proof.
  etrans; [exact demo_machine_reachable|].
  eapply rtc_l; [apply (sm_syscall 0 demo_on1 _ 0 (stack_top 0)); vm_compute; reflexivity|].
  apply rtc_once. eapply (sm_tick 0 demo_on1 _ 0 (stack_top 0) (demo_frame 0x400100) demo_tick0 (Some 2));
    vm_compute; reflexivity.
Qed.

(** Core 1 yields too, picks up core 0's old process and traps again. *)
Definition demo_tick1 : Sched :=
  fst (or_else (sched_new, None) (on_timer_tick_locked demo_tick0 1 (demo_frame 0x400200))).
Definition demo_shared : Machine :=
  mkMachine demo_tick1 (<[1 := InTrap (stack_top 0)]> (<[1 := InUser]> (<[1 := InTail (stack_top 1)]>
      (<[1 := InTrap (stack_top 1)]> (modes demo_yielded))))).

Lemma demo_shared_reachable : rtc (smp_step 0) (machine_new 0) demo_shared.
Proof.
  etrans; [exact demo_yielded_reachable|].
  eapply rtc_l; [apply (sm_syscall 0 demo_tick0 _ 1 (stack_top 1)); vm_compute; reflexivity|].
  eapply rtc_l; [eapply (sm_tick 0 demo_tick0 _ 1 (stack_top 1) (demo_frame 0x400200)
    demo_tick1 (Some 0)); vm_compute; reflexivity|].
  eapply rtc_l; [apply (sm_tail 0 demo_tick1 _ 1 (stack_top 1)); vm_compute; reflexivity|].
  apply rtc_once. apply (sm_syscall 0 demo_tick1 _ 1 (stack_top 0)); vm_compute; reflexivity.
Qed.


Lemma cr3_never_dangles_witness :
  exists f, cr3 (hw (msched demo_yielded)) !! 0 = Some f.
Proof.
  destruct (cr3_never_dangles 0 demo_yielded 0 (InTail (stack_top 0)) demo_yielded_reachable
    ltac:(vm_compute; reflexivity)) as (f & Hf & _).
  exists f. exact Hf.
Defined.

Lemma yield_shares_kernel_stack_witness :
  exists m' top, rtc (smp_step 0) demo_machine m' /\ modes m' !! 0 = Some (InTail top) /\
    modes m' !! 1 = Some (InTrap top).
Proof.
  apply (yield_shares_kernel_stack 0 demo_machine 0 1 (pid_new 2 1) (demo_frame 0x400100)
    (demo_frame 0x400200) demo_machine_reachable);
    [vm_compute; reflexivity|vm_compute; reflexivity|done|vm_compute; reflexivity
    |apply frames_okb_ok; vm_compute; reflexivity|reflexivity|reflexivity].
Defined.
End demo.
