(* ===== verification/Idle.v ===== *)
(** * Parking a core ([park_until_woken], [notify_idle_cores])

    A core with nothing to run sets its idle flag, looks at the ready queue
    once more and halts.  It is woken by the interrupt that whoever queues a
    process sends to every core whose flag is set.  [announces] says this of
    one scheduler step: a queue that was empty stays empty, or the sleeping
    core has been sent the reschedule interrupt. *)
From S2P Require Import Prelude Abi Ring CapTable Virt Process Sched SchedAbs SchedInv SchedExit SchedSteps.
From S2P Require Import SchedProps Uart Kernel Handlers.
Open Scope nat_scope.

(** Core [c], of LAPIC id [l], has its idle flag set. *)
Definition asleep (s : Sched) (c : nat) (l : Z) : Prop :=
  exists x, percpu s !! c = Some x /\ idle x = true /\ lapic_id x = l.

Definition nothing_ready (s : Sched) : bool := Ring.is_empty (ready (inner s)).

Abbreviation woken l evs := (EvIpi l RESCHEDULE_VECTOR ∈ evs).

Record announces (c : nat) (l : Z) (s s' : Sched) : Prop := {
  an_asleep : asleep s c l -> asleep s' c l;
  an_events : exists evs, events s' = events s ++ evs /\
    (asleep s c l -> nothing_ready s = true -> nothing_ready s' = true \/ woken l evs);
}.

Section announces.
Context (c : nat) (l : Z).

#[global] Instance announces_preorder : PreOrder (announces c l).
Proof.
  split.
  - intros s. split; [done|]. exists []. rewrite app_nil_r. split; [done|]. by left.
  - intros s1 s2 s3 [A1 (e1 & E1 & R1)] [A2 (e2 & E2 & R2)]. split; [auto|].
    exists (e1 ++ e2). rewrite E2, E1, app_assoc. split; [done|]. intros Ha Hr.
    rewrite elem_of_app. destruct (R1 Ha Hr) as [H2|]; [|by auto].
    destruct (R2 (A1 Ha) H2); auto.
Qed.

(** Steps that touch neither flags, nor queue, nor events. *)
Lemma announces_same s s' :
  percpu s' = percpu s -> events s' = events s -> ready (inner s') = ready (inner s) -> announces c l s s'.
Proof.
  intros Hp He Hr. split; [unfold asleep; by rewrite Hp|]. exists []. rewrite He, app_nil_r.
  split; [done|]. unfold nothing_ready. rewrite Hr. by left.
Qed.

Lemma announces_alter s f i :
  (forall x, idle (f x) = idle x /\ lapic_id (f x) = lapic_id x) ->
  announces c l s (set_percpu s (alter f i (percpu s))).
Proof.
  intros Hf. split.
  - intros (x & Hx & Hi & Hl). unfold asleep. simpl. destruct (decide (i = c)) as [->|Hne].
    + exists (f x). rewrite list_lookup_alter_eq, Hx. split; [done|]. destruct (Hf x). split; congruence.
    + exists x. by rewrite list_lookup_alter_ne.
  - exists []. simpl. rewrite app_nil_r. split; [done|]. by left.
Qed.

Lemma announces_set_current s i p : announces c l s (set_current s i p).
Proof.
  set (s1 := set_inner s (set_currents (inner s) (<[i := p]> (current (inner s))))).
  trans s1; [by apply announces_same|].
  trans (set_percpu s1 (alter (fun x => set_pc_current x (pid_or_zero p)) i (percpu s1)));
    [by apply announces_alter|by apply announces_same].
Qed.

Lemma notify_foldl (ps : list PerCpuSlot) s :
  let s' := foldl (fun s p => if idle p then send_ipi s (lapic_id p) RESCHEDULE_VECTOR else s) s ps in
  exists evs, events s' = events s ++ evs /\
    forall x, x ∈ ps -> idle x = true -> woken (lapic_id x) evs.
Proof.
  revert s. induction ps as [|p ps IH]; intros s; simpl.
  { exists []. rewrite app_nil_r. split; [done|]. by intros x Hx%elem_of_nil. }
  destruct (idle p) eqn:Hp.
  - destruct (IH (send_ipi s (lapic_id p) RESCHEDULE_VECTOR)) as (evs & He & Hw). simpl in He.
    exists (EvIpi (lapic_id p) RESCHEDULE_VECTOR :: evs). rewrite He, <- app_assoc. split; [done|].
    intros x [->|Hx]%elem_of_cons Hi; [by left|right; auto].
  - destruct (IH s) as (evs & He & Hw). exists evs. split; [done|].
    intros x [->|Hx]%elem_of_cons Hi; [congruence|auto].
Qed.

(** Whatever was queued before, notifying wakes the core. *)
Lemma announces_notify s s' :
  percpu s' = percpu s -> events s' = events s -> announces c l s (notify_idle_cores s').
Proof.
  intros Hp He. destruct (notify_foldl (percpu s') s') as (evs & Hev & Hw).
  change (events (notify_idle_cores s') = events s' ++ evs) in Hev.
  destruct (notify_idle_cores_eq s') as [evs' Heq]. split.
  - unfold asleep. rewrite Heq. simpl. by rewrite Hp.
  - exists evs. rewrite Hev, He. split; [done|]. intros (x & Hx & Hi & <-) _. right.
    apply Hw; [|done]. rewrite Hp. by eapply list_elem_of_lookup_2.
Qed.

Lemma announces_wake s p r : announces c l s (wake_blocked_process_locked s p r).
Proof.
  unfold wake_blocked_process_locked. destruct (occupied s p); [|done].
  case_bool_decide; [by apply announces_same|by apply announces_notify].
Qed.

Lemma announces_block s core f s' :
  block_current_process_locked s core f = Ret s' -> announces c l s s'.
Proof.
  unfold block_current_process_locked. destruct (current_of s core); [|by intros [= <-]].
  destruct (index_or_panic _ _) as [x|]; [|done]. intros [= <-].
  etrans; [|apply announces_set_current]. destruct x; try done.
  destruct (pending_wake _); [by apply announces_notify|by apply announces_same].
Qed.

Lemma announces_wait s core f t p s' r :
  wait_for_child_locked s core f t p = Ret (s', r) -> announces c l s s'.
Proof.
  unfold wait_for_child_locked. destruct (negb _); [by intros [= <- <-]|].
  destruct (proc_at s (pid_index t)) as [[| |b|par st]|]; try by intros [= <- <-].
  - case_decide; [|by intros [= <- <-]].
    destruct (block_current_process_locked _ core f) eqn:Hb; [|done]. intros [= <- <-].
    etrans; [|by eapply announces_block]. by apply announces_same.
  - case_decide; [|by intros [= <- <-]]. destruct (to_regs st). intros [= <- <-]. by apply announces_same.
Qed.

Lemma announces_remove s p : announces c l s (remove_from_ready_queue s p).
Proof.
  split; [done|]. exists []. rewrite app_nil_r. split; [done|]. intros _ He. left.
  unfold nothing_ready, Ring.is_empty in *. simpl. apply bool_decide_eq_true in He.
  rewrite He. simpl. unfold Ring.pop. by rewrite He.
Qed.

Lemma announces_clear s p : announces c l s (clear_current_everywhere s p).
Proof.
  unfold clear_current_everywhere. generalize (seq 0 MAX_CORES) as cs. intros cs. revert s.
  induction cs as [|i cs IH]; intros s; [done|]. cbn [foldl].
  case_decide; [|apply IH]. etrans; [|apply IH]. apply announces_set_current.
Qed.

Lemma announces_reap (f : finalizer) exiting st js st' :
  (forall s p status d s' d', f s p status d = Ret (s', d') -> announces c l s s') ->
  reap_loop f exiting st js = Ret st' -> announces c l (fst st) (fst st').
Proof.
  intros Hf. revert st. induction js as [|i js IH]; intros [s d] Hr; cbn [reap_loop] in Hr.
  { by injection Hr as <-. }
  destruct (reap_one f exiting (s, d) i) as [st1|] eqn:H1; [|done].
  etrans; [|by apply IH]. clear IH Hr. unfold reap_one in H1. cbn [fst].
  destruct (proc_at s i) as [[| |b|par status]|]; try by injection H1 as <-.
  - destruct (_ && _); [destruct st1; by eapply Hf|].
    destruct (bool_decide _); injection H1 as <-; [|done]. by apply announces_same.
  - case_decide; injection H1 as <-; [|done]. by apply announces_same.
Qed.

Lemma announces_finalize fuel s p status d s' d' :
  take_and_finalize_slot fuel s p status d = Ret (s', d') -> announces c l s s'.
Proof.
  revert s p status d s' d'. induction fuel as [|fuel IH]; intros s p status d s' d' Hr; [done|].
  cbn [take_and_finalize_slot] in Hr.
  destruct (index_or_panic _ _) as [[| |b|]|]; try done; try by injection Hr as <- <-.
  destruct (reap_loop _ _ _ _) as [[s1 d1]|] eqn:Hl; [|done]. injection Hr as <- <-.
  apply announces_reap in Hl; [|exact IH]. cbn [fst] in Hl. etrans; [|exact Hl]. clear Hl.
  trans (put_slot s (pid_index p) Empty); [by apply announces_same|].
  trans (clear_current_everywhere (remove_from_ready_queue (put_slot s (pid_index p) Empty) p) p).
  { etrans; [|apply announces_clear]. apply announces_remove. }
  generalize (clear_current_everywhere (remove_from_ready_queue (put_slot s (pid_index p) Empty) p) p).
  intros s3.
  destruct (wait_waiter _); [apply announces_wake|]. destruct (parent _); [by apply announces_same|done].
Qed.

(** ** Every scheduler step *)
Lemma rep_nothing_ready s T G Q C : rep s T G Q C -> nothing_ready s = bool_decide (Q = []).
Proof. intros [_ _ Hr _]. exact (Ring.ring_repr_is_empty _ _ _ Hr). Qed.

Lemma pop_events s s' o : ready_pop s = (s', o) -> events s' = events s /\ percpu s' = percpu s.
Proof. unfold ready_pop. destruct (Ring.pop _ _). by intros [= <- _]. Qed.

Context `{Selectors}.

Lemma dispatch_events s core s' r :
  dispatch_next s core = Ret (s', r) -> exists evs, events s' = events s ++ evs.
Proof.
  unfold dispatch_next. destruct (ready_pop s) as [s1 o] eqn:Hp. apply pop_events in Hp as [He _].
  destruct o as [p|]; [|intros [= <- <-]; exists []; by rewrite app_nil_r].
  destruct (switch_to s1 core p) as [[s2 [[i a] b]]|] eqn:Hs; [|done]. intros [= <- <-].
  assert (events s2 = events s1) as He2.
  { unfold switch_to in Hs.
    repeat match type of Hs with
    | (if ?c then _ else _) = _ => destruct c; [|done]
    | match index_or_panic ?l ?i with _ => _ end = _ => destruct (index_or_panic l i) as [[]|]; try done
    end; by injection Hs as <- _. }
  unfold maybe_print_switch. case_decide; simpl; rewrite He2, He; [by eexists|].
  exists []. by rewrite app_nil_r.
Qed.

Lemma inv_nothing_ready s : inv s -> nothing_ready s = bool_decide (ready_list s = []).
Proof.
  intros (_ & T & G & Q & C & Hrep & _). rewrite (rep_ready_list _ _ _ _ _ Hrep).
  by eapply rep_nothing_ready.
Qed.

Lemma dispatch_last s T G Q C core s' r :
  aux s -> rep s T G Q C -> ainv T G Q (<[core := None]> C) -> core < MAX_CORES -> length Q <= 1 ->
  dispatch_next s core = Ret (s', r) -> nothing_ready s' = true.
Proof.
  intros Ha Hrep HI Hcore HQ Hd. destruct Q as [|p [|]]; simpl in HQ; [| |lia].
  - unfold dispatch_next in Hd. destruct (rep_ready_pop_nil _ _ _ _ Hrep) as (s1 & Hpop & Hrep1).
    rewrite Hpop in Hd. injection Hd as <- <-. by rewrite (rep_nothing_ready _ _ _ _ _ Hrep1).
  - destruct (dispatch_next_cons s T G p [] C core Ha Hrep HI Hcore) as (b & _ & _ & Hres).
    destruct (frame_ok _); [|by destruct Hres as [? Heq]; rewrite Hd in Heq].
    destruct Hres as (s1 & Heq & Hinv1 & Hrl & _). rewrite Hd in Heq. injection Heq as -> _.
    by rewrite inv_nothing_ready, Hrl.
Qed.

(** With an empty queue, a core's own process goes through it and out again. *)
Lemma announces_tick s core f s' r :
  inv s -> core < MAX_CORES -> on_timer_tick_locked s core f = Ret (s', r) ->
  exists evs, events s' = events s ++ evs /\ (nothing_ready s = true -> nothing_ready s' = true).
Proof.
  intros (Ha & T & G & Q & C & Hrep & HI) Hcore Ht.
  change (on_timer_tick_locked s core f) with
    (let! s := preempt_current s core f in dispatch_next s core) in Ht.
  destruct (preempt_current_spec s T G Q C core f Ha Hrep HI Hcore)
    as (s1 & T1 & Hpre & Ha1 & Hrep1 & HI1 & _ & He). rewrite Hpre in Ht.
  destruct (dispatch_events _ _ _ _ Ht) as [evs Hev]. exists evs. rewrite Hev, He. split; [done|].
  rewrite (rep_nothing_ready _ _ _ _ _ Hrep). intros ->%bool_decide_eq_true.
  eapply dispatch_last; [exact Ha1|exact Hrep1|exact HI1|done| |exact Ht].
  by destruct (current_of s core); simpl; lia.
Qed.

(** One step of the scheduler while the core sleeps. *)
Lemma step_wakes s s' :
  sched_step s s' -> inv s ->
  exists evs, events s' = events s ++ evs /\
    (asleep s c l -> nothing_ready s = true -> nothing_ready s' = true \/ woken l evs).
Proof.
  intros Hst Hinv.
  assert (forall x y, announces c l x y -> exists evs, events y = events x ++ evs /\
    (asleep x c l -> nothing_ready x = true -> nothing_ready y = true \/ woken l evs)) as An by (by intros ? ? []).
  assert (forall x y, events y = events x -> nothing_ready y = nothing_ready x ->
    exists evs, events y = events x ++ evs /\
    (asleep x c l -> nothing_ready x = true -> nothing_ready y = true \/ woken l evs)) as Eq.
  { intros x y He Hn. exists []. rewrite app_nil_r, Hn. split; [done|]. by left. }
  destruct Hst as
    [s i id|s|s p|s q s' r Hf Hs|s q s' r Hf Hs|s t p Ht|R s p f Hf|s core fr s' r Hc Hs|s core s' r Hc Hn Hs
    |s p r Hp|s core fr s' Hc Hs|s core fr t p s' r Hc Hp Hs|s core p st s' d Hp Hs|s t s' d o Hp Hg Hs
    |s core t|s core s' r Hc Hs|s i s' Hs|s i s' Hs|s slot|s core v|s t k];
    try (by apply Eq).
  - apply Eq; unfold allocate_pid; by destruct (position _ _).
  - apply Eq; unfold release_reservation; destruct (pid_current_generation s p); try done;
      by destruct (proc_at s (pid_index p)) as [[]|].
  - unfold spawn, process_box_new, alloc_process_slot in Hs. case_decide; [by injection Hs as <- <-; apply Eq|].
    destruct (position _ _); [|done]. injection Hs as <- <-. by apply An, announces_notify.
  - unfold spawn_suspended, process_box_new, alloc_process_slot in Hs.
    case_decide; [by injection Hs as <- <-; apply Eq|].
    destruct (position _ _); [|done]. injection Hs as <- <-. by apply Eq.
  - unfold start_child. destruct (occupied s t); [|by apply Eq]. destruct (_ || _); [by apply Eq|].
    by apply An, announces_notify.
  - unfold with_process. destruct (occupied s p); [|by apply Eq].
    by destruct (f _); apply Eq.
  - destruct (announces_tick s core fr s' r Hinv Hc Hs) as (evs & He & Hn). exists evs. split; [done|]. auto.
  - destruct (dispatch_events _ _ _ _ Hs) as [evs He]. exists evs. split; [done|]. intros _ Hq. left.
    destruct Hinv as (Ha & T & G & Q & C & Hrep & HI).
    rewrite (rep_nothing_ready _ _ _ _ _ Hrep) in Hq. apply bool_decide_eq_true in Hq as ->.
    eapply dispatch_last; [exact Ha|exact Hrep| |exact Hc|simpl; lia|exact Hs].
    by rewrite (current_insert_id _ _ _ _ _ _ Hrep (ai_cores _ _ _ _ HI) Hc Hn).
  - apply An, announces_wake.
  - by eapply An, announces_block.
  - by eapply An, announces_wait.
  - by eapply An, announces_finalize.
  - unfold kill_scan in Hs. destruct (position _ _); [by injection Hs as <- <- <-; apply Eq|].
    destruct (finalize_slot s t Killed) as [[s1 d1]|] eqn:Hfin; [|done]. injection Hs as <- <- <-.
    by eapply An, announces_finalize.
  - by exists [EvIpi (from_option lapic_id 0%Z (alter (fun x => set_evict_request x (pid_raw t)) core (percpu s) !! core))
      RESCHEDULE_VECTOR]; split; [|left].
  - unfold reschedule_ipi_locked in Hs. destruct (_ || _); [by injection Hs as <- <-; apply Eq|].
    unfold mark_stack_busy in Hs. destruct (index_or_panic _ _); [|done]. by injection Hs as <- <-; apply Eq.
  - unfold mark_stack_busy in Hs. destruct (index_or_panic _ _); [|done]. by injection Hs as <-; apply Eq.
  - unfold clear_stack_busy in Hs. destruct (index_or_panic _ _); [|done]. by injection Hs as <-; apply Eq.
Qed.

(** A step of the other cores while core [c] keeps sleeping. *)
Definition asleep_step (s s' : Sched) : Prop := sched_step s s' /\ asleep s' c l.

Lemma asleep_run s s' :
  rtc asleep_step s s' -> inv s -> asleep s c l -> inv s' /\ asleep s' c l /\
  exists evs, events s' = events s ++ evs /\
    (nothing_ready s = true -> nothing_ready s' = true \/ woken l evs).
Proof.
  induction 1 as [s|s1 s2 s3 [Hst Hsl] _ IH]; intros Hinv Ha.
  { split_and!; [done..|]. exists []. rewrite app_nil_r. split; [done|]. by left. }
  destruct (step_wakes s1 s2 Hst Hinv) as (e1 & E1 & W1).
  destruct (IH (sched_step_inv _ _ Hst Hinv) Hsl) as (Hinv3 & Ha3 & e2 & E2 & W2).
  split_and!; [done..|]. exists (e1 ++ e2). rewrite E2, E1, app_assoc. split; [done|].
  intros Hn. rewrite elem_of_app. destruct (W1 Ha Hn) as [Hn2|]; [|by auto]. destruct (W2 Hn2); auto.
Qed.

End announces.

(** Core 0 parks while nothing is queued; then a first process is spawned. *)
#[local] Existing Instance demo_selectors.

Definition demo_parked : Kernel := fst (park_until_woken id (demo_kernel sched_new) 0).

Definition demo_spawned : Sched :=
  fst (or_else (sched_new, Ok tt)
    (spawn (fst (allocate_pid (ksched demo_parked))) (demo_process demo_parent None Ready))).

