(* ===== verification/Irq.v ===== *)
(** * Interrupt handlers and their acknowledgement
    ([arch/x86_64/context_switch.rs], [idt.rs], [interrupts.rs], [lapic.rs],
    [driver/mod.rs])

    The Rust side of every entry stub: timer ticks from the PIT and from the
    local APIC, the reschedule and test interrupts, the COM1 line through the
    driver table, and the faults that kill a process.  A core's local APIC
    and the legacy controller are hardware; [Apic] has the part of the first
    that decides what is delivered, as the architecture manual defines it: a
    vector is delivered only when its priority class is above that of every
    vector in service, and an end-of-interrupt retires the highest of those.

    A handler that switches to the idle loop never returns to the code after
    the call, so whatever that code would have done is not done.  The theorems
    show that every handler that returns has acknowledged its interrupt, and
    that the one that may not return leaves its core unable to take any
    further interrupt of the scheduler. *)
From S2P Require Import Prelude Abi Ring Rendezvous CapTable Phys Virt Process Sched.
From S2P Require Import SchedAbs SchedInv SchedSteps SchedProps Uart Kernel Handlers Idle.
Open Scope Z_scope.

Definition SPURIOUS_VECTOR : Z := 0xFF.
Definition TEST_IPI_VECTOR : Z := 0x41.
Definition LAPIC_TIMER_VECTOR : Z := 0x43.
Definition PANIC_HALT_VECTOR : Z := 0x44.
Definition PIC_1_OFFSET : Z := 32.
Definition TIMER_IRQ : Z := 0.
Definition IRQ4 : Z := 4.
Definition TIMER_VECTOR : Z := PIC_1_OFFSET + TIMER_IRQ.
Definition IRQ4_VECTOR : Z := PIC_1_OFFSET + IRQ4.
Definition PIT_FREQUENCY_HZ : Z := 100.
Definition MAX_IRQ : nat := 16.

(** Vectors in service, the most recent first; each was above the ones it
    interrupted, so the first is the highest. *)
Record Apic := mkApic { requested : gset Z; in_service : list Z }.

Definition priority_class (v : Z) : Z := v / 16.
Definition deliverable (a : Apic) (v : Z) : bool :=
  forallb (fun w => priority_class w <? priority_class v) (in_service a).
Definition request (a : Apic) (v : Z) : Apic := mkApic ({[v]} ∪ requested a) (in_service a).
Definition accept (a : Apic) (v : Z) : Apic := mkApic (requested a ∖ {[v]}) (v :: in_service a).
Definition retire (a : Apic) : Apic := mkApic (requested a) (tail (in_service a)).

(** The legacy controller: the two mask registers and the vectors whose end
    has not been signalled. *)
Record Pic := mkPic { mask1 : Z; mask2 : Z; pic_pending : list Z }.

Record Machine := mkMachine {
  kernel : Kernel;
  apics : list Apic;
  pic : Pic;
  ticks : Z;
  irq_table : list (option (Kernel -> Kernel));
}.

Definition set_kernel (m : Machine) (k : Kernel) : Machine := mkMachine k (apics m) (pic m) (ticks m) (irq_table m).
Definition set_apics (m : Machine) (a : list Apic) : Machine := mkMachine (kernel m) a (pic m) (ticks m) (irq_table m).
Definition set_pic (m : Machine) (p : Pic) : Machine := mkMachine (kernel m) (apics m) p (ticks m) (irq_table m).
Definition set_ticks (m : Machine) (t : Z) : Machine := mkMachine (kernel m) (apics m) (pic m) t (irq_table m).

Definition eoi (m : Machine) (core : nat) : Machine := set_apics m (alter retire core (apics m)).

(** [ChainedPics::notify_end_of_interrupt]. *)
Definition pic_eoi (m : Machine) (v : Z) : Machine :=
  set_pic m (mkPic (mask1 (pic m)) (mask2 (pic m)) (filter (fun w => w <> v) (pic_pending (pic m)))).

Definition unmask_irq4 (m : Machine) : Machine :=
  set_pic m (mkPic (Z.land (mask1 (pic m)) (Z.lnot (Z.shiftl 1 IRQ4))) (mask2 (pic m)) (pic_pending (pic m))).

(** The heartbeat line printed once per second is not recorded. *)
Definition on_timer_tick_bookkeeping (m : Machine) : outcome Machine :=
  assert! bool_decide (ticks m < 2 ^ 64 - 1) else "attempt to add with overflow";
  Ret (set_ticks m (ticks m + 1)).

(** ** The driver table *)
Definition register_irq (m : Machine) (irq : nat) (handler : Kernel -> Kernel) : outcome Machine :=
  let! _ := index_or_panic (irq_table m) irq in
  Ret (mkMachine (kernel m) (apics m) (pic m) (ticks m) (<[irq := Some handler]> (irq_table m))).

Definition dispatch_irq (m : Machine) (irq : nat) : outcome Machine :=
  let! h := index_or_panic (irq_table m) irq in
  Ret (match h with Some handler => set_kernel m (handler (kernel m)) | None => m end).

Definition irq4_handler (m : Machine) : outcome Machine :=
  let! m := dispatch_irq m (Z.to_nat IRQ4) in
  Ret (pic_eoi m IRQ4_VECTOR).

Section irq.
Context (W : nat) `{X86} `{Selectors} `{RightsOps} (poll_fuel : nat).

(** What follows a call into the scheduler is run only if the call returns. *)
Definition returns (r : Resume) : bool :=
  match r with RCaller _ | RProcess _ => true | RIdle _ | RHalt _ => false end.

Definition then_run (f : Machine -> Machine) (m : Machine) (x : outcome (Kernel * Resume)) : outcome (Machine * Resume) :=
  let! '(k, r) := x in
  let m := set_kernel m k in
  Ret (if returns r then f m else m, r).

(** ** The handlers *)
Definition ring3_timer_tick (m : Machine) (core : nat) (frame : TrapFrame) : outcome (Machine * Resume) :=
  let! m := on_timer_tick_bookkeeping m in
  then_run (fun m => pic_eoi m TIMER_VECTOR) m (on_timer_tick poll_fuel (kernel m) core frame).

Definition ring0_timer_tick (m : Machine) : outcome Machine :=
  let! m := on_timer_tick_bookkeeping m in
  Ret (pic_eoi m TIMER_VECTOR).

Definition ring3_reschedule (m : Machine) (core : nat) (frame : TrapFrame) : outcome (Machine * Resume) :=
  then_run (fun m => eoi m core) m (on_reschedule_ipi W poll_fuel (kernel m) core frame).

Definition ring0_reschedule (m : Machine) (core : nat) : Machine := eoi m core.

Definition ring3_lapic_timer_tick (m : Machine) (core : nat) (frame : TrapFrame) : outcome (Machine * Resume) :=
  then_run (fun m => eoi m core) m (on_timer_tick poll_fuel (kernel m) core frame).

Definition ring0_lapic_timer_tick (m : Machine) (core : nat) : Machine := eoi m core.

(** Counts the interrupt in the core's own slot. *)
Definition count_ipi (k : Kernel) (core : nat) : Kernel :=
  let s := ksched k in
  set_sched k (set_percpu s (alter (fun p => mkPerCpu (lapic_id p) (pc_ready p) (wrap64 (ipi_count p + 1)) (spin_count p)
    (pc_current p) (evict_request p) (idle p) (preempt_count p)) core (percpu s))).

Definition test_ipi_handler (m : Machine) (core : nat) : Machine := eoi (set_kernel m (count_ipi (kernel m) core)) core.

(** A fault in user mode ends the process as [SYS_EXIT] would, but for the
    status; a fault in the kernel is fatal. *)
Definition kill_faulting_process_and_reschedule (m : Machine) (core : nat) : outcome (Machine * Resume) :=
  then_run id m (terminate_current_process W poll_fuel (kernel m) core Faulted).

Definition divide_error_ring3 := kill_faulting_process_and_reschedule.
Definition invalid_opcode_ring3 := kill_faulting_process_and_reschedule.
Definition general_protection_fault_ring3 := kill_faulting_process_and_reschedule.
Definition page_fault_ring3 := kill_faulting_process_and_reschedule.

Definition divide_error_ring0 : outcome (Machine * Resume) := Panic "divide error".
Definition invalid_opcode_ring0 : outcome (Machine * Resume) := Panic "invalid opcode".

(** ** Delivery

    A vector of the local APIC interrupts user code with the given frame
    ([Some]) or kernel code ([None]); the result is where the core goes, or
    [None] when it resumes the kernel code it was in.  [PANIC_HALT_VECTOR]
    stops the core for good, and nothing is done for a spurious vector. *)
Definition handle (v : Z) (m : Machine) (core : nat) (frame : option TrapFrame)
    : outcome (Machine * option Resume) :=
  let entered x := let! '(m, r) := x in Ret (m, Some r) in
  if decide (v = RESCHEDULE_VECTOR) then
    match frame with
    | Some f => entered (ring3_reschedule m core f)
    | None => Ret (ring0_reschedule m core, None)
    end
  else if decide (v = LAPIC_TIMER_VECTOR) then
    match frame with
    | Some f => entered (ring3_lapic_timer_tick m core f)
    | None => Ret (ring0_lapic_timer_tick m core, None)
    end
  else if decide (v = TEST_IPI_VECTOR) then Ret (test_ipi_handler m core, RCaller <$> frame)
  else if decide (v = PANIC_HALT_VECTOR) then Ret (m, Some (RHalt "halted"))
  else Ret (m, RCaller <$> frame).

(** The vectors the kernel registers with the local APIC and acknowledges. *)
Definition lapic_vectors : list Z := [TEST_IPI_VECTOR; RESCHEDULE_VECTOR; LAPIC_TIMER_VECTOR; PANIC_HALT_VECTOR].

Definition deliver_vector (v : Z) (m : Machine) (core : nat) (a : Apic) (frame : option TrapFrame)
    : outcome (Machine * option Resume) :=
  handle v (set_apics m (<[core := accept a v]> (apics m))) core frame.

(** What can happen to a core's interrupts: a vector is requested, a
    requested one that can be delivered is, or something happens that does
    not concern this local APIC: other cores' work, the legacy controller's
    interrupts, system calls, faults and the idle loop. *)
Inductive irq_step (core : nat) : Machine -> Machine -> Prop :=
| ir_request m a v : apics m !! core = Some a ->
    irq_step core m (set_apics m (<[core := request a v]> (apics m)))
| ir_deliver m a v frame m' r : apics m !! core = Some a -> v ∈ lapic_vectors -> v ∈ requested a ->
    deliverable a v = true -> deliver_vector v m core a frame = Ret (m', r) -> irq_step core m m'
| ir_elsewhere m m' : apics m' !! core = apics m !! core -> irq_step core m m'.

(** ** Acknowledgement *)
Lemma returns_timer k core frame k' r : on_timer_tick poll_fuel k core frame = Ret (k', r) -> returns r = true.
Proof.
  unfold on_timer_tick. intros Hr. destruct (on_timer_tick_locked _ _ _) as [[s o]|]; [|done]. inv_ret. by destruct o.
Qed.

Lemma then_run_Ret f m x m' r :
  then_run f m x = Ret (m', r) -> exists k, x = Ret (k, r) /\ m' = if returns r then f (set_kernel m k) else set_kernel m k.
Proof. unfold then_run. destruct x as [[k r']|]; [|done]. intros Hr. simplify_eq. by exists k. Qed.

Lemma eoi_accept m core a v k : apics m !! core = Some a ->
  apics (eoi (set_kernel (set_apics m (<[core := accept a v]> (apics m))) k) core) !! core =
  Some (mkApic (requested a ∖ {[v]}) (in_service a)).
Proof.
  intros Ha. cbn [eoi set_kernel set_apics apics]. rewrite list_lookup_alter_eq, list_lookup_insert_eq; [done|].
  by eapply lookup_lt_Some.
Qed.

(** Every handler that returns has acknowledged its interrupt, and only
    its own: after a vector was delivered and its handler has returned to user
    or kernel code, what is in service on the core is what was in service
    before, and neither the other cores nor the legacy controller are touched.
    A timer tick always returns. *)
Theorem interrupts_acknowledged (v : Z) (m : Machine) (core : nat) (a : Apic) (frame : option TrapFrame) m' r
    (Ha : apics m !! core = Some a) (Hv : v ∈ lapic_vectors) (Hd : deliver_vector v m core a frame = Ret (m', r)) :
  (v = LAPIC_TIMER_VECTOR -> from_option returns true r = true) /\
  (from_option returns true r = true ->
   apics m' !! core = Some (mkApic (requested a ∖ {[v]}) (in_service a)) /\
   (forall other, other <> core -> apics m' !! other = apics m !! other) /\ pic m' = pic m).
Proof.
  split.
  { intros ->. unfold deliver_vector, handle in Hd. simpl in Hd. destruct frame as [f|]; [|by simplify_eq].
    destruct (ring3_lapic_timer_tick _ core f) as [[m2 r2]|] eqn:Hh; simplify_eq/=.
    apply then_run_Ret in Hh as (k & Hk & _). by apply returns_timer in Hk. }
  intros Hr.
  set (m1 := set_apics m (<[core := accept a v]> (apics m))).
  assert (exists k, m' = eoi (set_kernel m1 k) core) as [k ->].
  { unfold deliver_vector, handle in Hd. fold m1 in Hd. apply list_elem_of_In in Hv. simpl in Hv.
    destruct Hv as [<-|[<-|[<-|[<-|[]]]]]; simpl in Hd; [by destruct m1; simplify_eq; eexists| | |by simplify_eq].
    - destruct frame as [f|]; [|by destruct m1; simplify_eq; eexists].
      destruct (ring3_reschedule m1 core f) as [[m2 r2]|] eqn:Hh; simplify_eq/=.
      apply then_run_Ret in Hh as (k & _ & ->). rewrite Hr. by eexists.
    - destruct frame as [f|]; [|by destruct m1; simplify_eq; eexists].
      destruct (ring3_lapic_timer_tick m1 core f) as [[m2 r2]|] eqn:Hh; simplify_eq/=.
      apply then_run_Ret in Hh as (k & _ & ->). rewrite Hr. by eexists. }
  unfold m1. split; [by apply eoi_accept|]. split; [|done]. intros other Hne. cbn [eoi set_kernel set_apics apics].
  by rewrite list_lookup_alter_ne, list_lookup_insert_ne by done.
Qed.

(** ** A core that idles from inside a handler *)

(** Nothing of the scheduler's can reach the core. *)
Definition deaf (m : Machine) (core : nat) : Prop :=
  exists a, apics m !! core = Some a /\ RESCHEDULE_VECTOR ∈ in_service a.

Lemma deaf_deliverable a v : RESCHEDULE_VECTOR ∈ in_service a -> v ∈ lapic_vectors -> deliverable a v = false.
Proof.
  intros Hs Hv. unfold deliverable. apply not_true_iff_false. intros Hall. rewrite forallb_forall in Hall.
  apply list_elem_of_In, Hall in Hs. apply list_elem_of_In in Hv. simpl in Hv.
  by destruct Hv as [<-|[<-|[<-|[<-|[]]]]].
Qed.

Lemma deaf_step m m' core : deaf m core -> irq_step core m m' -> deaf m' core.
Proof.
  intros (a & Ha & Hs) Hst. destruct Hst as [m a' v Ha'|m a' v frame m' r Ha' Hv _ Hd _|m m' He]; simplify_eq.
  - exists (request a v). split; [|done]. cbn [apics set_apics]. apply list_lookup_insert_eq. by eapply lookup_lt_Some.
  - by rewrite deaf_deliverable in Hd.
  - exists a. by rewrite He.
Qed.

Lemma switch_idles k s i c msg :
  nothing_ready s = true -> is_Some (stack_busy s !! i) ->
  exists k', switch_to_next_or_halt W poll_fuel (set_sched k s) c msg (Some i) [] = Ret (k', RIdle (Some msg)).
Proof.
  intros Hn [y Hy]. apply bool_decide_eq_true in Hn. unfold switch_to_next_or_halt, ready_pop, Ring.pop.
  cbn [ksched set_sched]. rewrite decide_True by done. unfold abandon_process_stack_and_idle, clear_busy_opt, clear_stack_busy.
  rewrite (proj2 (index_or_panic_Ret _ i y)); [|exact Hy]. by eexists.
Qed.

Lemma evicted_core_idles k s c p frame :
  inv s -> current_of s c = Some p -> pid_raw p <> 0 -> nothing_ready s = true ->
  exists k' msg, on_reschedule_ipi W poll_fuel (set_sched k (request_eviction s c p)) c frame = Ret (k', RIdle msg).
Proof.
  intros (Ha & T & G & Q & C & Hrep & HI) Hcur Hne Hn.
  pose proof (current_of_Some _ _ _ _ _ _ _ Hrep Hcur) as HC.
  destruct (ai_running _ _ _ _ HI c p HC) as [i Hi].
  assert (pid_index p < MAX_PROCESSES)%nat as Hidx by (rewrite (ai_pid_index HI i p _ Hi); by eapply ai_index).
  assert (is_Some (percpu s !! c)) as [x Hx].
  { apply lookup_lt_is_Some_2. rewrite (aux_percpu s Ha), <- (ai_cores _ _ _ _ HI). by eapply lookup_lt_Some. }
  destruct (lookup_lt_is_Some_2 (stack_busy s) (pid_index p)) as [y Hy]; [by rewrite (aux_busy s Ha)|].
  unfold on_reschedule_ipi, reschedule_ipi_locked, request_eviction.
  cbn [ksched set_sched percpu set_percpu send_ipi emit]. rewrite list_lookup_alter_eq, Hx. cbn [fmap option_fmap option_map from_option].
  change (evict_request (set_evict_request x (pid_raw p))) with (pid_raw p).
  rewrite (proj2 (Z.eqb_neq _ _) Hne). set (s1 := set_percpu (send_ipi _ _ _) _).
  assert (current_of s1 c = Some p /\ stack_busy s1 = stack_busy s /\ ready (inner s1) = ready (inner s)) as (E1 & E2 & E3).
  { split_and!; [exact Hcur|done|done]. }
  clearbody s1. rewrite E1. cbn [fmap option_fmap option_map orb]. rewrite bool_decide_false by tauto.
  replace (mkPid (pid_raw p)) with p by by destruct p.
  assert (stack_busy (set_current s1 c None) = stack_busy s /\ ready (inner (set_current s1 c None)) = ready (inner s))
    as [E4 E5] by (split; [exact E2|exact E3]).
  revert E4 E5. generalize (set_current s1 c None). intros s2 E4 E5. unfold mark_stack_busy.
  rewrite (proj2 (index_or_panic_Ret _ (pid_index p) y)) by (by rewrite E4).
  edestruct (switch_idles) as [k' ->]; [| |by eexists _, _].
  - unfold nothing_ready in *. cbn. by rewrite E5.
  - apply lookup_lt_is_Some_2. cbn. rewrite length_insert, E4. by eapply lookup_lt_Some.
Qed.

(** C9: Killing the only runnable process of another core silences that core.
    When the reschedule interrupt sent by [terminate_process] evicts a core's
    process and nothing else is ready, the handler goes to the idle loop and
    never reaches its end-of-interrupt: whatever is requested, delivered or
    run on the machine from then on, neither the reschedule interrupt that
    would wake the core nor its timer tick nor the panic halt is ever
    delivered to it again. *)
Theorem eviction_deafens_core (m : Machine) (s : Sched) (c : nat) (p : Pid) (a : Apic) (frame : TrapFrame)
    (Hinv : inv s) (Hcur : current_of s c = Some p) (Hraw : pid_raw p <> 0) (Hn : nothing_ready s = true)
    (Hreq : ksched (kernel m) = request_eviction s c p) (Ha : apics m !! c = Some a) :
  exists m1 msg, deliver_vector RESCHEDULE_VECTOR m c a (Some frame) = Ret (m1, Some (RIdle msg)) /\
    forall m2, rtc (irq_step c) m1 m2 ->
      exists a2, apics m2 !! c = Some a2 /\ forall v, v ∈ lapic_vectors -> deliverable a2 v = false.
Proof.
  destruct (evicted_core_idles (kernel m) s c p frame Hinv Hcur Hraw Hn) as (k' & msg & Hk).
  replace (set_sched (kernel m) (request_eviction s c p)) with (kernel m) in Hk by (rewrite <- Hreq; by destruct (kernel m)).
  set (m0 := set_apics m (<[c := accept a RESCHEDULE_VECTOR]> (apics m))).
  exists (set_kernel m0 k'), msg. split.
  { unfold deliver_vector, handle. fold m0. rewrite decide_True by done. unfold ring3_reschedule, then_run.
    change (kernel m0) with (kernel m). by rewrite Hk. }
  assert (deaf (set_kernel m0 k') c) as Hd.
  { exists (accept a RESCHEDULE_VECTOR). split; [|by left].
    cbn [apics set_kernel m0 set_apics]. apply list_lookup_insert_eq. by eapply lookup_lt_Some. }
  intros m2 Hst. assert (deaf m2 c) as (a2 & Ha2 & Hs).
  { clear -Hd Hst. induction Hst as [|x y z Hxy _ IH]; [done|]. apply IH. by eapply deaf_step. }
  exists a2. split; [done|]. intros v Hv. by apply deaf_deliverable.
Qed.
End irq.

(** ** A machine with one process, on core 0 *)
Definition demo_irq (s : Sched) : Machine :=
  mkMachine (demo_kernel s) (replicate MAX_CORES (mkApic ∅ [])) (mkPic 0xEE 0xFF []) 0 (replicate MAX_IRQ None).

Definition demo_due : Apic := mkApic {[LAPIC_TIMER_VECTOR]} [].
Definition demo_ticking : Machine :=
  set_apics (demo_irq demo_s2) (<[0%nat := demo_due]> (apics (demo_irq demo_s2))).

Lemma interrupts_acknowledged_witness :
  exists m' r, @deliver_vector 1 demo_x86 demo_selectors 4 LAPIC_TIMER_VECTOR demo_ticking 0 demo_due
      (Some (demo_frame 0x400100)) = Ret (m', r) /\
    apics m' !! 0%nat = Some (mkApic (requested demo_due ∖ {[LAPIC_TIMER_VECTOR]}) []).
Proof.
  destruct (@deliver_vector 1 demo_x86 demo_selectors 4 LAPIC_TIMER_VECTOR demo_ticking 0 demo_due
      (Some (demo_frame 0x400100))) as [[m' r]|] eqn:Hd; [|vm_compute in Hd; discriminate Hd].
  exists m', r. split; [reflexivity|].
  destruct (@interrupts_acknowledged 1 demo_x86 demo_selectors 4 LAPIC_TIMER_VECTOR demo_ticking 0 demo_due
    _ m' r ltac:(reflexivity) ltac:(vm_compute; set_solver) Hd) as [Ht Hr].
  exact (proj1 (Hr (Ht eq_refl))).
Defined.

Definition demo_killed : Machine := demo_irq (request_eviction demo_s2 0 demo_parent).

Lemma eviction_deafens_core_witness :
  exists m1 msg, @deliver_vector 1 demo_x86 demo_selectors 4 RESCHEDULE_VECTOR demo_killed 0 (mkApic ∅ [])
      (Some (demo_frame 0x400100)) = Ret (m1, Some (RIdle msg)) /\
    exists a, apics m1 !! 0%nat = Some a /\ deliverable a RESCHEDULE_VECTOR = false.
Proof.
  destruct (@eviction_deafens_core 1 demo_x86 demo_selectors 4 demo_killed demo_s2 0 demo_parent (mkApic ∅ [])
    (demo_frame 0x400100)) as (m1 & msg & Hd & Hdeaf).
  - apply (@reachable_inv demo_selectors), demo_s2_reachable.
  - vm_compute. reflexivity.
  - vm_compute. discriminate.
  - vm_compute. reflexivity.
  - reflexivity.
  - reflexivity.
  - exists m1, msg. split; [exact Hd|]. destruct (Hdeaf m1 (rtc_refl _ _)) as (a & Ha & Hv).
    exists a. split; [exact Ha|]. apply Hv. vm_compute. set_solver.
Defined.
