(* ===== verification/Trap.v ===== *)
(** * Entering and leaving the kernel
      ([kernel/src/arch/x86_64/context_switch.rs], the entry stubs of
      [syscall.rs], the fault handlers of [idt.rs])

    The hand-written assembly as programs of a small machine: sixteen
    registers, the interrupt frame pushed by the processor in 64-bit mode, and
    memory as 64-bit words.  A Rust handler reached by [call] is a function on
    machine states.  The theorems show that each stub captures the interrupted
    context in exactly the [TrapFrame] layout, that leaving through a frame
    loads exactly that frame, and that an interrupt of the kernel itself is
    invisible to it. *)
From S2P Require Import Prelude Abi CapTable Virt Process Sched Kernel Handlers.
Open Scope Z_scope.

(** ** The machine *)
Inductive Reg :=
| RAX | RBX | RCX | RDX | RSI | RDI | RBP | RSP
| R8 | R9 | R10 | R11 | R12 | R13 | R14 | R15.

#[global] Instance Reg_eq_dec : EqDecision Reg.
Proof. solve_decision. Defined.

Record Cpu := mkCpu {
  gpr : Reg -> Z;
  c_rip : Z; c_cs : Z; c_rflags : Z; c_ss : Z;
  c_mem : Z -> Z;
  c_zf : bool;
}.

Definition set_gpr (c : Cpu) (r : Reg) (v : Z) : Cpu :=
  mkCpu (fun x => if decide (x = r) then v else gpr c x)
    (c_rip c) (c_cs c) (c_rflags c) (c_ss c) (c_mem c) (c_zf c).
Definition set_mem_word (c : Cpu) (a v : Z) : Cpu :=
  mkCpu (gpr c) (c_rip c) (c_cs c) (c_rflags c) (c_ss c)
    (fun x => if decide (x = a) then v else c_mem c x) (c_zf c).
Definition set_zf (c : Cpu) (b : bool) : Cpu :=
  mkCpu (gpr c) (c_rip c) (c_cs c) (c_rflags c) (c_ss c) (c_mem c) b.
Definition set_flags (c : Cpu) (f : Z) : Cpu :=
  mkCpu (gpr c) (c_rip c) (c_cs c) f (c_ss c) (c_mem c) (c_zf c).
Definition set_seg (c : Cpu) (i s t : Z) : Cpu :=
  mkCpu (gpr c) i s (c_rflags c) t (c_mem c) (c_zf c).

Definition push (c : Cpu) (v : Z) : Cpu :=
  let sp := wrap64 (gpr c RSP - 8) in set_gpr (set_mem_word c sp v) RSP sp.
Definition pop (c : Cpu) (r : Reg) : Cpu :=
  set_gpr (set_gpr c RSP (wrap64 (gpr c RSP + 8))) r (c_mem c (gpr c RSP)).

(** The interrupt-enable flag, bit 9 of [RFLAGS]. *)
Definition IF_BIT : Z := 0x200.
Definition clear_if (f : Z) : Z := Z.land f (Z.lnot IF_BIT).

(** An interrupt gate clears [VM], [RF], [NT], [IF] and [TF]. *)
Definition GATE_CLEARS : Z := 0x34300.
Definition gate_flags (f : Z) : Z := Z.land f (Z.lnot GATE_CLEARS).

(** The direction flag, bit 10, which string instructions run backwards with
    and which compiled code expects to be clear. *)
Definition direction_flag (c : Z) : bool := Z.testbit c 10.

(** [iretq] in 64-bit mode pops five words, whatever the privilege. *)
Definition iretq (c : Cpu) : Cpu :=
  let sp := gpr c RSP in
  let m := c_mem c in
  set_flags (set_seg (set_gpr c RSP (m (sp + 24))) (m sp) (m (sp + 8)) (m (sp + 32))) (m (sp + 16)).

(** Delivery through an interrupt gate in 64-bit mode: the stack is [TSS.RSP0]
    when the privilege level changes and the current one otherwise, aligned
    down to 16 bytes; [SS], [RSP], [RFLAGS], [CS], [RIP] and the error code of
    the vectors that have one are pushed, always. *)
Definition aligned16 (z : Z) : Z := z - z mod 16.
Definition from_user (c : Cpu) : bool := negb (Z.land (c_cs c) 3 =? 0).
Definition deliver (rsp0 kernel_cs : Z) (error_code : option Z) (c : Cpu) : Cpu :=
  let sp := gpr c RSP in
  let c1 := set_gpr c RSP (aligned16 (if from_user c then rsp0 else sp)) in
  let c1 := foldl push c1 ([c_ss c; sp; c_rflags c; c_cs c; c_rip c] ++ option_list error_code) in
  set_flags (set_seg c1 0 kernel_cs (if from_user c then 0 else c_ss c)) (gate_flags (c_rflags c)).

(** [SYSCALL]: the return address in [RCX], the flags in [R11], the flags of
    [SFMASK] cleared, and no change of stack. *)
Definition syscall_instr (kernel_cs kernel_ss : Z) (c : Cpu) : Cpu :=
  let c1 := set_gpr (set_gpr c RCX (c_rip c)) R11 (c_rflags c) in
  set_flags (set_seg c1 0 kernel_cs kernel_ss) (clear_if (c_rflags c)).

(** ** Programs *)
Inductive instr :=
| Push (r : Reg)
| PushCell (a : Z)
| Pop (r : Reg)
| MovReg (d s : Reg)
| MovLoad (d base : Reg) (off : Z)
| MovFromCell (d : Reg) (a : Z)
| MovToCell (a : Z) (s : Reg)
| TestAl3
| Jz (l : nat)
| Jmp (l : nat)
| Label (l : nat)
| Call (f : Cpu -> outcome Cpu)
| Cli
| Iretq.

(** The code after a label. *)
Fixpoint after_label (l : nat) (code : list instr) : list instr :=
  match code with
  | [] => []
  | Label k :: code => if decide (k = l) then code else after_label l code
  | _ :: code => after_label l code
  end.

(** The effect of an instruction that just falls through. *)
Definition plain (i : instr) (c : Cpu) : option Cpu :=
  match i with
  | Push r => Some (push c (gpr c r))
  | PushCell a => Some (push c (c_mem c a))
  | Pop r => Some (pop c r)
  | MovReg d s => Some (set_gpr c d (gpr c s))
  | MovLoad d b off => Some (set_gpr c d (c_mem c (gpr c b + off)))
  | MovFromCell d a => Some (set_gpr c d (c_mem c a))
  | MovToCell a s => Some (set_mem_word c a (gpr c s))
  | TestAl3 => Some (set_zf c (Z.land (gpr c RAX) 3 =? 0))
  | Label _ => Some c
  | Cli => Some (set_flags c (clear_if (c_rflags c)))
  | Jz _ | Jmp _ | Call _ | Iretq => None
  end.

(** [None]: the fuel did not suffice.  A panicking handler stops the run. *)
Fixpoint exec (fuel : nat) (full code : list instr) (c : Cpu) : option (outcome Cpu) :=
  match fuel, code with
  | O, _ => None
  | _, [] => Some (Panic "ran off the end")
  | S fuel, i :: code =>
      match i with
      | Jz l => exec fuel full (if c_zf c then after_label l full else code) c
      | Jmp l => exec fuel full (after_label l full) c
      | Call f => match f c with Ret c => exec fuel full code c | Panic w => Some (Panic w) end
      | Iretq => Some (Ret (iretq c))
      | _ => match plain i c with Some c => exec fuel full code c | None => None end
      end
  end.

(** The stubs only jump forwards: one unit of fuel per instruction is enough. *)
Definition run (code : list instr) (c : Cpu) : option (outcome Cpu) := exec (length code) code code c.

(** ** The stubs *)
Definition save_order : list Reg :=
  [RAX; RBX; RCX; RDX; RSI; RDI; RBP; R8; R9; R10; R11; R12; R13; R14; R15].
Definition restore_order : list Reg :=
  [R15; R14; R13; R12; R11; R10; R9; R8; RBP; RDI; RSI; RDX; RCX; RBX; RAX].

Definition restore : list instr := (Pop <$> restore_order) ++ [Iretq].

Definition timer_interrupt_entry (ring3_tick ring0_tick : Cpu -> outcome Cpu) : list instr :=
  (Push <$> save_order) ++
  [MovLoad RAX RSP 128; TestAl3; Jz 2;
   Label 1; MovReg RDI RSP; Call ring3_tick; MovReg RSP RAX; Jmp 3;
   Label 2; Call ring0_tick;
   Label 3] ++ restore.

Definition exception_entry_no_code (ring0 ring3 : Cpu -> outcome Cpu) : list instr :=
  (Push <$> save_order) ++
  [MovLoad RAX RSP 128; TestAl3; Jz 2;
   Label 1; MovReg RDI RSP; Call ring3; MovReg RSP RAX; Jmp 3;
   Label 2; MovReg RDI RSP; Call ring0;
   Label 3] ++ restore.

Definition exception_entry_with_code (ring0 ring3 : Cpu -> outcome Cpu) : list instr :=
  (Push <$> save_order) ++
  [MovLoad RAX RSP 136; TestAl3; Jz 2;
   Label 1; MovReg RDI RSP; Call ring3; MovReg RSP RAX; Jmp 3;
   Label 2; MovReg RDI RSP; Call ring0;
   Label 3] ++ restore.

(** One core's [SYSCALL] stub, over its own pair of cells and the shared
    selector cells. *)
Record SyscallCells := mkCells { kernel_rsp : Z; scratch_rsp : Z; user_cs : Z; user_ss : Z }.

Definition syscall_entry_stub (s : SyscallCells) (dispatch : Cpu -> outcome Cpu) : list instr :=
  [MovToCell (scratch_rsp s) RSP; MovFromCell RSP (kernel_rsp s);
   PushCell (user_ss s); PushCell (scratch_rsp s); Push R11; PushCell (user_cs s); Push RCX] ++
  (Push <$> save_order) ++ [MovReg RDI RSP; Call dispatch; MovReg RSP RAX] ++ restore.

(** [resume]: the compiler passes the frame's address in some register. *)
Definition resume (reg : Reg) : list instr := [Cli; MovReg RSP reg] ++ restore.

(** ** Frames in memory *)

(** [TrapFrame] is [repr(C)]: twenty words in field order. *)
Definition frame_at (m : Z -> Z) (p : Z) : TrapFrame :=
  mkFrame (m p) (m (p + 8)) (m (p + 16)) (m (p + 24)) (m (p + 32)) (m (p + 40)) (m (p + 48))
    (m (p + 56)) (m (p + 64)) (m (p + 72)) (m (p + 80)) (m (p + 88)) (m (p + 96)) (m (p + 104))
    (m (p + 112)) (m (p + 120)) (m (p + 128)) (m (p + 136)) (m (p + 144)) (m (p + 152)).

(** [FaultFrameWithCode] has the error code between [rax] and [rip]. *)
Record FaultFrameWithCode := mkFault { fault_frame : TrapFrame; error_code : Z }.
Definition fault_frame_at (m : Z -> Z) (p : Z) : FaultFrameWithCode :=
  mkFault
    (mkFrame (m p) (m (p + 8)) (m (p + 16)) (m (p + 24)) (m (p + 32)) (m (p + 40)) (m (p + 48))
      (m (p + 56)) (m (p + 64)) (m (p + 72)) (m (p + 80)) (m (p + 88)) (m (p + 96)) (m (p + 104))
      (m (p + 112)) (m (p + 128)) (m (p + 136)) (m (p + 144)) (m (p + 152)) (m (p + 160)))
    (m (p + 120)).

(** The context a core is executing, in the shape of a frame. *)
Definition context (c : Cpu) : TrapFrame :=
  mkFrame (gpr c R15) (gpr c R14) (gpr c R13) (gpr c R12) (gpr c R11) (gpr c R10) (gpr c R9)
    (gpr c R8) (gpr c RBP) (gpr c RDI) (gpr c RSI) (gpr c RDX) (gpr c RCX) (gpr c RBX) (gpr c RAX)
    (c_rip c) (c_cs c) (c_rflags c) (gpr c RSP) (c_ss c).

(** ** Running straight-line code *)
Lemma exec_plain fuel full i code c c' :
  plain i c = Some c' -> exec (S fuel) full (i :: code) c = exec fuel full code c'.
Proof. destruct i; simpl; intros Hp; by simplify_eq. Qed.

Lemma exec_pushes rs fuel full code c :
  RSP ∉ rs ->
  exec (length rs + fuel) full ((Push <$> rs) ++ code) c =
  exec fuel full code (foldl push c (gpr c <$> rs)).
Proof.
  revert c. induction rs as [|r rs IH]; intros c Hrs; [done|].
  apply not_elem_of_cons in Hrs as [Hr Hrs]. cbn [length Nat.add fmap list_fmap app foldl].
  etrans; [apply (exec_plain _ _ (Push r) _ c (push c (gpr c r)) eq_refl)|].
  etrans; [by apply IH|]. f_equal. f_equal.
  apply list_fmap_ext. intros i x Hx. unfold push, set_gpr, set_mem_word. simpl.
  rewrite decide_False; [done|]. intros ->. by apply Hrs, (list_elem_of_lookup_2 _ i).
Qed.

Lemma exec_pops rs fuel full code c :
  exec (length rs + fuel) full ((Pop <$> rs) ++ code) c = exec fuel full code (foldl pop c rs).
Proof. revert c. induction rs as [|r rs IH]; intros c; [done|]. apply IH. Qed.

(** The [n] words from [p] up. *)
Definition stack_words (m : Z -> Z) (p : Z) (n : nat) : list Z := (fun i => m (p + 8 * Z.of_nat i)) <$> seq 0 n.

Lemma stack_words_S m p n : stack_words m p (S n) = m p :: stack_words m (p + 8) n.
Proof.
  unfold stack_words. cbn [seq fmap list_fmap]. f_equal; [f_equal; lia|].
  rewrite <- fmap_S_seq, <- list_fmap_compose. apply list_fmap_ext. intros i x _. simpl. f_equal. lia.
Qed.

Lemma stack_words_ext m m' p n :
  (forall a, p <= a -> m a = m' a) -> stack_words m p n = stack_words m' p n.
Proof. intros Hm. apply list_fmap_ext. intros i x _. apply Hm. lia. Qed.

Lemma stack_words_lookup m p n i : (i < n)%nat -> stack_words m p n !! i = Some (m (p + 8 * Z.of_nat i)).
Proof. intros Hi. unfold stack_words. by rewrite list_lookup_fmap, lookup_seq_lt. Qed.

(** Pushing a list of values lays them out below the stack pointer, last on
    top, and touches nothing else. *)
Lemma pushes_spec vs c n :
  8 * Z.of_nat (length vs) <= gpr c RSP < 2 ^ 64 ->
  let c' := foldl push c vs in
  gpr c' RSP = gpr c RSP - 8 * Z.of_nat (length vs) /\
  (forall r, r <> RSP -> gpr c' r = gpr c r) /\
  stack_words (c_mem c') (gpr c' RSP) (length vs + n) = reverse vs ++ stack_words (c_mem c) (gpr c RSP) n /\
  (forall a, a < gpr c' RSP \/ gpr c RSP <= a -> c_mem c' a = c_mem c a) /\
  c_rip c' = c_rip c /\ c_cs c' = c_cs c /\ c_rflags c' = c_rflags c /\ c_ss c' = c_ss c.
Proof.
  revert c n. induction vs as [|v vs IH]; intros c n Hsp; cbn [foldl length] in *.
  { split_and!; try done. lia. }
  assert (wrap64 (gpr c RSP - 8) = gpr c RSP - 8) as Hw by (apply wrap_small; unfold in_width; lia).
  assert (gpr (push c v) RSP = gpr c RSP - 8) as Hsp1 by (unfold push, set_gpr; simpl; by rewrite Hw).
  destruct (IH (push c v) (S n)) as (Hr & Hg & Hws & Hm & Hrest); [rewrite Hsp1; lia|].
  cbv zeta. rewrite Hsp1 in *.
  assert (forall a, a <> gpr c RSP - 8 -> c_mem (push c v) a = c_mem c a) as Hne.
  { intros a Ha. unfold push. simpl. rewrite Hw. by rewrite decide_False. }
  split_and!; try apply Hrest.
  - rewrite Hr. lia.
  - intros r Hne'. rewrite Hg by done. unfold push, set_gpr, set_mem_word. simpl. by rewrite decide_False.
  - replace (S (length vs) + n)%nat with (length vs + S n)%nat by lia. rewrite Hws, reverse_cons, <- app_assoc.
    f_equal. rewrite stack_words_S. cbn [app]. f_equal.
    + unfold push. simpl. rewrite Hw. by rewrite decide_True.
    + replace (gpr c RSP - 8 + 8) with (gpr c RSP) by lia. apply stack_words_ext. intros a Ha. apply Hne. lia.
  - intros a Ha. rewrite Hm by lia. apply Hne. lia.
Qed.

Lemma pops_spec rs c :
  NoDup rs -> RSP ∉ rs -> 0 <= gpr c RSP -> gpr c RSP + 8 * Z.of_nat (length rs) < 2 ^ 64 ->
  let c' := foldl pop c rs in
  gpr c' RSP = gpr c RSP + 8 * Z.of_nat (length rs) /\ c_mem c' = c_mem c /\
  (forall i r, rs !! i = Some r -> gpr c' r = c_mem c (gpr c RSP + 8 * Z.of_nat i)) /\
  (forall r, r <> RSP -> r ∉ rs -> gpr c' r = gpr c r).
Proof.
  revert c. induction rs as [|x rs IH]; intros c Hnd Hsp Hlo Hhi; cbn [foldl length] in *.
  { split_and!; try done. lia. }
  apply NoDup_cons in Hnd as [Hx Hnd]. apply not_elem_of_cons in Hsp as [Hne Hsp].
  assert (gpr (pop c x) RSP = gpr c RSP + 8) as Hsp1.
  { unfold pop, set_gpr. simpl. rewrite decide_False by done. rewrite wrap_small; [done|]. unfold in_width. lia. }
  destruct (IH (pop c x) Hnd Hsp) as (Hr & Hm & Hg & Ho); [rewrite Hsp1; lia..|].
  cbv zeta. rewrite Hsp1 in *. split_and!; [lia|by rewrite Hm| |].
  - intros [|i] r Hi; simpl in Hi; simplify_eq.
    + rewrite Ho by done. unfold pop, set_gpr. simpl. rewrite decide_True by done. f_equal. lia.
    + rewrite (Hg i r Hi). cbn [c_mem pop set_gpr]. f_equal. lia.
  - intros r Hr1 [Hr2 Hr3]%not_elem_of_cons. rewrite Ho by done. unfold pop, set_gpr. simpl.
    by rewrite !decide_False.
Qed.

(** ** Leaving through a frame *)
Definition frame_fits (p : Z) : Prop := 0 <= p /\ p + 160 <= 2 ^ 64.

Lemma context_iretq c :
  context (iretq c) =
  mkFrame (gpr c R15) (gpr c R14) (gpr c R13) (gpr c R12) (gpr c R11) (gpr c R10) (gpr c R9)
    (gpr c R8) (gpr c RBP) (gpr c RDI) (gpr c RSI) (gpr c RDX) (gpr c RCX) (gpr c RBX) (gpr c RAX)
    (c_mem c (gpr c RSP)) (c_mem c (gpr c RSP + 8)) (c_mem c (gpr c RSP + 16))
    (c_mem c (gpr c RSP + 24)) (c_mem c (gpr c RSP + 32)).
Proof. reflexivity. Qed.

Lemma restore_spec fuel full c :
  frame_fits (gpr c RSP) ->
  exists c', exec (16 + fuel) full restore c = Some (Ret c') /\
    context c' = frame_at (c_mem c) (gpr c RSP) /\ c_mem c' = c_mem c.
Proof.
  intros [Hlo Hhi]. exists (iretq (foldl pop c restore_order)). split.
  - unfold restore. change 16%nat with (length restore_order + 1)%nat. rewrite <- Nat.add_assoc.
    by rewrite exec_pops.
  - destruct (pops_spec restore_order c) as (Hsp & Hm & Hg & _);
      [apply (bool_decide_unpack _); vm_compute; exact I|apply (bool_decide_unpack _); vm_compute; exact I
      |done|cbn; lia|].
    split; [|exact Hm].
    rewrite context_iretq. unfold frame_at. rewrite Hsp, Hm.
    rewrite (Hg 0%nat R15), (Hg 1%nat R14), (Hg 2%nat R13), (Hg 3%nat R12), (Hg 4%nat R11), (Hg 5%nat R10),
      (Hg 6%nat R9), (Hg 7%nat R8), (Hg 8%nat RBP), (Hg 9%nat RDI), (Hg 10%nat RSI), (Hg 11%nat RDX),
      (Hg 12%nat RCX), (Hg 13%nat RBX), (Hg 14%nat RAX) by done.
    f_equal; f_equal; cbn [length restore_order]; lia.
Qed.

(** ** Entering *)
Definition frame_fields (f : TrapFrame) : list Z :=
  [r15 f; r14 f; r13 f; r12 f; r11 f; r10 f; r9 f; r8 f; rbp f; rdi f; rsi f; rdx f; rcx f; rbx f; rax f;
   rip f; cs f; rflags f; rsp f; ss f].

Lemma frame_at_words m p f : stack_words m p 20 = frame_fields f -> frame_at m p = f.
Proof.
  change (stack_words m p 20) with [m (p + 0); m (p + 8); m (p + 16); m (p + 24); m (p + 32); m (p + 40);
    m (p + 48); m (p + 56); m (p + 64); m (p + 72); m (p + 80); m (p + 88); m (p + 96); m (p + 104);
    m (p + 112); m (p + 120); m (p + 128); m (p + 136); m (p + 144); m (p + 152)].
  rewrite Z.add_0_r. unfold frame_at. destruct f. cbn. intros Hw. injection Hw. intros. by subst.
Qed.

Lemma frame_at_ext m m' p : (forall a, p <= a < p + 160 -> m a = m' a) -> frame_at m p = frame_at m' p.
Proof. intros Hm. unfold frame_at. f_equal; apply Hm; lia. Qed.

Lemma fault_frame_at_words m p f e :
  stack_words m p 21 = take 15 (frame_fields f) ++ e :: drop 15 (frame_fields f) -> fault_frame_at m p = mkFault f e.
Proof.
  change (stack_words m p 21) with [m (p + 0); m (p + 8); m (p + 16); m (p + 24); m (p + 32); m (p + 40);
    m (p + 48); m (p + 56); m (p + 64); m (p + 72); m (p + 80); m (p + 88); m (p + 96); m (p + 104);
    m (p + 112); m (p + 120); m (p + 128); m (p + 136); m (p + 144); m (p + 152); m (p + 160)].
  rewrite Z.add_0_r. unfold fault_frame_at. destruct f. cbn. intros Hw. injection Hw. intros. by subst.
Qed.

(** Where the processor starts pushing. *)
Definition entry_sp (rsp0 : Z) (c : Cpu) : Z := aligned16 (if from_user c then rsp0 else gpr c RSP).

Lemma deliver_spec rsp0 kcs e c :
  let sp := entry_sp rsp0 c in
  let hw := option_list e ++ [c_rip c; c_cs c; c_rflags c; gpr c RSP; c_ss c] in
  let c' := deliver rsp0 kcs e c in
  48 <= sp < 2 ^ 64 ->
  gpr c' RSP = sp - 8 * Z.of_nat (length hw) /\ (forall r, r <> RSP -> gpr c' r = gpr c r) /\
  stack_words (c_mem c') (gpr c' RSP) (length hw) = hw /\
  (forall a, a < gpr c' RSP \/ sp <= a -> c_mem c' a = c_mem c a) /\
  c_rflags c' = gate_flags (c_rflags c).
Proof.
  intros sp hw c' Hsp. set (vs := [c_ss c; gpr c RSP; c_rflags c; c_cs c; c_rip c] ++ option_list e).
  assert (hw = reverse vs) as Hhw by (unfold hw, vs; by destruct e).
  assert (length hw = length vs) as Hlen by (by rewrite Hhw, length_reverse).
  assert (length vs <= 6)%nat as Hle by (unfold vs; destruct e; simpl; lia).
  destruct (pushes_spec vs (set_gpr c RSP sp) 0) as (Hr & Hg & Hw & Hm & _).
  { change (gpr (set_gpr c RSP sp) RSP) with sp. lia. }
  change (gpr (set_gpr c RSP sp) RSP) with sp in *.
  split_and!; [by rewrite Hlen| | | |done].
  - intros r Hne. etrans; [by apply Hg|]. unfold set_gpr. simpl. by rewrite decide_False.
  - rewrite Hlen, Hhw. etrans; [|apply (app_nil_r (reverse vs))]. by rewrite Nat.add_0_r in Hw.
  - exact Hm.
Qed.

(** The state after the register pushes of a stub. *)
Definition saved (c : Cpu) : Cpu := foldl push c (gpr c <$> save_order).

(** ... and at the call of the ring-3 handler. *)
Definition at_call (off : Z) (c : Cpu) : Cpu :=
  let s := saved c in
  let v := c_mem s (gpr s RSP + off) in
  set_gpr (set_zf (set_gpr s RAX v) (Z.land v 3 =? 0)) RDI (gpr s RSP).

Lemma at_call_spec off c :
  gpr (at_call off c) RDI = gpr (saved c) RSP /\ gpr (at_call off c) RSP = gpr (saved c) RSP /\
  c_mem (at_call off c) = c_mem (saved c) /\ c_rflags (at_call off c) = c_rflags (saved c).
Proof. unfold at_call. by generalize (saved c). Qed.

Lemma saved_spec rsp0 kcs e c :
  let d := deliver rsp0 kcs e c in
  let n := (20 + length (option_list e))%nat in
  let p := entry_sp rsp0 c - 8 * Z.of_nat n in
  168 <= entry_sp rsp0 c < 2 ^ 64 ->
  gpr (saved d) RSP = p /\
  stack_words (c_mem (saved d)) p n =
    take 15 (frame_fields (context c)) ++ option_list e ++ drop 15 (frame_fields (context c)) /\
  (forall a, a < p \/ entry_sp rsp0 c <= a -> c_mem (saved d) a = c_mem c a) /\
  c_mem (saved d) (p + 8 * Z.of_nat (16 + length (option_list e))) = c_cs c.
Proof.
  intros d n p Hsp. destruct (deliver_spec rsp0 kcs e c) as (Hr & Hg & Hw & Hm & _); [lia|].
  fold d in Hr, Hg, Hw, Hm. rewrite length_app in Hr, Hw. cbn [length] in Hr, Hw.
  assert (length (option_list e) <= 1)%nat by (destruct e; simpl; lia).
  destruct (pushes_spec (gpr d <$> save_order) d (length (option_list e) + 5))
    as (Hr' & _ & Hw' & Hm' & _); [rewrite length_fmap, Hr; cbn [length save_order]; lia|].
  fold (saved d) in Hr', Hw', Hm'. rewrite length_fmap in Hr', Hw'. cbn [length save_order] in Hr', Hw'.
  assert (gpr (saved d) RSP = p) as Hp by (unfold p, n; lia).
  rewrite Hp in *. rewrite Hw in Hw'.
  assert (stack_words (c_mem (saved d)) p n =
    take 15 (frame_fields (context c)) ++ option_list e ++ drop 15 (frame_fields (context c))) as Hws.
  { unfold n. replace (20 + length (option_list e))%nat with (15 + (length (option_list e) + 5))%nat by lia.
    etrans; [exact Hw'|]. cbn [save_order fmap list_fmap]. rewrite !Hg by done. reflexivity. }
  split_and!; [done|done| |].
  - intros a Ha. rewrite Hm' by lia. apply Hm. lia.
  - assert (stack_words (c_mem (saved d)) p n !! (16 + length (option_list e))%nat = Some (c_cs c)) as Hcs
      by (rewrite Hws; by destruct e).
    rewrite stack_words_lookup in Hcs by (unfold n; lia). by apply (inj Some) in Hcs.
Qed.

(** The three shapes of interrupt entry. *)
Inductive Entry := TimerEntry | NoCodeEntry | WithCodeEntry.

Definition entry_code (e : Entry) (ring0 ring3 : Cpu -> outcome Cpu) : list instr :=
  match e with
  | TimerEntry => timer_interrupt_entry ring3 ring0
  | NoCodeEntry => exception_entry_no_code ring0 ring3
  | WithCodeEntry => exception_entry_with_code ring0 ring3
  end.
Definition entry_error (e : Entry) (code : Z) : option Z :=
  match e with WithCodeEntry => Some code | _ => None end.
Definition cs_offset (e : Entry) : Z := match e with WithCodeEntry => 136 | _ => 128 end.

Lemma run_saved tail c :
  run ((Push <$> save_order) ++ tail) c = exec (length tail) ((Push <$> save_order) ++ tail) tail (saved c).
Proof.
  unfold run. rewrite length_app, length_fmap. apply exec_pushes. by apply (bool_decide_unpack _).
Qed.

Lemma gpr_set_eq c r v : gpr (set_gpr c r v) r = v.
Proof. unfold set_gpr. simpl. by rewrite decide_True. Qed.

Lemma exec_Jz fuel full l code c :
  exec (S fuel) full (Jz l :: code) c = exec fuel full (if c_zf c then after_label l full else code) c.
Proof. done. Qed.
Lemma exec_Jmp fuel full l code c : exec (S fuel) full (Jmp l :: code) c = exec fuel full (after_label l full) c.
Proof. done. Qed.
Lemma exec_Call fuel full f code c :
  exec (S fuel) full (Call f :: code) c =
  match f c with Ret c => exec fuel full code c | Panic w => Some (Panic w) end.
Proof. done. Qed.

(** Runs a stub's concrete code from the state after the pushes. *)
Ltac exec_step := first [rewrite exec_Jz|rewrite exec_Jmp|rewrite exec_Call|erewrite exec_plain by reflexivity].
Ltac run_stub c Hcs :=
  unfold entry_code, timer_interrupt_entry, exception_entry_no_code, exception_entry_with_code;
  rewrite run_saved; cbn [cs_offset] in *; revert Hcs; generalize (saved c); intros ? Hcs;
  cbn [app]; match goal with |- context [exec (length ?l)] =>
    let n := eval vm_compute in (length l) in change (length l) with n end;
  do 3 exec_step; cbn [c_zf set_zf]; rewrite gpr_set_eq, Hcs.

Lemma stub_ring3 e ring0 ring3 c :
  Z.land (c_mem (saved c) (gpr (saved c) RSP + cs_offset e)) 3 <> 0 ->
  exists k full, run (entry_code e ring0 ring3) c =
    match ring3 (at_call (cs_offset e) c) with
    | Ret c2 => exec (16 + k) full restore (set_gpr c2 RSP (gpr c2 RAX))
    | Panic w => Some (Panic w)
    end.
Proof.
  unfold at_call. intros Hcs. apply Z.eqb_neq in Hcs.
  destruct e; run_stub c Hcs; do 3 exec_step; [exists 3%nat|exists 4%nat..]; eexists;
    (destruct (ring3 _); [do 2 exec_step|]); reflexivity.
Qed.

(** The state in which the ring-0 handler is called. *)
Definition at_call0 (e : Entry) (c : Cpu) : Cpu :=
  let s := saved c in
  let s' := set_zf (set_gpr s RAX (c_mem s (gpr s RSP + cs_offset e))) true in
  match e with TimerEntry => s' | _ => set_gpr s' RDI (gpr s RSP) end.

Lemma stub_ring0 e ring0 ring3 c :
  Z.land (c_mem (saved c) (gpr (saved c) RSP + cs_offset e)) 3 = 0 ->
  exists k full, run (entry_code e ring0 ring3) c =
    match ring0 (at_call0 e c) with
    | Ret c2 => exec (16 + k) full restore c2
    | Panic w => Some (Panic w)
    end.
Proof.
  unfold at_call0. intros Hcs. apply Z.eqb_eq in Hcs.
  destruct e; run_stub c Hcs; cbn [after_label app fmap list_fmap save_order]; rewrite decide_False, decide_True by done.
  - exists 6%nat. eexists. exec_step. destruct (ring0 _); [exec_step|]; reflexivity.
  - exists 6%nat. eexists. do 2 exec_step. destruct (ring0 _); [exec_step|]; reflexivity.
  - exists 6%nat. eexists. do 2 exec_step. destruct (ring0 _); [exec_step|]; reflexivity.
Qed.

(** The address of the captured frame, and what the handler reads there. *)
Definition frame_address (e : Entry) (sp : Z) : Z :=
  sp - match e with WithCodeEntry => 168 | _ => 160 end.
Definition captured (e : Entry) (m : Z -> Z) (p code : Z) : FaultFrameWithCode :=
  match e with WithCodeEntry => fault_frame_at m p | _ => mkFault (frame_at m p) code end.

Lemma delivered_capture e c rsp0 kcs code :
  let d := deliver rsp0 kcs (entry_error e code) c in
  let p := frame_address e (entry_sp rsp0 c) in
  168 <= entry_sp rsp0 c < 2 ^ 64 ->
  gpr (saved d) RSP = p /\ captured e (c_mem (saved d)) p code = mkFault (context c) code /\
  (forall a, a < p \/ entry_sp rsp0 c <= a -> c_mem (saved d) a = c_mem c a) /\
  c_mem (saved d) (gpr (saved d) RSP + cs_offset e) = c_cs c.
Proof.
  intros d p Hsp. destruct (saved_spec rsp0 kcs (entry_error e code) c Hsp) as (Hr & Hw & Hm & Hcs).
  fold d in Hr, Hw, Hm, Hcs.
  replace (entry_sp rsp0 c - 8 * Z.of_nat (20 + length (option_list (entry_error e code)))) with p in *
    by (unfold p, frame_address; destruct e; simpl; lia).
  split_and!; [done| |done|].
  - destruct e; cbn [captured]; [f_equal; by apply frame_at_words..|by apply fault_frame_at_words].
  - rewrite <- Hcs, Hr. f_equal. destruct e; simpl; lia.
Qed.

Lemma from_user_cs c : from_user c = negb (Z.land (c_cs c) 3 =? 0).
Proof. done. Qed.

Lemma clear_if_off f : Z.testbit (clear_if f) 9 = false.
Proof. unfold clear_if. by rewrite Z.land_spec, Z.lnot_spec, andb_false_r. Qed.
Lemma gate_flags_off f : Z.testbit (gate_flags f) 9 = false.
Proof. unfold gate_flags. by rewrite Z.land_spec, Z.lnot_spec, andb_false_r. Qed.
Lemma clear_if_direction f : direction_flag (clear_if f) = direction_flag f.
Proof. unfold direction_flag, clear_if. by rewrite Z.land_spec, Z.lnot_spec, andb_true_r. Qed.
Lemma gate_flags_direction f : direction_flag (gate_flags f) = direction_flag f.
Proof. unfold direction_flag, gate_flags. by rewrite Z.land_spec, Z.lnot_spec, andb_true_r. Qed.

Lemma saved_rflags c : c_rflags (saved c) = c_rflags c.
Proof.
  unfold saved. generalize (gpr c <$> save_order) as vs. intros vs. revert c.
  induction vs as [|v vs IH]; intros c; [done|]. simpl. by rewrite IH.
Qed.

(** C6: Interrupting a process.  Whichever of the three stubs the vector uses,
    an interrupt taken in user mode calls its ring-3 handler with interrupts
    off and the process's direction flag, on the process's kernel stack, with the address of a frame that holds
    exactly the interrupted registers (and the error code, for the vectors
    that have one), nothing else in memory having changed; when the handler
    returns the address of a frame, the core leaves the kernel with exactly
    the registers of that frame. *)
Theorem trap_from_user (e : Entry) (ring0 ring3 : Cpu -> outcome Cpu) (c : Cpu) (rsp0 kcs code : Z)
    (Huser : from_user c = true) (Htop : rsp0 mod 16 = 0) (Hroom : 168 <= rsp0 < 2 ^ 64) :
  let p := frame_address e rsp0 in
  let start := deliver rsp0 kcs (entry_error e code) c in
  exists ci, gpr ci RDI = p /\ gpr ci RSP = p /\ Z.testbit (c_rflags ci) 9 = false /\
    direction_flag (c_rflags ci) = direction_flag (c_rflags c) /\
    captured e (c_mem ci) p code = mkFault (context c) code /\
    (forall a, a < p \/ rsp0 <= a -> c_mem ci a = c_mem c a) /\
    match ring3 ci with
    | Panic w => run (entry_code e ring0 ring3) start = Some (Panic w)
    | Ret c2 => frame_fits (gpr c2 RAX) ->
        exists c3, run (entry_code e ring0 ring3) start = Some (Ret c3) /\
          context c3 = frame_at (c_mem c2) (gpr c2 RAX) /\ c_mem c3 = c_mem c2
    end.
Proof.
  intros p start. assert (entry_sp rsp0 c = rsp0) as He by (unfold entry_sp, aligned16; rewrite Huser; lia).
  destruct (delivered_capture e c rsp0 kcs code) as (Hr & Hf & Hm & Hcs); [lia|].
  rewrite He in *. fold p start in Hr, Hf, Hm, Hcs.
  destruct (stub_ring3 e ring0 ring3 start) as (k & full & Hrun).
  { rewrite Hcs. rewrite from_user_cs in Huser. apply negb_true_iff, Z.eqb_neq in Huser. done. }
  exists (at_call (cs_offset e) start). rewrite Hrun.
  destruct (at_call_spec (cs_offset e) start) as (-> & -> & -> & ->). rewrite saved_rflags.
  split_and!; [exact Hr|exact Hr|apply gate_flags_off|apply gate_flags_direction|exact Hf|exact Hm|].
  - destruct (ring3 _) as [c2|w]; [|done]. intros Hfit.
    destruct (restore_spec k full (set_gpr c2 RSP (gpr c2 RAX))) as (c3 & -> & Hctx & Hmem).
    { by rewrite gpr_set_eq. }
    exists c3. rewrite gpr_set_eq in Hctx. done.
Qed.

(** Interrupting the kernel.  An interrupt taken in kernel mode whose
    handler leaves its stack frame alone is invisible: execution continues
    with every register, the flags and the exact stack pointer it had. *)
Theorem trap_from_kernel (e : Entry) (ring0 ring3 : Cpu -> outcome Cpu) (c c2 : Cpu) (rsp0 kcs code : Z)
    (Hkernel : from_user c = false) (Hroom : 168 <= aligned16 (gpr c RSP) < 2 ^ 64)
    (Hcode : e <> WithCodeEntry) :
  let p := frame_address e (aligned16 (gpr c RSP)) in
  let start := deliver rsp0 kcs (entry_error e code) c in
  ring0 (at_call0 e start) = Ret c2 ->
  gpr c2 RSP = p -> (forall a, p <= a < p + 160 -> c_mem c2 a = c_mem (at_call0 e start) a) ->
  exists c3, run (entry_code e ring0 ring3) start = Some (Ret c3) /\ context c3 = context c /\
    c_mem c3 = c_mem c2.
Proof.
  intros p start Hret Hsp Hkeep.
  assert (entry_sp rsp0 c = aligned16 (gpr c RSP)) as He by (unfold entry_sp; by rewrite Hkernel).
  destruct (delivered_capture e c rsp0 kcs code) as (Hr & Hf & Hm & Hcs); [lia|].
  rewrite He in *. fold p start in Hr, Hf, Hm, Hcs.
  destruct (stub_ring0 e ring0 ring3 start) as (k & full & Hrun).
  { rewrite Hcs. rewrite from_user_cs in Hkernel. by apply negb_false_iff, Z.eqb_eq in Hkernel. }
  rewrite Hrun, Hret. assert (p + 160 = aligned16 (gpr c RSP)) as Hp by (unfold p, frame_address; destruct e; lia || done).
  destruct (restore_spec k full c2) as (c3 & -> & Hctx & Hmem); [unfold frame_fits; lia|].
  exists c3. split_and!; [done| |done]. rewrite Hctx, Hsp.
  assert (c_mem (at_call0 e start) = c_mem (saved start)) as Hs
    by (unfold at_call0; generalize (saved start); by destruct e).
  rewrite (frame_at_ext _ (c_mem (saved start))) by (rewrite <- Hs; exact Hkeep).
  apply (f_equal fault_frame) in Hf. destruct e; [exact Hf|exact Hf|congruence].
Qed.

(** ** System calls *)

(** The four cells are distinct words outside the core's kernel stack frame. *)
Record cells_ok (s : SyscallCells) (top : Z) : Prop := {
  co_scratch : scratch_rsp s <> kernel_rsp s /\ scratch_rsp s <> user_cs s /\ scratch_rsp s <> user_ss s;
  co_outside : forall a, a ∈ [scratch_rsp s; user_cs s; user_ss s] -> a < top - 160 \/ top <= a;
}.

Definition syscall_words (s : SyscallCells) (c : Cpu) : list Z :=
  [c_mem c (user_ss s); gpr c RSP; gpr c R11; c_mem c (user_cs s); gpr c RCX].

(** On the kernel stack, before the pushes. *)
Definition on_kernel_stack (s : SyscallCells) (c : Cpu) : Cpu :=
  set_gpr (set_mem_word c (scratch_rsp s) (gpr c RSP)) RSP (c_mem c (kernel_rsp s)).

Lemma push_mem_ne c v a : a <> wrap64 (gpr c RSP - 8) -> c_mem (push c v) a = c_mem c a.
Proof. intros Ha. unfold push. simpl. by rewrite decide_False. Qed.
Lemma push_sp c v : gpr (push c v) RSP = wrap64 (gpr c RSP - 8).
Proof. done. Qed.
Lemma push_gpr c v r : r <> RSP -> gpr (push c v) r = gpr c r.
Proof. intros Hr. unfold push, set_gpr, set_mem_word. simpl. by rewrite decide_False. Qed.

Fixpoint plains (code : list instr) (c : Cpu) : option Cpu :=
  match code with
  | [] => Some c
  | i :: code => match plain i c with Some c => plains code c | None => None end
  end.

Lemma exec_plains code fuel full rest c c' :
  plains code c = Some c' -> exec (length code + fuel) full (code ++ rest) c = exec fuel full rest c'.
Proof.
  revert c. induction code as [|i code IH]; intros c Hp; [simpl in *; by simplify_eq|].
  cbn [plains] in Hp. destruct (plain i c) as [c1|] eqn:Hi; [|done].
  cbn [app length Nat.add]. rewrite (exec_plain _ _ _ _ _ _ Hi). by apply IH.
Qed.

Definition syscall_prefix (s : SyscallCells) : list instr :=
  [MovToCell (scratch_rsp s) RSP; MovFromCell RSP (kernel_rsp s);
   PushCell (user_ss s); PushCell (scratch_rsp s); Push R11; PushCell (user_cs s); Push RCX].

Lemma syscall_prefix_spec s c :
  let top := c_mem c (kernel_rsp s) in
  cells_ok s top -> 160 <= top < 2 ^ 64 ->
  plains (syscall_prefix s) c = Some (foldl push (on_kernel_stack s c) (syscall_words s c)).
Proof.
  intros top [(Hs1 & Hs2 & Hs3) Hout] Htop.
  assert (forall z, 8 <= z < 2 ^ 64 -> wrap64 (z - 8) = z - 8) as Hw
    by (intros; apply wrap_small; unfold in_width; lia).
  pose proof (Hout (scratch_rsp s) ltac:(left)) as Ho1. pose proof (Hout (user_cs s) ltac:(right; left)) as Ho2.
  unfold syscall_prefix, syscall_words. cbn [plains plain foldl].
  assert (set_gpr (set_mem_word c (scratch_rsp s) (gpr c RSP)) RSP
    (c_mem (set_mem_word c (scratch_rsp s) (gpr c RSP)) (kernel_rsp s)) = on_kernel_stack s c) as ->.
  { unfold on_kernel_stack. simpl. by rewrite decide_False. }
  set (k := on_kernel_stack s c).
  assert (gpr k RSP = top) as Hsp by done.
  assert (c_mem k (user_ss s) = c_mem c (user_ss s)) as -> by (simpl; by rewrite decide_False).
  assert (c_mem k (user_cs s) = c_mem c (user_cs s)) as Hcs by (simpl; by rewrite decide_False).
  assert (c_mem k (scratch_rsp s) = gpr c RSP) as Hscr by (simpl; by rewrite decide_True).
  assert (gpr k R11 = gpr c R11 /\ gpr k RCX = gpr c RCX) as [H11 Hcx] by done.
  clearbody k. rewrite !push_gpr, H11, Hcx by done.
  assert (forall v, c_mem (push k v) (scratch_rsp s) = gpr c RSP) as Hp1.
  { intros v. rewrite push_mem_ne; [done|]. rewrite Hsp, Hw; lia. }
  assert (forall u v w, c_mem (push (push (push k u) v) w) (user_cs s) = c_mem c (user_cs s)) as Hp3.
  { intros u v w. rewrite !push_mem_ne; [exact Hcs|..];
      rewrite ?push_sp, ?Hsp, ?(Hw top), ?(Hw (top - 8)), ?(Hw (top - 8 - 8)) by lia; lia. }
  by rewrite Hp1, Hp3.
Qed.

(** The context a process gives up with [SYSCALL]: the instruction has put the
    return address in [RCX] and the flags in [R11]. *)
Definition syscall_context (s : SyscallCells) (c : Cpu) : TrapFrame :=
  mkFrame (gpr c R15) (gpr c R14) (gpr c R13) (gpr c R12) (c_rflags c) (gpr c R10) (gpr c R9)
    (gpr c R8) (gpr c RBP) (gpr c RDI) (gpr c RSI) (gpr c RDX) (c_rip c) (gpr c RBX) (gpr c RAX)
    (c_rip c) (c_mem c (user_cs s)) (c_rflags c) (gpr c RSP) (c_mem c (user_ss s)).

Lemma syscall_saved s c :
  let top := c_mem c (kernel_rsp s) in
  let k := foldl push (on_kernel_stack s c) (syscall_words s c) in
  160 <= top < 2 ^ 64 ->
  gpr (saved k) RSP = top - 160 /\
  stack_words (c_mem (saved k)) (top - 160) 20 =
    (gpr c <$> restore_order) ++ reverse (syscall_words s c) /\
  (forall a, a < top - 160 \/ top <= a -> a <> scratch_rsp s -> c_mem (saved k) a = c_mem c a).
Proof.
  intros top k Htop. unfold k. clear k. set (o := on_kernel_stack s c).
  assert (gpr o RSP = top) as Hsp by done.
  assert (forall r, r <> RSP -> gpr o r = gpr c r) as Hgo.
  { intros r Hr. unfold o, on_kernel_stack, set_gpr, set_mem_word. simpl. by rewrite decide_False. }
  assert (forall a, a <> scratch_rsp s -> c_mem o a = c_mem c a) as Hmo by (intros; simpl; by rewrite decide_False).
  clearbody o. set (k := foldl push o (syscall_words s c)).
  destruct (pushes_spec (syscall_words s c) o 0) as (Hr & Hg & Hw & Hm & _); [rewrite Hsp; cbn [length syscall_words]; lia|].
  fold k in Hr, Hg, Hw, Hm. cbn [length syscall_words] in Hr. rewrite Hsp in *. rewrite app_nil_r in Hw.
  destruct (pushes_spec (gpr k <$> save_order) k 5) as (Hr' & _ & Hw' & Hm' & _);
    [rewrite length_fmap, Hr; cbn [length save_order]; lia|].
  fold (saved k) in Hr', Hw', Hm'. rewrite length_fmap in Hr', Hw'. cbn [length save_order] in Hr', Hw'.
  assert (gpr (saved k) RSP = top - 160) as Hp by lia. rewrite Hp in *.
  split_and!; [done| |].
  - change 20%nat with (15 + 5)%nat. rewrite Hw'. change (length (syscall_words s c) + 0)%nat with 5%nat in Hw.
    rewrite Hw. f_equal. cbn [save_order restore_order fmap list_fmap]. rewrite !Hg, !Hgo by done. reflexivity.
  - intros a Ha Hne. rewrite Hm' by lia. rewrite Hm by lia. by apply Hmo.
Qed.

(** C16: System-call entry.  After [SYSCALL] with the core's stack cell naming
    the process's kernel stack, the stub calls the dispatcher with interrupts
    off, the process's direction flag and the address of a frame on that stack holding every register of the
    process, its stack pointer, return address and flags; when the dispatcher
    returns the address of a frame the core leaves with exactly that frame, so
    a dispatcher that changes only [rax] changes only [rax], beside the two
    registers [SYSCALL] itself overwrites. *)
Theorem syscall_entry_correct (s : SyscallCells) (dispatch : Cpu -> outcome Cpu) (c : Cpu) (kcs kss top : Z)
    (Htop : c_mem c (kernel_rsp s) = top) (Halign : top mod 16 = 0) (Hroom : 160 <= top < 2 ^ 64)
    (Hcells : cells_ok s top) :
  let start := syscall_instr kcs kss c in
  exists ci, gpr ci RDI = top - 160 /\ gpr ci RSP = top - 160 /\ Z.testbit (c_rflags ci) 9 = false /\
    direction_flag (c_rflags ci) = direction_flag (c_rflags c) /\
    frame_at (c_mem ci) (top - 160) = syscall_context s c /\
    (forall a, a < top - 160 \/ top <= a -> a <> scratch_rsp s -> c_mem ci a = c_mem c a) /\
    match dispatch ci with
    | Panic w => run (syscall_entry_stub s dispatch) start = Some (Panic w)
    | Ret c2 => frame_fits (gpr c2 RAX) ->
        exists c3, run (syscall_entry_stub s dispatch) start = Some (Ret c3) /\
          context c3 = frame_at (c_mem c2) (gpr c2 RAX) /\ c_mem c3 = c_mem c2
    end.
Proof.
  intros start. assert (c_mem start (kernel_rsp s) = top) as Hk by done.
  pose proof (syscall_prefix_spec s start) as Hpre. pose proof (syscall_saved s start) as Hsaved.
  cbv zeta in Hpre, Hsaved. rewrite Hk in Hpre, Hsaved. specialize (Hpre Hcells Hroom).
  destruct (Hsaved Hroom) as (Hr & Hw & Hm). clear Hsaved.
  assert (Z.testbit (c_rflags (saved (foldl push (on_kernel_stack s start) (syscall_words s start)))) 9 = false) as Hif
    by (rewrite saved_rflags; apply clear_if_off).
  assert (direction_flag (c_rflags (saved (foldl push (on_kernel_stack s start) (syscall_words s start)))) =
    direction_flag (c_rflags c)) as Hdf by (rewrite saved_rflags; apply clear_if_direction).
  set (k := foldl push (on_kernel_stack s start) (syscall_words s start)) in *.
  assert (run (syscall_entry_stub s dispatch) start =
    exec 19 (syscall_entry_stub s dispatch) ([MovReg RDI RSP; Call dispatch; MovReg RSP RAX] ++ restore) (saved k)) as ->.
  { unfold run. etrans; [apply (exec_plains (syscall_prefix s) 34 _ _ _ _ Hpre)|].
    apply (exec_pushes save_order 19). by apply (bool_decide_unpack _). }
  clearbody k. generalize dependent (saved k). intros s0 Hr Hw Hm Hif Hdf.
  cbn [app]. exec_step. rewrite exec_Call. exists (set_gpr s0 RDI (gpr s0 RSP)).
  split_and!; [exact Hr|exact Hr|exact Hif|exact Hdf| |exact Hm|].
  - apply frame_at_words. cbn [c_mem set_gpr]. rewrite Hw. reflexivity.
  - destruct (dispatch _) as [c2|w]; [|done]. intros Hfit. exec_step.
    destruct (restore_spec 0 (syscall_entry_stub s dispatch) (set_gpr c2 RSP (gpr c2 RAX)))
      as (c3 & Hrun & Hctx & Hmem); [by rewrite gpr_set_eq|].
    exists c3. rewrite gpr_set_eq in Hctx. split; [exact Hrun|done].
Qed.

(** [resume] loads a frame whatever register held its address. *)
Lemma resume_loads reg c :
  frame_fits (gpr c reg) ->
  exists c', run (resume reg) c = Some (Ret c') /\ context c' = frame_at (c_mem c) (gpr c reg) /\
    c_mem c' = c_mem c.
Proof.
  intros Hfit. unfold run, resume. cbn [app]. change (length _) with 18%nat. do 2 exec_step.
  destruct (restore_spec 0 (resume reg) (set_gpr (set_flags c (clear_if (c_rflags c))) RSP (gpr c reg)))
    as (c' & Hrun & Hctx & Hmem); [by rewrite gpr_set_eq|].
  exists c'. rewrite gpr_set_eq in Hctx. split; [exact Hrun|done].
Qed.

(** ** Faults in the kernel *)

(** [rsp] as [general_protection_fault_ring0] and [page_fault_ring0] report
    it: the address of the frame's [rsp] field. *)
Definition reported_rsp (frame : Z) : Z := frame + 152.

(** The stack pointer reported for a fault in the kernel.  The processor
    stores the faulting stack pointer in the frame also when the privilege
    level does not change, so the frame's [rsp] field is the true value; the
    address the handlers report instead lies 16 to 31 bytes below it.  The
    stub calls the handler with a stack pointer that is not a multiple of 16. *)
Theorem kernel_fault_rsp_misreported (c : Cpu) (rsp0 kcs code : Z)
    (Hkernel : from_user c = false) (Hroom : 168 <= aligned16 (gpr c RSP) < 2 ^ 64) :
  let ci := at_call0 WithCodeEntry (deliver rsp0 kcs (Some code) c) in
  rsp (fault_frame (fault_frame_at (c_mem ci) (gpr ci RDI))) = gpr c RSP /\
  reported_rsp (gpr ci RDI) = aligned16 (gpr c RSP) - 16 /\ reported_rsp (gpr ci RDI) < gpr c RSP /\
  gpr ci RSP mod 16 = 8.
Proof.
  intros ci. destruct (delivered_capture WithCodeEntry c rsp0 kcs code) as (Hr & Hf & _).
  { unfold entry_sp. by rewrite Hkernel. }
  unfold entry_sp in Hr, Hf. rewrite Hkernel in Hr, Hf. cbn [entry_error captured frame_address] in Hr, Hf.
  unfold ci, at_call0. generalize dependent (saved (deliver rsp0 kcs (Some code) c)). intros s0 Hr Hf.
  cbv zeta. rewrite gpr_set_eq. cbn [c_mem set_gpr set_zf].
  change (gpr (set_gpr _ RDI _) RSP) with (gpr s0 RSP). rewrite Hr, Hf.
  assert (aligned16 (gpr c RSP) mod 16 = 0 /\ aligned16 (gpr c RSP) <= gpr c RSP) as [Ha Hle]
    by (unfold aligned16; div_lia).
  unfold reported_rsp, frame_address. split_and!; [done|lia|lia|]. revert Ha. div_lia.
Qed.

(** ** A processor in user mode, for witnesses *)
Definition demo_cpu (cs0 sp : Z) : Cpu :=
  mkCpu (fun r => match r with RSP => sp | RAX => 11 | RBX => 12 | RDI => 13 | R15 => 14 | _ => 15 end)
    0x400010 cs0 0x202 0x1b (fun a => if decide (a = 0x9000) then 0x8000 else 0) false.

(** A handler that hands back the frame it was given. *)
Definition demo_echo (c : Cpu) : outcome Cpu := Ret (set_gpr c RAX (gpr c RDI)).

Lemma trap_from_user_witness :
  exists c3, run (entry_code TimerEntry demo_echo demo_echo) (deliver 0x8000 8 None (demo_cpu 0x23 0x7fff0)) = Some (Ret c3) /\
    context c3 = context (demo_cpu 0x23 0x7fff0).
Proof.
  destruct (trap_from_user TimerEntry demo_echo demo_echo (demo_cpu 0x23 0x7fff0) 0x8000 8 0 eq_refl eq_refl
    ltac:(lia)) as (ci & Hdi & _ & _ & _ & Hf & _ & Hret).
  destruct Hret as (c3 & Hrun & Hctx & _).
  - unfold demo_echo. cbn [gpr set_gpr]. rewrite decide_True, Hdi by done. unfold frame_fits. vm_compute. split; discriminate.
  - exists c3. split; [exact Hrun|]. rewrite Hctx. unfold set_gpr. cbn [gpr c_mem].
    rewrite decide_True, Hdi by done. exact (f_equal fault_frame Hf).
Defined.

Definition demo_quiet (c : Cpu) : outcome Cpu := Ret c.

Lemma trap_from_kernel_witness :
  exists c3, run (entry_code NoCodeEntry demo_quiet demo_quiet) (deliver 0 8 None (demo_cpu 8 0x7ff8)) = Some (Ret c3) /\
    context c3 = context (demo_cpu 8 0x7ff8).
Proof.
  destruct (trap_from_kernel NoCodeEntry demo_quiet demo_quiet (demo_cpu 8 0x7ff8)
    (at_call0 NoCodeEntry (deliver 0 8 None (demo_cpu 8 0x7ff8))) 0 8 0) as (c3 & Hrun & Hctx & _).
  - reflexivity.
  - vm_compute. split; [discriminate|reflexivity].
  - discriminate.
  - reflexivity.
  - vm_compute. reflexivity.
  - intros. reflexivity.
  - exists c3. split; [exact Hrun|exact Hctx].
Defined.

Lemma syscall_entry_correct_witness :
  exists c3, run (syscall_entry_stub (mkCells 0x9000 0x9008 0x9010 0x9018) demo_echo)
      (syscall_instr 8 0x10 (demo_cpu 0x23 0x7fff0)) = Some (Ret c3) /\
    context c3 = syscall_context (mkCells 0x9000 0x9008 0x9010 0x9018) (demo_cpu 0x23 0x7fff0).
Proof.
  destruct (syscall_entry_correct (mkCells 0x9000 0x9008 0x9010 0x9018) demo_echo (demo_cpu 0x23 0x7fff0) 8 0x10 0x8000
    eq_refl eq_refl ltac:(lia)) as (ci & Hdi & _ & _ & _ & Hf & _ & Hret).
  - split; [done|]. intros a Ha. right. cbn in Ha. rewrite !elem_of_cons in Ha.
    destruct Ha as [->|[->|[->|Ha]]]; [lia..|]. by apply elem_of_nil in Ha.
  - destruct Hret as (c3 & Hrun & Hctx & _).
    + unfold demo_echo. cbn [gpr set_gpr]. rewrite decide_True, Hdi by done. unfold frame_fits. vm_compute. split; discriminate.
    + exists c3. split; [exact Hrun|]. rewrite Hctx. unfold set_gpr. cbn [gpr c_mem].
      rewrite decide_True, Hdi by done. exact Hf.
Defined.

Lemma kernel_fault_rsp_misreported_witness :
  reported_rsp (gpr (at_call0 WithCodeEntry (deliver 0 8 (Some 2) (demo_cpu 8 0x7ff8))) RDI) < 0x7ff8.
Proof.
  apply (kernel_fault_rsp_misreported (demo_cpu 8 0x7ff8) 0 8 2).
  - reflexivity.
  - vm_compute. split; [discriminate|reflexivity].
Defined.
