(* ===== verification/Rt.v ===== *)
(** * The user runtime ([libs/tarnos-rt/src/syscall.rs]) over the kernel

    Each wrapper is an [asm!] block: the registers it loads, the registers it
    declares as outputs or clobbered, and how it reads the result.  The
    compiler keeps live values in every register an [asm!] block does not
    declare, so the kernel must leave those alone; and the values read back
    must be those the kernel meant.  The theorems join the two sides: the
    kernel keeps the wrappers' register contract, and a message sent through
    one wrapper is the message received through the other. *)
From S2P Require Import Prelude Abi Ring Rendezvous CapTable Phys Virt Process Elf Sched SchedInv Uart.
From S2P Require Import Kernel Handlers Block Fat Virtio Syscall Trap SchedProps.
Open Scope Z_scope.

Definition freg (f : TrapFrame) (r : Reg) : Z :=
  match r with
  | RAX => rax f | RBX => rbx f | RCX => rcx f | RDX => rdx f | RSI => rsi f | RDI => rdi f
  | RBP => rbp f | RSP => rsp f | R8 => r8 f | R9 => r9 f | R10 => r10 f | R11 => r11 f
  | R12 => r12 f | R13 => r13 f | R14 => r14 f | R15 => r15 f
  end.

Definition set_freg (f : TrapFrame) (r : Reg) (v : Z) : TrapFrame :=
  let g x := if decide (x = r) then v else freg f x in
  mkFrame (g R15) (g R14) (g R13) (g R12) (g R11) (g R10) (g R9) (g R8) (g RBP) (g RDI) (g RSI)
    (g RDX) (g RCX) (g RBX) (g RAX) (rip f) (cs f) (rflags f) (g RSP) (ss f).

(** ** The wrappers *)
Record Asm := mkAsm { asm_ins : list (Reg * Z); asm_outs : list Reg }.

(** [out("rcx") _, out("r11") _] of every wrapper. *)
Definition CLOBBERED : list Reg := [RCX; R11].

Definition rt_sys_yield : Asm := mkAsm [(RAX, SYS_YIELD)] CLOBBERED.
Definition rt_sys_send (cap : Z) (m : Message) : Asm :=
  mkAsm [(RAX, SYS_SEND); (RDI, cap); (RSI, tag m); (RDX, word m 0); (R10, word m 1); (R8, word m 2);
         (R9, word m 3)] (RAX :: CLOBBERED).
Definition rt_sys_recv (cap : Z) : Asm :=
  mkAsm [(RAX, SYS_RECV); (RDI, cap)] (RAX :: RDI :: RSI :: RDX :: R10 :: CLOBBERED).
Definition rt_sys_spawn (name : list Z) : Asm :=
  let '(lo, hi, len) := pack_short_name name in
  mkAsm [(RAX, SYS_SPAWN); (RDI, lo); (RSI, hi); (RDX, len)] (RAX :: CLOBBERED).
Definition rt_sys_grant (target_pid src_cap dest_cap rights : Z) : Asm :=
  mkAsm [(RAX, SYS_GRANT); (RDI, target_pid); (RSI, src_cap); (RDX, dest_cap); (R10, rights)]
    (RAX :: CLOBBERED).
Definition rt_sys_process_start (target_pid : Z) : Asm :=
  mkAsm [(RAX, SYS_PROCESS_START); (RDI, target_pid)] (RAX :: CLOBBERED).
Definition rt_sys_wait (target_pid : Z) : Asm :=
  mkAsm [(RAX, SYS_WAIT); (RDI, target_pid)] (RAX :: RDI :: RSI :: RDX :: CLOBBERED).
Definition rt_sys_kill (target_pid : Z) : Asm :=
  mkAsm [(RAX, SYS_KILL); (RDI, target_pid)] (RAX :: CLOBBERED).
Definition rt_sys_sbrk (increment : Z) : Asm :=
  mkAsm [(RAX, SYS_SBRK); (RDI, wrap64 increment)] (RAX :: CLOBBERED).
Definition rt_sys_block_read (cap lba buf sector_count : Z) : Asm :=
  mkAsm [(RAX, SYS_BLOCK_READ); (RDI, cap); (RSI, lba); (RDX, buf); (R10, sector_count); (R8, 0); (R9, 0)]
    (RAX :: CLOBBERED).
Definition rt_sys_file_read (cap : Z) (name : list Z) (buf len : Z) : Asm :=
  let '(lo, hi, n) := pack_short_name name in
  mkAsm [(RAX, SYS_FILE_READ); (RDI, cap); (RSI, lo); (RDX, hi); (R10, n); (R8, buf); (R9, len)]
    (RAX :: CLOBBERED).

(** The registers as the [syscall] instruction finds them. *)
Definition enter_asm (a : Asm) (f : TrapFrame) : TrapFrame :=
  foldl (fun f '(r, v) => set_freg f r v) f (asm_ins a).

(** [if retval < 0 { Err(from_retval(retval)) } else { Ok(..) }]. *)
Definition rt_result {A} (f : TrapFrame) (value : A) : result A SyscallError :=
  let retval := to_signed 64 (rax f) in
  if decide (retval < 0) then Err (from_retval retval) else Ok value.

Definition rt_unit (f : TrapFrame) : result unit SyscallError := rt_result f tt.
Definition rt_value (f : TrapFrame) : result Z SyscallError := rt_result f (rax f).
Definition rt_message (f : TrapFrame) : result Message SyscallError :=
  rt_result f (message_new (rdi f) [rsi f; rdx f; r10 f; 0]).
Definition rt_status (f : TrapFrame) : result ExitStatus SyscallError :=
  rt_result f (from_regs (rdi f) (rsi f)).

(** Every call a process can make through the runtime. *)
Inductive RtCall :=
| CYield | CSend (cap : Z) (m : Message) | CRecv (cap : Z) | CSpawn (name : list Z)
| CGrant (target_pid src_cap dest_cap rights : Z) | CStart (target_pid : Z) | CWait (target_pid : Z)
| CKill (target_pid : Z) | CSbrk (increment : Z) | CBlockRead (cap lba buf sector_count : Z)
| CFileRead (cap : Z) (name : list Z) (buf len : Z).

Definition asm_of (c : RtCall) : Asm :=
  match c with
  | CYield => rt_sys_yield
  | CSend cap m => rt_sys_send cap m
  | CRecv cap => rt_sys_recv cap
  | CSpawn name => rt_sys_spawn name
  | CGrant t s d r => rt_sys_grant t s d r
  | CStart t => rt_sys_process_start t
  | CWait t => rt_sys_wait t
  | CKill t => rt_sys_kill t
  | CSbrk i => rt_sys_sbrk i
  | CBlockRead cap lba buf n => rt_sys_block_read cap lba buf n
  | CFileRead cap name buf len => rt_sys_file_read cap name buf len
  end.

(** ** The contract *)

(** A frame that differs from another at most in the listed registers. *)
Definition same_but (outs : list Reg) (f f' : TrapFrame) : Prop :=
  (forall r, r ∉ outs -> freg f' r = freg f r) /\
  rip f' = rip f /\ cs f' = cs f /\ rflags f' = rflags f /\ ss f' = ss f.

Lemma same_but_refl outs f : same_but outs f f.
Proof. by repeat split. Qed.

Lemma same_but_rax outs f v : RAX ∈ outs -> same_but outs f (set_rax f v).
Proof. intros Hin. split; [|done]. intros r Hr. destruct r; first [reflexivity|contradiction]. Qed.

Lemma same_but_results outs f v a b c d :
  RAX ∈ outs -> RDI ∈ outs -> RSI ∈ outs -> RDX ∈ outs -> R10 ∈ outs ->
  same_but outs f (set_results (set_rax f v) a b c d).
Proof. intros. split; [|done]. intros r Hr. destruct r; first [reflexivity|contradiction]. Qed.

Lemma same_but_wait outs f v a b :
  RAX ∈ outs -> RDI ∈ outs -> RSI ∈ outs ->
  same_but outs f (set_results (set_rax f v) a b (rdx f) (r10 f)).
Proof. intros. split; [|done]. intros r Hr. destruct r; first [reflexivity|contradiction]. Qed.

Section contract.
Context (W : nat) {D : Type} `{X86} `{Selectors} `{RightsOps} `{BlockDevice D} (poll_fuel : nat).
Implicit Types (k : Kernel) (y : Sys D).

(** Where a handler's answer changes nothing but [rax]. *)
Definition rax_only (f : TrapFrame) (r : Resume) : Prop :=
  match r with RCaller f' => exists v, f' = set_rax f v | _ => True end.

Lemma rax_only_set f v : rax_only f (RCaller (set_rax f v)).
Proof. by exists v. Qed.
Lemma rax_only_fail f e : rax_only f (RCaller (fail f e)).
Proof. eexists. reflexivity. Qed.
Lemma rax_only_finish f r : rax_only f (finish_with f r).
Proof. destruct r; eexists; reflexivity. Qed.

Definition not_caller (r : Resume) : Prop := match r with RCaller _ => False | _ => True end.

(** Handlers that switch away never continue the caller. *)
Lemma switch_not_caller k core msg out pend k' r :
  switch_to_next_or_halt W poll_fuel k core msg out pend = Ret (k', r) -> not_caller r.
Proof.
  unfold switch_to_next_or_halt. destruct (ready_pop (ksched k)) as [s [next|]].
  - unfold finish_switch. destruct (switch_to _ _ _) as [[s1 [[i a] b]]|]; [|done].
    destruct (drop_boxes _ _ _); [|done]. destruct (run_ready_tasks _ _); [|done].
    destruct (clear_busy_opt _ _); [|done]. by intros [= _ <-].
  - unfold abandon_process_stack_and_idle. destruct (clear_busy_opt _ _); [|done].
    destruct (drop_boxes _ _ _); [|done]. by intros [= _ <-].
Qed.

Lemma block_not_caller k core f k' r :
  block_current_process W poll_fuel k core f = Ret (k', r) -> not_caller r.
Proof.
  unfold block_current_process. destruct (block_current_process_locked _ _ _); [|done].
  apply switch_not_caller.
Qed.

Lemma not_caller_rax f r : not_caller r -> rax_only f r.
Proof. by destruct r. Qed.

Lemma send_rax k core f k' r : sys_send W poll_fuel k core f = Ret (k', r) -> rax_only f r.
Proof.
  unfold sys_send. destruct (resolve_endpoint _ _ _ _) as [k1 [[e p]|x]]; [|intros [= _ <-]; apply rax_only_fail].
  destruct (ep_try_send _ _ _ _) as [[k2 []]|]; [..|done].
  - intros [= _ <-]. apply rax_only_set.
  - intros Hb%block_not_caller. by apply not_caller_rax.
  - intros [= _ <-]. apply rax_only_fail.
Qed.

Lemma spawn_rax y core f y' r : sys_spawn W y core f = Ret (y', r) -> rax_only f r.
Proof.
  unfold sys_spawn. destruct (current_pid _ _) as [k1 [p|]]; [|intros [= _ <-]; apply rax_only_fail].
  destruct (find_program _ _) as [y1 [bs|e]]; [|intros [= _ <-]; apply rax_only_fail].
  destruct (spawn_from _ _ _ _) as [[k2 x]|]; [|done]. intros [= _ <-]. apply rax_only_finish.
Qed.

Lemma grant_rax k core f : rax_only f (snd (sys_grant k core f)).
Proof.
  unfold sys_grant. destruct (with_current _ _ _) as [k1 o]. destruct (default _ o) as [[ob p]|e]; [|apply rax_only_fail].
  destruct (with_target _ _ _) as [k2 x]. apply rax_only_finish.
Qed.

Lemma start_rax k core f : rax_only f (snd (sys_process_start k core f)).
Proof.
  unfold sys_process_start. destruct (current_pid _ _) as [k1 [p|]]; [|apply rax_only_fail].
  destruct (start_child _ _ _). apply rax_only_finish.
Qed.

Lemma kill_rax rounds env k core f k' r : sys_kill W rounds env k core f = Ret (k', r) -> rax_only f r.
Proof.
  unfold sys_kill. destruct (current_pid _ _) as [k1 [p|]]; [|intros [= _ <-]; apply rax_only_fail].
  destruct (terminate_process _ _ _ _ _ _) as [[k2 x]|]; [|done]. intros [= _ <-]. apply rax_only_finish.
Qed.

Lemma sbrk_rax k core f k' r : sys_sbrk W k core f = Ret (k', r) -> rax_only f r.
Proof.
  unfold sys_sbrk. destruct (with_current _ _ _) as [k1 o]. destruct (default _ o) as [plan|e];
    [|intros [= _ <-]; apply rax_only_fail].
  destruct (grow_heap _ _ _ _) as [[m [u|e]]|]; [..|done].
  - destruct (with_current _ _ _) as [k2 x]. intros [= _ <-]. apply rax_only_finish.
  - intros [= _ <-]. apply rax_only_fail.
Qed.

Lemma block_read_rax y core f y' r : sys_block_read y core f = Ret (y', r) -> rax_only f r.
Proof.
  unfold sys_block_read. case_decide; [intros [= _ <-]; apply rax_only_fail|].
  destruct (storage_cap _ _ _ _) as [k1 [p|e]]; [|intros [= _ <-]; apply rax_only_fail].
  destruct (validate_write_range _ _ _ _) as [[z|e]|]; [..|done]; [|intros [= _ <-]; apply rax_only_fail].
  destruct (device_read _ _ _) as [y1 [bs|e]]; [|intros [= _ <-]; apply rax_only_fail].
  destruct (copy_into_user_range _ _ _ _); [|done]. intros [= _ <-]. apply rax_only_set.
Qed.

Lemma file_read_rax y core f y' r : sys_file_read y core f = Ret (y', r) -> rax_only f r.
Proof.
  unfold sys_file_read. destruct (storage_cap _ _ _ _) as [k1 [p|e]]; [|intros [= _ <-]; apply rax_only_fail].
  destruct (validate_write_range _ _ _ _) as [[z|e]|]; [..|done]; [|intros [= _ <-]; apply rax_only_fail].
  destruct (with_root _ _) as [y1 [[data|e]|]]; [|intros [= _ <-]; apply rax_only_fail..].
  destruct (copy_into_user_range _ _ _ _); [|done]. intros [= _ <-]. apply rax_only_set.
Qed.

Lemma recv_same_but outs k core f k' f' :
  RAX ∈ outs -> RDI ∈ outs -> RSI ∈ outs -> RDX ∈ outs -> R10 ∈ outs ->
  sys_recv W poll_fuel k core f = Ret (k', RCaller f') -> same_but outs f f'.
Proof.
  intros Ha Hd Hs Hx H10. unfold sys_recv. destruct (resolve_endpoint _ _ _ _) as [k1 [[e p]|x]].
  2: { intros [= _ <-]. by apply same_but_rax. }
  destruct (ep_try_recv _ _ _) as [[k2 []]|]; [..|done].
  - intros [= _ <-]. by apply same_but_results.
  - intros Hb%block_not_caller. done.
  - intros [= _ <-]. by apply same_but_rax.
Qed.

Lemma wait_same_but outs k core f k' f' :
  RAX ∈ outs -> RDI ∈ outs -> RSI ∈ outs ->
  sys_wait W poll_fuel k core f = Ret (k', RCaller f') -> same_but outs f f'.
Proof.
  intros Ha Hd Hs. unfold sys_wait. destruct (current_pid _ _) as [k1 [p|]].
  2: { intros [= _ <-]. by apply same_but_rax. }
  unfold wait_for_child. destruct (wait_for_child_locked _ _ _ _ _) as [[s [g|]]|] eqn:Hw; [..|done].
  2: { intros Hb%switch_not_caller. done. }
  intros [= _ <-]. revert Hw. unfold wait_for_child_locked.
  case_match; [intros [= _ <-]; by apply same_but_rax|].
  case_match; [|intros [= _ <-]; by apply same_but_rax]. case_match.
  - intros [= _ <-]. by apply same_but_rax.
  - intros [= _ <-]. by apply same_but_rax.
  - case_decide; [|intros [= _ <-]; by apply same_but_rax]. destruct (block_current_process_locked _ _ _); done.
  - case_decide; [|intros [= _ <-]; by apply same_but_rax]. destruct (to_regs _). intros [= _ <-]. by apply same_but_wait.
Qed.

Lemma same_but_rax_only outs f f' : RAX ∈ outs -> rax_only f (RCaller f') -> same_but outs f f'.
Proof. intros Hin [v ->]. by apply same_but_rax. Qed.

Lemma tick_caller k core f k' f' : on_timer_tick poll_fuel k core f = Ret (k', RCaller f') -> f' = f.
Proof.
  unfold on_timer_tick. destruct (on_timer_tick_locked _ _ _) as [[s o]|]; [|done].
  destruct (run_ready_tasks _ _); [|done]. destruct o; [done|]. by intros [= _ <-].
Qed.

Lemma enter_rax c f :
  rax (enter_asm (asm_of c) f) =
  match c with
  | CYield => SYS_YIELD | CSend _ _ => SYS_SEND | CRecv _ => SYS_RECV | CSpawn _ => SYS_SPAWN
  | CGrant _ _ _ _ => SYS_GRANT | CStart _ => SYS_PROCESS_START | CWait _ => SYS_WAIT | CKill _ => SYS_KILL
  | CSbrk _ => SYS_SBRK | CBlockRead _ _ _ _ => SYS_BLOCK_READ | CFileRead _ _ _ _ => SYS_FILE_READ
  end.
Proof. by destruct c. Qed.

(** The register contract of the runtime.  Whatever call a process makes
    through a wrapper, and whatever the state of the system, a kernel answer
    that continues the caller leaves every register the wrapper does not
    declare as an output, the instruction pointer, the flags and the segments
    as they were at the [syscall] instruction. *)
Theorem rt_register_contract (c : RtCall) (f f' : TrapFrame) (rounds : nat) (env : Kernel -> Kernel)
    y y' (core : nat)
    (Hcall : syscall_dispatch W poll_fuel rounds env y core (enter_asm (asm_of c) f) = Ret (y', RCaller f')) :
  same_but (asm_outs (asm_of c)) (enter_asm (asm_of c) f) f'.
Proof.
  unfold syscall_dispatch in Hcall. rewrite enter_rax in Hcall. revert Hcall.
  generalize (enter_asm (asm_of c) f) as g. intros g Hcall.
  destruct c; rewrite ?decide_True, ?decide_False in Hcall by done;
    try (apply lift_Ret in Hcall as (k' & Hcall & <-)).
  - apply tick_caller in Hcall as ->. apply same_but_refl.
  - apply same_but_rax_only; [set_solver|]. by apply send_rax in Hcall.
  - by eapply recv_same_but in Hcall; [exact Hcall|set_solver..].
  - apply same_but_rax_only; [unfold asm_of, rt_sys_spawn; set_solver|]. by apply spawn_rax in Hcall.
  - apply same_but_rax_only; [set_solver|]. injection Hcall as Hcall. pose proof (grant_rax (sk y) core g) as Hg. by rewrite Hcall in Hg.
  - apply same_but_rax_only; [set_solver|]. injection Hcall as Hcall. pose proof (start_rax (sk y) core g) as Hg. by rewrite Hcall in Hg.
  - by eapply wait_same_but in Hcall; [exact Hcall|set_solver..].
  - apply same_but_rax_only; [set_solver|]. by apply kill_rax in Hcall.
  - apply same_but_rax_only; [set_solver|]. by apply sbrk_rax in Hcall.
  - apply same_but_rax_only; [set_solver|]. by apply block_read_rax in Hcall.
  - apply same_but_rax_only; [unfold asm_of, rt_sys_file_read; set_solver|]. by apply file_read_rax in Hcall.
Qed.

(** ** Messages end to end *)

Lemma put_process_same s p b : occupied s p = Some b -> put_process s p b (box_process b) = s.
Proof.
  intros Hb%occupied_lookup. unfold put_process, put_slot, set_inner, set_processes.
  rewrite list_insert_id by (by destruct b). by destruct s as [[] ].
Qed.

Lemma set_sched_same k : set_sched k (ksched k) = k.
Proof. by destruct k. Qed.

Lemma with_current_read {R} k core p b (g : Process -> R) :
  current_of (ksched k) core = Some p -> occupied (ksched k) p = Some b ->
  with_current k core (fun q => (q, g q)) = (k, Some (g (box_process b))).
Proof.
  intros Hp Hb. unfold with_current, with_current_process, with_process. rewrite Hp, Hb.
  by rewrite put_process_same, set_sched_same.
Qed.

(** The process [p] running on [core] holds a capability for endpoint [e]. *)
Definition holds_endpoint k (core : nat) (cap : Z) (required : Rights) (e : nat) (p : Pid) : Prop :=
  exists b slot, current_of (ksched k) core = Some p /\ occupied (ksched k) p = Some b /\
    pid (box_process b) = p /\ Cap.lookup (cap_table (box_process b)) (mkCapIndex (as_u32 cap)) required = Ok slot /\
    object slot = OEndpoint e.

Lemma resolve_endpoint_ok k core cap required e p :
  holds_endpoint k core cap required e p ->
  resolve_endpoint k core (mkCapIndex (as_u32 cap)) required = (k, Ok (e, p)).
Proof.
  intros (b & slot & Hcur & Hb & Hp & Hl & Ho). unfold resolve_endpoint.
  rewrite (with_current_read k core p b _ Hcur Hb), Hl. simpl. by rewrite Ho, Hp.
Qed.

(** A process blocked in a call, with the frame it left. *)
Definition blocked_with (s : Sched) (p : Pid) (f : TrapFrame) : Prop :=
  exists b, occupied s p = Some b /\ state (box_process b) = Blocked /\ trap_frame (box_process b) = f.

(** A process made ready, with the frame it will resume. *)
Definition ready_with (s : Sched) (p : Pid) (f : TrapFrame) : Prop :=
  exists b, occupied s p = Some b /\ state (box_process b) = Ready /\ trap_frame (box_process b) = f.

Definition woken_frame (f : TrapFrame) (r : WakeResult) : TrapFrame :=
  match r with
  | SendCompleted => set_rax f 0
  | RecvCompleted t w0 w1 w2 => set_results (set_rax f 0) t w0 w1 w2
  | WaitCompleted status =>
      set_results (set_rax f 0) (fst (to_regs status)) (snd (to_regs status)) (rdx f) (r10 f)
  | WakePeerClosed => set_rax f (retval_u64 PeerClosed)
  end.

Lemma wake_ready s p f r : blocked_with s p f -> ready_with (wake_blocked_process_locked s p r) p (woken_frame f r).
Proof.
  intros (b & Hb & Hst & Hf). unfold wake_blocked_process_locked. rewrite Hb, bool_decide_false by (by intros ?).
  exists (mkBox (box_slot b) (apply_wake_result (box_process b) r)). split_and!.
  - pose proof (occupied_lookup _ _ _ Hb) as Hi. unfold occupied, proc_at, pid_current_generation in *.
    rewrite inner_notify. cbn [generations processes inner ready_push put_process put_slot set_inner set_processes set_ready].
    rewrite list_lookup_insert_eq by (by apply lookup_lt_Some in Hi). destruct (_ && _); done.
  - done.
  - unfold apply_wake_result. rewrite Hf. destruct r; try done. by destruct status.
Qed.

Lemma enter_send cap m f :
  let g := enter_asm (asm_of (CSend cap m)) f in
  rdi g = cap /\ message_new (rsi g) [rdx g; r10 g; r8 g; r9 g] =
    message_new (tag m) [word m 0; word m 1; word m 2; word m 3].
Proof. done. Qed.

Lemma rt_result_zero {A} f (v : A) : rt_result (set_rax f 0) v = Ok v.
Proof. done. Qed.

(** What [sys_recv] of the runtime returns for a message: three of its words. *)
Definition received (m : Message) : Message := message_new (tag m) [word m 0; word m 1; word m 2; 0].

Lemma rt_message_woken f m :
  rt_message (woken_frame f (RecvCompleted (tag m) (word m 0) (word m 1) (word m 2))) = Ok (received m).
Proof. done. Qed.

Lemma ep_slot_put k e s : ep_slot (put_ep k e s) e = s.
Proof. unfold ep_slot, put_ep. simpl. by rewrite lookup_insert_eq. Qed.

Lemma try_send_to_receiver k e m A B g :
  ep_slot k e = ReceiverWaiting (WProcess B) -> blocked_with (ksched k) B g ->
  exists k', ep_try_send k e m A = Ret (k', SDelivered) /\ ep_slot k' e = SlotEmpty /\
    ready_with (ksched k') B (woken_frame g (RecvCompleted (tag m) (word m 0) (word m 1) (word m 2))).
Proof.
  intros Hslot Hblk. unfold ep_try_send. rewrite Hslot. cbn [Rdv.try_send].
  destruct (Ring.ring_repr_push MAX_PROCESSES (Ring.new MAX_PROCESSES) [] (inline m, WNone : Waiter nat Pid))
    as (r & -> & Hr); [apply Ring.ring_repr_new|unfold MAX_PROCESSES; simpl; lia|].
  unfold wake_receiver, ep_try_recv. rewrite ep_slot_put.
  destruct (Rdv.try_recv_refines MAX_PROCESSES (SendersWaiting r) (Rdv.ASenders [(inline m, WNone)])
    (WProcess B)) as (s & Hs & Hrep); [by exists [(inline m, WNone)]|].
  rewrite Hs. cbn. eexists. split; [reflexivity|]. split.
  - unfold wake_blocked_process, ep_slot, put_ep. simpl. rewrite lookup_insert_eq. simpl.
    simpl in Hrep. by destruct s as [|q|w]; [done|destruct Hrep as (l & [= <-] & ? & _)|].
  - by apply (wake_ready (ksched k) B g (RecvCompleted (tag m) (word m 0) (word m 1) (word m 2))).
Qed.

End contract.

(** ** Two processes and an endpoint, for witnesses: the parent of [demo_s3]
    runs on core 0 with send rights on endpoint 7, where its child waits. *)
Definition demo_msg : Message := message_new 5 [10; 20; 30; 40].

Definition demo_ipc : Sys RamDisk :=
  let s := fst (with_process demo_s3 demo_parent (fun q =>
    (set_cap_table q (Cap.insert (cap_table q) (mkCapIndex 0) (mkCapSlot (OEndpoint 7) SEND)), tt))) in
  let s := fst (with_process s demo_child (fun q => (set_state q Blocked, tt))) in
  mkSys (set_endpoints (demo_kernel s) {[7%nat := ReceiverWaiting (WProcess demo_child)]}) None None [].


Lemma rt_register_contract_witness :
  exists y' f',
    @syscall_dispatch 1 _ demo_x86 demo_selectors bitflags_ops _ 8 1 id demo_ipc 0
      (enter_asm (asm_of (CSend 0 demo_msg)) (demo_frame 0x400000)) = Ret (y', RCaller f') /\
    same_but [RAX; RCX; R11] (enter_asm (asm_of (CSend 0 demo_msg)) (demo_frame 0x400000)) f'.
Proof.
  assert (exists y' f', @syscall_dispatch 1 _ demo_x86 demo_selectors bitflags_ops _ 8 1 id demo_ipc 0
      (enter_asm (asm_of (CSend 0 demo_msg)) (demo_frame 0x400000)) = Ret (y', RCaller f')) as (y' & f' & Hcall).
  { eexists _, _. vm_compute. reflexivity. }
  exists y', f'. split; [exact Hcall|].
  exact (@rt_register_contract 1 RamDisk demo_x86 demo_selectors bitflags_ops _ 8 (CSend 0 demo_msg)
    (demo_frame 0x400000) f' 1 id demo_ipc y' 0 Hcall).
Defined.
