(* ===== verification/Heap.v ===== *)
(** * Growing a process's heap
    ([SYS_SBRK] of [kernel/src/arch/x86_64/syscall.rs] and the allocator of
    [libs/tarnos-rt/src/heap.rs])

    The kernel maps fresh pages up to the new break; the runtime hands what it
    got to a third-party allocator, a parameter here ([InnerHeap]) that is
    assumed to hand out only memory it was given ([InnerLaws]).  The theorems:
    the call always returns, and on success exactly the missing pages were
    mapped; every block the runtime's allocator returns is mapped and
    writable; and a call that runs out of frames part way leaves pages behind
    that make every later growth fail. *)
From S2P Require Import Prelude Abi Ring CapTable Bitmap Phys Virt Process Elf Mapper Sched SchedInv SchedProps.
From S2P Require Import Kernel Handlers Block Fat Virtio Syscall UserMem Trap Rt.
Open Scope Z_scope.

#[global] Instance TranslateResult_eq_dec : EqDecision TranslateResult.
Proof. solve_decision. Defined.

(** ** The inner allocator: [Heap] of the [linked_list_allocator] crate *)
Definition MIN_GROW_BYTES : Z := 16 * 1024.

Class InnerHeap := {
  inner : Type;
  inner_empty : inner;
  inner_init : Z -> Z -> inner;
  inner_extend : inner -> Z -> inner;
  (** [allocate_first_fit] of a layout's size and alignment. *)
  allocate_first_fit : inner -> Z -> Z -> inner * option Z;
  deallocate : inner -> Z -> Z -> Z -> inner;
}.

(** All it hands out lies in the memory it was given: [within h lo hi] when
    that memory lies in [lo .. hi).  [extend] adds the bytes directly behind. *)
Class InnerLaws `{InnerHeap} := {
  within : inner -> Z -> Z -> Prop;
  within_empty lo hi : within inner_empty lo hi;
  within_init start size : within (inner_init start size) start (start + size);
  within_extend h lo hi by_ : within h lo hi -> 0 <= by_ -> within (inner_extend h by_) lo (hi + by_);
  within_mono h lo hi lo' hi' : within h lo hi -> lo' <= lo -> hi <= hi' -> within h lo' hi';
  within_alloc h lo hi size align :
    within h lo hi ->
    let '(h', r) := allocate_first_fit h size align in
    within h' lo hi /\ forall ptr, r = Some ptr -> lo <= ptr /\ ptr + size <= hi;
  within_dealloc h lo hi ptr size align :
    within h lo hi -> lo <= ptr -> ptr + size <= hi -> within (deallocate h ptr size align) lo hi;
}.

(** [UserHeap]: the allocator, and whether it was given memory. *)
Record UserHeap `{InnerHeap} := mkUserHeap { uh_inner : inner; initialized : bool }.

Definition user_heap_new `{InnerHeap} : UserHeap := mkUserHeap _ inner_empty false.

Definition hand_over `{InnerHeap} (h : UserHeap) (old_end min_bytes : Z) : UserHeap :=
  mkUserHeap _ (if initialized h then inner_extend (uh_inner h) min_bytes else inner_init old_end min_bytes) true.

Section heap.
Context (W : nat) `{MapperLaws} `{InnerLaws}.
Implicit Types (m : Mem) (k : Kernel).

(** [UserHeap::grow] of the process running on [core], its registers [f]. *)
Definition user_heap_grow k (core : nat) (f : TrapFrame) (h : UserHeap) (min_bytes : Z)
    : outcome (Kernel * UserHeap * bool) :=
  let! '(k, r) := sys_sbrk W k core (enter_asm (rt_sys_sbrk min_bytes) f) in
  match r with
  | RCaller f' =>
      match rt_value f' with
      | Ok old_end => Ret (k, hand_over h old_end min_bytes, true)
      | Err _ => Ret (k, h, false)
      end
  | _ => Ret (k, h, false)
  end.

(** [UserHeap::alloc]; [None] is the null pointer. *)
Definition user_alloc k (core : nat) (f : TrapFrame) (h : UserHeap) (size align : Z)
    : outcome (Kernel * UserHeap * option Z) :=
  let '(i, r) := allocate_first_fit (uh_inner h) size align in
  let h := mkUserHeap _ i (initialized h) in
  match r with
  | Some ptr => Ret (k, h, Some ptr)
  | None =>
      let grow_by := Z.max size MIN_GROW_BYTES in
      let! '(k, h, grew) := user_heap_grow k core f h grow_by in
      if negb grew then Ret (k, h, None)
      else
        let '(i, r) := allocate_first_fit (uh_inner h) size align in
        Ret (k, mkUserHeap _ i (initialized h), r)
  end.

(** [UserHeap::dealloc]; [None] is the null pointer. *)
Definition user_dealloc (h : UserHeap) (ptr : option Z) (size align : Z) : UserHeap :=
  match ptr with
  | Some ptr => mkUserHeap _ (deallocate (uh_inner h) ptr size align) (initialized h)
  | None => h
  end.

(** ** Mapping a run of pages *)
Definition HEAP_FLAGS : Z := Z.lor PRESENT (Z.lor WRITABLE (Z.lor USER_ACCESSIBLE NO_EXECUTE)).

Definition heap_page m (pml4 x : Z) : Prop := exists f, translate m pml4 x = Mapped f (x - page_of x) HEAP_FLAGS.

(** [grow_heap] mapped the first [n] of the pages and nothing else. *)
Record grown m m' (pml4 : Z) (addrs : list Z) (n : nat) : Prop := {
  gr_new : forall x, page_of x ∈ take n addrs -> heap_page m' pml4 x /\ translate m pml4 x = NotMapped;
  gr_old : forall x, page_of x ∉ take n addrs -> translate m' pml4 x = translate m pml4 x;
  gr_wf : Phys.wf W (frames m');
}.

Definition user_page (a : Z) : Prop := 0 <= a < 2 ^ 47 /\ a mod 4096 = 0.

Lemma grow_heap_spec m pml4 addrs :
  Phys.wf W (frames m) -> Forall user_page addrs ->
  exists m' r n, grow_heap W m pml4 addrs = Ret (m', r) /\ grown m m' pml4 addrs n /\
    match r with
    | Ok _ => n = length addrs
    | Err e => e = ResourceExhausted /\ (n < length addrs)%nat
    end.
Proof.
  intros Hwf Ha. revert m Hwf. induction Ha as [|a addrs [Ha1 Ha2] _ IH]; intros m Hwf; cbn [grow_heap].
  { exists m, (Ok tt), 0%nat. split; [done|]. split; [|done]. split; [by intros x ?%elem_of_nil|done..]. }
  destruct (Phys.allocate_frame_cases W (frames m) Hwf) as ([fa [f|]] & -> & Hres).
  2: { destruct Hres as [-> _]. exists (set_frames m (frames m)), (Err ResourceExhausted), 0%nat.
       split; [done|]. split; [|simpl; split; [done|lia]]. split; [by intros x ?%elem_of_nil| |done].
       intros x _. by apply translate_ram. }
  destruct Hres as (Hwf1 & _). unfold Elf.new_virt_addr. rewrite lower_half by done. rewrite page_of_aligned by done.
  set (m1 := set_frames m fa). unfold Virt.map_in. fold HEAP_FLAGS.
  pose proof (proj2 (map_keeps m1 pml4 a f HEAP_FLAGS) W Hwf1) as Hwf2.
  destruct (map_to m1 pml4 a f HEAP_FLAGS) as [m2 [[]|e]] eqn:Hm.
  2: { exists m2, (Err ResourceExhausted), 0%nat. split; [done|]. split; [|simpl; split; [done|lia]].
       split; [by intros x ?%elem_of_nil| |done].
       intros x _. rewrite (map_err _ _ _ _ _ _ _ Hm). by apply translate_ram. }
  destruct (map_ok _ _ _ _ _ _ Hm) as [Hin Hout].
  destruct (IH m2 Hwf2) as (m' & r & n & -> & [Hn Ho Hw] & Hr). exists m', r, (S n). split; [done|].
  assert (forall x, translate m1 pml4 x = translate m pml4 x) as Hm1 by (intros; by apply translate_ram).
  split; [|destruct r; simpl; [lia|destruct Hr; split; [done|lia]]]. split; [..|done].
  - intros x Hx. destruct (decide (page_of x = a)) as [He|He].
    + destruct (Hin x He) as [Hno Hyes]. rewrite Hm1 in Hno. split; [|done].
      destruct (decide (page_of x ∈ take n addrs)) as [Hd|Hd]; [by apply Hn|]. exists f. rewrite (Ho x Hd), He. exact Hyes.
    + cbn [take] in Hx. apply elem_of_cons in Hx as [|Hx]; [done|]. destruct (Hn x Hx) as [Hp Hno]. split; [done|].
      rewrite Hout in Hno by done. by rewrite <- Hm1.
  - intros x Hx. cbn [take] in Hx. apply not_elem_of_cons in Hx as [Hne Hx]. rewrite (Ho x Hx), (Hout x Hne). apply Hm1.
Qed.

(** ** The call *)
Lemma align_up_page a : 0 <= a -> align_up a PAGE = (a + 4095) / 4096 * 4096.
Proof.
  intros Ha. unfold align_up. change (Z.lnot (PAGE - 1)) with (Z.lnot (Z.ones 12)). change PAGE with 4096.
  replace (a + 4096 - 1) with (a + 4095) by lia.
  rewrite <- Z.ldiff_land, Z.ldiff_ones_r, Z.shiftr_div_pow2, Z.shiftl_mul_pow2 by lia. done.
Qed.

Definition heap_top (q : Process) : Z := align_up (heap_end q) PAGE.

Definition break_ok (q : Process) : Prop := USER_HEAP_START <= heap_end q <= USER_HEAP_START + USER_HEAP_MAX_SIZE.

(** Every page of the heap up to the break is there. *)
Definition heap_mapped m (q : Process) : Prop :=
  forall x, USER_HEAP_START <= x < heap_top q -> heap_page m (pml4_frame (address_space q)) x.

(** The process the core runs. *)
Definition runs k (core : nat) (p : Pid) (q : Process) : Prop :=
  exists b, current_of (ksched k) core = Some p /\ occupied (ksched k) p = Some b /\ box_process b = q.

Lemma occupied_put_process s p b q :
  occupied s p = Some b -> occupied (put_process s p b q) p = Some (mkBox (box_slot b) q).
Proof.
  intros Hocc. pose proof (occupied_lookup _ _ _ Hocc) as Hb. unfold put_process, occupied, proc_at in *.
  destruct (pid_current_generation s p) eqn:Hg; [|done].
  change (pid_current_generation (put_slot s (pid_index p) _) p) with (pid_current_generation s p).
  rewrite Hg. simpl. rewrite list_lookup_insert_eq; [done|]. by apply lookup_lt_Some in Hb.
Qed.

Lemma sbrk_pages q e :
  break_ok q -> heap_end q <= e <= USER_HEAP_START + USER_HEAP_MAX_SIZE ->
  Forall user_page (pages_below (heap_top q) (align_up e PAGE)) /\
  forall x, page_of x ∈ pages_below (heap_top q) (align_up e PAGE) <-> heap_top q <= x < align_up e PAGE.
Proof.
  unfold break_ok, heap_top, USER_HEAP_START, USER_HEAP_MAX_SIZE. intros Hb He. rewrite !align_up_page by lia. split.
  - apply Forall_forall. intros a (i & Hi & -> & Hlt)%elem_of_pages_below. unfold user_page, PAGE in *. div_lia.
  - intros x. rewrite elem_of_pages_below, page_of_sub. unfold PAGE. split.
    + intros (i & Hi & Heq & Hlt). div_lia.
    + intros Hx. exists (x / 4096 - (heap_end q + 4095) / 4096). div_lia.
Qed.

(** What a call of [SYS_SBRK] by process [p] leaves: the state [k'] and the
    result [r] for an increment [inc]. *)
Definition sbrk_post k (core : nat) (p : Pid) (q : Process) (inc : Z) k' (r : result Z SyscallError) : Prop :=
  let pml4 := pml4_frame (address_space q) in
  let q' := set_heap_end q (heap_end q + inc) in
  match r with
  | Ok v => v = heap_end q /\ 0 <= inc /\ runs k' core p q' /\ break_ok q' /\
      (forall x, heap_top q <= x < heap_top q' ->
         heap_page (kmem k') pml4 x /\ translate (kmem k) pml4 x = NotMapped) /\
      (forall x, ~ (heap_top q <= x < heap_top q') -> translate (kmem k') pml4 x = translate (kmem k) pml4 x)
  | Err InvalidArgument => k' = k /\ (inc < 0 \/ USER_HEAP_START + USER_HEAP_MAX_SIZE < heap_end q + inc)
  | Err ResourceExhausted => ksched k' = ksched k /\ 0 <= inc /\
      (forall x, translate (kmem k') pml4 x <> translate (kmem k) pml4 x ->
         heap_top q <= x < heap_top q' /\ translate (kmem k) pml4 x = NotMapped)
  | Err _ => False
  end.

Lemma with_current_write k core p b (g : Process -> Process) :
  current_of (ksched k) core = Some p -> occupied (ksched k) p = Some b ->
  with_current k core (fun q => (g q, tt)) =
    (set_sched k (put_process (ksched k) p b (g (box_process b))), Some tt).
Proof. intros Hp Hb. unfold with_current, with_current_process, with_process. by rewrite Hp, Hb. Qed.

Lemma sbrk_grows k core p b inc m' n :
  let q := box_process b in
  let q' := set_heap_end q (heap_end q + inc) in
  current_of (ksched k) core = Some p -> occupied (ksched k) p = Some b -> break_ok q ->
  0 <= inc -> heap_end q + inc <= USER_HEAP_START + USER_HEAP_MAX_SIZE ->
  (forall x, page_of x ∈ pages_below (heap_top q) (heap_top q') <-> heap_top q <= x < heap_top q') ->
  grown (kmem k) m' (pml4_frame (address_space q)) (pages_below (heap_top q) (heap_top q')) n ->
  n = length (pages_below (heap_top q) (heap_top q')) ->
  exists k', with_current (set_mem k m') core (fun q => (set_heap_end q (heap_end (box_process b) + inc), tt)) =
      (k', Some tt) /\ kmem k' = m' /\ sbrk_post k core p q inc k' (Ok (heap_end q)).
Proof.
  intros q q' Hcur Hocc Hb Hinc Hmax Hmem [Hnew Hold _] Hn. eexists. split.
  { by apply with_current_write. }
  split; [done|]. rewrite firstn_all2 in Hnew, Hold by lia. unfold sbrk_post. fold q'.
  split; [done|]. split; [done|]. split.
  { exists (mkBox (box_slot b) q'). split; [exact Hcur|]. split; [|done]. by apply occupied_put_process. }
  split; [unfold break_ok, q' in *; cbn [heap_end set_heap_end]; lia|]. split.
  - intros x Hx. apply Hnew. by apply Hmem.
  - intros x Hx. apply Hold. by rewrite Hmem.
Qed.

Lemma sys_sbrk_post k core frame p q :
  runs k core p q -> break_ok q -> Phys.wf W (frames (kmem k)) ->
  exists k' r, sys_sbrk W k core frame = Ret (k', finish_with frame r) /\ Phys.wf W (frames (kmem k')) /\
    sbrk_post k core p q (to_signed 64 (rdi frame)) k' r.
Proof.
  intros (b & Hcur & Hocc & <-) Hbrk Hwf. unfold sys_sbrk. set (inc := to_signed 64 (rdi frame)).
  rewrite (with_current_read k core p b _ Hcur Hocc). cbn [default from_option id]. unfold sbrk_plan.
  set (q := box_process b) in *.
  case_decide as Hneg; [exists k, (Err InvalidArgument); do 3 (split; [done|]); by left|].
  destruct (checked_add64 (heap_end q) inc) as [e|] eqn:He.
  2: { exists k, (Err InvalidArgument). do 3 (split; [done|]). right. unfold checked_add64 in He. case_decide; [done|].
       unfold USER_HEAP_START, USER_HEAP_MAX_SIZE. lia. }
  apply checked_add64_Some in He as [-> _]. case_decide as Hmax.
  { exists k, (Err InvalidArgument). do 3 (split; [done|]). right. lia. }
  assert (heap_end q + inc <= USER_HEAP_START + USER_HEAP_MAX_SIZE) as Hle by lia.
  cbn [plan_pml4 old_top new_top new_end old_end]. fold (heap_top q).
  set (q' := set_heap_end q (heap_end q + inc)). change (align_up (heap_end q + inc) PAGE) with (heap_top q').
  destruct (sbrk_pages q (heap_end q + inc) Hbrk ltac:(unfold break_ok in Hbrk; lia)) as [Hup Hmem].
  change (align_up (heap_end q + inc) PAGE) with (heap_top q') in Hup, Hmem.
  destruct (grow_heap_spec (kmem k) (pml4_frame (address_space q)) _ Hwf Hup) as (m' & r & n & -> & Hg & Hr).
  pose proof (gr_wf _ _ _ _ _ Hg) as Hwf'. cbn iota beta. destruct r as [[]|e].
  - destruct (sbrk_grows k core p b inc m' n Hcur Hocc Hbrk (proj1 (Z.nlt_ge _ _) Hneg) Hle Hmem Hg Hr)
      as (k' & Hw & Hk & Hp). fold q in Hw. rewrite Hw. exists k', (Ok (heap_end q)). by rewrite Hk.
  - destruct Hr as [-> _]. exists (set_mem k m'), (Err ResourceExhausted). split; [done|]. split; [done|].
    split; [done|]. split; [lia|]. intros x Hx.
    destruct (decide (page_of x ∈ take n (pages_below (heap_top q) (heap_top q')))) as [Hin|Hin].
    2: { destruct Hx. apply (gr_old _ _ _ _ _ Hg), Hin. }
    split; [|by apply (gr_new _ _ _ _ _ Hg)]. apply Hmem. apply elem_of_take in Hin as (i & Hi & _).
    by eapply list_elem_of_lookup_2.
Qed.

Lemma heap_top_end q : break_ok q -> heap_end q <= heap_top q.
Proof. unfold break_ok, heap_top, USER_HEAP_START. intros Hb. rewrite align_up_page by lia. div_lia. Qed.

Lemma heap_mapped_grow k core p q inc k' v :
  sbrk_post k core p q inc k' (Ok v) -> heap_mapped (kmem k) q ->
  heap_mapped (kmem k') (set_heap_end q (heap_end q + inc)).
Proof.
  intros (_ & _ & _ & _ & Hnew & Hold) Hh x Hx. destruct (decide (heap_top q <= x)) as [Hge|Hlt]; [apply Hnew; lia|].
  destruct (Hh x ltac:(lia)) as [f Hf]. exists f. change (address_space (set_heap_end q _)) with (address_space q).
  by rewrite Hold by lia.
Qed.

Lemma heap_mapped_exhausted k core p q inc k' :
  sbrk_post k core p q inc k' (Err ResourceExhausted) -> heap_mapped (kmem k) q -> heap_mapped (kmem k') q.
Proof.
  intros (_ & _ & Hch) Hh x Hx. destruct (Hh x Hx) as [f Hf]. exists f. rewrite <- Hf.
  set (a := translate (kmem k') _ x) in *. set (c := translate (kmem k) _ x) in *.
  assert (~ a <> c) as Hn by (intros [Hr _]%Hch; lia). destruct (decide (a = c)); done.
Qed.

(** C31: [SYS_SBRK].  For a process with a break in its heap region the call
    always returns to its caller.  When it returns the old break, the new one
    is at or above it and within the region's 64 MiB, the pages between the
    two are now mapped, user-writable and not executable, no other address
    translates differently, and only the break of the process changed.
    Arguments out of range change nothing; lack of memory leaves the break
    where it was.  In every case a heap that was mapped up to its break
    still is. *)
Theorem sys_sbrk_correct k (core : nat) frame (p : Pid) (q : Process)
    (Hrun : runs k core p q) (Hbrk : break_ok q) (Hwf : Phys.wf W (frames (kmem k)))
    (Hheap : heap_mapped (kmem k) q) :
  exists k' r, sys_sbrk W k core frame = Ret (k', finish_with frame r) /\ Phys.wf W (frames (kmem k')) /\
    let inc := to_signed 64 (rdi frame) in
    sbrk_post k core p q inc k' r /\
    heap_mapped (kmem k') (match r with Ok _ => set_heap_end q (heap_end q + inc) | Err _ => q end).
Proof.
  destruct (sys_sbrk_post k core frame p q Hrun Hbrk Hwf) as (k' & r & Hcall & Hwf' & Hp).
  exists k', r. split; [done|]. split; [done|]. split; [done|]. destruct r as [v|e].
  - by eapply heap_mapped_grow.
  - destruct e; try done; [by eapply heap_mapped_exhausted|]. by destruct Hp as [-> _].
Qed.

(** ** The allocator of the runtime *)
Lemma to_signed_small v : 0 <= v < 2 ^ 63 -> to_signed 64 v = v.
Proof. intros Hv. unfold to_signed. cbn. rewrite ?Z.mod_small by lia. case_decide; lia. Qed.

Lemma rt_value_ok f v : 0 <= v < 2 ^ 63 -> rt_value (set_rax f v) = Ok v.
Proof.
  intros Hv. unfold rt_value, rt_result. change (rax (set_rax f v)) with v.
  rewrite to_signed_small by lia. by rewrite decide_False by lia.
Qed.

Lemma rt_value_fail f e : exists e', rt_value (fail f e) = Err e'.
Proof. destruct e; eexists; by vm_compute. Qed.

(** What holds between the allocator and the kernel: the heap is mapped up to
    the break, and all the allocator has lies below it. *)
Record heap_inv k (core : nat) (p : Pid) (q : Process) (h : UserHeap) : Prop := {
  hi_runs : runs k core p q;
  hi_break : break_ok q;
  hi_wf : Phys.wf W (frames (kmem k));
  hi_mapped : heap_mapped (kmem k) q;
  hi_within : within (uh_inner h) USER_HEAP_START (heap_end q);
}.

Lemma user_heap_grow_inv k core p q f h n :
  heap_inv k core p q h -> 0 <= n < 2 ^ 63 ->
  exists k' h' grew q', user_heap_grow k core f h n = Ret (k', h', grew) /\ heap_inv k' core p q' h' /\
    q' = set_heap_end q (heap_end q + if grew then n else 0).
Proof.
  intros [Hrun Hbrk Hwf Hmap Hin] Hn. unfold user_heap_grow. set (g := enter_asm (rt_sys_sbrk n) f).
  assert (to_signed 64 (rdi g) = n) as Hinc by (apply to_signed_wrap; lia).
  assert (set_heap_end q (heap_end q + 0) = q) as Hsame by (rewrite Z.add_0_r; by destruct q).
  destruct (sys_sbrk_post k core g p q Hrun Hbrk Hwf) as (k' & r & -> & Hwf' & Hp). rewrite Hinc in Hp.
  cbn [finish_with]. destruct r as [v|e].
  - pose proof Hp as (-> & _ & Hrun' & Hbrk' & _). rewrite rt_value_ok.
    2: { unfold break_ok, USER_HEAP_START, USER_HEAP_MAX_SIZE in Hbrk. lia. }
    exists k', (hand_over h (heap_end q) n), true. eexists. split; [done|]. split; [|done].
    split; [done..| |]; [by eapply heap_mapped_grow|]. unfold hand_over. cbn [uh_inner heap_end set_heap_end].
    destruct (initialized h); [apply within_extend; [done|lia]|].
    eapply within_mono; [apply within_init|unfold break_ok in Hbrk; lia|lia].
  - destruct (rt_value_fail g e) as [e' ->]. exists k', h, false, q. split; [done|]. rewrite Hsame. split; [|done].
    destruct e; try done.
    + destruct Hrun as (b & Hcur & Hocc & Hq). split; [|done..|by eapply heap_mapped_exhausted|done].
      destruct Hp as [Hs _]. exists b. by rewrite Hs.
    + destruct Hp as [-> _]. by split.
Qed.

Lemma alloc_inner k core p q h size align i r :
  heap_inv k core p q h -> allocate_first_fit (uh_inner h) size align = (i, r) ->
  heap_inv k core p q (mkUserHeap _ i (initialized h)) /\
  forall ptr, r = Some ptr -> USER_HEAP_START <= ptr /\ ptr + size <= heap_end q.
Proof.
  intros [Hrun Hbrk Hwf Hmap Hin] Ha. pose proof (within_alloc _ _ _ size align Hin) as Hw. rewrite Ha in Hw.
  destruct Hw as [Hw Hp]. split; [by split|done].
Qed.

Lemma alloc_block k core p q h ptr size align :
  heap_inv k core p q h -> USER_HEAP_START <= ptr -> ptr + size <= heap_end q ->
  (forall x, ptr <= x < ptr + size -> heap_page (kmem k) (pml4_frame (address_space q)) x) /\
  heap_inv k core p q (user_dealloc h (Some ptr) size align).
Proof.
  intros Hi Hlo Hhi. split.
  - intros x Hx. apply (hi_mapped _ _ _ _ _ Hi). pose proof (heap_top_end q (hi_break _ _ _ _ _ Hi)). lia.
  - destruct Hi. split; try done. by apply within_dealloc.
Qed.

(** Memory from the runtime's allocator is backed.  Started from a heap
    mapped up to its break and an allocator that has nothing above it, as at
    process start, an allocation never panics, keeps that relation, and
    changes nothing of the process but its break, which only goes up.  A
    pointer it returns starts a block that is mapped, user-writable and not
    executable throughout, and giving the block back keeps the relation too;
    otherwise it returns null. *)
Theorem user_alloc_backed k (core : nat) (p : Pid) (q : Process) (f : TrapFrame) (h : UserHeap) (size align : Z)
    (Hinv : heap_inv k core p q h) (Hsize : 0 <= size < 2 ^ 63) :
  exists k' h' r e, user_alloc k core f h size align = Ret (k', h', r) /\
    heap_inv k' core p (set_heap_end q e) h' /\ heap_end q <= e /\
    forall ptr, r = Some ptr ->
      USER_HEAP_START <= ptr /\
      (forall x, ptr <= x < ptr + size -> heap_page (kmem k') (pml4_frame (address_space q)) x) /\
      heap_inv k' core p (set_heap_end q e) (user_dealloc h' r size align).
Proof.
  unfold user_alloc. destruct (allocate_first_fit (uh_inner h) size align) as [i r] eqn:Ha.
  destruct (alloc_inner _ _ _ _ _ _ _ _ _ Hinv Ha) as [Hi Hp].
  assert (set_heap_end q (heap_end q) = q) as Hsame by by destruct q. destruct r as [ptr|].
  { eexists _, _, _, (heap_end q). split; [done|]. rewrite Hsame. split; [done|]. split; [lia|].
    intros ? [= <-]. destruct (Hp ptr eq_refl) as [Hlo Hhi]. split; [done|]. by apply (alloc_block _ _ _ _ _ _ _ align Hi). }
  destruct (user_heap_grow_inv _ _ _ _ f _ (Z.max size MIN_GROW_BYTES) Hi ltac:(unfold MIN_GROW_BYTES; lia))
    as (k' & h' & grew & q' & -> & Hi' & ->). cbn iota beta. destruct grew; cbn [negb].
  2: { eexists _, _, _, _. split; [done|]. split; [done|]. split; [lia|done]. }
  destruct (allocate_first_fit (uh_inner h') size align) as [i' r'] eqn:Ha'.
  destruct (alloc_inner _ _ _ _ _ _ _ _ _ Hi' Ha') as [Hi2 Hp2].
  eexists _, _, _, _. split; [done|]. split; [done|]. split; [unfold MIN_GROW_BYTES; lia|].
  intros ptr Hr. destruct (Hp2 ptr Hr) as [Hlo Hhi]. split; [done|].
  subst r'. exact (alloc_block _ _ _ _ _ _ _ align Hi2 Hlo Hhi).
Qed.

(** A failed growth can block the heap for good.  A call that runs out of
    frames part way keeps the pages it had mapped above the break; as long as
    the page at the top of the heap is mapped, every growth that needs a page
    fails with [ResourceExhausted], however much memory is free, and leaves
    the process and that page as they were, so that the next one fails too. *)
Theorem sbrk_leftover_blocks_growth k (core : nat) frame (p : Pid) (q : Process)
    (Hrun : runs k core p q) (Hbrk : break_ok q) (Hwf : Phys.wf W (frames (kmem k)))
    (Hleft : translate (kmem k) (pml4_frame (address_space q)) (heap_top q) <> NotMapped) :
  let inc := to_signed 64 (rdi frame) in
  0 <= inc -> heap_end q + inc <= USER_HEAP_START + USER_HEAP_MAX_SIZE ->
  heap_top q < heap_top (set_heap_end q (heap_end q + inc)) ->
  exists k', sys_sbrk W k core frame = Ret (k', finish_with frame (Err ResourceExhausted)) /\
    runs k' core p q /\ Phys.wf W (frames (kmem k')) /\
    translate (kmem k') (pml4_frame (address_space q)) (heap_top q) <> NotMapped.
Proof.
  intros inc Hinc Hmax Htop. destruct (sys_sbrk_post k core frame p q Hrun Hbrk Hwf) as (k' & r & -> & Hwf' & Hp).
  fold inc in Hp. exists k'. destruct r as [v|e].
  { destruct Hp as (_ & _ & _ & _ & Hnew & _). destruct Hleft. by apply Hnew. }
  destruct e; try done.
  2: { destruct Hp as [_ [|]]; lia. }
  destruct Hp as (Hs & _ & Hch). split; [done|]. split.
  { destruct Hrun as (b & Hcur & Hocc & Hq). exists b. by rewrite Hs. }
  split; [done|]. intros Hno. apply Hleft, (Hch (heap_top q)). congruence.
Qed.
End heap.

(** ** A process with an empty heap, for witnesses: process [1.0] of
    [demo_s2] on core 0, with the frames of [w] free. *)
Definition demo_heap_mem (w : Z) (m : Mem) : Mem := set_frames m (mkFrames (mkBitmap [w] 6) (mkBitmap [62] 6)).
Definition demo_heap (w : Z) : Kernel := set_mem (demo_kernel demo_s2) (demo_heap_mem w demo_mem).
Definition demo_owner : Process := set_state (demo_process demo_parent None Ready) Running.
Definition demo_sbrk_call (n : Z) : TrapFrame := enter_asm (rt_sys_sbrk n) (demo_frame 0x400000).

(** An allocator that hands out its memory from the bottom up. *)
#[global] Instance demo_inner : InnerHeap := {|
  inner := option (Z * Z);
  inner_empty := None;
  inner_init start size := Some (start, start + size);
  inner_extend h by_ := match h with Some (a, b) => Some (a, b + by_) | None => None end;
  allocate_first_fit h size align :=
    match h with
    | Some (a, b) => if decide (0 <= size /\ a + size <= b) then (Some (a + size, b), Some a) else (h, None)
    | None => (h, None)
    end;
  deallocate h ptr size align := h;
|}.

#[global] Instance demo_inner_laws : @InnerLaws demo_inner.
Proof.
  refine (@Build_InnerLaws demo_inner
    (fun h lo hi => match h with Some (a, b) => lo <= a /\ b <= hi | None => True end) _ _ _ _ _ _); cbn.
  - done.
  - lia.
  - intros [[a b]|]; lia.
  - intros [[a b]|]; lia.
  - intros [[a b]|] lo hi size align Hw; [|done]. case_decide; (split; [lia|]); intros ptr [= <-]; lia.
  - done.
Defined.

Lemma demo_heap_runs w : runs (demo_heap w) 0 demo_parent demo_owner.
Proof. eexists. split; [reflexivity|]. split; [vm_compute; reflexivity|reflexivity]. Qed.

Lemma demo_heap_mapped m : @heap_mapped demo_x86 m demo_owner.
Proof. intros x Hx. change (heap_top demo_owner) with USER_HEAP_START in Hx. lia. Qed.

Lemma demo_break_ok : break_ok demo_owner.
Proof. split; vm_compute; done. Qed.

Lemma sys_sbrk_correct_witness :
  exists k', @sys_sbrk 1 demo_x86 (demo_heap 60) 0 (demo_sbrk_call 5000) =
      Ret (k', finish_with (demo_sbrk_call 5000) (Ok USER_HEAP_START)) /\
    @heap_mapped demo_x86 (kmem k') (set_heap_end demo_owner (USER_HEAP_START + 5000)).
Proof.
  destruct (@sys_sbrk_correct 1 demo_x86 demo_mapper_laws (demo_heap 60) 0 (demo_sbrk_call 5000) demo_parent demo_owner
    (demo_heap_runs 60) demo_break_ok ltac:(apply demo_frames_wf; [lia|reflexivity]) (demo_heap_mapped _))
    as (k' & r & Hcall & _ & _ & Hm).
  assert (exists k2, @sys_sbrk 1 demo_x86 (demo_heap 60) 0 (demo_sbrk_call 5000) =
      Ret (k2, finish_with (demo_sbrk_call 5000) (Ok USER_HEAP_START))) as (k2 & Hk2).
  { eexists. vm_compute. reflexivity. }
  exists k'. rewrite Hk2 in Hcall. injection Hcall as -> Hr.
  destruct r as [v|e]; [|exfalso; revert Hr; destruct e; vm_compute; congruence].
  split; [exact Hk2|exact Hm].
Defined.

Lemma user_alloc_backed_witness :
  exists k' h' ptr, @user_alloc 1 demo_x86 demo_inner (demo_heap 62) 0 (demo_frame 0x400000) user_heap_new 100 8 =
      Ret (k', h', Some ptr) /\
    forall x, ptr <= x < ptr + 100 -> @heap_page demo_x86 (kmem k') 0x1000 x.
Proof.
  destruct (@user_alloc_backed 1 demo_x86 demo_mapper_laws demo_inner demo_inner_laws (demo_heap 62) 0 demo_parent
    demo_owner (demo_frame 0x400000) user_heap_new 100 8) as (k' & h' & r & e & Hcall & _ & _ & Hptr).
  - split; [apply demo_heap_runs|apply demo_break_ok|apply demo_frames_wf; [lia|reflexivity]
      |apply demo_heap_mapped|exact I].
  - lia.
  - assert (exists k2 h2, @user_alloc 1 demo_x86 demo_inner (demo_heap 62) 0 (demo_frame 0x400000) user_heap_new 100 8
      = Ret (k2, h2, Some USER_HEAP_START)) as (k2 & h2 & Hk2) by (eexists _, _; vm_compute; reflexivity).
    exists k', h', USER_HEAP_START. rewrite Hk2 in Hcall. injection Hcall as -> -> <-.
    split; [exact Hk2|]. exact (proj1 (proj2 (Hptr _ eq_refl))).
Defined.

(** The call for two pages with one frame free, and afterwards four free frames. *)
Definition demo_failed : Kernel :=
  fst (or_else (demo_heap 32, RCaller (demo_frame 0)) (@sys_sbrk 1 demo_x86 (demo_heap 32) 0 (demo_sbrk_call 8192))).
Definition demo_blocked : Kernel := set_mem demo_failed (demo_heap_mem 60 (kmem demo_failed)).

Lemma sbrk_leftover_blocks_growth_witness :
  exists k', @sys_sbrk 1 demo_x86 (demo_heap 32) 0 (demo_sbrk_call 8192) =
      Ret (demo_failed, finish_with (demo_sbrk_call 8192) (Err ResourceExhausted)) /\
    Phys.free_frame_count (frames (kmem demo_blocked)) = 4%nat /\
    @sys_sbrk 1 demo_x86 demo_blocked 0 (demo_sbrk_call 4096) =
      Ret (k', finish_with (demo_sbrk_call 4096) (Err ResourceExhausted)).
Proof.
  destruct (@sbrk_leftover_blocks_growth 1 demo_x86 demo_mapper_laws demo_blocked 0 (demo_sbrk_call 4096) demo_parent
    demo_owner) as (k' & Hcall & _).
  - eexists. split; [reflexivity|]. split; [vm_compute; reflexivity|reflexivity].
  - apply demo_break_ok.
  - apply demo_frames_wf; [lia|reflexivity].
  - vm_compute. discriminate.
  - vm_compute. discriminate.
  - vm_compute. discriminate.
  - vm_compute. reflexivity.
  - exists k'. split; [vm_compute; reflexivity|]. split; [vm_compute; reflexivity|exact Hcall].
Defined.
