(* ===== verification/Sync.v ===== *)
(** * The interrupt-disabling spinlock ([kernel/src/sync.rs])

    Cores running nested contexts (an interrupt handler on top of what it
    interrupted) use any number of [SpinLock]s.  [lock], [try_lock], the drop
    of a guard and [force_unlock] are split at every point where another core
    or an interrupt can intervene.  The inner [spin::Mutex] is an atomic flag.
    Guards are dropped in the reverse of the order they were taken, as Rust
    scopes and the kernel's explicit [drop]s do. *)
From S2P Require Import Prelude.
Open Scope nat_scope.

(** Where a context is inside an operation of the lock [l]; [were] is the
    local [interrupts_were_enabled]. *)
Inductive Phase :=
| Running
| Entered (try : bool) (l : nat) (were : bool)
| Acquiring (try : bool) (l : nat) (were : bool)
| Restoring (were : bool).

(** A live [SpinLockGuard]. *)
Record Guard := mkGuard { guard_lock : nat; interrupts_were_enabled : bool }.

Record Ctx := mkCtx { phase : Phase; guards : list Guard }.

(** The running context first, below it those it interrupted. *)
Record CoreState := mkCore { interrupts_enabled : bool; contexts : list Ctx }.

Record Locks := mkLocks { locked : gset nat; lock_cores : list CoreState }.

(** ** Operations, one atomic piece at a time: what a core does to its own
    state and to the set of locked mutexes. *)
Inductive core_step : gset nat * CoreState -> gset nat * CoreState -> Prop :=
(** [interrupts::are_enabled()] of [lock] and [try_lock] *)
| st_enter try l L i gs xs :
    core_step (L, mkCore i (mkCtx Running gs :: xs))
              (L, mkCore i (mkCtx (Entered try l i) gs :: xs))
(** [if interrupts_were_enabled { interrupts::disable() }] *)
| st_disable try l were L i gs xs :
    core_step (L, mkCore i (mkCtx (Entered try l were) gs :: xs))
              (L, mkCore (if were then false else i) (mkCtx (Acquiring try l were) gs :: xs))
(** the inner mutex is free: the guard is built *)
| st_acquire try l were L i gs xs : l ∉ L ->
    core_step (L, mkCore i (mkCtx (Acquiring try l were) gs :: xs))
              ({[l]} ∪ L, mkCore i (mkCtx Running (mkGuard l were :: gs) :: xs))
(** [try_lock] on a held mutex *)
| st_try_fails l were L i gs xs : l ∈ L ->
    core_step (L, mkCore i (mkCtx (Acquiring true l were) gs :: xs))
              (L, mkCore i (mkCtx (Restoring were) gs :: xs))
(** [SpinLockGuard::drop]: the inner guard first *)
| st_drop l were L i gs xs :
    core_step (L, mkCore i (mkCtx Running (mkGuard l were :: gs) :: xs))
              (L ∖ {[l]}, mkCore i (mkCtx (Restoring were) gs :: xs))
(** [if interrupts_were_enabled { interrupts::enable() }] *)
| st_restore were L i gs xs :
    core_step (L, mkCore i (mkCtx (Restoring were) gs :: xs))
              (L, mkCore (if were then true else i) (mkCtx Running gs :: xs))
(** [force_unlock], under its contract: the caller holds the lock, took it
    with interrupts off and leaks the guard *)
| st_force_unlock l L i gs xs :
    core_step (L, mkCore i (mkCtx Running (mkGuard l false :: gs) :: xs))
              (L ∖ {[l]}, mkCore i (mkCtx Running gs :: xs))
(** an interrupt is taken, its handler starts with interrupts off *)
| st_interrupt L x xs :
    core_step (L, mkCore true (x :: xs)) (L, mkCore false (mkCtx Running [] :: x :: xs))
(** ... and returns *)
| st_iret L i x xs :
    core_step (L, mkCore i (mkCtx Running [] :: x :: xs)) (L, mkCore true (x :: xs))
(** the kernel's own [cli] and [sti]; the latter never with a guard alive *)
| st_cli L i gs xs :
    core_step (L, mkCore i (mkCtx Running gs :: xs)) (L, mkCore false (mkCtx Running gs :: xs))
| st_sti L i xs :
    core_step (L, mkCore i (mkCtx Running [] :: xs)) (L, mkCore true (mkCtx Running [] :: xs)).

Inductive lock_step : Locks -> Locks -> Prop :=
| ls_core i c c' L L' cs : cs !! i = Some c -> core_step (L, c) (L', c') ->
    lock_step (mkLocks L cs) (mkLocks L' (<[i := c']> cs)).

(** Cores start in one context each, with interrupts on or off. *)
Definition locks_new (flags : list bool) : Locks :=
  mkLocks ∅ ((fun i => mkCore i [mkCtx Running []]) <$> flags).

(** ** The locks held *)
Definition ctx_locks (x : Ctx) : list nat := guard_lock <$> guards x.
Definition core_locks (c : CoreState) : list nat := contexts c ≫= ctx_locks.
Definition held_locks (m : Locks) : list nat := lock_cores m ≫= core_locks.

(** A context that could be interrupted: it holds nothing and is not inside
    the part of an operation that runs with interrupts off. *)
Definition idle_ctx (x : Ctx) : Prop :=
  guards x = [] /\ match phase x with Running => True | Entered _ _ were => were = true | _ => False end.

(** The running context, against the interrupt flag: while it holds a guard or
    is between taking and releasing one, interrupts are off, and only its
    outermost guard may turn them on again. *)
Definition tail_off (gs : list Guard) : Prop :=
  forall i g, gs !! i = Some g -> S i < length gs -> interrupts_were_enabled g = false.

Definition running_ok (i : bool) (x : Ctx) : Prop :=
  (guards x <> [] -> i = false) /\ tail_off (guards x) /\
  match phase x with
  | Running => True
  | Entered _ _ were => were = i
  | Acquiring _ _ were | Restoring were => i = false /\ (guards x <> [] -> were = false)
  end.

Definition core_good (c : CoreState) : Prop :=
  match contexts c with
  | [] => False
  | x :: xs => running_ok (interrupts_enabled c) x /\ Forall idle_ctx xs
  end.

Record locks_inv (m : Locks) : Prop := {
  li_cores : Forall core_good (lock_cores m);
  li_nodup : NoDup (held_locks m);
  li_locked : forall l, l ∈ locked m <-> l ∈ held_locks m;
}.

Lemma tail_off_cons g gs : tail_off (g :: gs) -> tail_off gs.
Proof. intros Ht i x Hi Hl. apply (Ht (S i) x Hi). simpl. lia. Qed.

Lemma tail_off_push g gs :
  tail_off gs -> (gs <> [] -> interrupts_were_enabled g = false) -> tail_off (g :: gs).
Proof.
  intros Ht Hg [|i] x Hi Hl; simpl in *; simplify_eq.
  - apply Hg. destruct gs; [simpl in Hl; lia|done].
  - apply (Ht i x Hi). lia.
Qed.

Lemma core_step_good L c L' c' : core_step (L, c) (L', c') -> core_good c -> core_good c'.
Proof.
  inversion 1; subst; unfold core_good, running_ok; simpl; intros Hg.
  - destruct Hg as [(Hi & Ht & _) Hx]. split_and!; done.
  - destruct Hg as [(Hi & Ht & ->) Hx]. split_and!; try done; destruct i; naive_solver.
  - destruct Hg as [(Hi & Ht & -> & Hw) Hx]. split_and!; try done. by apply tail_off_push.
  - destruct Hg as [(Hi & Ht & -> & Hw) Hx]. split_and!; done.
  - destruct Hg as [(Hi & Ht & _) Hx]. split_and!; try done; [naive_solver|by apply tail_off_cons in Ht|naive_solver|].
    intros Hgs. apply (Ht 0 (mkGuard l were) eq_refl). destruct gs; [done|simpl; lia].
  - destruct Hg as [(Hi & Ht & -> & Hw) Hx]. split_and!; try done. destruct were; naive_solver.
  - destruct Hg as [(Hi & Ht & _) Hx]. split_and!; try done; [naive_solver|by apply tail_off_cons in Ht].
  - destruct Hg as [(Hi & Ht & Hp) Hx]. split_and!; try done. constructor; [|done].
    unfold idle_ctx. destruct x as [p gs]. simpl in *. destruct gs; [|by specialize (Hi ltac:(done))].
    split; [done|]. destruct p; naive_solver.
  - destruct Hg as [_ Hx]. apply Forall_cons in Hx as [[Hgs Hp] Hx]. destruct x as [p gs]. simpl in *. subst gs.
    split_and!; try done. destruct p; done.
  - destruct Hg as [(Hi & Ht & _) Hx]. split_and!; done.
  - destruct Hg as [(Hi & Ht & _) Hx]. split_and!; done.
Qed.

(** What a step does to the locks of its core. *)
Lemma core_step_locks L c L' c' :
  core_step (L, c) (L', c') ->
  (core_locks c' = core_locks c /\ L' = L) \/
  (exists l, l ∉ L /\ core_locks c' = l :: core_locks c /\ L' = {[l]} ∪ L) \/
  (exists l, core_locks c = l :: core_locks c' /\ L' = L ∖ {[l]}).
Proof. inversion 1; subst; unfold core_locks, ctx_locks; simpl; naive_solver. Qed.

Lemma delete_insert_same {A} (i : nat) (x : A) (l : list A) : delete i (<[i := x]> l) = delete i l.
Proof. revert i. induction l as [|y l IH]; intros [|i]; try done. apply (f_equal (cons y)), IH. Qed.

Lemma held_split i c c' cs :
  cs !! i = Some c ->
  exists rest, cs ≫= core_locks ≡ₚ core_locks c ++ rest /\ <[i := c']> cs ≫= core_locks ≡ₚ core_locks c' ++ rest.
Proof.
  intros Hi. pose proof (lookup_lt_Some _ _ _ Hi). exists (delete i cs ≫= core_locks).
  rewrite <- !bind_cons. split.
  - by rewrite <- (delete_Permutation cs i c).
  - rewrite (delete_Permutation (<[i := c']> cs) i c') by (by apply list_lookup_insert_eq).
    by rewrite delete_insert_same.
Qed.

Lemma locks_inv_step m m' : lock_step m m' -> locks_inv m -> locks_inv m'.
Proof.
  intros [i c c' L L' cs Hi Hstep] [Hc Hn Hl]. unfold held_locks in *. simpl in *.
  destruct (held_split i c c' cs Hi) as (rest & H1 & H2).
  assert (core_good c') as Hg by (eapply core_step_good; [exact Hstep|]; by apply (Forall_lookup_1 _ _ _ _ Hc Hi)).
  rewrite H1 in Hn. setoid_rewrite H1 in Hl.
  split; unfold held_locks; simpl; [by apply Forall_insert| |]; [rewrite H2|setoid_rewrite H2];
    destruct (core_step_locks _ _ _ _ Hstep) as [[-> ->]|[(l & Hf & -> & ->)|(l & Hcl & ->)]]; try done.
  - simpl. apply NoDup_cons. split; [|done]. by rewrite <- Hl.
  - rewrite Hcl in Hn. by apply NoDup_cons in Hn as [_ Hn].
  - set_solver.
  - rewrite Hcl in Hn. simpl in Hn. apply NoDup_cons in Hn as [Hnl _]. rewrite Hcl in Hl. set_solver.
Qed.

Lemma locks_inv_new flags : locks_inv (locks_new flags).
Proof.
  assert (held_locks (locks_new flags) = []) as Hh by (unfold held_locks; simpl; by induction flags).
  split.
  - simpl. apply Forall_fmap, Forall_true. intros i. unfold core_good. simpl.
    split; [|constructor]. unfold running_ok, tail_off. simpl. by split_and!.
  - rewrite Hh. constructor.
  - intros l. rewrite Hh. simpl. set_solver.
Qed.

Lemma reachable_locks_inv flags m : rtc lock_step (locks_new flags) m -> locks_inv m.
Proof.
  intros Hr. pose proof (locks_inv_new flags) as Hi. revert Hi.
  induction Hr as [|x y z Hs _ IH]; [done|]. intros Hi. by apply IH, (locks_inv_step x).
Qed.

(** C26: Spinlock safety.  Over every interleaving of any number of cores,
    locks, nested interrupts and operations: no lock has two guards alive,
    whether on two cores or in two contexts of one; a core holding a guard
    has interrupts off; and a context an interrupt handler runs on top of
    holds no lock at all, so the handler never waits for a lock its own core
    has to release. *)
Theorem spinlock_safe (flags : list bool) (m : Locks) (Hreach : rtc lock_step (locks_new flags) m) :
  NoDup (held_locks m) /\ (forall l, l ∈ locked m <-> l ∈ held_locks m) /\
  forall i c x xs, lock_cores m !! i = Some c -> contexts c = x :: xs ->
    (guards x <> [] -> interrupts_enabled c = false) /\ Forall (fun y => guards y = []) xs.
Proof.
  destruct (reachable_locks_inv _ _ Hreach) as [Hc Hn Hl]. split_and!; [done|done|].
  intros i c x xs Hi Hx. pose proof (Forall_lookup_1 _ _ _ _ Hc Hi) as Hg. unfold core_good in Hg.
  rewrite Hx in Hg. destruct Hg as [(Hg & _) Hxs]. split; [done|].
  eapply Forall_impl; [exact Hxs|]. by intros y [? _].
Qed.

(** No deadlock on one lock.  Whenever a context waits for a lock it does
    not itself hold, either it can take the lock in its next step, or the
    context holding the lock is the running context of another core, not one
    that an interrupt handler there has to return to first. *)
Theorem spinlock_progress (flags : list bool) (m : Locks) (i : nat) (c : CoreState) (try were : bool) (l : nat)
    (gs : list Guard) (xs : list Ctx)
    (Hreach : rtc lock_step (locks_new flags) m) (Hi : lock_cores m !! i = Some c)
    (Hwait : contexts c = mkCtx (Acquiring try l were) gs :: xs) (Hself : l ∉ (guard_lock <$> gs)) :
  (exists m', lock_step m m' /\ exists c', lock_cores m' !! i = Some c' /\
     contexts c' = mkCtx Running (mkGuard l were :: gs) :: xs) \/
  (exists j d x ys, j <> i /\ lock_cores m !! j = Some d /\ contexts d = x :: ys /\ l ∈ ctx_locks x).
Proof.
  destruct (reachable_locks_inv _ _ Hreach) as [Hc Hn Hl]. destruct m as [L cs]. simpl in *.
  assert (forall j d, cs !! j = Some d -> l ∈ core_locks d ->
            exists x ys, contexts d = x :: ys /\ l ∈ ctx_locks x) as Htop.
  { intros j d Hj Hin. pose proof (Forall_lookup_1 _ _ _ _ Hc Hj) as Hg. unfold core_good, core_locks in *.
    destruct (contexts d) as [|x ys]; [done|]. exists x, ys. split; [done|]. destruct Hg as [_ Hys].
    rewrite bind_cons in Hin. apply elem_of_app in Hin as [?|Hin]; [done|]. exfalso.
    apply list_elem_of_bind in Hin as (y & Hy & Hyin). rewrite Forall_forall in Hys.
    destruct (Hys y Hyin) as [Hgs _]. unfold ctx_locks in Hy. rewrite Hgs in Hy. by apply elem_of_nil in Hy. }
  destruct (decide (l ∈ L)) as [HL|HL].
  - right. apply Hl in HL. unfold held_locks in HL. simpl in HL.
    apply list_elem_of_bind in HL as (d & Hd & Hdin). apply list_elem_of_lookup in Hdin as [j Hj].
    destruct (Htop j d Hj Hd) as (x & ys & Hx & Hin). exists j, d, x, ys. split_and!; try done.
    intros ->. assert (d = c) as -> by congruence. rewrite Hx in Hwait. injection Hwait as -> ->. exact (Hself Hin).
  - left. destruct c as [ie ctx]. simpl in Hwait. subst ctx. eexists. split.
    + econstructor; [exact Hi|]. by apply st_acquire.
    + simpl. eexists. split; [apply list_lookup_insert_eq; by eapply lookup_lt_Some|reflexivity].
Qed.

(** ** Two cores, for witnesses: the first holds lock 3, the second waits. *)
Definition demo_contended : Locks :=
  mkLocks {[3]} [mkCore false [mkCtx Running [mkGuard 3 true]];
                 mkCore false [mkCtx (Acquiring false 3 true) []]].

Lemma demo_contended_reachable : rtc lock_step (locks_new [true; true]) demo_contended.
Proof.
  eapply rtc_l; [eapply (ls_core 0); [reflexivity|apply (st_enter false 3)]|]. simpl.
  eapply rtc_l; [eapply (ls_core 0); [reflexivity|apply st_disable]|]. simpl.
  eapply rtc_l; [eapply (ls_core 0); [reflexivity|apply st_acquire; set_solver]|]. simpl.
  eapply rtc_l; [eapply (ls_core 1); [reflexivity|apply (st_enter false 3)]|]. simpl.
  eapply rtc_l; [eapply (ls_core 1); [reflexivity|apply st_disable]|]. simpl.
  replace ({[3]} ∪ ∅ : gset nat) with ({[3]} : gset nat) by set_solver. reflexivity.
Qed.

Lemma spinlock_safe_witness : NoDup (held_locks demo_contended).
Proof. apply (spinlock_safe [true; true] demo_contended demo_contended_reachable). Defined.

Lemma spinlock_progress_witness :
  (exists m', lock_step demo_contended m' /\ exists c', lock_cores m' !! 1 = Some c' /\
     contexts c' = [mkCtx Running [mkGuard 3 true]]) \/
  (exists j d x ys, j <> 1 /\ lock_cores demo_contended !! j = Some d /\ contexts d = x :: ys /\ 3 ∈ ctx_locks x).
Proof.
  apply (spinlock_progress [true; true] demo_contended 1
    (mkCore false [mkCtx (Acquiring false 3 true) []]) false true 3 [] []).
  - exact demo_contended_reachable.
  - reflexivity.
  - reflexivity.
  - intros Hin. by apply elem_of_nil in Hin.
Defined.
