(* ===== verification/Panic.v ===== *)
(** * Reporting a panic
    ([kernel/src/lang_items.rs], [kernel/src/earlycon.rs], and what leads to
    them in [idt.rs], [lapic.rs] and [task/scheduler.rs])

    Any core can panic or fault at any time, also while it holds the lock of
    the serial line or of the kernel heap, which it then never releases.  The
    operations of the panic path are split where another core can intervene.
    The theorems: only one core ever reports; once elected, it gets its report
    out whatever state the locks are in; but a fault handler that formats an
    address with the heap allocator never gets to its message when the heap
    lock was left behind. *)
From S2P Require Import Prelude Abi Ring CapTable Virt Process Sched.
Open Scope nat_scope.

(** ** What is printed; [core::fmt] renders it. *)
Inductive Diag :=
| DCore (core : nat) (current : Z) (idle : bool)
| DBusy (index : nat)
| DTraceOf (core : nat)
| DTraceIdle (seq : Z)
| DTracePid (seq : Z) (index : nat) (generation : Z)
| DEmpty
| DPanic (message : list Z)
| DHalting.

Definition MAX_SPINS : Z := 10000000.

(** What is left to do on a panicking core.  [APrint n d] is [panic_println]
    after [n] turns of its loop; [ABreak] and [ATryLast] are its fallback;
    [AOut] writes to the port, with or without a guard of [COM1_TX_LOCK];
    [AAlloc] waits for the lock of the heap. *)
Inductive Act :=
| AClaim | ABroadcast | ASwap
| APrint (spins : Z) (d : Diag)
| ABreak (d : Diag) | ATryLast (d : Diag)
| AOut (guard : bool) (bytes : list Z)
| AAlloc.

#[global] Instance Diag_eq_dec : EqDecision Diag.
Proof. solve_decision. Defined.
#[global] Instance Act_eq_dec : EqDecision Act.
Proof. solve_decision. Defined.

Definition panic_println (d : Diag) : Act := APrint 0 d.

(** [lang_items::panic]. *)
Definition panic (message : list Z) : list Act :=
  [AClaim; ASwap; panic_println DEmpty; panic_println (DPanic message); panic_println DHalting].

(** [dump_dispatch_trace_for_panic]. *)
Definition dump_dispatch_trace_for_panic (s : Sched) : list Diag :=
  seq 0 MAX_CORES ≫= fun core =>
    match percpu s !! core, traces s !! core with
    | Some p, Some t =>
        if is_booted p then
          DTraceOf core :: ((fun '(seq, raw) =>
            if decide (raw = 0%Z) then DTraceIdle seq
            else DTracePid seq (pid_index (mkPid raw)) (pid_generation (mkPid raw))) <$> dispatch_trace_dump t)
        else []
    | _, _ => []
    end.

(** [dump_cores_for_panic]: the lines, read from the state [s]. *)
Definition dump_lines (s : Sched) : list Diag :=
  (seq 0 MAX_CORES ≫= fun core =>
     match percpu s !! core with
     | Some p => if is_booted p then [DCore core (pc_current p) (idle p)] else []
     | None => []
     end) ++
  (seq 0 MAX_PROCESSES ≫= fun index =>
     match stack_busy s !! index with Some true => [DBusy index] | _ => [] end) ++
  dump_dispatch_trace_for_panic s.

Lemma length_bind_le {A B} (f : A -> list B) (l : list A) (k : nat) :
  (forall x, length (f x) <= k) -> length (l ≫= f) <= length l * k.
Proof.
  intros Hf. induction l as [|x l IH]; [done|]. rewrite bind_cons, length_app. specialize (Hf x). simpl. lia.
Qed.

(** A dump has at most two lines and a trace per core and one per process. *)
Lemma dump_lines_bound s : length (dump_lines s) <= MAX_CORES * (TRACE_LEN + 2) + MAX_PROCESSES.
Proof.
  unfold dump_lines, dump_dispatch_trace_for_panic. rewrite !length_app.
  etrans; [apply Nat.add_le_mono; [|apply Nat.add_le_mono]; apply length_bind_le|].
  - intros core. instantiate (1 := 1). repeat case_match; simpl; lia.
  - intros index. instantiate (1 := 1). repeat case_match; simpl; lia.
  - intros core. instantiate (1 := S TRACE_LEN). repeat case_match; simpl; try lia.
    rewrite length_fmap. unfold dispatch_trace_dump. rewrite length_fmap, length_seq. unfold TRACE_LEN. lia.
  - rewrite !length_seq. lia.
Qed.

Definition dump_cores_for_panic (lines : list Diag) : list Act := ABroadcast :: (panic_println <$> lines).

(** A fault in the kernel, with the allocations made between the dump and the
    panic. *)
Definition fault_ring0 (lines : list Diag) (allocations : nat) (message : list Z) : list Act :=
  AClaim :: dump_cores_for_panic lines ++ replicate allocations AAlloc ++ panic message.

Definition double_fault_handler (lines : list Diag) (message : list Z) : list Act := fault_ring0 lines 0 message.

(** [describe_stack_addr] allocates at least once for its string; [more] are
    what formatting it needs beyond that. *)
Definition describe_stack_addr (more : nat) : nat := S more.

Definition general_protection_fault_ring0 (lines : list Diag) (more_rip more_rsp : nat) (message : list Z) : list Act :=
  fault_ring0 lines (describe_stack_addr more_rip + describe_stack_addr more_rsp) message.
Definition page_fault_ring0 (lines : list Diag) (more_addr more_rsp : nat) (message : list Z) : list Act :=
  fault_ring0 lines (describe_stack_addr more_addr + describe_stack_addr more_rsp) message.

(** ** The machine *)
Inductive CoreSt :=
| CWork                      (* ordinary code *)
| CLog (bytes : list Z)      (* in [_println], with the guard *)
| CHeap                      (* in the kernel heap, with its lock *)
| CPanic (todo : list Act)
| CHalt.

(** A byte on the serial line: its core, and whether the panic path wrote it. *)
Record OutByte := mkOut { out_core : nat; out_diag : bool; out_byte : Z }.

(** [reporter] is [PANIC_REPORTER_CORE], [panicking] the set flags of
    [PANICKING], [com1] and [heap] whether the two locks are taken, [halts] the
    cores with a pending [PANIC_HALT_VECTOR]. *)
Record Machine := mkMachine {
  reporter : option nat; panicking : gset nat; com1 : bool; heap : bool; halts : gset nat;
  wire : list OutByte; pcores : list CoreSt;
}.

Definition set_reporter (m : Machine) v := mkMachine v (panicking m) (com1 m) (heap m) (halts m) (wire m) (pcores m).
Definition set_panicking (m : Machine) v := mkMachine (reporter m) v (com1 m) (heap m) (halts m) (wire m) (pcores m).
Definition set_com1 (m : Machine) v := mkMachine (reporter m) (panicking m) v (heap m) (halts m) (wire m) (pcores m).
Definition set_heap (m : Machine) v := mkMachine (reporter m) (panicking m) (com1 m) v (halts m) (wire m) (pcores m).
Definition set_halts (m : Machine) v := mkMachine (reporter m) (panicking m) (com1 m) (heap m) v (wire m) (pcores m).
Definition put_byte (m : Machine) b :=
  mkMachine (reporter m) (panicking m) (com1 m) (heap m) (halts m) (wire m ++ [b]) (pcores m).
Definition put_core (m : Machine) i c :=
  mkMachine (reporter m) (panicking m) (com1 m) (heap m) (halts m) (wire m) (<[i := c]> (pcores m)).

Section panic.
Context (render : Diag -> list Z) (slots : list PerCpuSlot).
Implicit Types (m : Machine) (i : nat).

Definition CRLF : list Z := [13; 10]%Z.

(** [broadcast_panic_halt]: the cores it interrupts. *)
Definition broadcast_panic_halt (this_core : nat) : list nat :=
  filter (fun core => core <> this_core /\ is_booted <$> slots !! core = Some true) (seq 0 MAX_CORES).

(** [claim_panic_reporter], up to the broadcast. *)
Definition claim_panic_reporter m i (todo : list Act) : Machine * CoreSt :=
  match reporter m with
  | None => (set_reporter m (Some i), CPanic (ABroadcast :: todo))
  | Some winner => if decide (winner = i) then (m, CPanic todo) else (m, CHalt)
  end.

(** [COM1_TX_LOCK.try_lock()], then what follows in either case. *)
Definition try_com1 m (taken free : list Act) : Machine * CoreSt :=
  if com1 m then (m, CPanic taken) else (set_com1 m true, CPanic free).

(** One action of core [i]. *)
Definition panic_act m i (a : Act) (todo : list Act) : Machine * CoreSt :=
  match a with
  | AClaim => claim_panic_reporter m i todo
  | ABroadcast => (set_halts m (halts m ∪ list_to_set (broadcast_panic_halt i)), CPanic todo)
  | ASwap => if decide (i ∈ panicking m) then (m, CHalt) else (set_panicking m ({[i]} ∪ panicking m), CPanic todo)
  | APrint n d =>
      try_com1 m ((if decide (n < MAX_SPINS)%Z then APrint (n + 1) d else ABreak d) :: todo)
        (AOut true (render d ++ CRLF) :: todo)
  | ABreak d => (set_com1 m false, CPanic (ATryLast d :: todo))
  | ATryLast d => try_com1 m (AOut false (render d ++ CRLF) :: todo) (AOut true (render d ++ CRLF) :: todo)
  | AOut guard [] => (if guard then set_com1 m false else m, CPanic todo)
  | AOut guard (b :: bs) => (put_byte m (mkOut i true b), CPanic (AOut guard bs :: todo))
  | AAlloc => (m, CPanic (if heap m then AAlloc :: todo else todo))
  end.

(** A core that can still do something. *)
Definition alive (c : CoreSt) : Prop := c <> CHalt.

(** One step of core [i]; [fresh] when it starts a panic instead of going on
    with what it does.  In [ps_halted] it takes the interrupt of
    [broadcast_panic_halt]. *)
Inductive panic_step (i : nat) : bool -> Machine -> Machine -> Prop :=
| ps_act m m' c a todo : pcores m !! i = Some (CPanic (a :: todo)) -> panic_act m i a todo = (m', c) ->
    panic_step i false m (put_core m' i c)
| ps_end m : pcores m !! i = Some (CPanic []) -> panic_step i false m (put_core m i CHalt)
| ps_log m bytes : pcores m !! i = Some CWork -> com1 m = false ->
    panic_step i false m (put_core (set_com1 m true) i (CLog bytes))
| ps_log_byte m b bytes : pcores m !! i = Some (CLog (b :: bytes)) ->
    panic_step i false m (put_core (put_byte m (mkOut i false b)) i (CLog bytes))
| ps_log_end m : pcores m !! i = Some (CLog []) ->
    panic_step i false m (put_core (set_com1 m false) i CWork)
| ps_alloc m : pcores m !! i = Some CWork -> heap m = false ->
    panic_step i false m (put_core (set_heap m true) i CHeap)
| ps_alloc_end m : pcores m !! i = Some CHeap ->
    panic_step i false m (put_core (set_heap m false) i CWork)
| ps_panic m c message : pcores m !! i = Some c -> alive c ->
    panic_step i true m (put_core m i (CPanic (panic message)))
| ps_fault m c lines n message : pcores m !! i = Some c -> alive c ->
    panic_step i true m (put_core m i (CPanic (fault_ring0 lines n message)))
| ps_halted m c : pcores m !! i = Some c -> alive c -> i ∈ halts m ->
    panic_step i false m (put_core m i CHalt).

Definition any_step m m' : Prop := exists i fresh, panic_step i fresh m m'.

Definition machine_new (cores : nat) : Machine := mkMachine None ∅ false false ∅ [] (replicate cores CWork).

(** ** One reporter *)

(** Past the election only the winner is left. *)
Definition won (r : option nat) i (c : CoreSt) : Prop :=
  match c with CPanic (AClaim :: _) => True | CPanic _ => r = Some i | _ => True end.

Record panic_inv m : Prop := {
  pi_won : forall i c, pcores m !! i = Some c -> won (reporter m) i c;
  pi_wire : forall o, o ∈ wire m -> out_diag o = true -> reporter m = Some (out_core o);
  pi_halts : forall i, i ∈ halts m -> exists r, reporter m = Some r /\ r <> i;
}.

Lemma put_core_lookup m i c j d :
  pcores (put_core m i c) !! j = Some d -> (j = i /\ d = c) \/ (j <> i /\ pcores m !! j = Some d).
Proof.
  simpl. destruct (decide (j = i)) as [->|Hne].
  - intros Hl. left. split; [done|]. apply list_lookup_insert_Some in Hl as [(_ & -> & _)|[? _]]; done.
  - rewrite list_lookup_insert_ne by done. by right.
Qed.

(** A step that keeps the election, the line and the interrupts keeps the
    invariant if its core does. *)
Lemma panic_inv_put m i c :
  panic_inv m -> won (reporter m) i c -> panic_inv (put_core m i c).
Proof.
  intros [Hw Ho Hh] Hc. split; [|done..]. intros j d [[-> ->]|[_ Hl]]%put_core_lookup; [done|by apply Hw].
Qed.

Lemma won_none i j c : won None i c -> won (Some j) i c.
Proof. by destruct c as [| | |[|[]]|]. Qed.

Lemma won_head r i a todo : won r i (CPanic (a :: todo)) -> a <> AClaim -> r = Some i.
Proof. by destruct a. Qed.

Lemma won_rest r i todo : r = Some i -> won r i (CPanic todo).
Proof. intros Hr. by destruct todo as [|[]]. Qed.
#[local] Hint Resolve won_rest : core.

(** What an action does beside printing: the election is decided once, the
    interrupts go to other cores. *)
Lemma panic_inv_act m i a todo m' c :
  panic_act m i a todo = (m', c) -> panic_inv m -> won (reporter m) i (CPanic (a :: todo)) ->
  panic_inv m' /\ won (reporter m') i c.
Proof.
  intros Ha Hinv Hwon. pose proof Hinv as [Hw Ho Hh].
  destruct (decide (a = AClaim)) as [->|Hne].
  - simpl in Ha. unfold claim_panic_reporter in Ha. destruct (reporter m) as [w|] eqn:Hr.
    { case_decide; simplify_eq; split; try done. rewrite Hr. by apply won_rest. }
    simplify_eq. split; [|done]. split; simpl.
    + intros j d Hj. apply won_none, (Hw j d Hj).
    + intros o Hin Hd. by specialize (Ho o Hin Hd).
    + intros j Hj. by destruct (Hh j Hj) as (r & ? & _).
  - apply won_head in Hwon; [|done].
    destruct a as [| | |n d|d|d|g [|b bs]|]; simpl in Ha; unfold try_com1 in Ha; repeat case_match; simplify_eq;
      (split; [split; simpl|]); try done; try by apply won_rest.
    + intros j [Hj|Hj]%elem_of_union; [by apply Hh|]. exists i. split; [done|].
      apply elem_of_list_to_set, list_elem_of_filter in Hj as [[? _] _]. done.
    + intros o [Hin|Hin]%elem_of_app Hd; [by apply Ho|]. apply list_elem_of_singleton in Hin as ->. done.
Qed.

Lemma panic_inv_step m m' : any_step m m' -> panic_inv m -> panic_inv m'.
Proof.
  intros (i & fresh & Hs) Hinv. pose proof Hinv as [Hw Ho Hh].
  destruct Hs as [m m' c a todo Hi Ha| | |m b bytes Hi| | | | | |]; try (by apply panic_inv_put).
  - destruct (panic_inv_act _ _ _ _ _ _ Ha Hinv (Hw _ _ Hi)) as [Hm Hc]. by apply panic_inv_put.
  - apply panic_inv_put; [|done]. split; [done| |done]. simpl.
    intros o [Hin|Hin]%elem_of_app Hd; [by apply Ho|]. by apply list_elem_of_singleton in Hin as ->.
Qed.

Lemma panic_inv_new n : panic_inv (machine_new n).
Proof. split; simpl; [|set_solver..]. intros i c [-> _]%lookup_replicate. done. Qed.

Lemma reachable_panic_inv n m : rtc any_step (machine_new n) m -> panic_inv m.
Proof.
  intros Hr. pose proof (panic_inv_new n) as Hi. revert Hi.
  induction Hr as [|x y z Hs _ IH]; [done|]. intros Hi. by apply IH, (panic_inv_step x).
Qed.

(** One reporter.  However many cores panic or fault, at whatever moments
    and in whatever interleaving, all diagnostic output is of one core, the one
    that won the election, and that core is never asked to halt. *)
Theorem panic_single_reporter (n : nat) m (Hr : rtc any_step (machine_new n) m) (o : OutByte)
    (Hin : o ∈ wire m) (Hd : out_diag o = true) :
  reporter m = Some (out_core o) /\ (out_core o ∉ halts m) /\
  forall o', o' ∈ wire m -> out_diag o' = true -> out_core o' = out_core o.
Proof.
  apply reachable_panic_inv in Hr as [_ Ho Hh]. pose proof (Ho o Hin Hd) as Hrep. split; [done|]. split.
  - intros (r & Hr & Hne)%Hh. congruence.
  - intros o' Hin' Hd'. specialize (Ho o' Hin' Hd'). congruence.
Qed.

(** ** The report gets out *)

(** A run in which core [i] makes [n] steps of its own and takes no fault. *)
Inductive run (i : nat) : nat -> Machine -> Machine -> Prop :=
| run_refl m : run i 0 m m
| run_own n m m' m'' : run i n m m' -> panic_step i false m' m'' -> run i (S n) m m''
| run_other n m m' m'' j fresh : run i n m m' -> j <> i -> panic_step j fresh m' m'' -> run i n m m''.

(** The most steps an action takes. *)
Definition act_cost (a : Act) : nat :=
  match a with
  | AClaim => 2
  | APrint n d => Z.to_nat (MAX_SPINS - n) + length (render d ++ CRLF) + 5
  | ABreak d => length (render d ++ CRLF) + 4
  | ATryLast d => length (render d ++ CRLF) + 3
  | AOut _ bytes => length bytes + 1
  | ABroadcast | ASwap | AAlloc => 1
  end.

Definition cost (todo : list Act) : nat := S (sum_list (act_cost <$> todo)).

Definition core_cost (c : CoreSt) : nat := match c with CPanic todo => cost todo | _ => 0 end.

(** What the rest of a report prints, on a core whose [PANICKING] flag is
    [set], if the heap never answers. *)
Fixpoint report (set : bool) (todo : list Act) : list Z :=
  match todo with
  | [] => []
  | (AClaim | ABroadcast) :: todo => report set todo
  | ASwap :: todo => if set then [] else report true todo
  | (APrint _ d | ABreak d | ATryLast d) :: todo => render d ++ CRLF ++ report set todo
  | AOut _ bytes :: todo => bytes ++ report set todo
  | AAlloc :: _ => []
  end.

Definition core_report m i (c : CoreSt) : list Z :=
  match c with CPanic todo => report (bool_decide (i ∈ panicking m)) todo | _ => [] end.

(** The diagnostic bytes of core [i] so far. *)
Definition reported m i : list Z :=
  out_byte <$> filter (fun o => out_core o = i /\ out_diag o = true) (wire m).

(** The heap's lock is taken and nobody is left to release it. *)
Definition heap_orphaned m : Prop := heap m = true /\ CHeap ∉ pcores m.

Lemma act_report m i a todo m' c :
  panic_act m i a todo = (m', c) -> reporter m = Some i -> (a = AAlloc -> heap m = true) ->
  reported m' i ++ core_report m' i c = reported m i ++ core_report m i (CPanic (a :: todo)).
Proof.
  intros Ha Hr Hheap.
  destruct a as [| | |n d|d|d|g [|b bs]|]; simpl in Ha; unfold claim_panic_reporter, try_com1 in Ha;
    try rewrite Hr in Ha; try rewrite decide_True in Ha by done; try (rewrite Hheap in Ha by done);
    repeat case_match; simplify_eq; try done; simpl; rewrite <- ?app_assoc; try done.
  - by rewrite bool_decide_true.
  - rewrite bool_decide_true by set_solver. by rewrite bool_decide_false.
  - unfold reported. simpl. rewrite filter_app, fmap_app, filter_cons_True, <- app_assoc by done. done.
Qed.

Lemma cost_cons a todo : cost (a :: todo) = act_cost a + cost todo.
Proof. unfold cost. rewrite fmap_cons. rewrite (Nat.add_succ_r (act_cost a)). done. Qed.

Lemma act_cost_decreases m i a todo m' c :
  panic_act m i a todo = (m', c) -> a <> AAlloc -> core_cost c < cost (a :: todo).
Proof.
  intros Ha Hne. rewrite cost_cons.
  destruct a as [| | |n d|d|d|g [|b bs]|]; simpl in Ha; unfold claim_panic_reporter, try_com1 in Ha;
    repeat case_match; simplify_eq; cbn [core_cost]; rewrite ?cost_cons; cbn [act_cost length]; lia.
Qed.

Lemma act_no_alloc m i a todo m' c :
  panic_act m i a todo = (m', c) -> AAlloc ∉ a :: todo ->
  match c with CPanic todo' => AAlloc ∉ todo' | _ => True end.
Proof.
  intros Ha Hno. apply not_elem_of_cons in Hno as [Hne Hno].
  destruct a as [| | |n d|d|d|g [|b bs]|]; simpl in Ha; unfold claim_panic_reporter, try_com1 in Ha;
    repeat case_match; simplify_eq; try done; apply not_elem_of_cons; done.
Qed.

(** Steps of other cores are invisible to the reporter. *)
Lemma other_step m m' i j fresh :
  panic_step j fresh m m' -> j <> i -> reporter m = Some i ->
  pcores m' !! i = pcores m !! i /\ reporter m' = Some i /\ reported m' i = reported m i /\
  (i ∈ panicking m' <-> i ∈ panicking m).
Proof.
  intros Hs Hne Hr.
  assert (forall o m, out_core o = j -> reported (put_byte m o) i = reported m i) as Hput.
  { intros o m0 Ho. unfold reported. simpl. rewrite filter_app, filter_cons_False, filter_nil, app_nil_r; [done|].
    intros [? _]. congruence. }
  destruct Hs as [m m' c a todo Hj Ha|m Hj|m bytes Hj|m b bytes Hj|m Hj|m Hj|m Hj|m c msg Hj|m c ls n msg Hj|m c Hj];
    simpl; rewrite ?list_lookup_insert_ne by done; try (split_and!; done).
  2: { split_and!; try done. by apply (Hput (mkOut j false b) m). }
  destruct a as [| | |n d|d|d|g [|b bs]|]; simpl in Ha; unfold claim_panic_reporter, try_com1 in Ha;
    try rewrite Hr in Ha; repeat case_match; simplify_eq; simpl; split_and!; try done; try set_solver.
Qed.

Lemma orphaned_step m m' : any_step m m' -> heap_orphaned m -> heap_orphaned m'.
Proof.
  assert (forall m i c, c <> CHeap -> heap_orphaned m -> heap_orphaned (put_core m i c)) as Hput.
  { intros m0 i c Hc [Hh Hno]. split; [done|]. simpl. intros Hin. apply list_elem_of_lookup in Hin as [j Hj].
    apply (put_core_lookup m0) in Hj as [[_ He]|[_ Hj]]; [done|]. by apply Hno; eapply list_elem_of_lookup_2. }
  intros (i & fresh & Hs) Ho. pose proof Ho as [Hh Hno].
  destruct Hs as [m m' c a todo Hj Ha|m Hj|m bytes Hj|m b bytes Hj|m Hj|m Hj Hf|m Hj|m c msg Hj|m c ls n msg Hj|m c Hj];
    try (by apply Hput); [|congruence|by destruct Hno; eapply list_elem_of_lookup_2].
  apply Hput.
  - destruct a as [| | |n d|d|d|g [|b bs]|]; simpl in Ha; unfold claim_panic_reporter, try_com1 in Ha;
      repeat case_match; by simplify_eq.
  - destruct a as [| | |n d|d|d|g [|b bs]|]; simpl in Ha; unfold claim_panic_reporter, try_com1 in Ha;
      repeat case_match; by simplify_eq.
Qed.

(** The elected core [i] on the way to having printed [total]. *)
Record reporting i (total : list Z) m (c : CoreSt) : Prop := {
  rp_core : pcores m !! i = Some c;
  rp_state : match c with CPanic _ | CHalt => True | _ => False end;
  rp_elected : reporter m = Some i;
  rp_inv : panic_inv m;
  rp_total : reported m i ++ core_report m i c = total;
}.

Lemma reporting_other i total m c j fresh m' :
  reporting i total m c -> panic_step j fresh m m' -> j <> i -> reporting i total m' c.
Proof.
  intros [Hc Hst He Hinv Ht] Hs Hne. destruct (other_step _ _ _ _ _ Hs Hne He) as (H1 & H2 & H3 & H4).
  split; [congruence|done..|eapply panic_inv_step; [by eexists _, _|done]|]. rewrite H3, <- Ht. f_equal. destruct c; try done. simpl. f_equal.
  by apply bool_decide_ext.
Qed.

Definition todo_of (c : CoreSt) : list Act := match c with CPanic todo => todo | _ => [] end.

Lemma act_keeps m i a todo m' c :
  panic_act m i a todo = (m', c) -> reporter m = Some i ->
  reporter m' = Some i /\ pcores m' = pcores m /\ match c with CPanic _ | CHalt => True | _ => False end.
Proof.
  intros Ha Hr. destruct a as [| | |n d|d|d|g [|b bs]|]; simpl in Ha; unfold claim_panic_reporter, try_com1 in Ha;
    repeat case_match; simplify_eq; done.
Qed.

Lemma reporting_own i total m c m' :
  reporting i total m c -> panic_step i false m m' -> (AAlloc ∉ todo_of c \/ heap m = true) ->
  exists c', reporting i total m' c' /\
    (c = CPanic [] /\ c' = CHalt \/
     exists a todo m1, c = CPanic (a :: todo) /\ panic_act m i a todo = (m1, c')).
Proof.
  intros [Hc Hst He Hinv Ht] Hs Hal. pose proof (panic_inv_step _ _ (ex_intro _ i (ex_intro _ _ Hs)) Hinv) as Hinv'.
  inversion Hs as [m1 m2 c' a todo Hi Ha|m1 Hi|m1 bs Hi|m1 b bs Hi|m1 Hi|m1 Hi|m1 Hi| | |m1 c' Hi _ Hh]; subst;
    rewrite Hi in Hc; injection Hc as <-; try done; pose proof (lookup_lt_Some _ _ _ Hi) as Hlt.
  - exists c'. split; [|right; by eexists _, _, _]. destruct (act_keeps _ _ _ _ _ _ Ha He) as (Hr & Hp & Hs').
    split; [|done..|].
    + simpl. rewrite Hp. by apply list_lookup_insert_eq.
    + rewrite <- (act_report _ _ _ _ _ _ Ha He); [done|]. intros ->. destruct Hal as [Hn|]; [|done].
      destruct Hn. by left.
  - exists CHalt. split; [|by left]. split; [|done..]. simpl. by apply list_lookup_insert_eq.
  - destruct (pi_halts _ Hinv _ Hh) as (r & Hr & Hne). congruence.
Qed.

Lemma run_reporting i n total m m' c :
  run i n m m' -> reporting i total m c -> AAlloc ∉ todo_of c ->
  exists c', reporting i total m' c' /\ AAlloc ∉ todo_of c' /\ n + core_cost c' <= core_cost c.
Proof.
  intros Hrun Hrep Hno. induction Hrun as [m|n m m1 m2 _ IH Hs|n m m1 m2 j fresh _ IH Hne Hs].
  - by exists c.
  - destruct (IH Hrep) as (c1 & Hrep1 & Hno1 & Hle).
    destruct (reporting_own _ _ _ _ _ Hrep1 Hs (or_introl Hno1)) as (c2 & Hrep2 & Hc). exists c2. split; [done|].
    destruct Hc as [[-> ->]|(a & todo & m3 & -> & Ha)]; [by simpl in *; split; [set_solver|unfold cost in *; simpl in *; lia]|].
    split.
    + pose proof (act_no_alloc _ _ _ _ _ _ Ha Hno1). destruct c2; set_solver.
    + pose proof (act_cost_decreases _ _ _ _ _ _ Ha ltac:(set_solver)). cbn [core_cost] in Hle. lia.
  - destruct (IH Hrep) as (c1 & Hrep1 & Hno1 & Hle). exists c1. split; [|done]. by eapply reporting_other.
Qed.

(** An allocation is ahead, and nothing that can halt the core before it. *)
Definition waits (c : CoreSt) : Prop := exists pre post, c = CPanic (pre ++ AAlloc :: post) /\ ASwap ∉ pre.

Lemma act_waits m i a todo m' c :
  panic_act m i a todo = (m', c) -> reporter m = Some i -> heap m = true -> waits (CPanic (a :: todo)) -> waits c.
Proof.
  intros Ha Hr Hh (pre & post & [= Heq] & Hno). destruct pre as [|x pre]; injection Heq as -> ->.
  { simpl in Ha. rewrite Hh in Ha. simplify_eq. by exists [], post. }
  apply not_elem_of_cons in Hno as [Hx Hno]. set (todo := pre ++ AAlloc :: post) in *.
  assert (waits (CPanic todo)) as Hw by (by exists pre, post).
  assert (forall y, y <> ASwap -> waits (CPanic (y :: todo))) as Hcons.
  { intros y Hy. exists (y :: pre), post. split; [done|]. apply not_elem_of_cons. done. }
  destruct x as [| | |n d|d|d|g [|b bs]|]; simpl in Ha; unfold claim_panic_reporter, try_com1 in Ha;
    rewrite ?Hr, ?Hh in Ha; repeat case_match; simplify_eq; auto.
Qed.

Lemma run_orphaned i n total m m' c :
  run i n m m' -> reporting i total m c -> waits c -> heap_orphaned m ->
  exists c', reporting i total m' c' /\ waits c' /\ heap_orphaned m'.
Proof.
  intros Hrun Hrep Hw Ho. induction Hrun as [m|n m m1 m2 _ IH Hs|n m m1 m2 j fresh _ IH Hne Hs].
  - by exists c.
  - destruct (IH Hrep Ho) as (c1 & Hrep1 & Hw1 & Ho1).
    destruct (reporting_own _ _ _ _ _ Hrep1 Hs (or_intror (proj1 Ho1))) as (c2 & Hrep2 & Hc). exists c2. split; [done|].
    split; [|eapply orphaned_step; [by eexists _, _|done]].
    destruct Hc as [[-> _]|(a & todo & m3 & -> & Ha)]; [by destruct Hw1 as ([] & ? & ? & _)|].
    eapply act_waits; [exact Ha|apply Hrep1|apply Ho1|done].
  - destruct (IH Hrep Ho) as (c1 & Hrep1 & Hw1 & Ho1). exists c1. split; [by eapply reporting_other|].
    split; [done|]. eapply orphaned_step; [|done]. by eexists _, _.
Qed.

Lemma panicking_can_step m i todo : pcores m !! i = Some (CPanic todo) -> exists m', panic_step i false m m'.
Proof.
  intros Hi. destruct todo as [|a todo]; [by eexists; apply ps_end|].
  destruct (panic_act m i a todo) as [m' c] eqn:Ha. eexists. by eapply ps_act.
Qed.

Definition text (lines : list Diag) : list Z := lines ≫= fun d => render d ++ CRLF.

Lemma report_lines set lines todo :
  report set ((panic_println <$> lines) ++ todo) = text lines ++ report set todo.
Proof.
  induction lines as [|d lines IH]; [done|]. rewrite fmap_cons. unfold panic_println at 1. cbn [app report].
  rewrite IH. unfold text. rewrite bind_cons. by rewrite <- !app_assoc.
Qed.

Lemma report_panic message : report false (panic message) = text [DEmpty; DPanic message; DHalting].
Proof. unfold text. simpl. rewrite <- ?app_assoc, ?app_nil_r. done. Qed.

Lemma reporting_start m i todo :
  panic_inv m -> reporter m = Some i -> pcores m !! i = Some (CPanic todo) ->
  reporting i (reported m i ++ report (bool_decide (i ∈ panicking m)) todo) m (CPanic todo).
Proof. by split. Qed.

(** C29: The elected core gets its report out.  Let core [i] have just won the
    election at the start of a panic, or of a fault handler that does not
    allocate.  Whoever holds the serial line's lock, and whatever the other
    cores do, it makes at most [cost] many steps, always has a next one until
    it halts, and when it halts it has printed the dump and the message, in
    order and complete. *)
Theorem panic_report_completes (cores n : nat) (lines : list Diag) (message : list Z) (todo : list Act) m m' i
    (Hreach : rtc any_step (machine_new cores) m) (Hwon : reporter m = Some i) (Hfirst : i ∉ panicking m)
    (Hcore : pcores m !! i = Some (CPanic (ABroadcast :: todo)))
    (Htodo : AClaim :: todo = panic message /\ lines = [] \/ AClaim :: todo = double_fault_handler lines message)
    (Hrun : run i n m m') :
  n <= cost (ABroadcast :: todo) /\
  exists c, pcores m' !! i = Some c /\
    (c <> CHalt -> exists m2, panic_step i false m' m2) /\
    (c = CHalt -> reported m' i = reported m i ++ text (lines ++ [DEmpty; DPanic message; DHalting])).
Proof.
  pose proof (reporting_start m i _ (reachable_panic_inv _ _ Hreach) Hwon Hcore) as Hrep.
  rewrite bool_decide_false in Hrep by done. change (report false (ABroadcast :: todo)) with (report false (AClaim :: todo)) in Hrep.
  assert (report false (AClaim :: todo) = text (lines ++ [DEmpty; DPanic message; DHalting]) /\ AAlloc ∉ ABroadcast :: todo)
    as [Htext Hno].
  { destruct Htodo as [[Heq ->]|Heq]; (split; [rewrite Heq|injection Heq as ->]).
    - apply report_panic.
    - unfold panic_println. set_solver.
    - unfold double_fault_handler, fault_ring0, dump_cores_for_panic. cbn [replicate app report]. rewrite report_lines, report_panic.
      unfold text. by rewrite bind_app.
    - unfold panic, panic_println. set_solver. }
  rewrite Htext in Hrep. destruct (run_reporting _ _ _ _ _ _ Hrun Hrep Hno) as (c & [Hc Hst _ _ Ht] & _ & Hle).
  split; [cbn [core_cost] in Hle; lia|]. exists c. split; [done|]. split.
  - intros Hne. destruct c; try done. by eapply panicking_can_step.
  - intros ->. cbn [core_report] in Ht. by rewrite app_nil_r in Ht.
Qed.

(** C30: A page fault or protection fault in the kernel can go unreported.  The
    handlers describe two addresses with strings from the kernel heap before
    they raise the panic.  If the heap's lock was left behind, by the faulting
    core itself or by one that was halted inside the allocator, then in every
    continuation the elected core is still waiting for it and has printed
    nothing after the dump, so never the message. *)
Theorem heap_lock_silences_fault (cores n a b : nat) (lines : list Diag) (message : list Z) (todo : list Act) m m' i
    (Hreach : rtc any_step (machine_new cores) m) (Hwon : reporter m = Some i)
    (Hcore : pcores m !! i = Some (CPanic (ABroadcast :: todo)))
    (Htodo : AClaim :: todo = page_fault_ring0 lines a b message \/
             AClaim :: todo = general_protection_fault_ring0 lines a b message)
    (Horphan : heap_orphaned m) (Hrun : run i n m m') :
  (exists todo', pcores m' !! i = Some (CPanic todo') /\ AAlloc ∈ todo') /\
  reported m' i `prefix_of` reported m i ++ text lines.
Proof.
  pose proof (reporting_start m i _ (reachable_panic_inv _ _ Hreach) Hwon Hcore) as Hrep.
  assert (AClaim :: todo = fault_ring0 lines (S (a + S b)) message) as Heq by by destruct Htodo.
  injection Heq as ->. unfold dump_cores_for_panic in Hrep. cbn [report app] in Hrep. rewrite report_lines in Hrep.
  cbn [replicate app report] in Hrep. rewrite app_nil_r in Hrep.
  destruct (run_orphaned _ _ _ _ _ _ Hrun Hrep) as (c & [Hc _ _ _ Ht] & (pre & post & -> & _) & _); [|done|].
  - exists (ABroadcast :: ABroadcast :: (panic_println <$> lines)). eexists. split; [done|]. unfold panic_println. set_solver.
  - split; [eexists; split; [done|set_solver]|by eexists].
Qed.

(** ** Running one core, for witnesses *)
Definition act_once m i : option Machine :=
  match pcores m !! i with
  | Some (CPanic (a :: todo)) => let '(m', c) := panic_act m i a todo in Some (put_core m' i c)
  | Some (CPanic []) => Some (put_core m i CHalt)
  | _ => None
  end.

Fixpoint act_times (n : nat) m i : option Machine :=
  match n with 0 => Some m | S n => act_times n m i ≫= fun m => act_once m i end.

Lemma act_once_step m i m' : act_once m i = Some m' -> panic_step i false m m'.
Proof.
  unfold act_once. destruct (pcores m !! i) as [[| | |[|a todo]|]|] eqn:Hi; try done.
  - intros [= <-]. by apply ps_end.
  - destruct (panic_act m i a todo) as [m1 c] eqn:Ha. intros [= <-]. by eapply ps_act.
Qed.

Lemma act_times_run n m i m' : act_times n m i = Some m' -> run i n m m'.
Proof.
  revert m'. induction n as [|n IH]; intros m'; simpl; [intros [= <-]; constructor|].
  destruct (act_times n m i) as [m1|]; [|done]. simpl. intros Ho. eapply run_own; [by apply IH|by apply act_once_step].
Qed.

Lemma run_steps n m i m' : run i n m m' -> rtc any_step m m'.
Proof.
  induction 1 as [|n m m1 m2 _ IH Hs|n m m1 m2 j fresh _ IH _ Hs]; [done|..]; eapply rtc_r; [done|by eexists _, _|done|by eexists _, _].
Qed.
End panic.

(** Two cores; core 1 is inside a print when core 0 panics, or core 0 faults
    inside the allocator. *)
Definition demo_render (d : Diag) : list Z := match d with DPanic message => message | _ => [45%Z] end.
Definition demo_slots : list PerCpuSlot :=
  [mkPerCpu 0 true 0 0 0 0 false 0; mkPerCpu 1 true 0 0 0 0 false 0].
Definition demo_message : list Z := [98; 97; 100]%Z.

Definition demo_panicked : Machine :=
  mkMachine (Some 0) ∅ false false ∅ [] [CPanic (ABroadcast :: drop 1 (panic demo_message)); CWork].

Lemma demo_panicked_reachable : rtc (any_step demo_render demo_slots) (machine_new 2) demo_panicked.
Proof.
  eapply rtc_l; [exists 0, true; eapply (ps_panic _ _ _ _ _ demo_message); [reflexivity|done]|].
  eapply rtc_once. exists 0, false. apply act_once_step. reflexivity.
Qed.

Definition demo_reported : Machine := default demo_panicked (act_times demo_render demo_slots 20 demo_panicked 0).

Lemma demo_report_run : run demo_render demo_slots 0 20 demo_panicked demo_reported.
Proof. apply act_times_run. vm_compute. reflexivity. Qed.

Lemma panic_single_reporter_witness :
  exists o, o ∈ wire demo_reported /\ reporter demo_reported = Some (out_core o).
Proof.
  exists (mkOut 0 true 98). assert (mkOut 0 true 98 ∈ wire demo_reported) as Hin.
  { vm_compute. do 3 right. left. }
  split; [exact Hin|].
  refine (proj1 (panic_single_reporter demo_render demo_slots 2 demo_reported _ (mkOut 0 true 98) Hin eq_refl)).
  etrans; [exact demo_panicked_reachable|]. exact (run_steps _ _ _ _ _ _ demo_report_run).
Defined.

Lemma panic_report_completes_witness :
  20 <= cost demo_render (ABroadcast :: drop 1 (panic demo_message)) /\
  reported demo_reported 0 = [45; 13; 10; 98; 97; 100; 13; 10; 45; 13; 10]%Z.
Proof.
  destruct (panic_report_completes demo_render demo_slots 2 20 [] demo_message (drop 1 (panic demo_message))
    demo_panicked demo_reported 0 demo_panicked_reachable eq_refl ltac:(set_solver) eq_refl
    ltac:(left; split; reflexivity) demo_report_run) as (Hn & c & Hc & _ & Hall).
  split; [exact Hn|]. apply Hall. vm_compute in Hc. congruence.
Defined.

Definition demo_faulted : Machine :=
  mkMachine (Some 0) ∅ false true ∅ [] [CPanic (ABroadcast :: drop 1 (fault_ring0 [DCore 0 0 false] 2 demo_message)); CWork].

Lemma demo_faulted_reachable : rtc (any_step demo_render demo_slots) (machine_new 2) demo_faulted.
Proof.
  eapply rtc_l; [exists 0, false; eapply ps_alloc; reflexivity|].
  eapply rtc_l; [exists 0, true; eapply (ps_fault _ _ _ _ _ [DCore 0 0 false] 2 demo_message); [reflexivity|done]|].
  eapply rtc_once. exists 0, false. apply act_once_step. reflexivity.
Qed.

Definition demo_stuck : Machine := default demo_faulted (act_times demo_render demo_slots 50 demo_faulted 0).

Lemma heap_lock_silences_fault_witness :
  (exists todo, pcores demo_stuck !! 0 = Some (CPanic todo) /\ AAlloc ∈ todo) /\
  reported demo_stuck 0 `prefix_of` [45; 13; 10]%Z.
Proof.
  apply (heap_lock_silences_fault demo_render demo_slots 2 50 0 0 [DCore 0 0 false] demo_message
    (drop 1 (fault_ring0 [DCore 0 0 false] 2 demo_message)) demo_faulted demo_stuck 0 demo_faulted_reachable eq_refl eq_refl
    (or_introl eq_refl)).
  - split; [reflexivity|]. simpl. set_solver.
  - apply act_times_run. vm_compute. reflexivity.
Defined.
