(* ===== verification/CoreId.v ===== *)
(** * Finding out which core this is ([kernel/src/arch/x86_64/percpu.rs])

    [read_initial_apic_id] is an inline-assembly block around [CPUID]: the
    block as a program of 32-bit moves, each of which clears the upper half of
    its destination as the processor does.  The theorems: it returns the local
    APIC identifier, which [core_index] turns into the core's own slot; but it
    also clears the upper half of [RBX], which the block tells the compiler it
    leaves alone. *)
From S2P Require Import Prelude Abi CapTable Virt Process Sched Kernel Handlers Trap.
Open Scope Z_scope.

(** ** 32-bit instructions *)
Record CpuidResult := mkCpuid { cpuid_eax : Z; cpuid_ebx : Z; cpuid_ecx : Z; cpuid_edx : Z }.

Inductive instr32 :=
| Mov32 (d s : Reg)
| Cpuid.

Section cpuid.
(** What [CPUID] answers for the leaf in [EAX] and the sub-leaf in [ECX]. *)
Context (cpuid : Z -> Z -> CpuidResult).

(** Writing a 32-bit register clears the upper half of the 64-bit one. *)
Definition set_gpr32 (c : Cpu) (r : Reg) (v : Z) : Cpu := set_gpr c r (wrap32 v).

Definition step32 (c : Cpu) (i : instr32) : Cpu :=
  match i with
  | Mov32 d s => set_gpr32 c d (gpr c s)
  | Cpuid =>
      let r := cpuid (wrap32 (gpr c RAX)) (wrap32 (gpr c RCX)) in
      set_gpr32 (set_gpr32 (set_gpr32 (set_gpr32 c RAX (cpuid_eax r)) RBX (cpuid_ebx r)) RCX (cpuid_ecx r))
        RDX (cpuid_edx r)
  end.

(** ** The block: [inout("eax") 1 => _], and the compiler's choice of [tmp] and
    [out]. *)
Definition apic_id_block (tmp out : Reg) : list instr32 :=
  [Mov32 tmp RBX; Cpuid; Mov32 out RBX; Mov32 RBX tmp].

(** The registers the block declares as written. *)
Definition apic_id_outs (tmp out : Reg) : list Reg := [RAX; tmp; out; RCX; RDX].

Definition read_initial_apic_id (tmp out : Reg) (c : Cpu) : Cpu * Z :=
  let c := foldl step32 (set_gpr32 c RAX 1) (apic_id_block tmp out) in
  (c, Z.shiftr (wrap32 (gpr c out)) 24).

(** What the compiler may choose: two registers that are neither operands of
    the block nor reserved. *)
Definition asm_choice (tmp out : Reg) : Prop :=
  tmp <> out /\ tmp ∉ [RAX; RBX; RCX; RDX; RSP; RBP] /\ out ∉ [RAX; RBX; RCX; RDX; RSP; RBP].

(** The identifier of the core, bits 31:24 of [EBX] of leaf 1. *)
Definition apic_id_of (sub : Z) : Z := Z.shiftr (wrap32 (cpuid_ebx (cpuid 1 sub))) 24.

Lemma gpr_same c r v : gpr (set_gpr c r v) r = v.
Proof. simpl. by rewrite decide_True. Qed.
Lemma gpr_other c r v x : x <> r -> gpr (set_gpr c r v) x = gpr c x.
Proof. intros. simpl. by rewrite decide_False. Qed.
Ltac gpr_simpl := repeat first [rewrite gpr_same | rewrite gpr_other by congruence].

Lemma wrap32_idem v : wrap32 (wrap32 v) = wrap32 v.
Proof. apply wrap_small, wrap_in_width. lia. Qed.

(** The inline assembly of [read_initial_apic_id].  It returns the initial
    local APIC identifier, a byte, and leaves every register outside its
    declared outputs alone except [RBX], which keeps its lower half only. *)
Lemma apic_id_block_effect (tmp out : Reg) (c : Cpu) :
  asm_choice tmp out ->
  let '(c', id) := read_initial_apic_id tmp out c in
  id = apic_id_of (wrap32 (gpr c RCX)) /\ 0 <= id < 256 /\
  gpr c' RBX = wrap32 (gpr c RBX) /\
  forall r, r ∉ RBX :: apic_id_outs tmp out -> gpr c' r = gpr c r.
Proof.
  intros (Hne & Htmp & Hout). repeat (apply not_elem_of_cons in Htmp as [? Htmp]).
  repeat (apply not_elem_of_cons in Hout as [? Hout]).
  unfold read_initial_apic_id, apic_id_block, apic_id_of, set_gpr32. cbn [foldl step32]. unfold set_gpr32.
  gpr_simpl. change (wrap32 (wrap32 1)) with 1. rewrite !wrap32_idem.
  split; [done|]. split; [|split; [done|]].
  - pose proof (wrap_in_width 32 (cpuid_ebx (cpuid 1 (wrap32 (gpr c RCX)))) ltac:(lia)) as Hw. unfold in_width in Hw.
    rewrite Z.shiftr_div_pow2 by lia. div_lia.
  - intros r Hr. unfold apic_id_outs in Hr. repeat (apply not_elem_of_cons in Hr as [? Hr]). gpr_simpl. done.
Qed.

(** The slots whose identifier is [id]: exactly slot [i]. *)
Definition only_slot (s : Sched) (i : nat) (id : Z) : Prop :=
  forall j, lapic_id <$> percpu s !! j = Some id <-> j = i.

Lemma core_index_own s i id : only_slot s i id -> core_index s id = Ret i.
Proof.
  intros Ho. unfold core_index. destruct (position _ (percpu s)) as [j|] eqn:Hf.
  - apply position_Some in Hf as ((p & Hj & Hid) & _). apply Z.eqb_eq in Hid. assert (j = i) as ->; [|done].
    apply Ho. rewrite Hj. simpl. congruence.
  - pose proof (proj2 (Ho i) eq_refl) as Hi. destruct (percpu s !! i) as [p|] eqn:Hp; [|done]. simplify_eq/=.
    pose proof (proj1 (position_None _ _) Hf p ltac:(by eapply list_elem_of_lookup_2)) as Hn. simpl in Hn.
    by rewrite Z.eqb_refl in Hn.
Qed.

(** C20: Finding out which core this is costs the upper half of [RBX].  Whatever
    registers the compiler picks for the inline assembly, a core whose
    identifier is in one slot finds its own index, and every register that is
    neither a declared output nor [RBX] is preserved; but [RBX], which the
    block does not declare either, is preserved only if its value is below
    2^32, so a kernel address the compiler keeps in it is lost. *)
Theorem core_index_clobbers_rbx (tmp out : Reg) (c : Cpu) (s : Sched) (i : nat)
    (Hasm : asm_choice tmp out) (Hw : 0 <= gpr c RBX < 2 ^ 64)
    (Hs : only_slot s i (apic_id_of (wrap32 (gpr c RCX)))) :
  let '(c', id) := read_initial_apic_id tmp out c in
  core_index s id = Ret i /\ 0 <= id < 256 /\
  (forall r, r ∉ RBX :: apic_id_outs tmp out -> gpr c' r = gpr c r) /\
  RBX ∉ apic_id_outs tmp out /\ (gpr c' RBX = gpr c RBX <-> gpr c RBX < 2 ^ 32).
Proof.
  pose proof (apic_id_block_effect tmp out c Hasm) as He. destruct (read_initial_apic_id tmp out c) as [c' id].
  destruct He as (-> & Hid & Hrbx & Hother). split_and!; [by apply core_index_own|lia|lia|done| |].
  - destruct Hasm as (_ & Ht & Ho). unfold apic_id_outs. set_solver.
  - rewrite Hrbx. pose proof (wrap_in_width 32 (gpr c RBX) ltac:(lia)) as Hb. unfold in_width in Hb. split; [lia|].
    intros Hl. apply wrap_small. unfold in_width. lia.
Qed.
End cpuid.

(** ** A core with identifier 3 and a kernel address in [RBX] *)
Definition demo_cpuid (leaf sub : Z) : CpuidResult := mkCpuid 0x306A9 0x03100800 0 0.
Definition demo_rbx (v : Z) : Cpu := mkCpu (fun r => if decide (r = RBX) then v else 0) 0 0x8 0x202 0x10 (fun _ => 0) false.
Definition demo_slots : Sched := assign_slot (assign_slot sched_new 0 2) 1 3.

Lemma core_index_clobbers_rbx_witness :
  gpr (fst (read_initial_apic_id demo_cpuid RSI RDI (demo_rbx 0xffff900000001000))) RBX <> 0xffff900000001000.
Proof.
  pose proof (core_index_clobbers_rbx demo_cpuid RSI RDI (demo_rbx 0xffff900000001000) demo_slots 1) as Hc.
  destruct (read_initial_apic_id demo_cpuid RSI RDI (demo_rbx 0xffff900000001000)) as [c' id] eqn:Hr.
  destruct Hc as (_ & _ & _ & _ & Hiff).
  - split_and!; [done| |]; cbn; set_solver.
  - vm_compute. split; [discriminate|reflexivity].
  - intros j. split; [|by intros ->]. do 8 (destruct j as [|j]; [vm_compute; congruence|]). vm_compute. congruence.
  - simpl. intros Heq. apply Hiff in Heq. vm_compute in Heq. discriminate.
Defined.
