(* ===== verification/Lapic.v ===== *)
(** * Timers and inter-processor interrupts
    ([kernel/src/arch/x86_64/interrupts.rs], [lapic.rs])

    The PIT is programmed for a fixed tick; the local APIC's timer, whose rate
    is unknown, is calibrated against one tick and then armed on every core with
    the count that was measured.  [Timers] has the registers of both, a clock,
    and what the architecture manuals say of the two counters; how long each
    operation takes is a parameter.  The theorems: the PIT counts the intended
    divisor; calibration ends and the measured count is the length of a tick
    within the time of four operations; an interrupt sent to a core is addressed
    to it, when its identifier fits the eight bits of the destination. *)
From S2P Require Import Prelude Abi CapTable Phys Virt Process Sched Uart Kernel Handlers Irq.
Open Scope Z_scope.

Definition PIT_BASE_FREQUENCY_HZ : Z := 1193182.
Definition REG_EOI : Z := 0xB0.
Definition REG_SVR : Z := 0xF0.
Definition REG_ICR_LOW : Z := 0x300.
Definition REG_ICR_HIGH : Z := 0x310.
Definition REG_LVT_TIMER : Z := 0x320.
Definition REG_INITIAL_COUNT : Z := 0x380.
Definition REG_CURRENT_COUNT : Z := 0x390.
Definition REG_DIVIDE_CONFIG : Z := 0x3E0.
Definition SVR_APIC_SOFTWARE_ENABLE : Z := Z.shiftl 1 8.
Definition ICR_ASSERT : Z := Z.shiftl 1 14.
Definition LVT_TIMER_MASKED : Z := Z.shiftl 1 16.
Definition LVT_TIMER_PERIODIC : Z := Z.shiftl 1 17.
Definition DIVIDE_BY_16 : Z := 3.
Definition CALIBRATION_SENTINEL : Z := 2 ^ 32 - 1.

(** ** The hardware *)

(** [clock] is the time and [ops] the number of operations so far; [latch] the
    bytes written to PIT channel 0 since the last command and [pit_run] when it
    was loaded and with what; [apic_regs] the local APIC's registers and
    [countdown] when its timer was started. *)
Record Timers := mkTimers {
  clock : Z; ops : nat;
  latch : list Z; pit_run : option (Z * Z);
  apic_regs : gmap Z Z; countdown : option Z;
}.

Section timers.
(** How long the [n]-th operation takes, with the interrupts it is delayed by;
    the units of time per cycle of the PIT's input and per count of the local
    APIC's timer behind its divider. *)
Context (delay : nat -> Z) (pit_unit count_unit : Z).
Implicit Types t : Timers.

Definition pass t : Timers :=
  mkTimers (clock t + delay (ops t)) (S (ops t)) (latch t) (pit_run t) (apic_regs t) (countdown t).

(** A write to a PIT port: the command byte 0x34 selects channel 0, low byte
    first, rate generator. *)
Definition outb t (port v : Z) : Timers :=
  let t := pass t in
  if decide (port = 0x43) then mkTimers (clock t) (ops t) [] None (apic_regs t) (countdown t)
  else
    match latch t ++ [v] with
    | [lo; hi] => mkTimers (clock t) (ops t) [] (Some (clock t, lo + 256 * hi)) (apic_regs t) (countdown t)
    | l => mkTimers (clock t) (ops t) l (pit_run t) (apic_regs t) (countdown t)
    end.

(** [ticks()]: the PIT's periods since it was loaded, each counted by the
    interrupt handler when it ends. *)
Definition pit_ticks t : Z :=
  match pit_run t with Some (start, divisor) => (clock t - start) / (divisor * pit_unit) | None => 0 end.
Definition ticks t : Timers * Z := let t := pass t in (t, pit_ticks t).

Definition write_reg t (offset value : Z) : Timers :=
  let t := pass t in
  mkTimers (clock t) (ops t) (latch t) (pit_run t) (<[offset := value]> (apic_regs t))
    (if decide (offset = REG_INITIAL_COUNT) then Some (clock t) else countdown t).

(** The timer counts down from [REG_INITIAL_COUNT] and stops at 0. *)
Definition read_reg t (offset : Z) : Timers * Z :=
  let t := pass t in
  (t, if decide (offset = REG_CURRENT_COUNT) then
        match countdown t with
        | Some start => Z.max 0 (default 0 (apic_regs t !! REG_INITIAL_COUNT) - (clock t - start) / count_unit)
        | None => 0
        end
      else default 0 (apic_regs t !! offset)).

(** ** The operations *)
Definition divisor : Z := wrap 16 (PIT_BASE_FREQUENCY_HZ / PIT_FREQUENCY_HZ).

Definition interrupts_init t (p : Pic) : Timers * Pic :=
  let p := mkPic 254 255 (pic_pending p) in
  let t := outb t 0x43 52 in
  let t := outb t 0x40 (Z.land divisor 0xFF) in
  let t := outb t 0x40 (Z.shiftr divisor 8) in
  (t, p).

Definition init_this_core t : Timers := write_reg t REG_SVR (Z.lor SVR_APIC_SOFTWARE_ENABLE SPURIOUS_VECTOR).

(** [while ticks() == start { spin_loop() }]; [None]: out of fuel. *)
Fixpoint wait_tick (fuel : nat) t (start : Z) : option Timers :=
  match fuel with
  | O => None
  | S fuel => let '(t, n) := ticks t in if n =? start then wait_tick fuel t start else Some t
  end.

(** Returns the value stored in [CALIBRATED_INITIAL_COUNT]. *)
Definition calibrate_against_pit (fuel : nat) t : option (Timers * Z) :=
  let t := write_reg t REG_DIVIDE_CONFIG DIVIDE_BY_16 in
  let t := write_reg t REG_LVT_TIMER LVT_TIMER_MASKED in
  let '(t, start) := ticks t in
  match wait_tick fuel t start with
  | None => None
  | Some t =>
      let t := write_reg t REG_INITIAL_COUNT CALIBRATION_SENTINEL in
      let '(t, window_start) := ticks t in
      match wait_tick fuel t window_start with
      | None => None
      | Some t =>
          let '(t, remaining) := read_reg t REG_CURRENT_COUNT in
          let t := write_reg t REG_INITIAL_COUNT 0 in
          Some (t, CALIBRATION_SENTINEL - remaining)
      end
  end.

Definition arm_timer_this_core t (reload : Z) : Timers :=
  let t := write_reg t REG_DIVIDE_CONFIG DIVIDE_BY_16 in
  let t := write_reg t REG_LVT_TIMER (Z.lor LVT_TIMER_PERIODIC LAPIC_TIMER_VECTOR) in
  write_reg t REG_INITIAL_COUNT reload.

(** The two words [send_ipi] writes to the interrupt command register, the
    high one first; shifting a [u32] drops what does not fit. *)
Definition send_ipi (target_lapic_id vector : Z) : list (Z * Z) :=
  [(REG_ICR_HIGH, wrap32 (Z.shiftl target_lapic_id 24)); (REG_ICR_LOW, Z.lor vector ICR_ASSERT)].

(** ** Waiting for a tick *)
Context (J : Z) (Hdelay : forall n, 1 <= delay n <= J) (Hpit : 0 < pit_unit) (Hcount : 0 < count_unit).

(** The length of a tick. *)
Definition period : Z := divisor * pit_unit.

Definition running t (s : Z) : Prop := pit_run t = Some (s, divisor).

Lemma period_pos : 0 < period.
Proof. unfold period. change divisor with 11931. lia. Qed.

Lemma pass_clock t : clock t + 1 <= clock (pass t) <= clock t + J.
Proof. simpl. pose proof (Hdelay (ops t)). lia. Qed.

Lemma running_ticks t s : running t s -> pit_ticks t = (clock t - s) / period.
Proof. intros Hr. unfold pit_ticks. by rewrite Hr. Qed.

(** Waiting from inside tick [n] ends at most one operation after tick [n + 1]
    begins, and changes nothing but the time. *)
Lemma wait_tick_spec fuel t s n :
  running t s -> s + n * period <= clock t < s + (n + 1) * period -> J <= period ->
  s + (n + 1) * period - clock t < Z.of_nat fuel ->
  exists t', wait_tick fuel t n = Some t' /\ running t' s /\
    s + (n + 1) * period <= clock t' < s + (n + 1) * period + J /\
    apic_regs t' = apic_regs t /\ countdown t' = countdown t.
Proof.
  pose proof period_pos as HP. revert t. induction fuel as [|fuel IH]; intros t Hr Hin HJ Hf; [lia|].
  cbn [wait_tick ticks]. pose proof (pass_clock t) as Hc.
  assert (running (pass t) s) as Hr' by done. rewrite (running_ticks _ s Hr').
  destruct (decide (clock (pass t) < s + (n + 1) * period)) as [Hlt|Hge].
  - rewrite (proj2 (Z.eqb_eq _ n)) by (symmetry; apply Z.div_unique with (clock (pass t) - s - n * period); lia).
    destruct (IH (pass t)) as (t' & Hw & Hrest); [done|lia|lia|lia|]. by exists t'.
  - rewrite (proj2 (Z.eqb_neq _ n)).
    + exists (pass t). split_and!; [done|done|lia|lia|done|done].
    + intros He. pose proof (Z.mul_succ_div_gt (clock (pass t) - s) period HP). rewrite He in *. lia.
Qed.

Lemma ticks_inside t s n :
  running t s -> s + n * period <= clock (pass t) < s + (n + 1) * period -> ticks t = (pass t, n).
Proof.
  intros Hr Hin. unfold ticks. rewrite (running_ticks (pass t) s Hr). f_equal. symmetry.
  apply Z.div_unique with (clock (pass t) - s - n * period); lia.
Qed.

Lemma running_inside t s :
  s <= clock t -> s + ((clock t - s) / period) * period <= clock t < s + ((clock t - s) / period + 1) * period.
Proof.
  intros Hs. pose proof period_pos. pose proof (Z.mul_div_le (clock t - s) period).
  pose proof (Z.mul_succ_div_gt (clock t - s) period). lia.
Qed.

Lemma calibrate_spec fuel t s :
  running t s -> s <= clock t -> 4 * J < period -> 2 * J + count_unit <= period ->
  period + 2 * J < count_unit * (2 ^ 32 - 1) -> period + 1 < Z.of_nat fuel ->
  exists t' reload, calibrate_against_pit fuel t = Some (t', reload) /\
    period - 2 * J - count_unit < reload * count_unit <= period + 2 * J.
Proof.
  intros Hr Hs HJ Hrate Hwidth Hf. unfold calibrate_against_pit.
  set (t1 := write_reg (write_reg t _ _) _ _). assert (running t1 s) as Hr1 by done.
  assert (clock t + 2 <= clock t1 <= clock t + 2 * J) as Hc1.
  { unfold t1, write_reg. simpl. pose proof (Hdelay (ops t)). pose proof (Hdelay (S (ops t))). lia. }
  clearbody t1. pose proof (pass_clock t1) as Hp1. pose proof (running_inside (pass t1) s ltac:(lia)) as Hin.
  set (n := (clock (pass t1) - s) / period) in *. rewrite (ticks_inside t1 s n Hr1 Hin).
  destruct (wait_tick_spec fuel (pass t1) s n Hr1 Hin ltac:(lia) ltac:(lia)) as (ta & -> & Ha & Hca & _ & _).
  set (B := s + (n + 1) * period) in *. pose proof (pass_clock ta) as Hpa.
  set (tb := write_reg ta REG_INITIAL_COUNT _).
  assert (running tb s /\ clock tb = clock (pass ta) /\ countdown tb = Some (clock (pass ta)) /\
    apic_regs tb !! REG_INITIAL_COUNT = Some CALIBRATION_SENTINEL) as (Hb & Hcb & Hdb & Hrb).
  { split_and!; [done..|]. apply lookup_insert_eq. }
  clearbody tb. pose proof (pass_clock tb) as Hpb.
  assert (s + (n + 1) * period <= clock (pass tb) < s + (n + 1 + 1) * period) as Hin2 by lia.
  rewrite (ticks_inside tb s (n + 1) Hb Hin2).
  destruct (wait_tick_spec fuel (pass tb) s (n + 1) Hb Hin2 ltac:(lia) ltac:(lia)) as (td & -> & Hd & Hcd & Hrd & Hdd).
  pose proof (pass_clock td) as Hpd. unfold read_reg. rewrite decide_True by done.
  change (countdown (pass td)) with (countdown td). change (apic_regs (pass td)) with (apic_regs td).
  rewrite Hrd, Hdd. change (countdown (pass tb)) with (countdown tb). change (apic_regs (pass tb)) with (apic_regs tb).
  rewrite Hdb, Hrb. eexists _, _. split; [reflexivity|].
  cbn [default from_option id].
  set (q := (clock (pass td) - clock (pass ta)) / count_unit).
  assert (q * count_unit <= clock (pass td) - clock (pass ta) < q * count_unit + count_unit) as Hq.
  { unfold q. pose proof (Z.mul_div_le (clock (pass td) - clock (pass ta)) count_unit Hcount).
    pose proof (Z.mul_succ_div_gt (clock (pass td) - clock (pass ta)) count_unit Hcount). lia. }
  clearbody q. assert (q < 2 ^ 32 - 1) as Hlt by (apply (Z.mul_lt_mono_pos_r count_unit); lia).
  unfold CALIBRATION_SENTINEL. rewrite Z.max_r by lia. lia.
Qed.

Lemma arm_regs t reload :
  let r := apic_regs (arm_timer_this_core t reload) in
  r !! REG_INITIAL_COUNT = Some reload /\ r !! REG_LVT_TIMER = Some 0x20043 /\
  r !! REG_DIVIDE_CONFIG = Some DIVIDE_BY_16.
Proof.
  cbn [arm_timer_this_core write_reg apic_regs pass]. split_and!.
  - apply lookup_insert_eq.
  - by rewrite lookup_insert_ne, lookup_insert_eq by done.
  - by rewrite !lookup_insert_ne, lookup_insert_eq by done.
Qed.

(** Calibration.  [interrupts::init] loads the PIT with the intended
    divisor, the largest that still gives at least 100 Hz, and unmasks line 0
    alone.  From then on, with every operation taking at most [J]
    and a tick more than four times that, [calibrate_against_pit] terminates
    and the count it stores, times the length of a count, is the length of a
    PIT tick within [2 J] and one count; the count is not 0 and fits its
    register, so a core armed with it gets its periodic interrupt on
    [LAPIC_TIMER_VECTOR], unmasked. *)
Theorem timer_calibrated (t : Timers) (p : Pic) (fuel : nat)
    (HJ : 4 * J < period) (Hrate : 2 * J + count_unit <= period)
    (Hwidth : period + 2 * J < count_unit * (2 ^ 32 - 1)) (Hfuel : period + 1 < Z.of_nat fuel) :
  let '(t1, p1) := interrupts_init t p in
  (forall t2, running t2 (clock t1) -> clock t1 <= clock t2 -> exists t3 reload,
     calibrate_against_pit fuel t2 = Some (t3, reload) /\
     period - 2 * J - count_unit < reload * count_unit <= period + 2 * J /\ 0 < reload < 2 ^ 32 /\
     let r := apic_regs (arm_timer_this_core t3 reload) in
     r !! REG_INITIAL_COUNT = Some reload /\ r !! REG_LVT_TIMER = Some 0x20043 /\ r !! REG_DIVIDE_CONFIG = Some DIVIDE_BY_16) /\
  running t1 (clock t1) /\ PIT_FREQUENCY_HZ * divisor <= PIT_BASE_FREQUENCY_HZ < PIT_FREQUENCY_HZ * (divisor + 1) /\
  forall line, 0 <= line < 8 -> (Z.testbit (mask1 p1) line = false <-> line = TIMER_IRQ).
Proof.
  pose proof period_pos as HP. destruct (interrupts_init t p) as [t1 p1] eqn:Hi. unfold interrupts_init in Hi.
  assert (running t1 (clock t1) /\ mask1 p1 = 254) as [Hr Hm] by (by simplify_eq). clear Hi. split_and!.
  - intros t2 Hr2 Hc2. destruct (calibrate_spec fuel t2 (clock t1)) as (t3 & reload & Hcal & Hb); [done..|].
    exists t3, reload. split_and!; [done|lia|lia| | |apply arm_regs];
      apply (Z.mul_lt_mono_pos_r count_unit); lia.
  - done.
  - done.
  - done.
  - rewrite Hm. intros line Hl. unfold TIMER_IRQ.
    assert (line = 0 \/ line = 1 \/ line = 2 \/ line = 3 \/ line = 4 \/ line = 5 \/ line = 6 \/ line = 7) as Hcases by lia.
    destruct_or! Hcases; subst line; by vm_compute.
Qed.
End timers.

(** ** Inter-processor interrupts *)

(** What the local APIC sends when the low word of its command register is
    written; the fields are the architecture's. *)
Record Ipi := mkIpi { ipi_dest : Z; ipi_vector : Z; ipi_delivery : Z; ipi_logical : bool; ipi_shorthand : Z }.

Fixpoint ipis_sent (high : Z) (writes : list (Z * Z)) : list Ipi :=
  match writes with
  | [] => []
  | (reg, v) :: writes =>
      if decide (reg = REG_ICR_HIGH) then ipis_sent v writes
      else if decide (reg = REG_ICR_LOW) then
        mkIpi (Z.shiftr high 24) (v mod 2 ^ 8) ((v / 2 ^ 8) mod 2 ^ 3) (Z.testbit v 11) ((v / 2 ^ 18) mod 2 ^ 2)
          :: ipis_sent high writes
      else ipis_sent high writes
  end.

(** [send_ipi] sends one interrupt with the given vector, of fixed
    delivery mode, to a physical destination without a shorthand.  The
    destination is the low byte of the identifier, hence the intended core
    exactly when the identifier is below 256. *)
Theorem send_ipi_addressed (high id vector : Z) (Hid : 0 <= id < 2 ^ 32) (Hv : 0 <= vector < 2 ^ 8) :
  ipis_sent high (send_ipi id vector) = [mkIpi (id mod 2 ^ 8) vector 0 false 0] /\
  (id mod 2 ^ 8 = id <-> id < 2 ^ 8).
Proof.
  split; [|div_lia]. unfold send_ipi. cbn [ipis_sent]. rewrite !decide_True, decide_False by done.
  assert (Z.lor vector ICR_ASSERT = vector + 2 ^ 14) as ->.
  { change ICR_ASSERT with (2 ^ 14). rewrite <- Z.lxor_lor, <- Z.add_nocarry_lxor; [done|..];
      (apply Z.bits_inj'; intros i Hi; rewrite Z.land_spec, Z.bits_0, Z.pow2_bits_eqb by lia;
       destruct (Z.eqb_spec 14 i) as [<-|]; [|apply andb_false_r];
       rewrite andb_true_r, <- (Z.mod_small vector (2 ^ 8)) by lia; by apply Z.mod_pow2_bits_high). }
  f_equal. f_equal.
  - unfold wrap32, wrap. rewrite Z.shiftl_mul_pow2, Z.shiftr_div_pow2 by lia. div_lia.
  - div_lia.
  - div_lia.
  - apply Z.testbit_false; [lia|]. div_lia.
  - div_lia.
Qed.

(** ** Witnesses *)
Definition demo_timers : Timers := mkTimers 0 0 [] None ∅ None.

Lemma timer_calibrated_witness :
  let t1 := fst (interrupts_init (fun _ => 1) demo_timers (mkPic 0 0 [])) in
  exists t3 reload, calibrate_against_pit (fun _ => 1) 1 2 (Z.to_nat 12000) t1 = Some (t3, reload) /\ 5962 < reload <= 5966.
Proof.
  pose proof (timer_calibrated (fun _ => 1) 1 2 1 ltac:(intros; lia) ltac:(lia) ltac:(lia) demo_timers (mkPic 0 0 [])
    (Z.to_nat 12000)) as Ht.
  change (period 1) with 11931 in Ht. specialize (Ht ltac:(lia) ltac:(lia) ltac:(lia) ltac:(lia)).
  destruct (interrupts_init (fun _ => 1) demo_timers (mkPic 0 0 [])) as [t1 p1]. cbn [fst].
  destruct Ht as (Hcal & Hrun & _). destruct (Hcal t1 Hrun ltac:(lia)) as (t3 & reload & Hc & Hb & _).
  exists t3, reload. split; [exact Hc|lia].
Defined.

Lemma send_ipi_addressed_witness :
  ipis_sent 0 (send_ipi 3 RESCHEDULE_VECTOR) = [mkIpi 3 RESCHEDULE_VECTOR 0 false 0].
Proof. apply (send_ipi_addressed 0 3 RESCHEDULE_VECTOR); [lia|split; [discriminate|reflexivity]]. Defined.
