(* ===== verification/Regions.v ===== *)
(** * The kernel's fixed virtual memory map

    Every region the kernel maps at a fixed virtual address: the heap
    ([memory/heap.rs]), the double-fault stacks ([arch/x86_64/gdt.rs]), the
    local APIC's page ([lapic.rs]), the idle stacks ([smp.rs]), the virtio
    BAR windows ([driver/virtio_blk.rs]), the scheduler's guarded fields and
    process boxes ([task/scheduler.rs]), the trap frames and kernel stacks
    ([task/process.rs]).  Each mapping loop is the list of pages it maps.  The
    sizes of the Rust types stored in guarded slots are parameters. *)
From S2P Require Import Prelude Abi CapTable Virt Process Sched Elf.
Open Scope Z_scope.

(** ** Mapping loops *)

(** [count] pages from [base]. *)
Definition page_run (base : Z) (count : nat) : list Z := (fun i => base + Z.of_nat i * 4096) <$> seq 0 count.

(** [for i in 1..=pages { slot_base + i * 4096 }]. *)
Definition stack_pages (slot_base : Z) (pages : nat) : list Z := page_run (slot_base + 4096) pages.

(** [map_guarded_raw]: [size.div_ceil(4096).max(1)] pages above the guard. *)
Definition guarded_pages (slot_base size : Z) : list Z :=
  stack_pages slot_base (Z.to_nat (Z.max 1 (div_ceil size 4096))).

Definition HEAP_START : Z := 0xffff900000000000.
Definition HEAP_SIZE : Z := 8 * 1024 * 1024.
Definition heap_pages : list Z := page_run HEAP_START (Z.to_nat (HEAP_SIZE / 4096)).

Definition DOUBLE_FAULT_STACK_PAGES : nat := 5.
Definition DOUBLE_FAULT_STACK_BASE : Z := 0xffff940000000000.
Definition DOUBLE_FAULT_STACK_SLOT_STRIDE : Z := 4096 * (1 + Z.of_nat DOUBLE_FAULT_STACK_PAGES).
Definition double_fault_stack_slot_base (core : nat) : Z :=
  DOUBLE_FAULT_STACK_BASE + Z.of_nat core * DOUBLE_FAULT_STACK_SLOT_STRIDE.
Definition double_fault_stack_pages (core : nat) : list Z :=
  stack_pages (double_fault_stack_slot_base core) DOUBLE_FAULT_STACK_PAGES.

Definition LAPIC_MMIO_VBASE : Z := 0xffff950000000000.
Definition lapic_pages : list Z := [LAPIC_MMIO_VBASE].

Definition IDLE_STACK_PAGES : nat := 4.
Definition IDLE_STACK_BASE : Z := 0xffff960000000000.
Definition IDLE_STACK_SLOT_STRIDE : Z := 4096 * (1 + Z.of_nat IDLE_STACK_PAGES).
Definition idle_stack_slot_base (core : nat) : Z := IDLE_STACK_BASE + Z.of_nat core * IDLE_STACK_SLOT_STRIDE.
Definition idle_stack_top_addr (core : nat) : Z :=
  idle_stack_slot_base core + (1 + Z.of_nat IDLE_STACK_PAGES) * 4096.
Definition idle_stack_pages (core : nat) : list Z := stack_pages (idle_stack_slot_base core) IDLE_STACK_PAGES.

Definition MMIO_VBASE : Z := 0xffff960000000000.
Definition BAR_VSTRIDE : Z := 0x100000.
(** [map_bar]: no guard page. *)
Definition bar_pages (bar : nat) (size : Z) : list Z :=
  page_run (MMIO_VBASE + Z.of_nat bar * BAR_VSTRIDE) (Z.to_nat (Z.max 1 (div_ceil size 4096))).

Definition SCHED_STATE_BASE : Z := 0xffff970000000000.
Definition SCHED_FIELD_STRIDE : Z := 0x10000.
Definition sched_field_pages (field : nat) (size : Z) : list Z :=
  guarded_pages (SCHED_STATE_BASE + Z.of_nat field * SCHED_FIELD_STRIDE) size.

Definition trap_frame_pages (index : nat) : list Z :=
  guarded_pages (TRAP_FRAME_BASE + Z.of_nat index * TRAP_FRAME_STRIDE) 160.

Definition process_box_pages (slot : nat) (size : Z) : list Z := guarded_pages (process_box_slot_base slot) size.

Definition kernel_stack_pages (slot : nat) : list Z :=
  stack_pages (KERNEL_STACKS_BASE + Z.of_nat slot * KERNEL_STACK_SLOT_STRIDE) (Z.to_nat KERNEL_STACK_PAGES).

(** [size_of] of the scheduler's four fields and of [Process]. *)
Record Sizes := mkSizes { size_fields : list Z; size_process : Z }.

(** Everything mapped before the first process exists. *)
Definition boot_pages (z : Sizes) : list Z :=
  heap_pages ++ (seq 0 MAX_CORES ≫= double_fault_stack_pages) ++ lapic_pages ++
  (seq 0 MAX_CORES ≫= idle_stack_pages) ++
  (seq 0 4 ≫= fun f => sched_field_pages f (nth f (size_fields z) 0)) ++
  (seq 0 MAX_PROCESSES ≫= trap_frame_pages) ++
  (seq 0 PROCESS_SLOT_COUNT ≫= fun s => process_box_pages s (size_process z)) ++
  (seq 0 MAX_PROCESSES ≫= kernel_stack_pages).

(** A type fits its 64 KiB slot with both guard pages. *)
Definition fits_slot (size : Z) : Prop := 0 <= size <= 14 * 4096.
Definition sizes_ok (z : Sizes) : Prop := Forall fits_slot (size_fields z) /\ fits_slot (size_process z).

(** ** Runs of pages *)
Lemma elem_of_page_run p base n :
  p ∈ page_run base n <-> exists i, (i < n)%nat /\ p = base + Z.of_nat i * 4096.
Proof.
  unfold page_run. rewrite list_elem_of_fmap. setoid_rewrite elem_of_seq. split.
  - intros (i & -> & Hi). exists i. split; [lia|done].
  - intros (i & Hi & ->). exists i. split; [done|lia].
Qed.

Lemma NoDup_page_run base n : NoDup (page_run base n).
Proof. apply NoDup_fmap_2_strong; [|apply NoDup_seq]. intros. lia. Qed.

(** A list of pages inside an interval. *)
Definition within (lo hi : Z) (ps : list Z) : Prop := forall p, p ∈ ps -> lo <= p < hi.

Lemma within_run base n : within base (base + Z.of_nat n * 4096) (page_run base n).
Proof. intros p (i & Hi & ->)%elem_of_page_run. lia. Qed.

Lemma within_mono lo hi lo' hi' ps : within lo hi ps -> lo' <= lo -> hi <= hi' -> within lo' hi' ps.
Proof. intros Hw Hl Hh p Hp. specialize (Hw p Hp). lia. Qed.

Lemma NoDup_app_within lo mid hi a b :
  NoDup a -> NoDup b -> within lo mid a -> within mid hi b -> NoDup (a ++ b).
Proof.
  intros Ha Hb Hwa Hwb. apply NoDup_app. split_and!; [done| |done].
  intros p Hpa Hpb. specialize (Hwa p Hpa). specialize (Hwb p Hpb). lia.
Qed.

Lemma within_app lo mid hi a b : lo <= mid -> mid <= hi -> within lo mid a -> within mid hi b -> within lo hi (a ++ b).
Proof.
  intros Hl Hh Hwa Hwb p [Hp|Hp]%elem_of_app; [specialize (Hwa p Hp)|specialize (Hwb p Hp)]; lia.
Qed.

(** Distinct pages inside an interval; two such intervals one above the other. *)
Definition region (lo hi : Z) (ps : list Z) : Prop := NoDup ps /\ within lo hi ps.

Lemma region_app lo mid hi a b :
  region lo mid a -> region mid hi b -> lo <= mid -> mid <= hi -> region lo hi (a ++ b).
Proof. intros [Ha Wa] [Hb Wb] ? ?. split; [by eapply NoDup_app_within|by eapply within_app]. Qed.

Lemma region_mono lo hi lo' hi' ps : region lo hi ps -> lo' <= lo -> hi <= hi' -> region lo' hi' ps.
Proof. intros [Hn Hw] ? ?. split; [done|by eapply within_mono]. Qed.

(** Slots of a table of stride [s] starting at [base]. *)
Lemma slots_spec (f : nat -> list Z) base s n k :
  (forall i, (k <= i < k + n)%nat -> NoDup (f i) /\ within (base + Z.of_nat i * s) (base + Z.of_nat (S i) * s) (f i)) ->
  0 <= s ->
  NoDup (seq k n ≫= f) /\ within (base + Z.of_nat k * s) (base + Z.of_nat (k + n) * s) (seq k n ≫= f).
Proof.
  intros Hf Hs. revert k Hf. induction n as [|n IH]; intros k Hf.
  { split; [constructor|]. intros p Hp. by apply elem_of_nil in Hp. }
  cbn [seq]. rewrite bind_cons. destruct (Hf k) as [Hn Hw]; [lia|].
  destruct (IH (S k)) as [Hn' Hw']; [intros i Hi; apply Hf; lia|].
  replace (k + S n)%nat with (S k + n)%nat by lia. split.
  - by eapply NoDup_app_within.
  - eapply within_app; [| |exact Hw|exact Hw']; nia.
Qed.

Lemma stack_slot_region base s i n :
  (Z.of_nat n + 1) * 4096 <= s ->
  NoDup (stack_pages (base + Z.of_nat i * s) n) /\
  within (base + Z.of_nat i * s) (base + Z.of_nat (S i) * s) (stack_pages (base + Z.of_nat i * s) n).
Proof.
  intros Hs. split; [apply NoDup_page_run|]. eapply within_mono; [apply within_run|lia|nia].
Qed.

Lemma div_ceil_le size n : 0 <= size <= n * 4096 -> 1 <= n -> (Z.to_nat (Z.max 1 (div_ceil size 4096)) <= Z.to_nat n)%nat.
Proof. intros Hs Hn. unfold div_ceil. case_decide; div_lia. Qed.

Lemma guarded_slot base i size :
  fits_slot size ->
  NoDup (guarded_pages (base + Z.of_nat i * 0x10000) size) /\
  within (base + Z.of_nat i * 0x10000) (base + Z.of_nat (S i) * 0x10000) (guarded_pages (base + Z.of_nat i * 0x10000) size).
Proof.
  intros Hf. unfold fits_slot in Hf. apply stack_slot_region.
  pose proof (div_ceil_le size 14 Hf ltac:(lia)). lia.
Qed.

(** ** The regions *)
Lemma heap_region : NoDup heap_pages /\ within HEAP_START 0xffff900000800000 heap_pages.
Proof. split; [apply NoDup_page_run|]. eapply within_mono; [apply within_run|..]; done. Qed.

Lemma double_fault_region :
  NoDup (seq 0 MAX_CORES ≫= double_fault_stack_pages) /\
  within DOUBLE_FAULT_STACK_BASE 0xffff940000030000 (seq 0 MAX_CORES ≫= double_fault_stack_pages).
Proof.
  destruct (slots_spec double_fault_stack_pages DOUBLE_FAULT_STACK_BASE DOUBLE_FAULT_STACK_SLOT_STRIDE MAX_CORES 0)
    as [Hn Hw]; [intros i _; by apply stack_slot_region|done|].
  split; [done|]. eapply within_mono; [exact Hw|..]; done.
Qed.

Lemma idle_region :
  NoDup (seq 0 MAX_CORES ≫= idle_stack_pages) /\
  within IDLE_STACK_BASE 0xffff960000028000 (seq 0 MAX_CORES ≫= idle_stack_pages).
Proof.
  destruct (slots_spec idle_stack_pages IDLE_STACK_BASE IDLE_STACK_SLOT_STRIDE MAX_CORES 0)
    as [Hn Hw]; [intros i _; by apply stack_slot_region|done|].
  split; [done|]. eapply within_mono; [exact Hw|..]; done.
Qed.

Lemma sched_region z :
  sizes_ok z ->
  let ps := seq 0 4 ≫= fun f => sched_field_pages f (nth f (size_fields z) 0) in
  NoDup ps /\ within SCHED_STATE_BASE 0xffff970000040000 ps.
Proof.
  intros [Hf _] ps. destruct (slots_spec (fun f => sched_field_pages f (nth f (size_fields z) 0))
    SCHED_STATE_BASE SCHED_FIELD_STRIDE 4 0) as [Hn Hw]; [|done|].
  - intros i _. apply guarded_slot. destruct (nth_lookup_or_length (size_fields z) i 0) as [Hi|Hi].
    + by apply (Forall_lookup_1 _ _ _ _ Hf Hi).
    + rewrite nth_overflow by lia. done.
  - split; [done|]. eapply within_mono; [exact Hw|..]; done.
Qed.

Lemma trap_frame_region :
  NoDup (seq 0 MAX_PROCESSES ≫= trap_frame_pages) /\
  within TRAP_FRAME_BASE 0xffff975000100000 (seq 0 MAX_PROCESSES ≫= trap_frame_pages).
Proof.
  destruct (slots_spec trap_frame_pages TRAP_FRAME_BASE TRAP_FRAME_STRIDE MAX_PROCESSES 0)
    as [Hn Hw]; [intros i _; by apply guarded_slot|done|].
  split; [done|]. eapply within_mono; [exact Hw|..]; done.
Qed.

Lemma process_box_region z :
  sizes_ok z ->
  let ps := seq 0 PROCESS_SLOT_COUNT ≫= fun s => process_box_pages s (size_process z) in
  NoDup ps /\ within PROCESS_BOX_BASE 0xffff977000200000 ps.
Proof.
  intros [_ Hp] ps. destruct (slots_spec (fun s => process_box_pages s (size_process z)) PROCESS_BOX_BASE
    PROCESS_BOX_STRIDE PROCESS_SLOT_COUNT 0) as [Hn Hw]; [intros i _; by apply guarded_slot|done|].
  split; [done|]. eapply within_mono; [exact Hw|..]; done.
Qed.

Lemma kernel_stack_region :
  NoDup (seq 0 MAX_PROCESSES ≫= kernel_stack_pages) /\
  within KERNEL_STACKS_BASE 0xffff980000050000 (seq 0 MAX_PROCESSES ≫= kernel_stack_pages).
Proof.
  destruct (slots_spec kernel_stack_pages KERNEL_STACKS_BASE KERNEL_STACK_SLOT_STRIDE MAX_PROCESSES 0)
    as [Hn Hw]; [intros i _; by apply stack_slot_region|done|].
  split; [done|]. eapply within_mono; [exact Hw|..]; done.
Qed.

(** The eight regions lie one above the other. *)
Lemma boot_region z : sizes_ok z -> region 0xffff900000000000 0xffff990000000000 (boot_pages z).
Proof.
  intros Hz. unfold boot_pages.
  apply (region_app _ 0xffff940000000000); [eapply region_mono; [exact heap_region|done..]| |done..].
  apply (region_app _ 0xffff950000000000); [eapply region_mono; [exact double_fault_region|done..]| |done..].
  apply (region_app _ 0xffff960000000000); [| |done..].
  { split; [apply NoDup_singleton|]. by intros p ->%list_elem_of_singleton. }
  apply (region_app _ 0xffff970000000000); [eapply region_mono; [exact idle_region|done..]| |done..].
  apply (region_app _ 0xffff975000000000); [eapply region_mono; [exact (sched_region z Hz)|done..]| |done..].
  apply (region_app _ 0xffff977000000000); [eapply region_mono; [exact trap_frame_region|done..]| |done..].
  apply (region_app _ 0xffff980000000000); [eapply region_mono; [exact (process_box_region z Hz)|done..]| |done..].
  eapply region_mono; [exact kernel_stack_region|done..].
Qed.

Lemma boot_pages_cases z p :
  sizes_ok z -> p ∈ boot_pages z ->
  0xffff900000000000 <= p < 0xffff900000800000 \/
  0xffff940000000000 <= p < 0xffff940000030000 /\ p ∈ (seq 0 MAX_CORES ≫= double_fault_stack_pages) \/
  p = 0xffff950000000000 \/
  0xffff960000000000 <= p < 0xffff960000028000 /\ p ∈ (seq 0 MAX_CORES ≫= idle_stack_pages) \/
  0xffff970000000000 <= p < 0xffff970000040000 \/ 0xffff975000000000 <= p < 0xffff975000100000 \/
  0xffff977000000000 <= p < 0xffff977000200000 \/
  0xffff980000000000 <= p < 0xffff980000050000 /\ p ∈ (seq 0 MAX_PROCESSES ≫= kernel_stack_pages).
Proof.
  intros Hz. unfold boot_pages. rewrite !elem_of_app. unfold lapic_pages. rewrite list_elem_of_singleton.
  intros [Hp|[Hp|[Hp|[Hp|[Hp|[Hp|[Hp|Hp]]]]]]].
  - left. by apply heap_region.
  - right; left. split; [by apply double_fault_region|done].
  - auto.
  - do 3 right; left. split; [by apply idle_region|done].
  - do 4 right; left. by apply (sched_region z Hz).
  - do 5 right; left. by apply trap_frame_region.
  - do 6 right; left. by apply (process_box_region z Hz).
  - do 7 right. split; [by apply kernel_stack_region|done].
Qed.

(** The entry of the top-level page table that an address goes through. *)
Definition pml4_index (a : Z) : Z := (a / 2 ^ 39) mod 512.

(** The fixed memory map.  No page of the kernel's fixed regions is mapped
    twice, every one of them lies in the half of the top-level table that
    [AddressSpace::new] shares with every process, and the virtio windows of
    BARs 1 to 5, up to their stride, are apart from all of them and from each
    other. *)
Theorem kernel_regions_disjoint (z : Sizes) (Hz : sizes_ok z) :
  NoDup (boot_pages z) /\ (forall p, p ∈ boot_pages z -> 256 <= pml4_index p < 512) /\
  (forall bar size p, (1 <= bar < 6)%nat -> 0 <= size <= BAR_VSTRIDE -> p ∈ bar_pages bar size ->
     p ∉ boot_pages z /\ forall bar' size', (1 <= bar' < 6)%nat -> bar' <> bar -> 0 <= size' <= BAR_VSTRIDE ->
       p ∉ bar_pages bar' size').
Proof.
  split_and!.
  - apply (boot_region z Hz).
  - intros p Hp. apply boot_pages_cases in Hp; [|done]. unfold pml4_index.
    assert (0xffff900000000000 <= p < 2 ^ 64) as Hb by lia. clear -Hb. div_lia.
  - assert (forall bar size p, (1 <= bar < 6)%nat -> 0 <= size <= BAR_VSTRIDE -> p ∈ bar_pages bar size ->
      MMIO_VBASE + Z.of_nat bar * BAR_VSTRIDE <= p < MMIO_VBASE + Z.of_nat (S bar) * BAR_VSTRIDE) as Hbar.
    { intros bar size p _ Hs Hp. unfold bar_pages in Hp. apply within_run in Hp.
      pose proof (div_ceil_le size 256 ltac:(unfold BAR_VSTRIDE in Hs; lia) ltac:(lia)).
      unfold BAR_VSTRIDE in *. lia. }
    intros bar size p Hb Hs Hp. apply (Hbar bar size p Hb Hs) in Hp. unfold MMIO_VBASE, BAR_VSTRIDE in Hp. split.
    + intros Hin. apply boot_pages_cases in Hin; [|done]. lia.
    + intros bar' size' Hb' Hne Hs' Hin. apply (Hbar bar' size' p Hb' Hs') in Hin.
      unfold MMIO_VBASE, BAR_VSTRIDE in Hin. lia.
Qed.

(** ** Guard pages *)
Lemma guard_unmapped base s n c k :
  s = 4096 * (1 + Z.of_nat c) ->
  base + Z.of_nat k * s ∉ (seq 0 n ≫= fun i => stack_pages (base + Z.of_nat i * s) c).
Proof.
  intros -> (i & Hi & _)%list_elem_of_bind. apply elem_of_page_run in Hi as (j & Hj & Hp).
  assert (Z.of_nat k * (1 + Z.of_nat c) = Z.of_nat i * (1 + Z.of_nat c) + 1 + Z.of_nat j) as He by lia.
  destruct (decide (k <= i)%nat); nia.
Qed.

(** Stack overflows hit a guard page: the page below the stack of every
    process, of every core's idle loop and of every core's double-fault
    handler belongs to no region, so no overflow reaches another stack. *)
Theorem stack_guards_unmapped (z : Sizes) (Hz : sizes_ok z) :
  (forall p, (pid_index p < MAX_PROCESSES)%nat -> kernel_stack_slot_base p ∉ boot_pages z) /\
  (forall core, (core < MAX_CORES)%nat ->
     idle_stack_slot_base core ∉ boot_pages z /\ double_fault_stack_slot_base core ∉ boot_pages z).
Proof.
  split.
  - intros p Hp Hin. apply boot_pages_cases in Hin; [|done].
    assert (0xffff980000000000 <= kernel_stack_slot_base p < 0xffff980000050000) as Hb.
    { unfold kernel_stack_slot_base, KERNEL_STACK_SLOT_STRIDE, KERNEL_STACK_PAGES, KERNEL_STACKS_BASE, MAX_PROCESSES in *. lia. }
    destruct Hin as [?|[?|[?|[?|[?|[?|[?|[_ Hi]]]]]]]]; [lia..|].
    revert Hi. by apply (guard_unmapped _ KERNEL_STACK_SLOT_STRIDE _ 4).
  - intros core Hc. unfold MAX_CORES in Hc. split; intros Hin; apply boot_pages_cases in Hin; try done.
    + assert (0xffff960000000000 <= idle_stack_slot_base core < 0xffff960000028000) as Hb
        by (unfold idle_stack_slot_base, IDLE_STACK_SLOT_STRIDE, IDLE_STACK_BASE, IDLE_STACK_PAGES; lia).
      destruct Hin as [?|[?|[?|[[_ Hi]|?]]]]; [lia..| |lia].
      revert Hi. by apply (guard_unmapped _ IDLE_STACK_SLOT_STRIDE _ 4).
    + assert (0xffff940000000000 <= double_fault_stack_slot_base core < 0xffff940000030000) as Hb
        by (unfold double_fault_stack_slot_base, DOUBLE_FAULT_STACK_SLOT_STRIDE, DOUBLE_FAULT_STACK_BASE,
          DOUBLE_FAULT_STACK_PAGES; lia).
      destruct Hin as [?|[[_ Hi]|?]]; [lia| |lia].
      revert Hi. by apply (guard_unmapped _ DOUBLE_FAULT_STACK_SLOT_STRIDE _ 5).
Qed.

(** The window of BAR 0 is the idle stacks' region.  Whatever its size,
    mapping BAR 0 maps the guard page below the idle stack of core 0, and with
    more than one page it also hits a page of that stack, which is already
    mapped, so that [map_bar] panics. *)
Theorem bar0_overlaps_idle_stacks (size : Z) (Hsize : 0 <= size) :
  idle_stack_slot_base 0 ∈ bar_pages 0 size /\
  (4096 < size -> exists p, p ∈ bar_pages 0 size /\ p ∈ idle_stack_pages 0).
Proof.
  assert (1 <= Z.max 1 (div_ceil size 4096) /\ (4096 < size -> 2 <= Z.max 1 (div_ceil size 4096))) as [H1 H2].
  { pose proof (div_ceil_spec size 4096 ltac:(lia)). lia. }
  split.
  - apply elem_of_page_run. exists 0%nat. split; [lia|done].
  - intros Hs. exists (MMIO_VBASE + 4096). split; apply elem_of_page_run.
    + exists 1%nat. split; [specialize (H2 Hs); lia|done].
    + exists 0%nat. split; [unfold IDLE_STACK_PAGES; lia|done].
Qed.

(** ** Witnesses *)
Definition demo_sizes : Sizes := mkSizes [384; 64; 160; 128] 512.

Lemma demo_sizes_ok : sizes_ok demo_sizes.
Proof. split; [repeat constructor|]; done. Qed.

Lemma kernel_regions_disjoint_witness : NoDup (boot_pages demo_sizes).
Proof. apply (kernel_regions_disjoint demo_sizes demo_sizes_ok). Defined.

Lemma stack_guards_unmapped_witness : idle_stack_slot_base 3 ∉ boot_pages demo_sizes.
Proof. apply (stack_guards_unmapped demo_sizes demo_sizes_ok). vm_compute. lia. Defined.

Lemma bar0_overlaps_idle_stacks_witness : exists p, p ∈ bar_pages 0 0x4000 /\ p ∈ idle_stack_pages 0.
Proof. apply (bar0_overlaps_idle_stacks 0x4000); lia. Defined.
