(* ===== verification/Gdt.v ===== *)
(** * Segments and the system-call registers
    ([kernel/src/arch/x86_64/gdt.rs], [init] of [syscall.rs])

    One descriptor table for all cores: the null entry, four flat segments and
    a task-state segment per core, which takes two entries.  The table type is
    the [x86_64] crate's and a parameter; so is [Star::write], which refuses
    selectors that [SYSCALL] and [SYSRET] could not derive.  The theorem: the
    table is built without a panic and exactly full, every core loads a task
    segment of its own, and the selectors satisfy what [Star::write] demands. *)
From S2P Require Import Prelude Abi CapTable Bitmap Phys Virt Process Elf Mapper MapRegion Sched Regions.
Open Scope Z_scope.

Definition DOUBLE_FAULT_IST_INDEX : nat := 0.
Definition GDT_ENTRIES : nat := 1 + 4 + 2 * MAX_CORES.

(** [Descriptor] of the crate; a task segment names the core whose cell of
    [TSS_TABLE] it describes. *)
Inductive Descriptor :=
| KernelCode | KernelData | UserData | UserCode
| TssSegment (core : nat).

Definition descriptor_dpl (d : Descriptor) : Z := match d with UserData | UserCode => 3 | _ => 0 end.
Definition descriptor_slots (d : Descriptor) : nat := match d with TssSegment _ => 2 | _ => 1 end.

(** [GlobalDescriptorTable<GDT_ENTRIES>]: [append] panics when the descriptor
    does not fit; [gdt_at] reads an entry back. *)
Class GdtCrate := {
  Gdt : Type;
  gdt_empty : Gdt;
  gdt_append : Gdt -> Descriptor -> outcome (Gdt * Z);
  gdt_len : Gdt -> nat;
  gdt_at : Gdt -> Z -> option Descriptor;
}.

(** The documented behaviour: an empty table has the null entry; [append]
    returns the index of the first entry it used, with the privilege level of
    the descriptor, and disturbs no entry before it. *)
Class GdtLaws `{GdtCrate} : Prop := {
  gdt_empty_len : gdt_len gdt_empty = 1%nat;
  gdt_append_fits : forall g d, (gdt_len g + descriptor_slots d <= GDT_ENTRIES)%nat ->
    exists g', gdt_append g d = Ret (g', Z.of_nat (gdt_len g) * 8 + descriptor_dpl d) /\
      gdt_len g' = (gdt_len g + descriptor_slots d)%nat /\
      gdt_at g' (Z.of_nat (gdt_len g)) = Some d /\
      forall i, i < Z.of_nat (gdt_len g) -> gdt_at g' i = gdt_at g i;
}.

Record GdtSelectors := mkSelectors {
  sel_kernel_code : Z; sel_kernel_data : Z; sel_user_data : Z; sel_user_code : Z; sel_tss : list Z;
}.

(** A [TaskStateSegment]: the entries of it that are used. *)
Record Tss := mkTss { privilege_stack0 : Z; interrupt_stack_table : list Z }.
Definition tss_new : Tss := mkTss 0 (replicate 7 0).

(** The segment registers and task register of a core, and the four
    model-specific registers [syscall::init] writes. *)
Record SegRegs := mkSegRegs { r_gdt_loaded : bool; r_cs : Z; r_ss : Z; r_ds : Z; r_es : Z; r_tr : Z }.
Definition seg_boot : SegRegs := mkSegRegs false 0 0 0 0 0.

Record Msrs := mkMsrs { efer_sce : bool; star : option (Z * Z * Z * Z); lstar : Z; sfmask : Z }.
Definition msrs_boot : Msrs := mkMsrs false None 0 0.

Section gdt.
Context (W : nat) `{MapperTotal} `{GdtLaws}.

(** [double_fault_stack_top]. *)
Definition double_fault_stack_top (m : Mem) (core : nat) : outcome (Mem * Z) :=
  let slot_base := double_fault_stack_slot_base core in
  let! m := map_region W m (double_fault_stack_pages core) KERNEL_FLAGS
              "out of memory mapping a double-fault stack" "failed to map double-fault stack page" in
  let! top := Elf.new_virt_addr (slot_base + (1 + Z.of_nat DOUBLE_FAULT_STACK_PAGES) * 4096) in
  Ret (m, top).

(** The loop of [init_bsp] over [TSS_TABLE]. *)
Fixpoint fill_ist (m : Mem) (cores : list nat) : outcome (Mem * list Tss) :=
  match cores with
  | [] => Ret (m, [])
  | core :: cores =>
      let! '(m, top) := double_fault_stack_top m core in
      let tss := mkTss 0 (<[DOUBLE_FAULT_IST_INDEX := top]> (interrupt_stack_table tss_new)) in
      let! '(m, rest) := fill_ist m cores in
      Ret (m, tss :: rest)
  end.

Fixpoint append_tss (g : Gdt) (cores : list nat) : outcome (Gdt * list Z) :=
  match cores with
  | [] => Ret (g, [])
  | core :: cores =>
      let! '(g, s) := gdt_append g (TssSegment core) in
      let! '(g, rest) := append_tss g cores in
      Ret (g, s :: rest)
  end.

(** The closure of [GDT.call_once]. *)
Definition build_gdt : outcome (Gdt * GdtSelectors) :=
  let g := gdt_empty in
  let! '(g, kernel_code) := gdt_append g KernelCode in
  let! '(g, kernel_data) := gdt_append g KernelData in
  let! '(g, user_data) := gdt_append g UserData in
  let! '(g, user_code) := gdt_append g UserCode in
  let! '(g, tss) := append_tss g (seq 0 MAX_CORES) in
  Ret (g, mkSelectors kernel_code kernel_data user_data user_code tss).

(** [gdt.load()], the four segment loads and [load_tss]. *)
Definition load_segments (s : GdtSelectors) (core : nat) : outcome SegRegs :=
  let! tss := index_or_panic (sel_tss s) core in
  Ret (mkSegRegs true (sel_kernel_code s) (sel_kernel_data s) (sel_kernel_data s) (sel_kernel_data s) tss).

Definition init_bsp (m : Mem) : outcome (Mem * list Tss * Gdt * GdtSelectors * SegRegs) :=
  let! '(m, tss) := fill_ist m (seq 0 MAX_CORES) in
  let! '(g, s) := build_gdt in
  let! r := load_segments s 0 in
  Ret (m, tss, g, s, r).

(** [init_ap], with the table [init_bsp] built. *)
Definition init_ap (built : option GdtSelectors) (core : nat) : outcome SegRegs :=
  match built with
  | None => Panic "gdt::init_bsp() must run before gdt::init_ap()"
  | Some s => load_segments s core
  end.

(** The pages of a stack above its guard page, when they were mapped. *)
Lemma stack_mapped m m' pages fs base n :
  mapped W m m' pages KERNEL_FLAGS fs -> base mod 4096 = 0 -> (forall p, p ∈ stack_pages base n -> p ∈ pages) ->
  forall x, base + 4096 <= x < base + (1 + Z.of_nat n) * 4096 ->
  exists f, translate m' (kernel_pml4 m) x = Mapped f (x - page_of x) KERNEL_FLAGS.
Proof.
  intros Hm Hal Hsub x Hx.
  assert (page_of x ∈ pages) as Hin.
  { apply Hsub, elem_of_page_run. exists (Z.to_nat ((x - base) / 4096 - 1)). unfold page_of, PAGE. split; div_lia. }
  apply list_elem_of_lookup_1 in Hin as [i Hi].
  destruct (lookup_lt_is_Some_2 fs i) as [f Hf].
  { rewrite (mp_length _ _ _ _ _ _ Hm). by eapply lookup_lt_Some. }
  exists f. by eapply (mp_pages _ _ _ _ _ _ Hm).
Qed.

(** ** [syscall::init] *)

(** [Star::write] returns whether it accepted the four selectors. *)
Context (star_write : Z -> Z -> Z -> Z -> bool).
(** The addresses of the eight copies of the entry stub, in order. *)
Context (ENTRY_ADDRS : list Z).

(** What it documents to check: [SYSRET] takes [SS] and [CS] from one base, 8
    and 16 above it, at ring 3; [SYSCALL] takes [SS] 8 above [CS], at ring 0. *)
Definition star_documented : Prop :=
  forall cs_sysret ss_sysret cs_syscall ss_syscall,
    16 <= cs_sysret -> cs_sysret - 16 = ss_sysret - 8 -> 8 <= ss_syscall -> cs_syscall = ss_syscall - 8 ->
    ss_sysret mod 4 = 3 -> ss_syscall mod 4 = 0 ->
    star_write cs_sysret ss_sysret cs_syscall ss_syscall = true.

Definition RFLAGS_INTERRUPT_FLAG : Z := 0x200.

Definition syscall_entry_addr_for_core (core : nat) : outcome Z :=
  let! a := index_or_panic ENTRY_ADDRS core in
  Elf.new_virt_addr a.

(** [USER_CS_SELECTOR] and [USER_SS_SELECTOR], and this core's registers. *)
Definition syscall_init (s : GdtSelectors) (core : nat) : outcome (Z * Z * Msrs) :=
  assert! star_write (sel_user_code s) (sel_user_data s) (sel_kernel_code s) (sel_kernel_data s)
    else "GDT selector layout does not satisfy SYSCALL/SYSRET's fixed-offset requirement";
  let! entry := syscall_entry_addr_for_core core in
  Ret (sel_user_code s, sel_user_data s,
       mkMsrs true (Some (sel_user_code s, sel_user_data s, sel_kernel_code s, sel_kernel_data s)) entry
         RFLAGS_INTERRUPT_FLAG).

(** ** The table *)
Definition tss_selector (core : nat) : Z := Z.of_nat (5 + 2 * core) * 8.
Definition the_selectors : GdtSelectors :=
  mkSelectors 0x08 0x10 0x1B 0x23 (tss_selector <$> seq 0 MAX_CORES).

Lemma append_tss_spec g k n :
  gdt_len g = (5 + 2 * k)%nat -> (k + n = MAX_CORES)%nat ->
  exists g', append_tss g (seq k n) = Ret (g', tss_selector <$> seq k n) /\ gdt_len g' = GDT_ENTRIES /\
    (forall c, (k <= c < MAX_CORES)%nat -> gdt_at g' (tss_selector c / 8) = Some (TssSegment c)) /\
    (forall i, i < Z.of_nat (gdt_len g) -> gdt_at g' i = gdt_at g i).
Proof.
  revert g k. induction n as [|n IH]; intros g k Hl Hk; cbn [seq append_tss fmap list_fmap].
  { exists g. unfold GDT_ENTRIES. split_and!; [done|lia| |done]. intros c Hc. lia. }
  destruct (gdt_append_fits g (TssSegment k)) as (g1 & Ha & Hl1 & Hat & Hold).
  { unfold GDT_ENTRIES. cbn [descriptor_slots]. lia. }
  rewrite Ha. cbn iota beta. cbn [descriptor_slots] in Hl1.
  destruct (IH g1 (S k)) as (g' & Hr & Hlen & Hall & Hkeep); [lia|lia|].
  rewrite Hr. cbn iota beta. exists g'. split_and!.
  - unfold tss_selector. rewrite Hl. cbn [descriptor_dpl]. by rewrite Z.add_0_r.
  - done.
  - intros c Hc. destruct (decide (c = k)) as [->|Hne]; [|apply Hall; lia].
    unfold tss_selector. rewrite Z.div_mul by lia. rewrite <- Hl. by rewrite Hkeep by lia.
  - intros i Hi. rewrite Hkeep by lia. by apply Hold.
Qed.

Ltac append_step :=
  match goal with
  | |- context [gdt_append ?g ?d] =>
      let g' := fresh "g" in let Ha := fresh "Ha" in let Hl := fresh "Hl" in
      destruct (gdt_append_fits g d) as (g' & Ha & Hl & ? & ?);
      [cbn [descriptor_slots]; unfold GDT_ENTRIES; lia|]; rewrite Ha; cbn iota beta;
      cbn [descriptor_slots descriptor_dpl] in Ha, Hl |- *
  end.

Ltac rewrite_gdt_old :=
  match goal with
  | Hold : forall i, i < ?n -> gdt_at ?g i = _ |- gdt_at ?g _ = _ => rewrite Hold by done
  end.

Lemma build_gdt_spec :
  exists g, build_gdt = Ret (g, the_selectors) /\ gdt_len g = GDT_ENTRIES /\
    gdt_at g (sel_kernel_code the_selectors / 8) = Some KernelCode /\
    gdt_at g (sel_kernel_data the_selectors / 8) = Some KernelData /\
    gdt_at g (sel_user_data the_selectors / 8) = Some UserData /\
    gdt_at g (sel_user_code the_selectors / 8) = Some UserCode /\
    forall c, (c < MAX_CORES)%nat -> gdt_at g (tss_selector c / 8) = Some (TssSegment c).
Proof.
  pose proof gdt_empty_len as H0len. unfold build_gdt. do 4 append_step.
  destruct (append_tss_spec g2 0 MAX_CORES) as (g' & Hr & Hlen & Hall & Hkeep); [lia|done|].
  rewrite Hr. cbn iota beta. exists g'. unfold the_selectors. rewrite Hl2, Hl1, Hl0, Hl, H0len in *.
  split; [done|]. split; [done|]. cbn [sel_kernel_code sel_kernel_data sel_user_data sel_user_code].
  split_and!; [..|intros c Hc; apply Hall; lia]; rewrite Hkeep by done; repeat first [eassumption|rewrite_gdt_old].
Qed.

(** ** The double-fault stacks *)
Definition double_fault_top (core : nat) : Z :=
  double_fault_stack_slot_base core + (1 + Z.of_nat DOUBLE_FAULT_STACK_PAGES) * 4096.

Definition tss_of (core : nat) : Tss := mkTss 0 [double_fault_top core; 0; 0; 0; 0; 0; 0].

Lemma fill_ist_spec m cores :
  mappable W m (cores ≫= double_fault_stack_pages) -> Forall (fun c => (c < MAX_CORES)%nat) cores ->
  exists m' fs, fill_ist m cores = Ret (m', tss_of <$> cores) /\
    mapped W m m' (cores ≫= double_fault_stack_pages) KERNEL_FLAGS fs.
Proof.
  revert m. induction cores as [|c cores IH]; intros m Hb Hc; cbn [fill_ist].
  { exists m, []. split; [done|]. apply mapped_nil, Hb. }
  apply Forall_cons in Hc as [Hc1 Hc]. rewrite bind_cons in Hb |- *. pose proof (mb_nodup _ _ _ Hb) as Hn.
  pose proof (mb_kernel _ _ _ Hb) as [Hk _]%Forall_app. apply NoDup_app in Hn as (_ & Hd & _).
  apply mappable_app in Hb as [Hb Hnext]. unfold double_fault_stack_top.
  edestruct (map_region_complete W m) as (m1 & fs1 & Hr1 & Hm1); [exact Hb|]. rewrite Hr1. cbn iota beta.
  unfold Elf.new_virt_addr. rewrite upper_half; cbn iota beta.
  2: { unfold double_fault_stack_slot_base, DOUBLE_FAULT_STACK_BASE, DOUBLE_FAULT_STACK_SLOT_STRIDE,
      DOUBLE_FAULT_STACK_PAGES, MAX_CORES in *. lia. }
  destruct (IH m1 (Hnext _ _ _ Hm1) Hc) as (m' & fs & Hr & Hm'). rewrite Hr. cbn iota beta.
  exists m', (fs1 ++ fs). split; [done|]. by eapply mapped_app.
Qed.

Lemma double_fault_mapped m m' fs core :
  mapped W m m' (seq 0 MAX_CORES ≫= double_fault_stack_pages) KERNEL_FLAGS fs -> (core < MAX_CORES)%nat ->
  forall x, double_fault_top core - Z.of_nat DOUBLE_FAULT_STACK_PAGES * 4096 <= x < double_fault_top core ->
  exists f, translate m' (kernel_pml4 m) x = Mapped f (x - page_of x) KERNEL_FLAGS.
Proof.
  intros Hm Hc x Hx. apply (stack_mapped m m' _ fs (double_fault_stack_slot_base core) DOUBLE_FAULT_STACK_PAGES Hm).
  - unfold double_fault_stack_slot_base, DOUBLE_FAULT_STACK_BASE, DOUBLE_FAULT_STACK_SLOT_STRIDE. div_lia.
  - intros p Hp. apply list_elem_of_bind. exists core. split; [done|]. apply elem_of_seq. lia.
  - unfold double_fault_top in Hx. lia.
Qed.

(** ** Bringing up the segments of every core *)

(** What a core's registers must name. *)
Record core_ready (m' : Mem) (pml4 : Z) (g : Gdt) (tss : list Tss) (core : nat) (r : SegRegs) : Prop := {
  cr_gdt : r_gdt_loaded r = true;
  cr_cs : gdt_at g (r_cs r / 8) = Some KernelCode /\ r_cs r mod 8 = 0;
  cr_data : forall s, s ∈ [r_ss r; r_ds r; r_es r] -> gdt_at g (s / 8) = Some KernelData /\ s mod 8 = 0;
  cr_tr : gdt_at g (r_tr r / 8) = Some (TssSegment core) /\ r_tr r mod 8 = 0;
  cr_ist : exists t top, tss !! core = Some t /\ interrupt_stack_table t !! DOUBLE_FAULT_IST_INDEX = Some top /\
    (forall x, top - Z.of_nat DOUBLE_FAULT_STACK_PAGES * 4096 <= x < top ->
       exists f, translate m' pml4 x = Mapped f (x - page_of x) KERNEL_FLAGS);
}.

Lemma load_segments_ready m m' fs g core :
  mapped W m m' (seq 0 MAX_CORES ≫= double_fault_stack_pages) KERNEL_FLAGS fs ->
  build_gdt = Ret (g, the_selectors) -> (core < MAX_CORES)%nat ->
  exists r, load_segments the_selectors core = Ret r /\
    core_ready m' (kernel_pml4 m) g (tss_of <$> seq 0 MAX_CORES) core r.
Proof.
  intros Hm Hg Hc. destruct build_gdt_spec as (g' & Hg' & _ & Hkc & Hkd & _ & _ & Htss).
  assert (g' = g) as -> by congruence.
  unfold load_segments. cbn [sel_tss the_selectors].
  rewrite (proj2 (index_or_panic_Ret _ core (tss_selector core))).
  2: { by rewrite list_lookup_fmap, lookup_seq_lt. }
  eexists. split; [done|]. split; cbn [r_gdt_loaded r_cs r_ss r_ds r_es r_tr].
  - done.
  - split; [exact Hkc|done].
  - intros s Hs. assert (s = 0x10) as -> by (cbn in Hs; set_solver). split; [exact Hkd|done].
  - split; [by apply Htss|]. unfold tss_selector. by rewrite Z.mod_mul.
  - exists (tss_of core), (double_fault_top core). rewrite list_lookup_fmap, lookup_seq_lt by done.
    split_and!; [done..|]. intros x Hx. by eapply double_fault_mapped.
Qed.

(** Segment and system-call set-up never fails.  When the double-fault
    stacks can be mapped, [init_bsp] returns; the descriptor table it builds is
    exactly full; core 0 in [init_bsp] and every other core in [init_ap] loads
    flat kernel segments at ring 0 and a task segment that is its own and whose
    double-fault entry is the top of five mapped pages.  [syscall::init]
    succeeds on every core: the selectors satisfy [SYSCALL] and [SYSRET], the
    user ones name the user segments at ring 3, and the entry point is the
    core's own copy of the stub. *)
Theorem segments_set_up (m : Mem) (Hm : mappable W m (seq 0 MAX_CORES ≫= double_fault_stack_pages))
    (Hstar : star_documented) (Hlen : length ENTRY_ADDRS = MAX_CORES)
    (Hup : Forall (fun a => 2 ^ 64 - 2 ^ 47 <= a < 2 ^ 64) ENTRY_ADDRS) :
  exists m' tss g s r, init_bsp m = Ret (m', tss, g, s, r) /\ gdt_len g = GDT_ENTRIES /\
    core_ready m' (kernel_pml4 m) g tss 0 r /\
    (forall core, (core < MAX_CORES)%nat -> exists rc, init_ap (Some s) core = Ret rc /\
       core_ready m' (kernel_pml4 m) g tss core rc) /\
    forall core, (core < MAX_CORES)%nat -> exists user_cs user_ss msrs,
      syscall_init s core = Ret (user_cs, user_ss, msrs) /\
      gdt_at g (user_cs / 8) = Some UserCode /\ gdt_at g (user_ss / 8) = Some UserData /\
      user_cs mod 4 = 3 /\ user_ss mod 4 = 3 /\ efer_sce msrs = true /\ ENTRY_ADDRS !! core = Some (lstar msrs).
Proof.
  destruct (fill_ist_spec m (seq 0 MAX_CORES) Hm) as (m' & fs & Hf & Hmap).
  { apply Forall_forall. intros c. rewrite elem_of_seq. lia. }
  destruct build_gdt_spec as (g & Hg & Hl & _ & _ & Hud & Huc & _).
  destruct (load_segments_ready m m' fs g 0 Hmap Hg ltac:(unfold MAX_CORES; lia)) as (r & Hr & Hready).
  exists m', (tss_of <$> seq 0 MAX_CORES), g, the_selectors, r.
  unfold init_bsp. rewrite Hf, Hg. cbn iota beta. rewrite Hr. split_and!; [done..| |].
  - intros core Hc. by apply load_segments_ready with (fs := fs).
  - intros core Hc. destruct (lookup_lt_is_Some_2 ENTRY_ADDRS core) as [a Ha]; [lia|].
    unfold syscall_init, syscall_entry_addr_for_core. rewrite Hstar by done. cbn iota beta.
    rewrite (proj2 (index_or_panic_Ret _ core a) Ha). cbn iota beta. unfold Elf.new_virt_addr.
    rewrite upper_half by apply (Forall_lookup_1 _ _ _ _ Hup Ha). by eexists _, _, _.
Qed.
End gdt.

(** ** A table that keeps the laws *)
Definition demo_append (g : list (option Descriptor)) (d : Descriptor) : outcome (list (option Descriptor) * Z) :=
  if (length g + descriptor_slots d <=? GDT_ENTRIES)%nat
  then Ret (g ++ Some d :: replicate (descriptor_slots d - 1) None, Z.of_nat (length g) * 8 + descriptor_dpl d)
  else Panic "GDT requires at least {} more entries".

Definition demo_gdt : GdtCrate := {|
  Gdt := list (option Descriptor);
  gdt_empty := [None];
  gdt_append := demo_append;
  gdt_len := length;
  gdt_at g i := if decide (0 <= i) then mjoin (g !! Z.to_nat i) else None;
|}.

Lemma demo_gdt_laws : @GdtLaws demo_gdt.
Proof.
  split; [done|]. intros g d Hd. cbn [gdt_len gdt_append gdt_at demo_gdt] in *. unfold demo_append.
  rewrite (proj2 (Nat.leb_le _ _) Hd). eexists. split; [done|]. split_and!.
  - rewrite length_app. simpl. rewrite length_replicate. destruct d; simpl; lia.
  - rewrite decide_True by lia. rewrite Nat2Z.id, lookup_app_r, Nat.sub_diag by lia. done.
  - intros i Hi. case_decide; [|done]. by rewrite lookup_app_l by lia.
Qed.

Definition demo_star (cs_sysret ss_sysret cs_syscall ss_syscall : Z) : bool :=
  (cs_sysret - 16 =? ss_sysret - 8) && (cs_syscall =? ss_syscall - 8) &&
  (ss_sysret mod 4 =? 3) && (ss_syscall mod 4 =? 0).
Definition demo_entries : list Z := (fun i => 0xffffffff80000000 + 0x100 * Z.of_nat i) <$> seq 0 MAX_CORES.

Lemma segments_set_up_witness :
  exists m' tss g s r, @init_bsp 8 demo_x86 demo_gdt (demo_fresh_mem 8 400) = Ret (m', tss, g, s, r) /\
    length g = GDT_ENTRIES.
Proof.
  destruct (@segments_set_up 8 demo_x86 demo_mapper_laws demo_mapper_total demo_gdt demo_gdt_laws demo_star
    demo_entries (demo_fresh_mem 8 400)) as (m' & tss & g & s & r & Hi & Hl & _).
  - apply demo_fresh_mappable.
    + apply double_fault_region.
    + apply Forall_forall. intros p Hp. split.
      * apply double_fault_region in Hp. unfold DOUBLE_FAULT_STACK_BASE in Hp. lia.
      * apply list_elem_of_bind in Hp as (c & Hp & _). apply elem_of_page_run in Hp as (i & _ & ->).
        unfold double_fault_stack_slot_base, DOUBLE_FAULT_STACK_BASE, DOUBLE_FAULT_STACK_SLOT_STRIDE. div_lia.
    + apply Nat.leb_le. vm_compute. reflexivity.
  - intros a b c d _ E1 _ E2 E3 E4. unfold demo_star. by rewrite !(proj2 (Z.eqb_eq _ _)) by done.
  - reflexivity.
  - apply Forall_fmap, Forall_forall. intros i. rewrite elem_of_seq. unfold MAX_CORES. simpl. lia.
  - exists m', tss, g, s, r. exact (conj Hi Hl).
Defined.
