(* ===== verification/SmpBoot.v ===== *)
(** * Bringing up the other cores ([kernel/src/arch/x86_64/smp.rs])

    The boot processor gives every other core a slot, starts it, and waits for
    it for a bounded time; a started core runs a few instructions of assembly on
    whatever stack it was left with, switches to the idle stack of its slot and
    sets itself up.  Starting a core is the boot loader's ([MpInfo::bootstrap]):
    it records which core was started, with which argument, and the kernel's
    state at that moment.  The theorems: the assembly ends on the stack of the
    core's own slot or parks without touching memory; every core that is started
    has its slot already and comes up as that slot; the wait ends whatever the
    other cores do. *)
From S2P Require Import Prelude Abi Ring CapTable Bitmap Phys Virt Process Elf Mapper MapRegion Sched.
From S2P Require Import Uart Kernel Handlers Irq Trap Idt CoreId Lapic Regions Gdt.
Open Scope Z_scope.

(** ** [ap_entry_trampoline] *)
Inductive ap_instr :=
| ALoad (d base : Reg) (off : Z)
| ACmp (r : Reg) (imm : Z)
| AJae (l : nat)
| AMov (d s : Reg)
| AMovImm (d : Reg) (imm : Z)
| AMul (r : Reg)
| AAdd (d s : Reg)
| ACall
| ALabel (l : nat)
| ACli
| AHlt
| AJmp (l : nat).

Definition ap_entry_trampoline : list ap_instr :=
  [ALoad R10 RDI 24; ACmp R10 (Z.of_nat MAX_CORES); AJae 2; AMov RAX R10; AMovImm RCX IDLE_STACK_SLOT_STRIDE;
   AMul RCX; AMovImm RSP (IDLE_STACK_BASE + (1 + Z.of_nat IDLE_STACK_PAGES) * 4096); AAdd RSP RAX; AMov RDI R10;
   ACall; ALabel 2; ACli; ALabel 3; AHlt; AJmp 3].

Fixpoint ap_after (l : nat) (code : list ap_instr) : list ap_instr :=
  match code with
  | [] => []
  | ALabel k :: code => if decide (k = l) then code else ap_after l code
  | _ :: code => ap_after l code
  end.

(** Where the core ends: in the function called, which never returns, or
    halted with interrupts off. *)
Inductive Landed := Called (c : Cpu) | Parked (c : Cpu).

(** One instruction; [code] follows it, and [cf] is the carry flag, the only
    one that is tested. *)
Definition ap_step (i : ap_instr) (code : list ap_instr) (cf : bool) (c : Cpu)
    : (list ap_instr * bool * Cpu) + Landed :=
  match i with
  | ALoad d b off => inl (code, cf, set_gpr c d (c_mem c (gpr c b + off)))
  | ACmp r imm => inl (code, gpr c r <? imm, c)
  | AJae l => inl (if cf then code else ap_after l ap_entry_trampoline, cf, c)
  | AMov d s => inl (code, cf, set_gpr c d (gpr c s))
  | AMovImm d imm => inl (code, cf, set_gpr c d imm)
  | AMul r =>
      let p := gpr c RAX * gpr c r in
      inl (code, negb (p / 2 ^ 64 =? 0), set_gpr (set_gpr c RAX (wrap64 p)) RDX (p / 2 ^ 64))
  | AAdd d s => inl (code, 2 ^ 64 <=? gpr c d + gpr c s, set_gpr c d (wrap64 (gpr c d + gpr c s)))
  | ACall => inr (Called c)
  | ALabel _ => inl (code, cf, c)
  | ACli => inl (code, cf, set_flags c (clear_if (c_rflags c)))
  | AHlt => if Z.testbit (c_rflags c) 9 then inl (code, cf, c) else inr (Parked c)
  | AJmp l => inl (ap_after l ap_entry_trampoline, cf, c)
  end.

Fixpoint ap_run (fuel : nat) (code : list ap_instr) (cf : bool) (c : Cpu) : option Landed :=
  match fuel, code with
  | O, _ | _, [] => None
  | S fuel, i :: code =>
      match ap_step i code cf c with
      | inl (code, cf, c) => ap_run fuel code cf c
      | inr l => Some l
      end
  end.

Lemma ap_run_S fuel i code cf c :
  ap_run (S fuel) (i :: code) cf c =
  match ap_step i code cf c with
  | inl (code, cf, c) => ap_run fuel code cf c
  | inr l => Some l
  end.
Proof. reflexivity. Qed.

Ltac ap_go := rewrite ap_run_S; cbn [ap_step].

(** In range: the multiplication and the addition do not overflow. *)
Lemma idle_top_arith k :
  0 <= k < Z.of_nat MAX_CORES ->
  wrap64 (IDLE_STACK_BASE + (1 + Z.of_nat IDLE_STACK_PAGES) * 4096 + wrap64 (k * IDLE_STACK_SLOT_STRIDE)) =
    idle_stack_top_addr (Z.to_nat k) /\
  idle_stack_top_addr (Z.to_nat k) mod 16 = 0.
Proof.
  unfold MAX_CORES, idle_stack_top_addr, idle_stack_slot_base, IDLE_STACK_SLOT_STRIDE, IDLE_STACK_PAGES, IDLE_STACK_BASE.
  intros Hk. rewrite !Z2Nat.id, (wrap_small 64 (k * _)), wrap_small by (unfold in_width; lia). split; [lia|div_lia].
Qed.

(** The assembly a started core begins with.  With an argument below
    [MAX_CORES] it calls [ap_entry_on_own_stack] with it, with the stack pointer
    at the top of that core's idle stack; with any other it halts for good.
    Either way no memory is written. *)
Lemma trampoline_lands (c : Cpu) (cf : bool) (k : Z) :
  c_mem c (gpr c RDI + 24) = k -> 0 <= k ->
  if decide (k < Z.of_nat MAX_CORES)
  then exists c', ap_run 15 ap_entry_trampoline cf c = Some (Called c') /\
    gpr c' RDI = k /\ gpr c' RSP = idle_stack_top_addr (Z.to_nat k) /\ gpr c' RSP mod 16 = 0 /\ c_mem c' = c_mem c
  else exists c', ap_run 15 ap_entry_trampoline cf c = Some (Parked c') /\
    Z.testbit (c_rflags c') 9 = false /\ c_mem c' = c_mem c.
Proof.
  intros Hk H0. unfold ap_entry_trampoline. do 3 ap_go. rewrite gpr_same, Hk. case_decide as Hlt.
  - rewrite (proj2 (Z.ltb_lt _ _) Hlt). cbn iota. do 7 ap_go. eexists. split; [reflexivity|].
    repeat first [rewrite gpr_same | rewrite gpr_other by congruence]. rewrite ?Hk.
    destruct (idle_top_arith k ltac:(lia)) as [-> Hal]. done.
  - rewrite (proj2 (Z.ltb_ge _ _)) by lia. cbn iota. change (ap_after 2 ap_entry_trampoline) with [ACli; ALabel 3; AHlt; AJmp 3].
    do 3 ap_go. cbn [c_rflags set_flags]. rewrite clear_if_off. eexists. split; [reflexivity|].
    cbn [c_rflags set_flags]. split; [apply clear_if_off|done].
Qed.

(** ** Loops with a large bound and an early exit *)

(** At most [p] turns of [f], which says whether to go on. *)
Fixpoint iter_until {A B} (p : positive) (f : A -> A + B) (a : A) : A + B :=
  match p with
  | xH => f a
  | xO p => match iter_until p f a with inl a => iter_until p f a | inr b => inr b end
  | xI p =>
      match f a with
      | inl a => match iter_until p f a with inl a => iter_until p f a | inr b => inr b end
      | inr b => inr b
      end
  end.

Fixpoint turns {A B} (n : nat) (f : A -> A + B) (a : A) : A + B :=
  match n with
  | O => inl a
  | S n => match f a with inl a => turns n f a | inr b => inr b end
  end.

Lemma turns_add {A B} n k (f : A -> A + B) a :
  turns (n + k) f a = match turns n f a with inl a => turns k f a | inr b => inr b end.
Proof. revert a. induction n as [|n IH]; intros a; [done|]. cbn [Nat.add turns]. destruct (f a); [apply IH|done]. Qed.

Lemma iter_until_turns {A B} p (f : A -> A + B) a : iter_until p f a = turns (Pos.to_nat p) f a.
Proof.
  revert a. induction p as [p IH|p IH|]; intros a; cbn [iter_until].
  - rewrite Pos2Nat.inj_xI. replace (2 * Pos.to_nat p)%nat with (Pos.to_nat p + Pos.to_nat p)%nat by lia.
    cbn [turns]. destruct (f a) as [x|]; [|done]. rewrite turns_add, IH. destruct (turns _ f x); [apply IH|done].
  - rewrite Pos2Nat.inj_xO. replace (2 * Pos.to_nat p)%nat with (Pos.to_nat p + Pos.to_nat p)%nat by lia.
    rewrite turns_add, IH. destruct (turns _ f a); [apply IH|done].
  - simpl. by destruct (f a).
Qed.

(** ** [bring_up_aps] *)
Record MpRespData := mkMp { bsp_lapic_id : Z; cpus : list Z }.

(** [MpInfo::bootstrap]: the core, its argument, and the state it finds. *)
Record Launch := mkLaunch { l_lapic_id : Z; l_argument : nat; l_sched : Sched; l_mem : Mem }.

Definition set_slot_ready (s : Sched) (core : nat) : Sched :=
  set_percpu s (alter (fun p => mkPerCpu (lapic_id p) true (ipi_count p) (spin_count p)
    (pc_current p) (evict_request p) (idle p) (preempt_count p)) core (percpu s)).

Fixpoint start_aps (bsp : Z) (infos : list Z) (m : Mem) (s : Sched) (started : nat) : Sched * nat * list Launch :=
  match infos with
  | [] => (s, started, [])
  | id :: infos =>
      if decide (id = bsp) then start_aps bsp infos m s started
      else if decide (MAX_CORES <= started)%nat then (s, started, [])
      else
        let s := assign_slot s started id in
        let '(s', n, ls) := start_aps bsp infos m s (S started) in
        (s', n, mkLaunch id started s m :: ls)
  end.

Definition TIMEOUT_SPINS : Z := 100000000.

Section wait.
(** What the [n]-th look at a core's flag sees. *)
Context (ready_at : nat -> Z -> bool).

Definition wait_turn (core : nat) (spins : Z) : Z + bool :=
  if ready_at core spins then inr true
  else
    let spins := spins + 1 in
    if TIMEOUT_SPINS <? spins then inr false else inl spins.

(** Whether the core reported in time; [None] would mean that the loop goes on. *)
Definition wait_ready (core : nat) : option bool :=
  match iter_until (Z.to_pos (TIMEOUT_SPINS + 1)) (wait_turn core) 0 with inl _ => None | inr b => Some b end.

Lemma wait_turns core n spins :
  0 <= spins -> spins + Z.of_nat n = TIMEOUT_SPINS + 1 -> (0 < n)%nat ->
  exists b, turns n (wait_turn core) spins = inr b /\
    (b = true <-> exists i, spins <= i <= TIMEOUT_SPINS /\ ready_at core i = true).
Proof.
  revert spins. induction n as [|n IH]; intros spins H0 Hn Hpos; [lia|]. cbn [turns]. unfold wait_turn at 1.
  destruct (ready_at core spins) eqn:Hr.
  - exists true. split; [done|]. split; [|done]. intros _. exists spins. split; [lia|done].
  - destruct (Z.ltb_spec TIMEOUT_SPINS (spins + 1)) as [Hlt|Hge].
    + exists false. split; [done|]. split; [done|]. intros (i & Hi & Hb). assert (i = spins) as -> by lia. congruence.
    + destruct (IH (spins + 1)) as (b & -> & Hb); [lia|lia|lia|]. exists b. split; [done|]. rewrite Hb. split.
      * intros (i & Hi & Hri). exists i. split; [lia|done].
      * intros (i & Hi & Hri). exists i. split; [|done]. destruct (decide (i = spins)) as [->|]; [congruence|lia].
Qed.

(** The wait ends, and reports a core exactly if one of the polls sees it. *)
Lemma wait_ready_total core :
  exists b, wait_ready core = Some b /\ (b = true <-> exists i, 0 <= i <= TIMEOUT_SPINS /\ ready_at core i = true).
Proof.
  unfold wait_ready. rewrite iter_until_turns.
  destruct (wait_turns core (Pos.to_nat (Z.to_pos (TIMEOUT_SPINS + 1))) 0) as (b & -> & Hb); [done| |lia|by exists b].
  rewrite positive_nat_Z. unfold TIMEOUT_SPINS. lia.
Qed.
End wait.

(** ** Slots *)
Definition slot_ids (s : Sched) : list Z := lapic_id <$> percpu s.

(** The first slots have the identifiers [ids], the others none. *)
Definition slots_are (s : Sched) (ids : list Z) : Prop :=
  slot_ids s = ids ++ replicate (MAX_CORES - length ids) UNASSIGNED.

Lemma slot_ids_assign s i id : slot_ids (assign_slot s i id) = <[i := id]> (slot_ids s).
Proof.
  unfold slot_ids, assign_slot. cbn [percpu set_percpu]. apply list_eq. intros j.
  rewrite list_lookup_fmap. destruct (decide (j = i)) as [->|Hne].
  - rewrite list_lookup_alter_eq. destruct (percpu s !! i) as [p|] eqn:Hp; simpl.
    + rewrite list_lookup_insert_eq; [done|]. rewrite length_fmap. by eapply lookup_lt_Some.
    + rewrite list_insert_ge; [by rewrite list_lookup_fmap, Hp|]. rewrite length_fmap. by apply lookup_ge_None.
  - rewrite list_lookup_alter_ne, list_lookup_insert_ne by done. by rewrite list_lookup_fmap.
Qed.

Lemma slot_ids_ready s i : slot_ids (set_slot_ready s i) = slot_ids s.
Proof.
  unfold slot_ids, set_slot_ready. cbn [percpu set_percpu]. apply list_eq. intros j. rewrite !list_lookup_fmap.
  destruct (decide (j = i)) as [->|Hne]; [|by rewrite list_lookup_alter_ne].
  rewrite list_lookup_alter_eq. by destruct (percpu s !! i).
Qed.

Lemma slots_are_assign s ids id :
  slots_are s ids -> (length ids < MAX_CORES)%nat -> slots_are (assign_slot s (length ids) id) (ids ++ [id]).
Proof.
  intros Hs Hl. unfold slots_are. rewrite slot_ids_assign, Hs, length_app. cbn [length].
  replace (MAX_CORES - length ids)%nat with (S (MAX_CORES - (length ids + 1))) by lia. cbn [replicate].
  rewrite insert_app_r_alt, Nat.sub_diag by lia. cbn. by rewrite <- app_assoc.
Qed.

Lemma slots_are_only s ids i id :
  slots_are s ids -> NoDup ids -> UNASSIGNED ∉ ids -> ids !! i = Some id -> only_slot s i id.
Proof.
  intros Hs Hn Hu Hi j. rewrite <- list_lookup_fmap. fold (slot_ids s). rewrite Hs. split.
  - intros [Hj|[_ [-> _]%lookup_replicate]]%lookup_app_Some; [by eapply NoDup_lookup|].
    destruct Hu. by eapply list_elem_of_lookup_2.
  - intros ->. by apply lookup_app_l_Some.
Qed.

(** The cores that are started: those of the list but the boot processor, as
    many as there are slots. *)
Definition started_ids (bsp : Z) (infos : list Z) (room : nat) : list Z := take room (filter (fun id => id <> bsp) infos).

(** Each launched core has a slot of its own at that moment. *)
Definition launch_ok (m : Mem) (first : nat) (ids : list Z) (ls : list Launch) : Prop :=
  length ls = length ids /\
  forall j l, ls !! j = Some l -> ids !! j = Some (l_lapic_id l) /\ l_argument l = (first + j)%nat /\ l_mem l = m /\
    only_slot (l_sched l) (l_argument l) (l_lapic_id l).

Lemma start_aps_spec bsp infos m s ids :
  slots_are s ids -> (length ids <= MAX_CORES)%nat -> NoDup (ids ++ filter (fun id => id <> bsp) infos) ->
  UNASSIGNED ∉ ids ++ filter (fun id => id <> bsp) infos ->
  let new := started_ids bsp infos (MAX_CORES - length ids) in
  exists s' ls, start_aps bsp infos m s (length ids) = (s', length (ids ++ new), ls) /\
    slots_are s' (ids ++ new) /\ launch_ok m (length ids) new ls.
Proof.
  unfold started_ids. revert s ids. induction infos as [|id infos IH]; intros s ids Hs Hl Hn Hu; cbn [start_aps].
  { exists s, []. rewrite filter_nil, take_nil, app_nil_r. split_and!; [done..|]. split; [done|]. intros j l Hj. done. }
  case_decide as Hb.
  { rewrite filter_cons_False in * by tauto. by apply IH. }
  rewrite filter_cons_True in * by done. case_decide as Hm.
  { exists s, []. replace (MAX_CORES - length ids)%nat with O by lia. rewrite take_0, app_nil_r.
    split_and!; [done..|]. split; [done|]. intros j l Hj. done. }
  destruct (IH (assign_slot s (length ids) id) (ids ++ [id])) as (s' & ls & He & Hs' & Hlen & Hls).
  - apply slots_are_assign; [done|lia].
  - rewrite length_app. simpl. lia.
  - by rewrite <- app_assoc.
  - by rewrite <- app_assoc.
  - rewrite !length_app in *. cbn [length] in *. rewrite !Nat.add_1_r in *. rewrite He.
    replace (MAX_CORES - length ids)%nat with (S (MAX_CORES - S (length ids))) by lia. cbn [firstn].
    rewrite <- app_assoc in Hs'. cbn [length app] in *.
    eexists s', _. split; [f_equal; f_equal; lia|]. split; [done|]. split; [simpl; by f_equal|].
    intros [|j] l Hj; simplify_eq/=.
    + rewrite Nat.add_0_r. split_and!; [done..|]. eapply (slots_are_only _ (ids ++ [id])).
      * apply slots_are_assign; [done|lia].
      * rewrite (cons_middle id), app_assoc in Hn. by apply NoDup_app in Hn as [Hn _].
      * set_solver.
      * rewrite lookup_app_r, Nat.sub_diag by lia. done.
    + destruct (Hls j l Hj) as (Hid & Harg & Hmem & Ho). split_and!; [done|lia|done|done].
Qed.

(** What a core has set up when it enables interrupts. *)
Record ApRegs := mkApRegs { ap_idt : Idt; ap_seg : SegRegs; ap_timers : Timers; ap_user : Z * Z; ap_msrs : Msrs }.

Section bring_up.
Context (W : nat) `{MapperTotal} `{GdtLaws}.
Context (star_write : Z -> Z -> Z -> Z -> bool) (ENTRY_ADDRS : list Z) (delay : nat -> Z).
Context (ready_at : nat -> Z -> bool).

Definition idle_stack_top (m : Mem) (core : nat) : outcome (Mem * Z) :=
  let! m := map_region W m (idle_stack_pages core) KERNEL_FLAGS
              "out of memory mapping an idle stack" "failed to map idle stack page" in
  let! top := Elf.new_virt_addr (idle_stack_top_addr core) in
  Ret (m, top).

Fixpoint map_idle_stacks (m : Mem) (cores : list nat) : outcome Mem :=
  match cores with
  | [] => Ret m
  | core :: cores => let! '(m, _) := idle_stack_top m core in map_idle_stacks m cores
  end.

Definition bring_up_bsp_only (m : Mem) (s : Sched) (own_apic_id : Z) : outcome (Mem * Sched) :=
  let s := set_slot_ready (assign_slot s 0 own_apic_id) 0 in
  let! '(m, _) := idle_stack_top m 0 in
  Ret (m, s).

(** The cores started, and for each whether it reported in time. *)
Definition bring_up_aps (m : Mem) (s : Sched) (resp : MpRespData)
    : outcome (Mem * Sched * list Launch * list (option bool)) :=
  let s := set_slot_ready (assign_slot s 0 (bsp_lapic_id resp)) 0 in
  let! m := map_idle_stacks m (seq 0 MAX_CORES) in
  let '(s, started, launches) := start_aps (bsp_lapic_id resp) (cpus resp) m s 1 in
  Ret (m, s, launches, wait_ready ready_at <$> seq 1 (started - 1)).

(** [ap_entry_on_own_stack] on a core whose identifier is [apic_id], given the
    tables and the timer count of the boot processor. *)
Definition ap_entry_on_own_stack (idt : option Idt) (gdt : option GdtSelectors) (reload : Z) (t : Timers)
    (apic_id : Z) (k : Kernel) (core : nat) : outcome (Kernel * Resume * ApRegs) :=
  let! idt := load_ap idt in
  let! seg := init_ap gdt core in
  let t := init_this_core delay t in
  let t := arm_timer_this_core delay t reload in
  let! own := core_index (ksched k) apic_id in
  match gdt with
  | None => Panic "gdt::init_bsp() must run before gdt::selectors()"
  | Some s =>
      let! '(user_cs, user_ss, msrs) := syscall_init star_write ENTRY_ADDRS s own in
      let k := set_sched k (set_slot_ready (ksched k) core) in
      let '(k, r) := ap_enter_scheduler k core in
      Ret (k, r, mkApRegs idt seg t (user_cs, user_ss) msrs)
  end.

Lemma idle_top_upper core : (core < MAX_CORES)%nat -> 2 ^ 64 - 2 ^ 47 <= idle_stack_top_addr core < 2 ^ 64.
Proof.
  unfold MAX_CORES, idle_stack_top_addr, idle_stack_slot_base, IDLE_STACK_SLOT_STRIDE, IDLE_STACK_PAGES, IDLE_STACK_BASE. lia.
Qed.

Lemma map_idle_stacks_spec m cores :
  mappable W m (cores ≫= idle_stack_pages) -> Forall (fun c => (c < MAX_CORES)%nat) cores ->
  exists m' fs, map_idle_stacks m cores = Ret m' /\ mapped W m m' (cores ≫= idle_stack_pages) KERNEL_FLAGS fs.
Proof.
  revert m. induction cores as [|c cores IH]; intros m Hb Hc; cbn [map_idle_stacks].
  { exists m, []. split; [done|]. apply mapped_nil, Hb. }
  apply Forall_cons in Hc as [Hc1 Hc]. rewrite bind_cons in Hb |- *. pose proof (mb_nodup _ _ _ Hb) as Hn.
  pose proof (mb_kernel _ _ _ Hb) as [Hk _]%Forall_app. apply NoDup_app in Hn as (_ & Hd & _).
  apply mappable_app in Hb as [Hb Hnext]. unfold idle_stack_top.
  edestruct (map_region_complete W m) as (m1 & fs1 & Hr1 & Hm1); [exact Hb|]. rewrite Hr1. cbn iota beta.
  unfold Elf.new_virt_addr. rewrite upper_half by (by apply idle_top_upper). cbn iota beta.
  destruct (IH m1 (Hnext _ _ _ Hm1) Hc) as (m' & fs & Hr & Hm'). exists m', (fs1 ++ fs).
  split; [done|]. by eapply mapped_app.
Qed.

(** A core that was started comes up: whatever registers it arrives with, it
    switches to its idle stack, all of it mapped, and then sets itself up as
    the slot it was started for and joins the scheduler. *)
Record comes_up (pml4 : Z) (idt : Idt) (sel : GdtSelectors) (reload : Z) (l : Launch) : Prop := {
  cu_range : (1 <= l_argument l < MAX_CORES)%nat;
  cu_own : only_slot (l_sched l) (l_argument l) (l_lapic_id l);
  cu_stack : forall c cf, c_mem c (gpr c RDI + 24) = Z.of_nat (l_argument l) ->
    exists c', ap_run 15 ap_entry_trampoline cf c = Some (Called c') /\ gpr c' RDI = Z.of_nat (l_argument l) /\
      gpr c' RSP mod 16 = 0 /\
      forall x, gpr c' RSP - Z.of_nat IDLE_STACK_PAGES * 4096 <= x < gpr c' RSP ->
        exists f, translate (l_mem l) pml4 x = Mapped f (x - page_of x) KERNEL_FLAGS;
  cu_entry : forall k t, only_slot (ksched k) (l_argument l) (l_lapic_id l) ->
    exists k' r, ap_entry_on_own_stack (Some idt) (Some sel) reload t (l_lapic_id l) k (l_argument l) =
        Ret (k', RIdle None, r) /\
      ap_idt r = idt /\ sel_tss sel !! l_argument l = Some (r_tr (ap_seg r)) /\
      ENTRY_ADDRS !! l_argument l = Some (lstar (ap_msrs r)) /\
      apic_regs (ap_timers r) !! REG_INITIAL_COUNT = Some reload /\
      pc_ready <$> percpu (ksched k') !! l_argument l = Some true;
}.

Lemma idle_stack_mapped m m' fs core :
  mapped W m m' (seq 0 MAX_CORES ≫= idle_stack_pages) KERNEL_FLAGS fs -> (core < MAX_CORES)%nat ->
  forall x, idle_stack_top_addr core - Z.of_nat IDLE_STACK_PAGES * 4096 <= x < idle_stack_top_addr core ->
  exists f, translate m' (kernel_pml4 m) x = Mapped f (x - page_of x) KERNEL_FLAGS.
Proof.
  intros Hm Hc x Hx. apply (stack_mapped W m m' _ fs (idle_stack_slot_base core) IDLE_STACK_PAGES Hm).
  - unfold idle_stack_slot_base, IDLE_STACK_BASE, IDLE_STACK_SLOT_STRIDE. div_lia.
  - intros p Hp. apply list_elem_of_bind. exists core. split; [done|]. apply elem_of_seq. lia.
  - unfold idle_stack_top_addr in Hx. lia.
Qed.

Lemma ready_set s core : is_Some (percpu s !! core) -> pc_ready <$> percpu (set_slot_ready s core) !! core = Some true.
Proof. intros [p Hp]. unfold set_slot_ready. cbn [percpu set_percpu]. by rewrite list_lookup_alter_eq, Hp. Qed.

(** What the boot processor has set up before. *)
Context (Hstar : star_documented star_write) (Hlen : length ENTRY_ADDRS = MAX_CORES)
  (Hup : Forall (fun a => 2 ^ 64 - 2 ^ 47 <= a < 2 ^ 64) ENTRY_ADDRS).

Lemma launch_comes_up m m' fs ids ls l reload :
  mapped W m m' (seq 0 MAX_CORES ≫= idle_stack_pages) KERNEL_FLAGS fs -> launch_ok m' 1 ids ls ->
  (length ids < MAX_CORES)%nat -> l ∈ ls ->
  comes_up (kernel_pml4 m) idt_init the_selectors reload l.
Proof.
  intros Hm [Hll Hls] Hids [j Hj]%list_elem_of_lookup_1. destruct (Hls j l Hj) as (Hid & Harg & Hmem & Ho).
  apply lookup_lt_Some in Hid. assert (1 <= l_argument l < MAX_CORES)%nat as Hr by lia. split; [done|done|..].
  - intros c cf Hc. pose proof (trampoline_lands c cf _ Hc ltac:(lia)) as Ht. rewrite decide_True in Ht by lia.
    destruct Ht as (c' & Hrun & Hdi & Hsp & Hal & _). exists c'. split_and!; [done..|].
    rewrite Hsp, Nat2Z.id, Hmem. apply (idle_stack_mapped m m' fs); [done|lia].
  - intros k t Hk. unfold ap_entry_on_own_stack. cbn [load_ap init_ap]. unfold load_segments.
    destruct (lookup_lt_is_Some_2 (sel_tss the_selectors) (l_argument l)) as [tss Htss].
    { change (length (sel_tss the_selectors)) with MAX_CORES. lia. }
    rewrite (proj2 (index_or_panic_Ret _ _ tss) Htss). cbn iota beta. rewrite (core_index_own _ _ _ Hk). cbn iota beta.
    destruct (lookup_lt_is_Some_2 ENTRY_ADDRS (l_argument l)) as [a Ha]; [lia|].
    unfold syscall_init, syscall_entry_addr_for_core. rewrite Hstar by done. cbn iota beta.
    rewrite (proj2 (index_or_panic_Ret _ _ a) Ha). cbn iota beta. unfold Elf.new_virt_addr.
    rewrite upper_half by apply (Forall_lookup_1 _ _ _ _ Hup Ha). eexists _, _. split; [reflexivity|].
    split_and!; [done|done|done|apply arm_regs|]. apply ready_set.
    pose proof (proj2 (Hk (l_argument l)) eq_refl) as Hp. by destruct (percpu (ksched k) !! l_argument l).
Qed.

Lemma bring_up_aps_spec (m : Mem) (s : Sched) (resp : MpRespData) (reload : Z)
    (Hm : mappable W m (seq 0 MAX_CORES ≫= idle_stack_pages)) (Hs : slots_are s [])
    (Hn : NoDup (cpus resp)) (Hu : UNASSIGNED ∉ bsp_lapic_id resp :: cpus resp) :
  exists m' s' ls ws fs, bring_up_aps m s resp = Ret (m', s', ls, ws) /\
    mapped W m m' (seq 0 MAX_CORES ≫= idle_stack_pages) KERNEL_FLAGS fs /\
    l_lapic_id <$> ls = started_ids (bsp_lapic_id resp) (cpus resp) (MAX_CORES - 1) /\
    (forall l, l ∈ ls -> comes_up (kernel_pml4 m) idt_init the_selectors reload l /\
       only_slot s' (l_argument l) (l_lapic_id l)) /\
    only_slot s' 0 (bsp_lapic_id resp) /\ length ws = length ls /\ Forall is_Some ws.
Proof.
  destruct (map_idle_stacks_spec m (seq 0 MAX_CORES) Hm) as (m' & fs & Hmap & Hmm).
  { apply Forall_forall. intros c. rewrite elem_of_seq. lia. }
  set (bsp := bsp_lapic_id resp) in *. set (s1 := set_slot_ready (assign_slot s 0 bsp) 0).
  assert (slots_are s1 [bsp]) as Hs1.
  { unfold slots_are, s1. rewrite slot_ids_ready. apply (slots_are_assign s []); [done|]. unfold MAX_CORES. simpl. lia. }
  destruct (start_aps_spec bsp (cpus resp) m' s1 [bsp]) as (s' & ls & Hst & Hs' & Hls).
  - done.
  - unfold MAX_CORES. simpl. lia.
  - apply NoDup_cons. split; [|by apply NoDup_filter]. intros [? _]%list_elem_of_filter. done.
  - intros [Heq|[_ Hin]%list_elem_of_filter]%elem_of_cons; apply Hu; [rewrite Heq; left|by right].
  - cbn [length] in Hst, Hls. set (ids := started_ids bsp (cpus resp) (MAX_CORES - 1)) in *.
    unfold bring_up_aps. fold bsp s1. rewrite Hmap. cbn iota beta. rewrite Hst.
    assert (length ids <= MAX_CORES - 1)%nat as Hlids by (unfold ids, started_ids; rewrite length_take; lia).
    assert (forall id, id ∈ ids -> id <> bsp /\ id ∈ cpus resp) as Hsub.
    { intros id (i & Hi & _)%elem_of_take. apply list_elem_of_lookup_2, list_elem_of_filter in Hi. exact Hi. }
    assert (forall i id, ([bsp] ++ ids) !! i = Some id -> only_slot s' i id) as Honly.
    { intros i id. apply slots_are_only; [done| |].
      - apply NoDup_cons. split; [|eapply sublist_NoDup; [by apply (NoDup_filter (fun id => id <> bsp) (cpus resp))|apply sublist_take]].
        by intros [? _]%Hsub.
      - intros [Heq|[_ Hin]%Hsub]%elem_of_cons; apply Hu; [rewrite Heq; left|by right]. }
    eexists m', s', ls, _, fs. split; [reflexivity|]. pose proof Hls as [Hll Hlj].
    split_and!; [done| | |by apply Honly| |].
    + apply list_eq. intros i. rewrite list_lookup_fmap. destruct (ls !! i) as [l|] eqn:Hi; simpl.
      * symmetry. by apply (Hlj i l Hi).
      * symmetry. apply lookup_ge_None. apply lookup_ge_None in Hi. lia.
    + intros l Hl. split; [eapply launch_comes_up; [done|done| |done]; unfold MAX_CORES in *; lia|].
      apply list_elem_of_lookup_1 in Hl as [i Hi]. destruct (Hlj i l Hi) as (Hid & -> & _). by apply Honly.
    + rewrite length_fmap, length_seq. cbn [length app]. lia.
    + apply Forall_fmap, Forall_forall. intros c _. destruct (wait_ready_total ready_at c) as (b & Hb & _).
      simpl. by rewrite Hb.
Qed.

End bring_up.

(** ** Three cores, one of which never reports *)
Definition demo_mp : MpRespData := mkMp 0 [0; 2; 5].

Lemma demo_star_documented : star_documented demo_star.
Proof. intros a b c d _ E1 _ E2 E3 E4. unfold demo_star. by rewrite !(proj2 (Z.eqb_eq _ _)) by done. Qed.

Lemma demo_entries_upper : Forall (fun a => 2 ^ 64 - 2 ^ 47 <= a < 2 ^ 64) demo_entries.
Proof. apply Forall_fmap, Forall_forall. intros i. rewrite elem_of_seq. unfold MAX_CORES. simpl. lia. Qed.

Lemma idle_pages_kernel : Forall kernel_page (seq 0 MAX_CORES ≫= idle_stack_pages).
Proof.
  apply Forall_forall. intros p Hp. split.
  - apply idle_region in Hp. unfold IDLE_STACK_BASE in Hp. lia.
  - apply list_elem_of_bind in Hp as (c & Hp & _). apply elem_of_page_run in Hp as (i & _ & ->).
    unfold idle_stack_slot_base, IDLE_STACK_BASE, IDLE_STACK_SLOT_STRIDE. div_lia.
Qed.

