(* ===== verification/Loader.v ===== *)
(** * Loading a program ([kernel/src/elf.rs], [Process::from_elf])

    [Elf] has the loader's code; here is what it achieves.  [SpaceLaws] adds to
    the laws of the page mapper what a walk starts from: the entry of the
    top-level table, and which frames the mapper writes.  The theorems: a
    well-formed image, given enough free frames, is loaded, and the new process
    then sees exactly the image at the addresses it asks for, zeros where the
    image has memory without file contents, its stack, and nothing else in its
    half of the address space, while it shares the kernel's. *)
From S2P Require Import Prelude Abi CapTable Bitmap Phys Virt Process Elf Mapper MapRegion Sched Kernel Handlers Block.
From S2P Require Import Fat Virtio Syscall UserMem Regions.
Open Scope Z_scope.

(** A frame the allocator may still hand out. *)
Definition free_frame (W : nat) (a : BitmapFrameAllocator) (f : Z) : Prop :=
  exists i, f = Z.of_nat i * FRAME_SIZE /\ BM.is_free W (bitmap a) i = true.

(** The entry of the top-level table [p] that the address [a] goes through. *)
Definition top_entry (m : Mem) (p a : Z) : Z := nth (Z.to_nat (pml4_index a)) (frame_words (ram m) p) 0.

(** No table of the space can be handed out again. *)
Definition space_ok (W : nat) `{X86} `{!PageWalk} (m : Mem) (pml4 : Z) : Prop :=
  Phys.wf W (frames m) /\ forall f, f ∈ tables m pml4 -> ~ free_frame W (frames m) f.

Class SpaceLaws (W : nat) `{MapperTotal} `{!PageWalk} : Prop := {
  (** [map_to] extends the walk by frames it takes and writes nothing else. *)
  map_walk : forall m pml4 page frame flags, space_ok W m pml4 ->
    let m' := fst (map_to m pml4 page frame flags) in
    (forall f, 0 <= f -> f ∈ tables m' pml4 ->
       f ∈ tables m pml4 \/ (free_frame W (frames m) f /\ ~ free_frame W (frames m') f)) /\
    (forall f, 0 <= f -> ~ free_frame W (frames m) f -> f ∉ tables m pml4 -> ram m' !! f = ram m !! f);
  map_size : forall m pml4 page frame flags, length (frame_words (ram m) pml4) = 512%nat ->
    length (frame_words (ram (fst (map_to m pml4 page frame flags))) pml4) = 512%nat;
  (** A walk begins with the top-level entry. *)
  walk_absent : forall m p a, top_entry m p a = 0 -> translate m p a = NotMapped;
  walk_same : forall m p q a, 0 <= p -> 0 <= q -> top_entry m p a = top_entry m q a -> translate m p a = translate m q a;
  tables_sub : forall m p q,
    (forall a, top_entry m p a = 0 \/ top_entry m p a = top_entry m q a) ->
    forall f, f ∈ tables m p -> f = p \/ f ∈ tables m q;
}.

Section loader.
Context (W : nat) `{SpaceLaws W}.
Implicit Types (m : Mem) (pages fs : list Z).
Abbreviation free m f := (free_frame W (frames m) f).

(** ** Mapping fresh pages *)

(** [m'] is [m] with the pages mapped in the space [pml4], in order, to the
    frames [fs], which were free; when [fill] is given, it is their contents. *)
Record fresh_pages (fill : option (list Z)) m m' (pml4 : Z) pages (flags : Z) fs : Prop := {
  fr_ok : space_ok W m' pml4;
  fr_nodup : NoDup fs;
  fr_took : forall f, f ∈ fs -> free m f /\ ~ free m' f;
  fr_data : forall f, f ∈ fs -> f ∉ tables m' pml4;
  fr_length : length fs = length pages;
  fr_pages : forall i page f, pages !! i = Some page -> fs !! i = Some f ->
    forall x, page_of x = page -> translate m' pml4 x = Mapped f (x - page) flags;
  fr_fill : forall ws f, fill = Some ws -> f ∈ fs -> ram m' !! f = Some ws;
  fr_others : forall x, page_of x ∉ pages -> translate m' pml4 x = translate m pml4 x;
  fr_ram : forall f, 0 <= f -> ~ free m f -> f ∉ tables m pml4 -> ram m' !! f = ram m !! f;
  fr_tables : forall f, 0 <= f -> f ∈ tables m' pml4 -> f ∈ tables m pml4 \/ free m f;
  fr_mono : forall f, free m' f -> free m f;
  fr_count : (Phys.free_frame_count (frames m) <= Phys.free_frame_count (frames m') + 4 * length pages)%nat;
  fr_pml4 : kernel_pml4 m' = kernel_pml4 m;
}.

Lemma fresh_nil fill m pml4 flags : space_ok W m pml4 -> fresh_pages fill m m pml4 [] flags [].
Proof.
  intros Hok. split; try done; try lia.
  - constructor.
  - intros f Hf. by apply elem_of_nil in Hf.
  - intros f Hf. by apply elem_of_nil in Hf.
  - intros ws f _ Hf. by apply elem_of_nil in Hf.
  - intros f Hf. by left.
Qed.

Lemma free_nonneg m f : free m f -> 0 <= f.
Proof. intros (i & -> & _). unfold FRAME_SIZE. lia. Qed.

Lemma free_map m pml4 page frame flags f :
  Phys.wf W (frames m) -> free (fst (map_to m pml4 page frame flags)) f -> free m f.
Proof. intros Hwf (i & -> & Hi). exists i. split; [done|]. by apply (map_takes W m pml4 page frame flags). Qed.

(** A frame handed out, and what the allocator says of the others. *)
Lemma allocate_free m :
  Phys.wf W (frames m) -> (1 <= Phys.free_frame_count (frames m))%nat ->
  exists a f, Phys.allocate_frame W (frames m) = Ret (a, Some f) /\ Phys.wf W a /\
    free m f /\ (forall g, free_frame W a g <-> free m g /\ g <> f) /\
    (Phys.free_frame_count (frames m) <= Phys.free_frame_count a + 1)%nat.
Proof.
  intros Hwf Hc. destruct (Phys.allocate_frame_cases W (frames m) Hwf) as ([a [f|]] & Ha & Hres).
  2: { destruct Hres as [_ Hz]. lia. }
  destruct Hres as (Hwf1 & _ & Hcnt & i & -> & Hi & Hall). exists a, (Z.of_nat i * FRAME_SIZE).
  split_and!; [done|done|by exists i| |lia].
  intros g. unfold free_frame. split.
  - intros (j & -> & Hj). rewrite Hall in Hj. apply andb_true_iff in Hj as [Hj Hne]. apply negb_true_iff, bool_decide_eq_false in Hne.
    split; [by exists j|]. unfold FRAME_SIZE. lia.
  - intros [(j & -> & Hj) Hne]. exists j. split; [done|]. rewrite Hall, Hj. apply andb_true_iff. split; [done|].
    apply negb_true_iff, bool_decide_eq_false. intros ->. done.
Qed.

(** Allocating a frame and writing to it disturbs no walk. *)
Lemma allocated_walk m a f pml4 ws :
  space_ok W m pml4 -> free m f -> (forall g, free_frame W a g <-> free m g /\ g <> f) -> Phys.wf W a ->
  let m1 := set_ram (set_frames m a) (<[f := ws]> (ram m)) in
  space_ok W m1 pml4 /\ tables m1 pml4 = tables m pml4 /\ (forall x, translate m1 pml4 x = translate m pml4 x).
Proof.
  intros [Hwf Hst] Hf Hfree Ha m1. destruct (walk_tables m m1 pml4) as [Ht Htr].
  { intros g Hg. unfold m1. cbn [ram set_ram set_frames]. apply lookup_insert_ne. intros ->. by apply (Hst g). }
  split; [|done]. split; [done|]. intros g Hg. rewrite Ht in Hg. intros [Hg' _]%Hfree. by apply (Hst g).
Qed.

(** One page: allocate, fill or not, map. *)
Lemma fresh_one (fill : option (list Z)) m pml4 page flags :
  space_ok W m pml4 -> 0 <= pml4 -> page mod 4096 = 0 -> translate m pml4 page = NotMapped ->
  (4 <= Phys.free_frame_count (frames m))%nat ->
  exists a f, Phys.allocate_frame W (frames m) = Ret (a, Some f) /\
    let m1 := set_frames m a in
    let m1 := from_option (fun ws => set_ram m1 (<[f := ws]> (ram m1))) m1 fill in
    exists m', map_to m1 pml4 page f flags = (m', Ok tt) /\ fresh_pages fill m m' pml4 [page] flags [f].
Proof.
  intros Hok H0p Hal Hun Hc. pose proof Hok as [Hwf Hst].
  destruct (allocate_free m Hwf ltac:(lia)) as (a & f & Ha & Hwfa & Hf & Hfree & Hcnt). exists a, f. split; [done|].
  intros m0 m1.
  assert (space_ok W m1 pml4 /\ tables m1 pml4 = tables m pml4 /\ (forall x, translate m1 pml4 x = translate m pml4 x) /\
    frames m1 = a /\ kernel_pml4 m1 = kernel_pml4 m /\ (forall g, g <> f -> ram m1 !! g = ram m !! g) /\
    (forall ws, fill = Some ws -> ram m1 !! f = Some ws)) as (Hok1 & Ht1 & Htr1 & Hfr1 & Hk1 & Hr1 & Hz1).
  { destruct fill as [ws|].
    - destruct (allocated_walk m a f pml4 ws Hok Hf Hfree Hwfa) as (? & ? & ?).
      split_and!; try done; intros; simplify_eq; cbn [m1 m0 from_option ram set_ram set_frames].
      + by apply lookup_insert_ne.
      + apply lookup_insert_eq.
    - destruct (walk_tables m m1 pml4) as [Ht Htr]; [done|]. split_and!; try done. split; [done|].
      intros g Hg. rewrite Ht in Hg. intros [Hg' _]%Hfree. by apply (Hst g). }
  clearbody m1. clear m0.
  destruct (map_total W m1 pml4 page f flags (proj1 Hok1) H0p Hal) as (m' & Hm & Hle); [by rewrite Htr1|rewrite Hfr1; lia|].
  exists m'. split; [done|]. destruct (map_ok _ _ _ _ _ _ Hm) as [Hin Hout].
  pose proof (map_walk m1 pml4 page f flags Hok1) as [Hmt Hmr]. pose proof (fun g => free_map m1 pml4 page f flags g (proj1 Hok1)) as Hmf.
  pose proof (map_keeps m1 pml4 page f flags) as [Hmk Hmw]. rewrite Hm in Hmt, Hmr, Hmf, Hmk, Hmw. simpl in Hmt, Hmr, Hmf, Hmk, Hmw.
  rewrite Ht1 in Hmt, Hmr. rewrite Hfr1 in *.
  assert (~ free_frame W a f) as Hnf by (rewrite Hfree; tauto).
  assert (f ∉ tables m pml4) as Hft by (intros Hin'; by apply (Hst f)).
  split; try done.
  - split; [by apply Hmw|]. intros g Hgt Hg'. destruct (Hmt g (free_nonneg m' g Hg') Hgt) as [Hg|[_ Hg]]; [|done].
    apply Hmf, Hfree in Hg' as [Hg' _]. by apply (Hst g).
  - apply NoDup_singleton.
  - intros g ->%list_elem_of_singleton. split; [done|]. intros Hg%Hmf. done.
  - intros g ->%list_elem_of_singleton Hgt. by destruct (Hmt f (free_nonneg m f Hf) Hgt) as [Hg|[Hg _]].
  - intros [|i] q g Hq Hg x Hx; simplify_eq/=. by apply Hin.
  - intros ws g Hz ->%list_elem_of_singleton. rewrite Hmr by (done || by apply (free_nonneg m)). by apply Hz1.
  - intros x Hx. rewrite Hout, Htr1; [done|]. intros Heq. apply Hx. rewrite Heq. by left.
  - intros g H0g Hg Hgt. rewrite Hmr; [|done|rewrite Hfree; tauto|done]. apply Hr1. intros ->. done.
  - intros g H0g Hgt. destruct (Hmt g H0g Hgt) as [Hg|[Hg _]]; [by left|]. apply Hfree in Hg as [Hg _]. by right.
  - intros g Hg%Hmf%Hfree. tauto.
  - simpl. lia.
  - congruence.
Qed.

Lemma fresh_app fill m m1 m2 pml4 ps qs flags fs gs :
  space_ok W m pml4 -> fresh_pages fill m m1 pml4 ps flags fs -> fresh_pages fill m1 m2 pml4 qs flags gs ->
  (forall p, p ∈ ps -> p ∉ qs) -> fresh_pages fill m m2 pml4 (ps ++ qs) flags (fs ++ gs).
Proof.
  intros [_ Hst] [O1 N1 T1 D1 L1 P1 Z1 X1 R1 B1 M1 C1 K1] [O2 N2 T2 D2 L2 P2 Z2 X2 R2 B2 M2 C2 K2] Hdis.
  assert (forall f, f ∈ fs -> ~ free m1 f /\ f ∉ tables m2 pml4) as Hfs.
  { intros f Hf. destruct (T1 f Hf) as [Hff Hn]. split; [done|]. intros Ht.
    destruct (B2 f (free_nonneg m f Hff) Ht) as [Ht'|Ht']; [by apply (D1 f Hf)|done]. }
  split.
  - done.
  - apply NoDup_app. split_and!; [done| |done]. intros f Hf Hg. destruct (Hfs f Hf) as [Hn _]. by apply Hn, T2.
  - intros f [Hf|Hf]%elem_of_app.
    + split; [by apply T1|]. intros Hm%M2. by destruct (Hfs f Hf) as [Hn _].
    + destruct (T2 f Hf) as [Hf1 Hf2]. split; [by apply M1|done].
  - intros f [Hf|Hf]%elem_of_app; [by apply Hfs|by apply D2].
  - rewrite !length_app. lia.
  - intros i page f Hp Hf x Hx. apply lookup_app_Some in Hp as [Hp|[Hge Hp]].
    + rewrite lookup_app_l in Hf by (rewrite L1; by eapply lookup_lt_Some).
      rewrite X2; [by eapply P1|]. rewrite Hx. apply Hdis. by eapply list_elem_of_lookup_2.
    + rewrite lookup_app_r in Hf by lia. rewrite L1 in Hf. by eapply P2.
  - intros ws f Hc [Hf|Hf]%elem_of_app; [|by apply Z2]. destruct (T1 f Hf) as [Hff _].
    rewrite R2; [by apply Z1|by apply (free_nonneg m)|by apply Hfs|by apply D1].
  - intros x [Hx1 Hx2]%not_elem_of_app. by rewrite X2, X1.
  - intros f H0f Hf Ht. rewrite R2; [by apply R1|done| |].
    + intros Hf'%M1. done.
    + intros Ht'. by destruct (B1 f H0f Ht').
  - intros f H0f Hft. destruct (B2 f H0f Hft) as [Ht|Ht]; [by apply B1|]. right. by apply M1.
  - auto.
  - rewrite length_app. lia.
  - congruence.
Qed.

(** Pages that can be mapped into the space: distinct, unmapped, and four free
    frames for each. *)
Record roomy m (pml4 : Z) pages : Prop := {
  ro_ok : space_ok W m pml4;
  ro_pml4 : 0 <= pml4;
  ro_nodup : NoDup pages;
  ro_aligned : Forall (fun p => p mod 4096 = 0) pages;
  ro_unmapped : Forall (fun p => translate m pml4 p = NotMapped) pages;
  ro_free : (4 * length pages <= Phys.free_frame_count (frames m))%nat;
}.

Lemma roomy_app fill m pml4 ps qs :
  roomy m pml4 (ps ++ qs) ->
  roomy m pml4 ps /\ forall m1 flags fs, fresh_pages fill m m1 pml4 ps flags fs -> roomy m1 pml4 qs.
Proof.
  intros [Hok H0p Hn Ha Hu Hf]. apply NoDup_app in Hn as (Hn1 & Hd & Hn2). apply Forall_app in Ha as [Ha1 Ha2].
  apply Forall_app in Hu as [Hu1 Hu2]. rewrite length_app in Hf. split; [split; try done; lia|].
  intros m1 flags fs Hm. pose proof (fr_count _ _ _ _ _ _ _ Hm). split; try done; [apply Hm| |lia].
  apply Forall_forall. intros q Hq. rewrite (fr_others _ _ _ _ _ _ _ Hm).
  - by apply (proj1 (Forall_forall _ _) Hu2).
  - rewrite page_of_aligned by (apply (proj1 (Forall_forall _ _) Ha2); done). intros Hp. by apply (Hd q).
Qed.

Lemma map_pages_fresh m pml4 pages flags :
  roomy m pml4 pages ->
  exists m' fs, Elf.map_pages W m pml4 pages flags = Ret (m', Ok tt) /\ fresh_pages (Some (replicate 512 0)) m m' pml4 pages flags fs.
Proof.
  revert m. induction pages as [|p pages IH]; intros m Hr; cbn [Elf.map_pages].
  { exists m, []. split; [done|]. apply fresh_nil, Hr. }
  pose proof (ro_aligned _ _ _ Hr) as [Ha _]%Forall_cons. pose proof (ro_unmapped _ _ _ Hr) as [Hu _]%Forall_cons.
  pose proof (ro_nodup _ _ _ Hr) as [Hp _]%NoDup_cons. pose proof (ro_free _ _ _ Hr) as Hf. cbn [length] in Hf.
  destruct (fresh_one (Some (replicate 512 0)) m pml4 p flags (ro_ok _ _ _ Hr) (ro_pml4 _ _ _ Hr) Ha Hu ltac:(lia)) as (a & f & Hal & m1 & Hm1 & Hfr).
  cbn [from_option] in Hm1. rewrite Hal. cbn iota beta. rewrite Hm1. destruct (roomy_app (Some (replicate 512 0)) m pml4 [p] pages Hr) as [_ Hnext].
  destruct (IH m1 (Hnext _ _ _ Hfr)) as (m' & fs & Hrun & Hfs). exists m', (f :: fs). split; [done|].
  apply (fresh_app (Some (replicate 512 0)) m m1 m' pml4 [p] pages flags [f] fs); [apply Hr|done|done|set_solver].
Qed.

Definition STACK_FLAGS : Z := Z.lor PRESENT (Z.lor WRITABLE (Z.lor USER_ACCESSIBLE NO_EXECUTE)).

Lemma map_stack_fresh m pml4 pages :
  roomy m pml4 pages ->
  exists m' fs, Elf.map_stack W m pml4 pages = Ret (m', Ok tt) /\ fresh_pages None m m' pml4 pages STACK_FLAGS fs.
Proof.
  revert m. induction pages as [|p pages IH]; intros m Hr; cbn [Elf.map_stack].
  { exists m, []. split; [done|]. apply fresh_nil, Hr. }
  pose proof (ro_aligned _ _ _ Hr) as [Ha _]%Forall_cons. pose proof (ro_unmapped _ _ _ Hr) as [Hu _]%Forall_cons.
  pose proof (ro_nodup _ _ _ Hr) as [Hp _]%NoDup_cons. pose proof (ro_free _ _ _ Hr) as Hf. cbn [length] in Hf.
  destruct (fresh_one None m pml4 p STACK_FLAGS (ro_ok _ _ _ Hr) (ro_pml4 _ _ _ Hr) Ha Hu ltac:(lia)) as (a & f & Hal & m1 & Hm1 & Hfr).
  cbn [from_option] in Hm1. rewrite Hal. cbn iota beta. unfold Virt.address_space_map, Virt.map_in. cbn [pml4_frame]. fold STACK_FLAGS.
  rewrite Hm1. destruct (roomy_app None m pml4 [p] pages Hr) as [_ Hnext].
  destruct (IH m1 (Hnext _ _ _ Hfr)) as (m' & fs & Hrun & Hfs). exists m', (f :: fs). split; [done|].
  apply (fresh_app None m m1 m' pml4 [p] pages STACK_FLAGS [f] fs); [apply Hr|done|done|set_solver].
Qed.
(** ** Copying the file's bytes *)

(** The pages of a space that hold data: each mapped to a frame of its own. *)
Record data_pages m (pml4 : Z) pages : Prop := {
  dp_ok : buffer_ok m pml4 pages;
  dp_mapped : forall p, p ∈ pages -> exists f fl, translate m pml4 p = Mapped f 0 fl;
}.

(** [m'] is [m] with the bytes [bs] at [v]. *)
Record written m m' (pml4 : Z) pages (v : Z) (bs : list Z) : Prop := {
  wr_byte : forall a, page_of a ∈ pages ->
    user_byte m' pml4 a = if decide (v <= a < v + Z.of_nat (length bs)) then bs !! Z.to_nat (a - v) else user_byte m pml4 a;
  wr_walk : forall a, translate m' pml4 a = translate m pml4 a;
  wr_tables : tables m' pml4 = tables m pml4;
  wr_ram : forall f, (forall p, p ∈ pages -> ~ page_frame m pml4 p f) -> ram m' !! f = ram m !! f;
  wr_frames : frames m' = frames m /\ kernel_pml4 m' = kernel_pml4 m;
  wr_data : data_pages m' pml4 pages;
}.

Lemma translate_store m pml4 f off bs a :
  f ∉ tables m pml4 -> translate (store_bytes m f off bs) pml4 a = translate m pml4 a.
Proof. intros Hf. apply walk_tables. intros g Hg. apply store_ram_ne. by intros ->. Qed.

Lemma mapped_page_frame m pml4 p f fl : translate m pml4 p = Mapped f 0 fl -> page_frame m pml4 p f.
Proof. intros Ht. exists fl. unfold Virt.translate_in. rewrite Ht. by rewrite Z.add_0_r. Qed.

Lemma page_frame_inj m pml4 p f g : page_frame m pml4 p f -> page_frame m pml4 p g -> f = g.
Proof. intros [? Hf] [? Hg]. congruence. Qed.

(** One chunk inside a page. *)
Lemma store_written m pml4 pages p f fl (off : nat) bs :
  data_pages m pml4 pages -> p ∈ pages -> page_of p = p -> translate m pml4 p = Mapped f 0 fl ->
  (off + length bs <= 4096)%nat -> is_bytes bs ->
  written m (store_bytes m f off bs) pml4 pages (p + Z.of_nat off) bs.
Proof.
  intros [Hok Hmap] Hp Hpp Ht Hlen Hb. pose proof (mapped_page_frame _ _ _ _ _ Ht) as Hpf.
  pose proof (bo_data _ _ _ Hok p f Hp Hpf) as Hft. pose proof (bo_full _ _ _ Hok p f Hp Hpf) as Hfull.
  pose proof (fun a => translate_store m pml4 f off bs a Hft) as Hwalk. split.
  - intros a Ha. unfold user_byte. rewrite store_translate by done. pose proof (page_of_bounds a) as Hab.
    destruct (Hmap _ Ha) as (g & gl & Hg). unfold Virt.translate_in. rewrite Hg, Z.add_0_r.
    destruct (decide (g = f)) as [->|Hne].
    + assert (page_of a = p) as Hap by (by eapply (bo_once _ _ _ Hok); eauto using mapped_page_frame).
      rewrite store_frame_bytes by done. rewrite Hap in *. pose proof (length_frame_bytes _ _ Hfull) as Hlf.
      case_decide as Hd.
      * replace (Z.to_nat (a - p)) with (off + Z.to_nat (a - (p + Z.of_nat off)))%nat by lia.
        destruct (lookup_lt_is_Some_2 bs (Z.to_nat (a - (p + Z.of_nat off)))) as [b Hbb]; [lia|].
        rewrite Hbb. apply patch_in; [lia|done].
      * apply patch_out; lia.
    + rewrite decide_False; [unfold frame_bytes, frame_words; by rewrite store_ram_ne|].
      intros Hd. apply Hne. assert (page_of a = p) as Hap.
      { rewrite <- Hpp in Hd. pose proof (page_of_bounds p). unfold page_of, PAGE in *. lia. }
      rewrite Hap, Ht in Hg. congruence.
  - done.
  - by apply store_tables.
  - intros g Hg. apply store_ram_ne. intros ->. by apply (Hg p).
  - done.
  - split; [by apply store_buffer_ok|]. intros q Hq. rewrite Hwalk. by apply Hmap.
Qed.

Lemma written_app m m1 m2 pml4 pages v bs cs :
  written m m1 pml4 pages v bs -> written m1 m2 pml4 pages (v + Z.of_nat (length bs)) cs ->
  written m m2 pml4 pages v (bs ++ cs).
Proof.
  intros [B1 W1 T1 R1 [F1 K1] D1] [B2 W2 T2 R2 [F2 K2] D2]. split.
  - intros a Ha. rewrite B2, B1 by done. rewrite length_app. repeat case_decide; try lia.
    + rewrite lookup_app_r by lia. f_equal. lia.
    + by rewrite lookup_app_l by lia.
    + done.
  - intros a. by rewrite W2, W1.
  - congruence.
  - intros f Hf. rewrite R2, R1; [done|done|]. intros p Hp [fl Hpf]. apply (Hf p Hp). exists fl.
    unfold Virt.translate_in in *. by rewrite W1 in Hpf.
  - split; congruence.
  - done.
Qed.

Lemma written_nil m pml4 pages v : data_pages m pml4 pages -> written m m pml4 pages v [].
Proof. intros Hd. split; try done. intros a _. by rewrite decide_False by (simpl; lia). Qed.

Lemma copy_loop_written fuel m pml4 pages v bs :
  data_pages m pml4 pages -> is_bytes bs -> (length bs <= fuel)%nat -> 0 <= v ->
  (forall a, v <= a < v + Z.of_nat (length bs) -> page_of a ∈ pages) ->
  exists m', Elf.copy_loop fuel m pml4 bs v = Ret m' /\ written m m' pml4 pages v bs.
Proof.
  revert m v bs. induction fuel as [|fuel IH]; intros m v bs Hd Hb Hl Hv Hin.
  { destruct bs; [|simpl in Hl; lia]. exists m. split; [done|by apply written_nil]. }
  destruct bs as [|b bs]; [exists m; split; [done|by apply written_nil]|]. cbn [Elf.copy_loop].
  set (all := b :: bs) in *. assert (0 < length all)%nat as Hpos by (simpl; lia). clearbody all.
  pose proof (page_of_bounds v) as Hpb. assert (page_of v ∈ pages) as Hp by (apply Hin; lia).
  destruct (dp_mapped _ _ _ Hd _ Hp) as (f & fl & Ht). unfold Elf.translate_page. rewrite Ht.
  set (off := Z.to_nat (v - page_of v)). set (n := (length all `min` (Z.to_nat PAGE - off))%nat).
  assert (1 <= n)%nat as Hn by (unfold n, off, PAGE; lia).
  assert (length (take n all) = n) as Hln by (rewrite length_take; unfold n; lia).
  assert (page_of (page_of v) = page_of v) as Hpp by (unfold page_of, PAGE; by rewrite Z.div_mul by lia).
  assert (written m (store_bytes m f off (take n all)) pml4 pages v (take n all)) as Hw.
  { replace v with (page_of v + Z.of_nat off) at 1 by (unfold off; lia).
    eapply store_written; [done|done|done|exact Ht| |by apply Forall_take]. rewrite Hln. unfold n, off, PAGE. lia. }
  destruct (IH (store_bytes m f off (take n all)) (v + Z.of_nat n) (drop n all)) as (m' & Hrun & Hw').
  - apply Hw.
  - by apply Forall_drop.
  - rewrite length_drop. lia.
  - lia.
  - intros a Ha. rewrite length_drop in Ha. apply Hin. lia.
  - exists m'. split; [exact Hrun|]. rewrite <- (take_drop n all). eapply written_app; [exact Hw|].
    by rewrite Hln.
Qed.
(** ** Segments *)
Definition seg_pages (ph : ProgramHeader) : list Z := Elf.page_range (p_vaddr ph) (p_vaddr ph + p_memsz ph - 1).
Definition image_pages (phs : list ProgramHeader) : list Z := phs ≫= seg_pages.

(** What the image says of the byte at an address of the segment's pages. *)
Definition seg_byte (data : list Z) (ph : ProgramHeader) (a : Z) : Z :=
  if decide (p_vaddr ph <= a < p_vaddr ph + p_filesz ph) then nth (Z.to_nat (p_offset ph + (a - p_vaddr ph))) data 0 else 0.

(** What [load_segment] checks of a header. *)
Record seg_ok (data : list Z) (ph : ProgramHeader) : Prop := {
  so_low : USER_SPACE_MIN <= p_vaddr ph;
  so_high : p_vaddr ph + p_memsz ph <= USER_SPACE_MAX;
  so_size : 0 <= p_filesz ph <= p_memsz ph;
  so_memsz : 0 < p_memsz ph;
  so_offset : 0 <= p_offset ph;
  so_file : p_offset ph + p_filesz ph <= Z.of_nat (length data);
  so_length : Z.of_nat (length data) < 2 ^ 64;
}.

Lemma page_of_page x : page_of (page_of x) = page_of x.
Proof. unfold page_of, PAGE. by rewrite Z.div_mul by lia. Qed.

Lemma elem_of_page_range p a b :
  a <= b -> p ∈ Elf.page_range a b <-> page_of p = p /\ page_of a <= p <= page_of b.
Proof.
  intros Hab. unfold Elf.page_range. rewrite list_elem_of_fmap. setoid_rewrite elem_of_seq. unfold page_of, PAGE. split.
  - intros (i & -> & Hi). div_lia.
  - intros [Hp Hb]. exists (Z.to_nat ((p - a / 4096 * 4096) / 4096)). split; div_lia.
Qed.

Lemma NoDup_page_range a b : NoDup (Elf.page_range a b).
Proof. apply NoDup_fmap_2_strong; [|apply NoDup_seq]. unfold PAGE. intros. lia. Qed.

Lemma seg_pages_in data ph a :
  seg_ok data ph -> p_vaddr ph <= a < p_vaddr ph + p_memsz ph -> page_of a ∈ seg_pages ph.
Proof.
  intros Hs Ha. apply elem_of_page_range; [destruct Hs; lia|]. split; [apply page_of_page|].
  unfold page_of, PAGE. div_lia.
Qed.

(** Bytes of a page that was just cleared. *)
Lemma clear_byte m f off : (off < 4096)%nat -> ram m !! f = Some (replicate 512 0) -> frame_bytes (ram m) f !! off = Some 0.
Proof.
  intros Ho Hf. unfold frame_bytes, frame_words. rewrite Hf. cbn [default from_option id].
  assert (forall n, replicate n 0 ≫= le_bytes 8 = replicate (8 * n) 0) as Hr.
  { induction n as [|n IH]; [done|]. cbn [replicate]. rewrite bind_cons, IH.
    replace (8 * S n)%nat with (8 + 8 * n)%nat by lia. by rewrite replicate_add. }
  rewrite Hr. by apply lookup_replicate_2.
Qed.

(** The space [pml4] with the segments [phs] of the image loaded since [m0]. *)
Record loaded (data : list Z) m0 m (pml4 : Z) (phs : list ProgramHeader) : Prop := {
  ld_ok : space_ok W m pml4;
  ld_data : data_pages m pml4 (image_pages phs);
  ld_byte : forall ph a, ph ∈ phs -> page_of a ∈ seg_pages ph -> user_byte m pml4 a = Some (seg_byte data ph a);
  ld_flags : forall ph p, ph ∈ phs -> p ∈ seg_pages ph ->
    exists f, translate m pml4 p = Mapped f 0 (Elf.segment_flags (p_flags ph));
  ld_others : forall x, page_of x ∉ image_pages phs -> translate m pml4 x = translate m0 pml4 x;
  ld_fresh : forall p f, p ∈ image_pages phs -> page_frame m pml4 p f -> free m0 f /\ ~ free m f;
  ld_ram : forall f, 0 <= f -> ~ free m0 f -> f ∉ tables m0 pml4 -> ram m !! f = ram m0 !! f;
  ld_tables : forall f, 0 <= f -> f ∈ tables m pml4 -> f ∈ tables m0 pml4 \/ free m0 f;
  ld_mono : forall f, free m f -> free m0 f;
  ld_count : (Phys.free_frame_count (frames m0) <= Phys.free_frame_count (frames m) + 4 * length (image_pages phs))%nat;
  ld_pml4 : kernel_pml4 m = kernel_pml4 m0;
}.

Lemma loaded_nil data m pml4 : space_ok W m pml4 -> loaded data m m pml4 [].
Proof.
  intros Hok. split; try done; try (intros; exfalso; by eapply not_elem_of_nil); try lia.
  - split; [split|]; intros; exfalso; by eapply not_elem_of_nil.
  - intros f Hf. by left.
Qed.
(** Mapping fresh pages beside data pages that are there already. *)
Lemma fresh_frames m m1 pml4 old new flags fs :
  fresh_pages (Some (replicate 512 0)) m m1 pml4 new flags fs -> (forall p, p ∈ old -> p ∉ new) ->
  Forall (fun p => page_of p = p) (old ++ new) ->
  forall p f, p ∈ old ++ new -> page_frame m1 pml4 p f -> (p ∈ old /\ page_frame m pml4 p f) \/
    exists i, new !! i = Some p /\ fs !! i = Some f.
Proof.
  intros Hfr Hdis Hal p f Hp [fl Hpf]. pose proof (proj1 (Forall_forall _ _) Hal p Hp) as Hpp. simpl in Hpp.
  unfold Virt.translate_in in Hpf. apply elem_of_app in Hp as [Hp|Hp].
  - left. split; [done|]. exists fl. unfold Virt.translate_in.
    rewrite (fr_others _ _ _ _ _ _ _ Hfr) in Hpf; [done|]. rewrite Hpp. by apply Hdis.
  - right. apply list_elem_of_lookup_1 in Hp as [i Hi]. exists i. split; [done|].
    destruct (lookup_lt_is_Some_2 fs i) as [g Hg].
    { rewrite (fr_length _ _ _ _ _ _ _ Hfr). by eapply lookup_lt_Some. }
    rewrite (fr_pages _ _ _ _ _ _ _ Hfr i p g Hi Hg p Hpp) in Hpf. rewrite Hg. f_equal. simplify_eq. lia.
Qed.

Lemma fresh_data m m1 pml4 old new flags fs :
  data_pages m pml4 old -> (forall p f, p ∈ old -> page_frame m pml4 p f -> 0 <= f /\ ~ free m f) ->
  fresh_pages (Some (replicate 512 0)) m m1 pml4 new flags fs -> NoDup new -> (forall p, p ∈ old -> p ∉ new) ->
  Forall (fun p => page_of p = p) (old ++ new) ->
  data_pages m1 pml4 (old ++ new) /\
  (forall a, page_of a ∈ old -> user_byte m1 pml4 a = user_byte m pml4 a) /\
  (forall a, page_of a ∈ new -> user_byte m1 pml4 a = Some 0).
Proof.
  intros [[Hfull Hdata Honce] Hmap] Hused Hfr Hnn Hdis Hal.
  pose proof (fresh_frames m m1 pml4 old new flags fs Hfr Hdis Hal) as Hff.
  assert (forall p f, p ∈ old -> page_frame m pml4 p f -> ram m1 !! f = ram m !! f /\ f ∉ tables m1 pml4 /\ f ∉ fs) as Hold.
  { intros p f Hp Hpf. destruct (Hused p f Hp Hpf) as [H0f Hnf]. split_and!.
    - apply (fr_ram _ _ _ _ _ _ _ Hfr); [done|done|by eapply Hdata].
    - intros Hft. destruct (fr_tables _ _ _ _ _ _ _ Hfr f H0f Hft) as [Ht|Ht]; [by apply (Hdata p f)|done].
    - intros [Hf _]%(fr_took _ _ _ _ _ _ _ Hfr). done. }
  assert (forall p, p ∈ old -> translate m1 pml4 p = translate m pml4 p) as Htr.
  { intros p Hp. apply (fr_others _ _ _ _ _ _ _ Hfr).
    rewrite (proj1 (Forall_forall _ _) Hal p) by (apply elem_of_app; by left). by apply Hdis. }
  split_and!.
  - split; [split|].
    + intros p f Hp [[Ho Hpf]|(i & Hi & Hf)]%Hff; [|by apply list_elem_of_lookup_2 in Hf; unfold frame_words;
        rewrite (fr_fill _ _ _ _ _ _ _ Hfr (replicate 512 0))|done].
      unfold frame_words. rewrite (proj1 (Hold p f Ho Hpf)). by apply (Hfull p).
    + intros p f Hp [[Ho Hpf]|(i & Hi & Hf)]%Hff; [by eapply Hold| |done].
      apply (fr_data _ _ _ _ _ _ _ Hfr). by eapply list_elem_of_lookup_2.
    + intros p q f Hp Hq [[Ho Hpf]|(i & Hi & Hf)]%Hff [[Ho' Hqf]|(j & Hj & Hg)]%Hff; try done.
      * by eapply Honce.
      * destruct (Hold p f Ho Hpf) as (_ & _ & []). by eapply list_elem_of_lookup_2.
      * destruct (Hold q f Ho' Hqf) as (_ & _ & []). by eapply list_elem_of_lookup_2.
      * assert (i = j) as -> by (eapply NoDup_lookup; [apply (fr_nodup _ _ _ _ _ _ _ Hfr)|done|done]). congruence.
    + intros p [Hp|Hp]%elem_of_app; [rewrite Htr by done; by apply Hmap|].
      pose proof (proj1 (Forall_forall _ _) Hal p ltac:(apply elem_of_app; by right)) as Hpp. simpl in Hpp.
      apply list_elem_of_lookup_1 in Hp as [i Hi]. destruct (lookup_lt_is_Some_2 fs i) as [g Hg].
      { rewrite (fr_length _ _ _ _ _ _ _ Hfr). by eapply lookup_lt_Some. }
      exists g, flags. rewrite (fr_pages _ _ _ _ _ _ _ Hfr i p g Hi Hg p Hpp). f_equal. lia.
  - intros a Ha. unfold user_byte, Virt.translate_in. rewrite Htr by done.
    destruct (Hmap _ Ha) as (f & fl & Hf). rewrite Hf, Z.add_0_r. unfold frame_bytes, frame_words.
    by rewrite (proj1 (Hold _ f Ha (mapped_page_frame _ _ _ _ _ Hf))).
  - intros a Ha. apply list_elem_of_lookup_1 in Ha as [i Hi]. destruct (lookup_lt_is_Some_2 fs i) as [g Hg].
    { rewrite (fr_length _ _ _ _ _ _ _ Hfr). by eapply lookup_lt_Some. }
    unfold user_byte, Virt.translate_in. rewrite (fr_pages _ _ _ _ _ _ _ Hfr i _ g Hi Hg _ (page_of_page a)).
    rewrite Z.sub_diag, Z.add_0_r. pose proof (page_of_bounds a). apply clear_byte; [lia|].
    apply (fr_fill _ _ _ _ _ _ _ Hfr); [done|]. by eapply list_elem_of_lookup_2.
Qed.
Lemma image_pages_snoc phs ph : image_pages (phs ++ [ph]) = image_pages phs ++ seg_pages ph.
Proof. unfold image_pages. rewrite bind_app. cbn. by rewrite app_nil_r. Qed.

Lemma image_pages_aligned data phs p : Forall (seg_ok data) phs -> p ∈ image_pages phs -> page_of p = p.
Proof.
  intros Hok (ph & Hp & Hph)%list_elem_of_bind. apply (proj1 (Forall_forall _ _) Hok) in Hph.
  apply elem_of_page_range in Hp; [tauto|]. destruct Hph. lia.
Qed.

(** The file's bytes of a segment. *)
Definition seg_file (data : list Z) (ph : ProgramHeader) : list Z :=
  take (Z.to_nat (p_filesz ph)) (drop (Z.to_nat (p_offset ph)) data).

Lemma length_seg_file data ph : seg_ok data ph -> Z.of_nat (length (seg_file data ph)) = p_filesz ph.
Proof. intros []. unfold seg_file. rewrite length_take, length_drop. lia. Qed.

Lemma seg_file_byte data ph a :
  seg_ok data ph -> p_vaddr ph <= a < p_vaddr ph + p_filesz ph ->
  seg_file data ph !! Z.to_nat (a - p_vaddr ph) = Some (seg_byte data ph a).
Proof.
  intros [] Ha. unfold seg_file, seg_byte. rewrite decide_True by done. rewrite lookup_take_lt by lia.
  rewrite lookup_drop. rewrite Z2Nat.inj_add by lia.
  destruct (lookup_lt_is_Some_2 data (Z.to_nat (p_offset ph) + Z.to_nat (a - p_vaddr ph))) as [b Hb]; [lia|].
  rewrite Hb. f_equal. symmetry. by apply nth_lookup_Some.
Qed.

(** The checks and the arithmetic of [load_segment] for a good segment. *)
Lemma load_segment_unfold data m pml4 ph :
  seg_ok data ph ->
  Elf.load_segment W m pml4 ph data =
  let! '(m, r) := Elf.map_pages W m pml4 (seg_pages ph) (Elf.segment_flags (p_flags ph)) in
  match r with
  | Err e => Ret (m, Err e)
  | Ok _ => let! m := Elf.copy_loop (length (seg_file data ph)) m pml4 (seg_file data ph) (p_vaddr ph) in Ret (m, Ok tt)
  end.
Proof.
  intros [Hlow Hhigh Hsize Hmem Hoff Hfile Hlen]. unfold USER_SPACE_MIN, USER_SPACE_MAX, USER_HEAP_START in *.
  unfold Elf.load_segment. rewrite (proj2 (checked_add64_Some (p_vaddr ph) (p_memsz ph) (p_vaddr ph + p_memsz ph))) by lia.
  rewrite decide_False by (unfold USER_SPACE_MIN, USER_SPACE_MAX, USER_HEAP_START; lia). rewrite decide_False by lia.
  rewrite (proj2 (checked_add64_Some (p_offset ph) (p_filesz ph) (p_offset ph + p_filesz ph))) by lia.
  rewrite decide_False by lia.
  unfold Elf.new_virt_addr. rewrite !lower_half by lia. cbn iota beta.
  change (Elf.page_range (p_vaddr ph) (p_vaddr ph + p_memsz ph - 1)) with (seg_pages ph).
  destruct (Elf.map_pages W m pml4 (seg_pages ph) _) as [[m1 [[]|e]]|w]; [|done|done]. cbn iota beta.
  unfold slice. by rewrite decide_True by lia.
Qed.
Section segments.
Context (data : list Z) (Hbytes : is_bytes data) (m0 : Mem) (pml4 : Z) (Hpml4 : 0 <= pml4).

(** The pages of the next segment can be mapped. *)
Lemma loaded_roomy m phs ph :
  loaded data m0 m pml4 phs -> Forall (seg_ok data) (phs ++ [ph]) -> NoDup (image_pages (phs ++ [ph])) ->
  (forall p, p ∈ seg_pages ph -> translate m0 pml4 p = NotMapped) ->
  (4 * length (image_pages (phs ++ [ph])) <= Phys.free_frame_count (frames m0))%nat ->
  roomy m pml4 (seg_pages ph) /\ (forall p, p ∈ image_pages phs -> p ∉ seg_pages ph) /\
  Forall (fun p => page_of p = p) (image_pages phs ++ seg_pages ph).
Proof.
  intros Hl Hok Hn Hun Hfree. rewrite image_pages_snoc in *. pose proof Hn as (_ & Hdis & Hns)%NoDup_app.
  assert (Forall (fun p => page_of p = p) (image_pages phs ++ seg_pages ph)) as Hal.
  { apply Forall_forall. intros p Hp. rewrite <- image_pages_snoc in Hp. by eapply image_pages_aligned. }
  split_and!; [|done|done]. split.
  - apply Hl.
  - done.
  - done.
  - apply Forall_app in Hal as [_ Hal]. eapply Forall_impl; [exact Hal|]. intros p Hp. simpl in *.
    rewrite page_of_sub in Hp. lia.
  - apply Forall_forall. intros p Hp. rewrite (ld_others _ _ _ _ _ Hl); [by apply Hun|].
    apply Forall_app in Hal as [_ Hal]. rewrite (proj1 (Forall_forall _ _) Hal p Hp). intros Ho. by apply (Hdis p).
  - pose proof (ld_count _ _ _ _ _ Hl). rewrite length_app in Hfree. lia.
Qed.

(** Putting the two steps together. *)
Lemma loaded_extend m m1 m' phs ph fs :
  loaded data m0 m pml4 phs -> seg_ok data ph -> (forall p, p ∈ image_pages phs -> p ∉ seg_pages ph) ->
  Forall (fun p => page_of p = p) (image_pages phs ++ seg_pages ph) ->
  fresh_pages (Some (replicate 512 0)) m m1 pml4 (seg_pages ph) (Elf.segment_flags (p_flags ph)) fs ->
  (forall a, page_of a ∈ image_pages phs -> user_byte m1 pml4 a = user_byte m pml4 a) ->
  (forall a, page_of a ∈ seg_pages ph -> user_byte m1 pml4 a = Some 0) ->
  written m1 m' pml4 (image_pages phs ++ seg_pages ph) (p_vaddr ph) (seg_file data ph) ->
  loaded data m0 m' pml4 (phs ++ [ph]).
Proof.
  intros Hl Hph Hdis Hal Hfr Hkeep Hzero Hw. pose proof (wr_frames _ _ _ _ _ _ Hw) as [Hfe Hke].
  pose proof (length_seg_file _ _ Hph) as Hlen. pose proof (wr_walk _ _ _ _ _ _ Hw) as Hwalk.
  assert (forall q a, q ∈ phs -> page_of a ∈ seg_pages q -> page_of a ∈ image_pages phs) as Hinq.
  { intros q a Hq Ha. apply list_elem_of_bind. by exists q. }
  split; rewrite ?image_pages_snoc.
  - destruct (fr_ok _ _ _ _ _ _ _ Hfr) as [Hwf Hst]. split; [by rewrite Hfe|].
    rewrite (wr_tables _ _ _ _ _ _ Hw), Hfe. exact Hst.
  - apply Hw.
  - intros q a [Hq|Hq%list_elem_of_singleton]%elem_of_app Ha; [|subst q].
    + pose proof (Hinq q a Hq Ha) as Hia. rewrite (wr_byte _ _ _ _ _ _ Hw) by (apply elem_of_app; by left).
      rewrite decide_False; [rewrite Hkeep by done; by apply (ld_byte _ _ _ _ _ Hl)|].
      intros Hin. apply (Hdis _ Hia), (seg_pages_in data); [done|]. destruct (so_size _ _ Hph). lia.
    + rewrite (wr_byte _ _ _ _ _ _ Hw) by (apply elem_of_app; by right). rewrite Hlen. case_decide as Hd.
      * by apply seg_file_byte.
      * rewrite Hzero by done. unfold seg_byte. by rewrite decide_False.
  - intros q p [Hq|Hq%list_elem_of_singleton]%elem_of_app Hp; rewrite Hwalk; [|subst q].
    + assert (p ∈ image_pages phs) as Hip by (apply list_elem_of_bind; by exists q).
      rewrite (fr_others _ _ _ _ _ _ _ Hfr); [by apply (ld_flags _ _ _ _ _ Hl q)|].
      rewrite (proj1 (Forall_forall _ _) Hal p) by (apply elem_of_app; by left). by apply Hdis.
    + pose proof (proj1 (Forall_forall _ _) Hal p ltac:(apply elem_of_app; by right)) as Hpp. simpl in Hpp.
      apply list_elem_of_lookup_1 in Hp as [i Hi]. destruct (lookup_lt_is_Some_2 fs i) as [g Hg].
      { rewrite (fr_length _ _ _ _ _ _ _ Hfr). by eapply lookup_lt_Some. }
      exists g. rewrite (fr_pages _ _ _ _ _ _ _ Hfr i p g Hi Hg p Hpp). f_equal. lia.
  - intros x [Hx1 Hx2]%not_elem_of_app. rewrite Hwalk, (fr_others _ _ _ _ _ _ _ Hfr) by done. by apply (ld_others _ _ _ _ _ Hl).
  - intros p f Hp [fl Hpf]. assert (page_frame m1 pml4 p f) as Hpf1.
    { exists fl. unfold Virt.translate_in in *. by rewrite Hwalk in Hpf. }
    rewrite Hfe. destruct (fresh_frames _ _ _ _ _ _ _ Hfr Hdis Hal p f Hp Hpf1) as [[Ho Hpo]|(i & _ & Hg)].
    + destruct (ld_fresh _ _ _ _ _ Hl p f Ho Hpo) as [? Hn]. split; [done|]. intros Hf%(fr_mono _ _ _ _ _ _ _ Hfr). done.
    + apply list_elem_of_lookup_2 in Hg. destruct (fr_took _ _ _ _ _ _ _ Hfr f Hg) as [Hf Hf']. split; [|done].
      by apply (ld_mono _ _ _ _ _ Hl).
  - intros f H0f Hf Ht. assert (~ free m f) as Hfm by (by intros ?%(ld_mono _ _ _ _ _ Hl)).
    assert (f ∉ tables m pml4) as Htm by (intros Hft; by destruct (ld_tables _ _ _ _ _ Hl f H0f Hft)).
    rewrite (wr_ram _ _ _ _ _ _ Hw), (fr_ram _ _ _ _ _ _ _ Hfr), (ld_ram _ _ _ _ _ Hl); [done..|].
    intros p Hp Hpf. destruct (fresh_frames _ _ _ _ _ _ _ Hfr Hdis Hal p f Hp Hpf) as [[Ho Hpo]|(i & _ & Hg)].
    + by destruct (ld_fresh _ _ _ _ _ Hl p f Ho Hpo).
    + apply list_elem_of_lookup_2 in Hg. by destruct (fr_took _ _ _ _ _ _ _ Hfr f Hg).
  - intros f H0f. rewrite (wr_tables _ _ _ _ _ _ Hw). intros Hft.
    destruct (fr_tables _ _ _ _ _ _ _ Hfr f H0f Hft) as [Ht|Ht].
    + by apply (ld_tables _ _ _ _ _ Hl).
    + right. by apply (ld_mono _ _ _ _ _ Hl).
  - intros f. rewrite Hfe. intros Hf%(fr_mono _ _ _ _ _ _ _ Hfr). by apply (ld_mono _ _ _ _ _ Hl).
  - rewrite Hfe, length_app. pose proof (fr_count _ _ _ _ _ _ _ Hfr). pose proof (ld_count _ _ _ _ _ Hl). lia.
  - rewrite Hke, (fr_pml4 _ _ _ _ _ _ _ Hfr). apply Hl.
Qed.

Lemma load_segment_loaded m phs ph :
  loaded data m0 m pml4 phs -> Forall (seg_ok data) (phs ++ [ph]) -> NoDup (image_pages (phs ++ [ph])) ->
  (forall p, p ∈ seg_pages ph -> translate m0 pml4 p = NotMapped) ->
  (4 * length (image_pages (phs ++ [ph])) <= Phys.free_frame_count (frames m0))%nat ->
  exists m', Elf.load_segment W m pml4 ph data = Ret (m', Ok tt) /\ loaded data m0 m' pml4 (phs ++ [ph]).
Proof.
  intros Hl Hok Hn Hun Hfree. destruct (loaded_roomy m phs ph Hl Hok Hn Hun Hfree) as (Hroom & Hdis & Hal).
  pose proof Hok as [_ [Hph _]%Forall_cons]%Forall_app.
  rewrite load_segment_unfold by done.
  destruct (map_pages_fresh m pml4 (seg_pages ph) (Elf.segment_flags (p_flags ph)) Hroom) as (m1 & fs & -> & Hfr).
  cbn iota beta.
  destruct (fresh_data m m1 pml4 (image_pages phs) (seg_pages ph) (Elf.segment_flags (p_flags ph)) fs)
    as (Hd1 & Hkeep & Hzero); [apply Hl| |done|apply Hroom|done|done|].
  { intros p f Hp Hpf. destruct (ld_fresh _ _ _ _ _ Hl p f Hp Hpf) as [Hff Hnf]. split; [by apply (free_nonneg m0)|done]. }
  destruct (copy_loop_written (length (seg_file data ph)) m1 pml4 (image_pages phs ++ seg_pages ph) (p_vaddr ph)
    (seg_file data ph)) as (m' & -> & Hw); [done|by apply Forall_take, Forall_drop|done| | |].
  { pose proof (so_low _ _ Hph). unfold USER_SPACE_MIN in *. lia. }
  { intros a Ha. rewrite (length_seg_file _ _ Hph) in Ha. apply elem_of_app. right.
    apply (seg_pages_in data); [done|]. destruct (so_size _ _ Hph). lia. }
  cbn iota beta. exists m'. split; [done|].
  by apply (loaded_extend m m1 m' phs ph fs).
Qed.
(** Headers that describe memory. *)
Definition loadable (ph : ProgramHeader) : Prop := ~ (p_type ph <> PT_LOAD \/ p_memsz ph = 0).
#[local] Instance loadable_dec ph : Decision (loadable ph) := _.
Definition segments (phs : list ProgramHeader) : list ProgramHeader := filter loadable phs.

Lemma load_segments_loaded bases phs : forall m acc,
  Forall2 (fun base ph => read_phdr data base = Ret ph) bases phs ->
  loaded data m0 m pml4 acc -> Forall (seg_ok data) (acc ++ segments phs) ->
  NoDup (image_pages (acc ++ segments phs)) ->
  (forall p, p ∈ image_pages (segments phs) -> translate m0 pml4 p = NotMapped) ->
  (4 * length (image_pages (acc ++ segments phs)) <= Phys.free_frame_count (frames m0))%nat ->
  exists m', Elf.load_segments W m pml4 data bases = Ret (m', Ok tt) /\ loaded data m0 m' pml4 (acc ++ segments phs).
Proof.
  revert phs. induction bases as [|b bases IH]; intros phs m acc Hh Hl Hok Hn Hun Hfree.
  { apply Forall2_nil_inv_l in Hh as ->. exists m. split; [done|]. by rewrite app_nil_r. }
  apply Forall2_cons_inv_l in Hh as (ph & phs' & Hph & Hh & ->). cbn [Elf.load_segments]. rewrite Hph. cbn iota beta.
  unfold segments in *. destruct (decide (loadable ph)) as [Hld|Hld].
  - rewrite filter_cons_True in * by done. rewrite decide_False by done. unfold segments in *.
    rewrite (cons_middle ph), app_assoc in Hok, Hn, Hfree |- *.
    pose proof Hok as [Hok1 _]%Forall_app. unfold image_pages in Hn, Hfree. rewrite bind_app in Hn, Hfree.
    pose proof Hn as [Hn1 _]%NoDup_app. rewrite length_app in Hfree.
    destruct (load_segment_loaded m acc ph Hl Hok1 Hn1) as (m1 & -> & Hl1).
    { intros p Hp. apply Hun. unfold image_pages. rewrite bind_cons. apply elem_of_app. by left. }
    { unfold image_pages. lia. }
    cbn iota beta. apply (IH phs' m1 (acc ++ [ph]) Hh Hl1 Hok).
    + unfold image_pages. by rewrite bind_app.
    + intros p Hp. apply Hun. unfold image_pages. rewrite bind_cons. apply elem_of_app. by right.
    + unfold image_pages. rewrite bind_app, length_app. lia.
  - rewrite filter_cons_False in * by done. unfold loadable in Hld. apply dec_stable in Hld. rewrite decide_True by done. by apply IH.
Qed.
End segments.

(** ** A whole image *)
Record ElfFile := mkElfFile { ef_entry : Z; ef_phoff : Z; ef_phentsize : Z; ef_headers : list ProgramHeader }.

Definition header_bases (e : ElfFile) : list Z :=
  (fun i => ef_phoff e + Z.of_nat i * ef_phentsize e) <$> seq 0 (length (ef_headers e)).

(** [data] is an executable for this machine with the headers of [e], its
    segments lie in the program's part of memory and share no page. *)
Record elf_image (data : list Z) (e : ElfFile) : Prop := {
  ei_bytes : is_bytes data;
  ei_length : (EHDR_SIZE <= length data)%nat;
  ei_magic : take 4 data = [0x7f; 69; 76; 70];
  ei_class : data !! 4%nat = Some ELFCLASS64;
  ei_order : data !! 5%nat = Some ELFDATA2LSB;
  ei_type : read_le data 16 2 = Ret ET_EXEC;
  ei_machine : read_le data 18 2 = Ret EM_X86_64;
  ei_entry : read_le data 24 8 = Ret (ef_entry e);
  ei_phoff : read_le data 32 8 = Ret (ef_phoff e);
  ei_phentsize : read_le data 54 2 = Ret (ef_phentsize e);
  ei_phnum : read_le data 56 2 = Ret (Z.of_nat (length (ef_headers e)));
  ei_entry_low : 0 <= ef_entry e < 2 ^ 47;
  ei_size : PHDR_SIZE <= ef_phentsize e;
  ei_table : ef_phoff e + Z.of_nat (length (ef_headers e)) * ef_phentsize e <= Z.of_nat (length data) < 2 ^ 64;
  ei_headers : Forall2 (fun base ph => read_phdr data base = Ret ph) (header_bases e) (ef_headers e);
  ei_segments : Forall (seg_ok data) (segments (ef_headers e));
  ei_pages : NoDup (image_pages (segments (ef_headers e)));
}.

Lemma load_loaded data e m pml4 :
  elf_image data e -> space_ok W m pml4 -> 0 <= pml4 ->
  (forall p, p ∈ image_pages (segments (ef_headers e)) -> translate m pml4 p = NotMapped) ->
  (4 * length (image_pages (segments (ef_headers e))) <= Phys.free_frame_count (frames m))%nat ->
  exists m', Elf.load W m pml4 data = Ret (m', Ok (ef_entry e)) /\ loaded data m m' pml4 (segments (ef_headers e)).
Proof.
  intros [] Hok H0p Hun Hfree.
  destruct (load_segments_loaded data ei_bytes0 m pml4 H0p (header_bases e) (ef_headers e) m [] ei_headers0)
    as (m' & Hrun & Hl); [by apply loaded_nil|done|done|done|done|].
  exists m'. split; [|done]. unfold Elf.load. rewrite decide_False by lia.
  unfold slice at 1. rewrite decide_True by (unfold EHDR_SIZE in *; lia). rewrite drop_0, ei_magic0. cbn iota beta.
  rewrite decide_False by tauto. rewrite (proj2 (index_or_panic_Ret _ _ _) ei_class0). cbn iota beta.
  rewrite decide_False by tauto. rewrite (proj2 (index_or_panic_Ret _ _ _) ei_order0). cbn iota beta.
  rewrite decide_False by tauto. rewrite ei_type0, ei_machine0, ei_entry0, ei_phoff0, ei_phentsize0, ei_phnum0.
  cbn iota beta. rewrite !decide_False by (tauto || lia).
  rewrite (proj2 (checked_add64_Some _ _ (ef_phoff e + Z.of_nat (length (ef_headers e)) * ef_phentsize e))) by lia.
  rewrite decide_False by lia. rewrite Nat2Z.id. fold (header_bases e). rewrite Hrun. cbn iota beta.
  unfold Elf.new_virt_addr. by rewrite lower_half by lia.
Qed.
(** ** A new process *)

(** The kernel's own space: 512 entries, nothing of it free. *)
Definition kernel_space_ok m : Prop :=
  space_ok W m (kernel_pml4 m) /\ length (frame_words (ram m) (kernel_pml4 m)) = 512%nat /\
  ~ free m (kernel_pml4 m) /\ 0 <= kernel_pml4 m.

Lemma top_entry_lower m p a ws :
  ram m !! p = Some (replicate 256 0 ++ ws) -> 0 <= a < 2 ^ 47 -> top_entry m p a = 0.
Proof.
  intros Hp Ha. unfold top_entry, frame_words. rewrite Hp. cbn [default from_option id].
  assert (0 <= pml4_index a < 256) as Hi by (unfold pml4_index; div_lia).
  rewrite app_nth1 by (rewrite length_replicate; lia). by rewrite nth_lookup, lookup_replicate_2 by lia.
Qed.

Lemma top_entry_upper m p a ws :
  ram m !! p = Some (replicate 256 0 ++ drop 256 ws) -> 256 <= pml4_index a -> length ws = 512%nat ->
  top_entry m p a = nth (Z.to_nat (pml4_index a)) ws 0.
Proof.
  intros Hp Hi Hl. unfold top_entry, frame_words. rewrite Hp. cbn [default from_option id].
  rewrite app_nth2 by (rewrite length_replicate; lia). rewrite length_replicate.
  rewrite !nth_lookup, lookup_drop. f_equal. f_equal. lia.
Qed.

(** [AddressSpace::new]: an empty lower half and the kernel's upper half. *)
Lemma new_space m :
  kernel_space_ok m -> (1 <= Phys.free_frame_count (frames m))%nat ->
  exists m1 pml4, Virt.address_space_new W m = Ret (m1, Ok (mkAS pml4)) /\ space_ok W m1 pml4 /\ free m pml4 /\
    (forall a, 0 <= a < 2 ^ 47 -> translate m1 pml4 a = NotMapped) /\
    (forall a, 256 <= pml4_index a -> translate m1 pml4 a = translate m (kernel_pml4 m) a) /\
    (forall f, free m1 f <-> free m f /\ f <> pml4) /\
    (forall f, f ∈ tables m1 pml4 -> f = pml4 \/ f ∈ tables m (kernel_pml4 m)) /\
    (forall f, f <> pml4 -> ram m1 !! f = ram m !! f) /\
    (Phys.free_frame_count (frames m) <= Phys.free_frame_count (frames m1) + 1)%nat /\ kernel_pml4 m1 = kernel_pml4 m.
Proof.
  intros (Hok & Hlen & Hkf & Hk0) Hc. pose proof Hok as [Hwf Hst].
  destruct (allocate_free m Hwf Hc) as (a & f & Ha & Hwfa & Hf & Hfree & Hcnt).
  unfold Virt.address_space_new. rewrite Ha. cbn iota beta. cbn [ram set_ram set_frames kernel_pml4].
  assert (f <> kernel_pml4 m) as Hne by (by intros ->).
  set (table := take 256 _ ++ drop 256 _). rewrite insert_insert_eq. set (m1 := set_ram _ _).
  assert (ram m1 !! f = Some (replicate 256 0 ++ drop 256 (frame_words (ram m) (kernel_pml4 m)))) as Hrf.
  { unfold m1, table. cbn [ram set_ram]. rewrite lookup_insert_eq. do 3 f_equal.
    - unfold frame_words. by rewrite lookup_insert_eq.
    - unfold frame_words. by rewrite lookup_insert_ne. }
  destruct (allocated_walk m a f (kernel_pml4 m) table Hok Hf Hfree Hwfa) as (Hok1 & Ht1 & Htr1).
  change (set_ram (set_frames m a) (<[f := table]> (ram m))) with m1 in Hok1, Ht1, Htr1.
  assert (forall b, 256 <= pml4_index b -> top_entry m1 f b = top_entry m1 (kernel_pml4 m) b) as Hsame.
  { intros b Hb. rewrite (top_entry_upper _ _ _ _ Hrf Hb Hlen). unfold top_entry. f_equal. unfold frame_words, m1.
    cbn [ram set_ram]. by rewrite lookup_insert_ne. }
  assert (forall g, g ∈ tables m1 f -> g = f \/ g ∈ tables m (kernel_pml4 m)) as Hts.
  { intros g Hg. rewrite <- Ht1. revert g Hg. apply tables_sub. intros b.
    destruct (decide (256 <= pml4_index b)) as [Hb|Hb]; [right; by apply Hsame|left].
    unfold top_entry, frame_words. rewrite Hrf. cbn [default from_option id].
    assert (0 <= pml4_index b) by (unfold pml4_index; div_lia).
    rewrite app_nth1 by (rewrite length_replicate; lia). by rewrite nth_lookup, lookup_replicate_2 by lia. }
  exists m1, f. split_and!; try done.
  - split; [done|]. intros g [->|Hg]%Hts [Hg1 Hg2]%Hfree; [done|by apply (Hst g)].
  - intros b Hb. apply walk_absent. by eapply top_entry_lower.
  - intros b Hb. rewrite <- Htr1. apply walk_same; [by apply (free_nonneg m)|done|by apply Hsame].
  - intros g Hg. unfold m1. cbn [ram set_ram]. by apply lookup_insert_ne.
Qed.
Definition user_stack_pages : list Z :=
  Elf.page_range (USER_STACK_TOP - USER_STACK_PAGES * PAGE) (USER_STACK_TOP - 1).

(** The address space [pml4], created in [m], of a process that runs the image:
    exactly the image and a stack in the lower half, the kernel in the upper
    half; no frame that was in use, but for page tables, was written. *)
Record process_image m m' (pml4 : Z) (data : list Z) (e : ElfFile) : Prop := {
  pm_byte : forall ph a, ph ∈ segments (ef_headers e) -> page_of a ∈ seg_pages ph ->
    user_byte m' pml4 a = Some (seg_byte data ph a);
  pm_flags : forall ph p, ph ∈ segments (ef_headers e) -> p ∈ seg_pages ph ->
    exists f, translate m' pml4 p = Mapped f 0 (Elf.segment_flags (p_flags ph));
  pm_stack : forall p, p ∈ user_stack_pages -> exists f, translate m' pml4 p = Mapped f 0 STACK_FLAGS;
  pm_nothing_else : forall a, 0 <= a < 2 ^ 47 ->
    page_of a ∉ image_pages (segments (ef_headers e)) ++ user_stack_pages -> translate m' pml4 a = NotMapped;
  pm_kernel : forall a, 256 <= pml4_index a -> 2 ^ 47 <= a -> translate m' pml4 a = translate m (kernel_pml4 m) a;
  pm_fresh : forall p f, p ∈ image_pages (segments (ef_headers e)) ++ user_stack_pages ->
    page_frame m' pml4 p f -> free m f /\ ~ free m' f;
  pm_ram : forall f, 0 <= f -> ~ free m f -> f ∉ tables m (kernel_pml4 m) -> ram m' !! f = ram m !! f;
  pm_space : free m pml4 /\ ~ free m' pml4;
  pm_frames : Phys.wf W (frames m') /\ (forall f, free m' f -> free m f) /\ kernel_pml4 m' = kernel_pml4 m;
}.

Lemma user_stack_bounds p : p ∈ user_stack_pages -> page_of p = p /\ 2 ^ 46 <= p < 2 ^ 47.
Proof.
  intros Hp. apply elem_of_page_range in Hp; [|done]. split; [tauto|].
  change (page_of (USER_STACK_TOP - USER_STACK_PAGES * PAGE)) with 0x7fffffffb000 in Hp.
  change (page_of (USER_STACK_TOP - 1)) with 0x7fffffffe000 in Hp. lia.
Qed.

Lemma image_pages_low data e p :
  elf_image data e -> p ∈ image_pages (segments (ef_headers e)) -> page_of p = p /\ 0 <= p < 2 ^ 32.
Proof.
  intros He Hp. split; [by eapply image_pages_aligned; [apply He|]|].
  apply list_elem_of_bind in Hp as (ph & Hp & Hph).
  pose proof (proj1 (Forall_forall _ _) (ei_segments _ _ He) ph Hph) as [].
  apply elem_of_page_range in Hp as [_ Hp]; [|lia]. unfold USER_SPACE_MIN, USER_SPACE_MAX, USER_HEAP_START in *.
  pose proof (page_of_bounds (p_vaddr ph)). pose proof (page_of_bounds (p_vaddr ph + p_memsz ph - 1)). lia.
Qed.

(** The stack is mapped beside a loaded image. *)
Lemma loaded_stack data e m m2 pml4 :
  elf_image data e -> 0 <= pml4 -> loaded data m m2 pml4 (segments (ef_headers e)) ->
  (forall a, 0 <= a < 2 ^ 47 -> translate m pml4 a = NotMapped) ->
  (4 * (length (image_pages (segments (ef_headers e))) + 4) <= Phys.free_frame_count (frames m))%nat ->
  roomy m2 pml4 user_stack_pages.
Proof.
  intros He H0p Hl Hun Hfree. pose proof (ld_count _ _ _ _ _ Hl). split.
  - apply Hl.
  - done.
  - apply NoDup_page_range.
  - apply Forall_forall. intros p [Hp _]%user_stack_bounds. rewrite page_of_sub in Hp. lia.
  - apply Forall_forall. intros p [Hp Hb]%user_stack_bounds. rewrite (ld_others _ _ _ _ _ Hl); [apply Hun; lia|].
    rewrite Hp. intros [_ Hi]%(image_pages_low data); [|done]. lia.
  - change (length user_stack_pages) with 4%nat. lia.
Qed.
Lemma fresh_stack_frame m m' pml4 fs p f :
  fresh_pages None m m' pml4 user_stack_pages STACK_FLAGS fs -> p ∈ user_stack_pages -> page_frame m' pml4 p f ->
  free m f /\ ~ free m' f.
Proof.
  intros Hst Hp [fl Hf]. pose proof (user_stack_bounds p Hp) as [Hpp _]. apply list_elem_of_lookup_1 in Hp as [i Hi].
  destruct (lookup_lt_is_Some_2 fs i) as [g Hg].
  { rewrite (fr_length _ _ _ _ _ _ _ Hst). by eapply lookup_lt_Some. }
  unfold Virt.translate_in in Hf. rewrite (fr_pages _ _ _ _ _ _ _ Hst i p g Hi Hg p Hpp) in Hf.
  assert (f = g) as -> by (simplify_eq; lia). apply (fr_took _ _ _ _ _ _ _ Hst). by eapply list_elem_of_lookup_2.
Qed.

Lemma page_of_upper a : 2 ^ 47 <= a -> 2 ^ 47 <= page_of a.
Proof. unfold page_of, PAGE. intros. div_lia. Qed.

(** From the four steps of [from_elf] to what the process sees. *)
Lemma process_image_intro data e m m1 m2 m3 pml4 fs :
  elf_image data e -> kernel_space_ok m -> free m pml4 -> space_ok W m1 pml4 ->
  (forall a, 0 <= a < 2 ^ 47 -> translate m1 pml4 a = NotMapped) ->
  (forall a, 256 <= pml4_index a -> translate m1 pml4 a = translate m (kernel_pml4 m) a) ->
  (forall f, free m1 f <-> free m f /\ f <> pml4) ->
  (forall f, f ∈ tables m1 pml4 -> f = pml4 \/ f ∈ tables m (kernel_pml4 m)) ->
  (forall f, f <> pml4 -> ram m1 !! f = ram m !! f) -> kernel_pml4 m1 = kernel_pml4 m ->
  loaded data m1 m2 pml4 (segments (ef_headers e)) ->
  fresh_pages None m2 m3 pml4 user_stack_pages STACK_FLAGS fs -> process_image m m3 pml4 data e.
Proof.
  intros He (Hkok & _) Hf1 Hok1 Hlow Hup Hfree Htab Hram Hk Hl Hst. set (phs := segments (ef_headers e)) in *.
  assert (forall p, p ∈ image_pages phs -> page_of p ∉ user_stack_pages /\ translate m3 pml4 p = translate m2 pml4 p) as Himg.
  { intros p Hp. destruct (image_pages_low data e p He Hp) as [Hpp Hb].
    assert (page_of p ∉ user_stack_pages) as Hn by (rewrite Hpp; intros [_ ?]%user_stack_bounds; lia).
    split; [done|]. by apply (fr_others _ _ _ _ _ _ _ Hst). }
  assert (forall p f, p ∈ image_pages phs -> page_frame m3 pml4 p f -> page_frame m2 pml4 p f) as Hpf.
  { intros p f Hp [fl Hf]. exists fl. unfold Virt.translate_in in *. by rewrite (proj2 (Himg p Hp)) in Hf. }
  assert (forall ph a, ph ∈ phs -> page_of a ∈ seg_pages ph -> page_of a ∈ image_pages phs) as Hin.
  { intros ph a Hph Ha. apply list_elem_of_bind. by exists ph. }
  split.
  - intros ph a Hph Ha. pose proof (Hin ph a Hph Ha) as Hia. rewrite <- (ld_byte _ _ _ _ _ Hl ph a Hph Ha).
    unfold user_byte, Virt.translate_in. rewrite (proj2 (Himg _ Hia)).
    destruct (dp_mapped _ _ _ (ld_data _ _ _ _ _ Hl) _ Hia) as (f & fl & Hf). rewrite Hf, Z.add_0_r.
    pose proof (mapped_page_frame _ _ _ _ _ Hf) as Hpg. unfold frame_bytes, frame_words.
    destruct (ld_fresh _ _ _ _ _ Hl _ f Hia Hpg) as [Hff Hnf].
    rewrite (fr_ram _ _ _ _ _ _ _ Hst); [done|by apply (free_nonneg m1)|done|].
    by apply (bo_data _ _ _ (dp_ok _ _ _ (ld_data _ _ _ _ _ Hl)) _ f Hia).
  - intros ph p Hph Hp. rewrite (proj2 (Himg p ltac:(apply list_elem_of_bind; by exists ph))).
    by apply (ld_flags _ _ _ _ _ Hl ph).
  - intros p Hp. pose proof (user_stack_bounds p Hp) as [Hpp _]. apply list_elem_of_lookup_1 in Hp as [i Hi].
    destruct (lookup_lt_is_Some_2 fs i) as [g Hg].
    { rewrite (fr_length _ _ _ _ _ _ _ Hst). by eapply lookup_lt_Some. }
    exists g. rewrite (fr_pages _ _ _ _ _ _ _ Hst i p g Hi Hg p Hpp). f_equal. lia.
  - intros a Ha [Hn1 Hn2]%not_elem_of_app. rewrite (fr_others _ _ _ _ _ _ _ Hst), (ld_others _ _ _ _ _ Hl) by done. by apply Hlow.
  - intros a Hi Ha. apply page_of_upper in Ha. rewrite (fr_others _ _ _ _ _ _ _ Hst), (ld_others _ _ _ _ _ Hl); [by apply Hup|..].
    + intros [_ Hb]%(image_pages_low data e); [|done]. lia.
    + intros [_ Hb]%user_stack_bounds. lia.
  - intros p f [Hp|Hp]%elem_of_app Hf.
    + destruct (ld_fresh _ _ _ _ _ Hl p f Hp (Hpf p f Hp Hf)) as [Hg Hg2]. split; [by apply Hfree|].
      intros Hg3%(fr_mono _ _ _ _ _ _ _ Hst). done.
    + destruct (fresh_stack_frame m2 m3 pml4 fs p f Hst Hp Hf) as [Hg Hg2]. split; [|done].
      by apply Hfree, (ld_mono _ _ _ _ _ Hl).
  - intros f H0f Hf Ht. assert (f <> pml4) as Hne by (by intros ->). assert (~ free m1 f) as Hf' by (rewrite Hfree; tauto).
    assert (f ∉ tables m1 pml4) as Ht' by (by intros [?|?]%Htab).
    rewrite (fr_ram _ _ _ _ _ _ _ Hst), (ld_ram _ _ _ _ _ Hl), Hram; [done..| |].
    + intros Hg%(ld_mono _ _ _ _ _ Hl). done.
    + intros Hft. by destruct (ld_tables _ _ _ _ _ Hl f H0f Hft).
  - split; [done|]. intros Hg%(fr_mono _ _ _ _ _ _ _ Hst)%(ld_mono _ _ _ _ _ Hl)%Hfree. tauto.
  - split_and!.
    + apply (fr_ok _ _ _ _ _ _ _ Hst).
    + intros f Hg%(fr_mono _ _ _ _ _ _ _ Hst)%(ld_mono _ _ _ _ _ Hl)%Hfree. tauto.
    + rewrite (fr_pml4 _ _ _ _ _ _ _ Hst), (ld_pml4 _ _ _ _ _ Hl). done.
Qed.
(** The frames a new process needs at most: its top table, and per page a frame
    and three tables. *)
Definition frames_needed (e : ElfFile) : nat := 4 * (length (image_pages (segments (ef_headers e))) + 4) + 1.

Lemma from_elf_loads `{Selectors} m p data e par :
  elf_image data e -> kernel_space_ok m -> (pid_index p < MAX_PROCESSES)%nat ->
  (frames_needed e <= Phys.free_frame_count (frames m))%nat ->
  exists m' pml4,
    Elf.from_elf W m p data par = Ret (m', Ok (mkProcess p (mkAS pml4) (initial_user_frame (ef_entry e) USER_STACK_TOP)
      Cap.new Ready par None None USER_HEAP_START)) /\
    process_image m m' pml4 data e.
Proof.
  intros He Hk Hp Hfree. unfold frames_needed in Hfree.
  destruct (new_space m Hk ltac:(lia)) as (m1 & pml4 & Hnew & Hok1 & Hf1 & Hlow & Hup & Hfr & Htab & Hram & Hc & Hkp).
  destruct (load_loaded data e m1 pml4 He Hok1 (free_nonneg m pml4 Hf1)) as (m2 & Hload & Hl).
  { intros q Hq. destruct (image_pages_low data e q He Hq) as [_ Hb]. apply Hlow. lia. }
  { lia. }
  destruct (map_stack_fresh m2 pml4 user_stack_pages) as (m3 & fs & Hmap & Hst).
  { eapply loaded_stack; [done|by apply (free_nonneg m)|done|done|lia]. }
  exists m3, pml4. split; [|by apply (process_image_intro data e m m1 m2 m3 pml4 fs)].
  unfold Elf.from_elf. rewrite Hnew. cbn iota beta. cbn [pml4_frame]. rewrite Hload. cbn iota beta.
  unfold Elf.process_new. cbn [pml4_frame]. fold user_stack_pages. rewrite Hmap. cbn iota beta.
  by rewrite decide_False by lia.
Qed.

(** C10: A new process.  Given a well-formed executable image, a process-table
    index, and enough free frames, [Process::from_elf] succeeds whatever else is
    in memory.  The process starts at the image's entry point with an empty
    capability table; at every address of its segments it sees the byte of the
    file, or zero beyond the file's part, with the access its header asks for;
    its stack is mapped writable and not executable; nothing else of the lower
    half is mapped and the upper half is the kernel's.  All its pages are on
    frames that were free, and no frame in use but a page table was written. *)
Theorem from_elf_correct `{Selectors} m (p : Pid) (data : list Z) (e : ElfFile) (par : option Pid)
    (He : elf_image data e) (Hk : kernel_space_ok m) (Hp : (pid_index p < MAX_PROCESSES)%nat)
    (Hfree : (frames_needed e <= Phys.free_frame_count (frames m))%nat) :
  exists m' pml4,
    Elf.from_elf W m p data par = Ret (m', Ok (mkProcess p (mkAS pml4) (initial_user_frame (ef_entry e) USER_STACK_TOP)
      Cap.new Ready par None None USER_HEAP_START)) /\
    process_image m m' pml4 data e.
Proof. by apply from_elf_loads. Qed.
End loader.
