(* ===== verification/MapperModel.v ===== *)
(** * A page mapper that keeps the laws

    The kernel's theorems take the [x86_64] crate's page mapper as a parameter
    with laws.  Here is a mapper, smaller than the crate's, that keeps all of
    them at once, for the witnesses: a real top-level table of 512 entries whose
    upper levels are one list of mappings.  The list that an entry stands for
    is kept in memory under a negative key, which is no frame; the frame itself
    is taken from the kernel's allocator when the first page below the entry is
    mapped. *)
From S2P Require Import Prelude Abi CapTable Bitmap Phys Virt Process Elf Mapper MapRegion Handlers UserMem.
From S2P Require Import Regions Loader SchedProps.
Open Scope Z_scope.

Section model.
Implicit Types (m : Mem) (l : list Z).

(** The size of the allocator's bitmap. *)
Definition bitmap_words m : nat := length (words (bitmap (frames m))).

(** The mappings below an entry, three words each. *)
Definition below m (e : Z) : list Z := default [] (ram m !! (- e - 1)).

(** Without the pages below the entry of index [i]. *)
Fixpoint drop_index (i : Z) l : list Z :=
  match l with
  | p :: f :: fl :: l => if decide (pml4_index p = i) then drop_index i l else p :: f :: fl :: drop_index i l
  | _ => []
  end.

(** A table with one entry changed, at its full size. *)
Definition set_entry (ws : list Z) (i v : Z) : list Z :=
  <[Z.to_nat i := v]> (take 512 (ws ++ replicate 512 0)).

Definition tree_translate m (pml4 addr : Z) : TranslateResult :=
  let e := top_entry m pml4 addr in
  if decide (pml4 < 0 \/ e <= 0) then NotMapped
  else
    match demo_find (below m e) (page_of addr) with
    | Some (f, fl) => Mapped f (addr - page_of addr) fl
    | None => NotMapped
    end.

Definition tree_map_to m (pml4 page frame flags : Z) : Mem * result unit MapToError :=
  if decide (pml4 < 0) then (m, Err ParentEntryHugePage)
  else
    let e := top_entry m pml4 page in
    if decide (0 < e) then
      match demo_find (below m e) page with
      | Some (f, _) => (m, Err (PageAlreadyMapped f))
      | None => (set_ram m (<[- e - 1 := page :: frame :: flags :: below m e]> (ram m)), Ok tt)
      end
    else
      match Phys.allocate_frame (bitmap_words m) (frames m) with
      | Ret (a, Some f) =>
          let e := f + 7 in
          let table := set_entry (frame_words (ram m) pml4) (pml4_index page) e in
          (set_ram (set_frames m a)
             (<[- e - 1 := page :: frame :: flags :: drop_index (pml4_index page) (below m e)]> (<[pml4 := table]> (ram m))),
           Ok tt)
      | _ => (m, Err FrameAllocationFailed)
      end.

Definition tree_x86 : X86 := {|
  entry_frame := demo_entry_frame;
  map_to := tree_map_to;
  translate := tree_translate;
  virt_addr_new z := if demo_canonical z then Some z else None;
|}.

(** ** Entries and lists *)
Lemma pml4_index_page a : pml4_index (page_of a) = pml4_index a.
Proof. unfold pml4_index, page_of, PAGE. div_lia. Qed.

Lemma pml4_index_range a : 0 <= pml4_index a < 512.
Proof. unfold pml4_index. div_lia. Qed.

Lemma top_entry_page m p a : top_entry m p (page_of a) = top_entry m p a.
Proof. unfold top_entry. by rewrite pml4_index_page. Qed.

Lemma set_entry_nth ws i v j :
  0 <= i < 512 -> 0 <= j < 512 -> nth (Z.to_nat j) (set_entry ws i v) 0 = if decide (j = i) then v else nth (Z.to_nat j) ws 0.
Proof.
  intros Hi Hj. unfold set_entry. rewrite !nth_lookup.
  assert (length (take 512 (ws ++ replicate 512 0)) = 512%nat) as Hl.
  { rewrite length_take, length_app, length_replicate. lia. }
  destruct (decide (j = i)) as [->|Hne].
  - rewrite list_lookup_insert_eq; [done|]. rewrite Hl. lia.
  - rewrite list_lookup_insert_ne by lia. rewrite lookup_take_lt by lia.
    destruct (decide (Z.to_nat j < length ws)%nat) as [Hlt|Hge].
    + by rewrite lookup_app_l.
    + rewrite lookup_app_r, lookup_replicate_2 by lia. by rewrite lookup_ge_None_2 by lia.
Qed.

Lemma find_drop i l q : demo_find (drop_index i l) q = if decide (pml4_index q = i) then None else demo_find l q.
Proof.
  remember (length l) as n eqn:Hn. assert (length l <= n)%nat as Hl by lia. clear Hn. revert l Hl.
  induction n as [|n IH]; intros l Hl.
  { destruct l; [|simpl in Hl; lia]. by case_decide. }
  destruct l as [|p [|f [|fl l]]]; [by case_decide..|]. cbn [drop_index demo_find]. simpl in Hl.
  destruct (decide (pml4_index p = i)) as [Hp|Hp].
  - rewrite IH by lia. repeat case_decide; try done. congruence.
  - cbn [demo_find]. rewrite IH by lia. repeat case_decide; try done. congruence.
Qed.

Lemma tree_allocate_cases m :
  match Phys.allocate_frame (bitmap_words m) (frames m) with
  | Ret (a, Some f) => 0 <= f
  | _ => True
  end.
Proof.
  unfold Phys.allocate_frame. destruct (BM.allocate _ _) as [[b [i|]]|]; simpl; try done. unfold FRAME_SIZE. lia.
Qed.

(** ** The laws *)
Lemma top_entry_new m pml4 page e a r g :
  0 <= pml4 -> 0 <= e ->
  top_entry (set_ram (set_frames m g)
    (<[- e - 1 := r]> (<[pml4 := set_entry (frame_words (ram m) pml4) (pml4_index page) e]> (ram m)))) pml4 a =
  if decide (pml4_index a = pml4_index page) then e else top_entry m pml4 a.
Proof.
  intros Hp He. unfold top_entry at 1, frame_words at 1. cbn [ram set_ram].
  rewrite lookup_insert_ne, lookup_insert_eq by lia. cbn [default from_option id].
  apply set_entry_nth; apply pml4_index_range.
Qed.

Lemma tree_map_ok m pml4 page frame flags m' :
  tree_map_to m pml4 page frame flags = (m', Ok tt) ->
  (forall x, page_of x = page ->
     tree_translate m pml4 x = NotMapped /\ tree_translate m' pml4 x = Mapped frame (x - page) flags) /\
  (forall x, page_of x <> page -> tree_translate m' pml4 x = tree_translate m pml4 x).
Proof.
  unfold tree_map_to. case_decide as Hp; [done|]. case_decide as He.
  - destruct (demo_find (below m (top_entry m pml4 page)) page) as [[? ?]|] eqn:Hf; [done|]. intros Hm. simplify_eq.
    set (e := top_entry m pml4 page) in *.
    assert (forall r x, top_entry (set_ram m (<[- e - 1 := r]> (ram m))) pml4 x = top_entry m pml4 x) as Ht.
    { intros r x. unfold top_entry at 1, frame_words at 1. cbn [ram set_ram]. by rewrite lookup_insert_ne by lia. }
    unfold tree_translate. split; intros x Hx; rewrite Ht.
    + subst page. unfold e in *. rewrite top_entry_page in *. rewrite !decide_False by lia. rewrite Hf. split; [done|].
      unfold below at 1. cbn [ram set_ram]. rewrite lookup_insert_eq. cbn [default from_option id demo_find].
      by rewrite decide_True.
    + case_decide; [done|]. unfold below at 1. cbn [ram set_ram].
      destruct (decide (top_entry m pml4 x = e)) as [->|Hne].
      * rewrite lookup_insert_eq. cbn [default from_option id demo_find]. by rewrite decide_False.
      * by rewrite lookup_insert_ne by lia.
  - pose proof (tree_allocate_cases m) as H0. destruct (Phys.allocate_frame _ (frames m)) as [[a [f|]]|]; [|done..].
    intros Hm. simplify_eq. unfold tree_translate. split; intros x Hx; rewrite top_entry_new by lia.
    + subst page. rewrite top_entry_page in He. rewrite (decide_True (P := _ \/ _)) by lia. split; [done|].
      rewrite pml4_index_page, (decide_True (P := pml4_index x = pml4_index x)), decide_False by (done || lia).
      unfold below at 1. cbn [ram set_ram].
      rewrite lookup_insert_eq. cbn [default from_option id demo_find]. by rewrite decide_True.
    + destruct (decide (pml4_index x = pml4_index page)) as [Hi|Hi].
      * rewrite decide_False by lia. rewrite (decide_True (P := pml4 < 0 \/ top_entry m pml4 x <= 0))
          by (unfold top_entry in *; rewrite Hi; lia).
        unfold below at 1. cbn [ram set_ram]. rewrite lookup_insert_eq. cbn [default from_option id demo_find].
        rewrite decide_False by done. rewrite find_drop, decide_True by (by rewrite pml4_index_page). done.
      * case_decide; [done|]. unfold below at 1. cbn [ram set_ram].
        destruct (decide (top_entry m pml4 x = f + 7)) as [->|Hne].
        -- rewrite lookup_insert_eq. cbn [default from_option id demo_find]. rewrite decide_False by done.
           by rewrite find_drop, decide_False by (by rewrite pml4_index_page).
        -- by rewrite !lookup_insert_ne by lia.
Qed.
Lemma bitmap_words_wf W m : Phys.wf W (frames m) -> bitmap_words m = W.
Proof. intros Hwf. apply BM.wf_words, Hwf. Qed.

(** What happens to the allocator. *)
Lemma tree_map_frames W m pml4 page frame flags :
  Phys.wf W (frames m) ->
  let m' := fst (tree_map_to m pml4 page frame flags) in
  frames m' = frames m \/
  exists a f, Phys.allocate_frame W (frames m) = Ret (a, Some f) /\ frames m' = a.
Proof.
  intros Hwf. unfold tree_map_to. rewrite (bitmap_words_wf W m Hwf).
  repeat case_decide; try (by left).
  - destruct (demo_find _ page) as [[? ?]|]; by left.
  - destruct (Phys.allocate_frame W (frames m)) as [[a [f|]]|]; [|by left..]. right. by exists a, f.
Qed.

Lemma tree_mapper_laws : @MapperLaws tree_x86.
Proof.
  split; cbn [map_to translate virt_addr_new tree_x86].
  - apply tree_map_ok.
  - intros m pml4 page frame flags m' e. unfold tree_map_to. case_decide; [by intros; simplify_eq|].
    case_decide; [destruct (demo_find _ page) as [[? ?]|]; by intros; simplify_eq|].
    destruct (Phys.allocate_frame _ _) as [[a [f|]]|]; by intros; simplify_eq.
  - intros m pml4 page frame flags. split.
    + unfold tree_map_to. case_decide; [done|]. case_decide; [by destruct (demo_find _ page) as [[? ?]|]|].
      by destruct (Phys.allocate_frame _ _) as [[a [f|]]|].
    + intros W Hwf. destruct (tree_map_frames W m pml4 page frame flags Hwf) as [->|(a & f & Ha & ->)]; [done|].
      destruct (Phys.allocate_frame_cases W (frames m) Hwf) as ([a' [f'|]] & Ha' & Hres); rewrite Ha in Ha'; simplify_eq.
      apply Hres.
  - intros m m' pml4 x Hr. unfold tree_translate, top_entry, below. by rewrite Hr.
  - intros a Ha. unfold demo_canonical. replace (a <? 2 ^ 47) with true; [done|]. symmetry. apply Z.ltb_lt. lia.
Qed.

Lemma tree_mapper_total : @MapperTotal tree_x86 tree_mapper_laws.
Proof.
  split; cbn [map_to translate virt_addr_new tree_x86].
  - intros W m pml4 page frame flags Hwf H0 Hal Hun Hfree. unfold tree_map_to. rewrite decide_False by lia.
    unfold tree_translate in Hun. destruct (decide (0 < top_entry m pml4 page)) as [He|He].
    + rewrite decide_False in Hun by lia. rewrite page_of_aligned in Hun by done.
      destruct (demo_find _ page) as [[? ?]|]; [done|]. eexists. split; [done|]. simpl. lia.
    + rewrite (bitmap_words_wf W m Hwf).
      destruct (Phys.allocate_frame_cases W (frames m) Hwf) as ([a [f|]] & -> & Hres).
      * eexists. split; [done|]. cbn [frames set_ram set_frames]. destruct Hres as (_ & _ & Hc & _). lia.
      * destruct Hres as [_ Hz]. lia.
  - intros W m pml4 page frame flags Hwf.
    destruct (tree_map_frames W m pml4 page frame flags Hwf) as [->|(a & f & Ha & ->)]; [done|].
    destruct (Phys.allocate_frame_cases W (frames m) Hwf) as ([a' [f'|]] & Ha' & Hres); rewrite Ha in Ha'; simplify_eq.
    destruct Hres as (_ & Hus & _ & i & _ & _ & Hall). split; [done|]. intros j Hj. rewrite Hall in Hj.
    by apply andb_true_iff in Hj as [Hj _].
  - intros a Ha. unfold demo_canonical.
    replace (2 ^ 64 - 2 ^ 47 <=? a) with true; [by rewrite orb_true_r|]. symmetry. apply Z.leb_le. lia.
Qed.

(** The tables of a space: the top one and the lists its entries stand for. *)
Definition tree_tables m (pml4 : Z) : list Z :=
  pml4 :: ((fun e => - e - 1) <$> filter (fun e => 0 < e) (take 512 (frame_words (ram m) pml4))).

Lemma elem_of_tree_tables m pml4 k :
  k ∈ tree_tables m pml4 <-> k = pml4 \/ exists a, 0 < top_entry m pml4 a /\ k = - top_entry m pml4 a - 1.
Proof.
  unfold tree_tables. rewrite elem_of_cons, list_elem_of_fmap. apply or_iff_compat_l. split.
  - intros (e & -> & [He Hin]%list_elem_of_filter). apply elem_of_take in Hin as (i & Hi & Hlt).
    exists (Z.of_nat i * 2 ^ 39). assert (top_entry m pml4 (Z.of_nat i * 2 ^ 39) = e) as ->; [|done].
    unfold top_entry. assert (pml4_index (Z.of_nat i * 2 ^ 39) = Z.of_nat i) as -> by (unfold pml4_index; div_lia).
    rewrite Nat2Z.id, nth_lookup. by rewrite Hi.
  - intros (a & He & ->). eexists. split; [done|]. apply list_elem_of_filter. split; [done|].
    pose proof (pml4_index_range a) as Hi. unfold top_entry in *. rewrite nth_lookup in *.
    destruct (frame_words (ram m) pml4 !! Z.to_nat (pml4_index a)) as [e|] eqn:Hl; simpl in *; [|lia].
    apply elem_of_take. exists (Z.to_nat (pml4_index a)). split; [done|lia].
Qed.

#[global] Instance tree_walk : @PageWalk tree_x86.
Proof.
  refine (@Build_PageWalk tree_x86 tree_tables _ _).
  - intros m m' pml4 Hf.
    assert (ram m' !! pml4 = ram m !! pml4) as Hp by (apply Hf; left).
    assert (forall a, top_entry m' pml4 a = top_entry m pml4 a) as Ht.
    { intros a. unfold top_entry, frame_words. by rewrite Hp. }
    split; [unfold tree_tables, frame_words; by rewrite Hp|].
    intros a. cbn [translate tree_x86]. unfold tree_translate. rewrite Ht. case_decide as Hd; [done|].
    unfold below. rewrite Hf; [done|]. apply elem_of_tree_tables. right. exists a. lia.
  - intros a v. cbn [virt_addr_new tree_x86]. destruct (demo_canonical a); congruence.
Defined.
Lemma tree_map_walk W m pml4 page frame flags :
  @space_ok W tree_x86 tree_walk m pml4 ->
  let m' := fst (tree_map_to m pml4 page frame flags) in
  (forall f, 0 <= f -> f ∈ tree_tables m' pml4 ->
     f ∈ tree_tables m pml4 \/ (free_frame W (frames m) f /\ ~ free_frame W (frames m') f)) /\
  (forall f, 0 <= f -> ~ free_frame W (frames m) f -> f ∉ tree_tables m pml4 -> ram m' !! f = ram m !! f).
Proof.
  intros [Hwf _]. unfold tree_map_to. case_decide as Hp; [by split; auto|]. split.
  - intros f Hf Hin. left. apply elem_of_tree_tables in Hin as [->|(a & He & ->)]; [left|lia].
  - intros f Hf Hn Hin. assert (f <> pml4) as Hne by (intros ->; apply Hin; left). case_decide as He.
    + destruct (demo_find _ page) as [[? ?]|]; [done|]. cbn [fst ram set_ram]. apply lookup_insert_ne. lia.
    + pose proof (tree_allocate_cases m) as H0. destruct (Phys.allocate_frame _ (frames m)) as [[a [g|]]|]; [|done..].
      cbn [fst ram set_ram set_frames]. by rewrite !lookup_insert_ne by lia.
Qed.

Lemma tree_space_laws W : @SpaceLaws W tree_x86 tree_mapper_laws tree_mapper_total tree_walk.
Proof.
  split; cbn [map_to translate tables tree_x86 tree_walk].
  - intros. by apply tree_map_walk.
  - intros m pml4 page frame flags Hl. unfold tree_map_to. case_decide as Hp; [done|]. case_decide as He.
    + destruct (demo_find _ page) as [[? ?]|]; [done|]. unfold frame_words. cbn [fst ram set_ram].
      by rewrite lookup_insert_ne by lia.
    + pose proof (tree_allocate_cases m) as H0. destruct (Phys.allocate_frame _ (frames m)) as [[a [f|]]|]; [|done..].
      unfold frame_words at 1. cbn [fst ram set_ram set_frames]. rewrite lookup_insert_ne, lookup_insert_eq by lia.
      cbn [default from_option id]. unfold set_entry. rewrite length_insert, length_take, length_app, length_replicate. lia.
  - intros m p a He. unfold tree_translate. rewrite decide_True by lia. done.
  - intros m p q a Hp Hq He. unfold tree_translate. rewrite He. destruct (decide (q < 0 \/ _)) as [Hd|Hd].
    + by rewrite decide_True by lia.
    + by rewrite decide_False by lia.
  - intros m p q Hs f [->|(a & He & ->)]%elem_of_tree_tables; [by left|right].
    apply elem_of_tree_tables. right. exists a. destruct (Hs a) as [Hz|Hz]; [lia|]. rewrite Hz in *. done.
Qed.

(** Frames a range of the memory map made free. *)
Lemma mark_range_free W a s e i :
  length (words (bitmap a)) = W -> BM.is_free W (bitmap (Phys.mark_range W a s e)) i = true ->
  BM.is_free W (bitmap a) i = true \/ s <= Z.of_nat i \/ s < 0.
Proof.
  unfold Phys.mark_range. intros Hl.
  assert (forall z, z ∈ seqZ s (e - s) -> s <= z) as Hge by (intros z [Hz _]%elem_of_seqZ; lia).
  revert a Hl Hge. generalize (seqZ s (e - s)) as l. induction l as [|z l IH]; intros a Hl Hge; [by left|]. cbn [foldl].
  intros Hi. apply IH in Hi as [Hi|Hi]; [|by right| |].
  - cbn [bitmap] in Hi. rewrite BM.is_free_set_free in Hi by done.
    apply orb_true_iff in Hi as [[Hi _]%andb_true_iff|Hi]; [|by left]. apply bool_decide_eq_true in Hi as ->.
    specialize (Hge z ltac:(left)). lia.
  - cbn [bitmap]. unfold BM.set_free. case_decide; [done|]. cbn [words]. by rewrite length_alter.
  - intros y Hy. apply Hge. by right.
Qed.

(** The kernel's space on a machine where nothing is mapped yet: the top table
    in frame 0, which is not free. *)
Lemma mark_list_count W l a :
  Phys.wf W a -> NoDup l -> (forall z, z ∈ l -> 0 <= z < Z.of_nat (W * 64)) ->
  (forall z, z ∈ l -> BM.is_free W (bitmap a) (Z.to_nat z) = false) ->
  Phys.free_frame_count (foldl (fun a i => mkFrames (BM.set_free W (bitmap a) (Z.to_nat i))
    (BM.set_free W (usable a) (Z.to_nat i))) a l) = (Phys.free_frame_count a + length l)%nat.
Proof.
  revert a. induction l as [|z l IH]; intros a Hwf Hn Hr Hf; cbn [foldl length]; [lia|].
  apply NoDup_cons in Hn as [Hz Hn]. pose proof (Hr z ltac:(left)) as Hzr. destruct Hwf as [Hb Hu Hsub].
  rewrite IH; [| |done|intros y Hy; apply Hr; by right|].
  - unfold Phys.free_frame_count. cbn [bitmap]. rewrite BM.free_count_set_free; [lia|done|apply Hf; left|].
    unfold BM.CAPACITY. lia.
  - split; cbn [bitmap usable]; [by apply BM.wf_set_free..|]. intros j.
    rewrite !BM.is_free_set_free by (apply BM.wf_words; done). rewrite !orb_true_iff. naive_solver.
  - intros y Hy. cbn [bitmap]. rewrite BM.is_free_set_free by (apply BM.wf_words; done).
    rewrite (Hf y) by (by right). rewrite bool_decide_false; [done|]. pose proof (Hr y ltac:(by right)).
    intros Heq. assert (y = z) as -> by lia. done.
Qed.

(** The frames of a fresh machine, counted. *)
Lemma fresh_count W n :
  0 <= n < Z.of_nat (W * 64) -> Phys.free_frame_count (frames (demo_fresh_mem W n)) = Z.to_nat n.
Proof.
  intros Hn. unfold demo_fresh_mem, Phys.mark_range. cbn [frames]. rewrite mark_list_count.
  - rewrite length_seqZ. unfold Phys.free_frame_count, Phys.new. cbn [bitmap]. rewrite (BM.free_count_count W) by (apply (BM.wf_words W), BM.wf_new).
    assert (forall c, count_below (BM.is_free W (BM.new W)) c = 0%nat) as ->; [|lia].
    induction c as [|c IH]; [done|]. by rewrite count_below_S, IH, BM.is_free_new.
  - apply Phys.wf_phys_new.
  - apply NoDup_seqZ.
  - intros z Hz%elem_of_seqZ. lia.
  - intros z _. apply BM.is_free_new.
Qed.

Lemma tree_kernel_space W n : @kernel_space_ok W tree_x86 tree_walk (demo_fresh_mem W n).
Proof.
  assert (~ free_frame W (frames (demo_fresh_mem W n)) 0) as Hfree.
  { intros (i & Hz & Hi). unfold FRAME_SIZE in Hz. assert (i = 0%nat) as -> by lia.
    apply mark_range_free in Hi as [Hi|[Hi|Hi]]; [|lia|lia|apply length_replicate].
    cbn [bitmap Phys.new] in Hi. by rewrite BM.is_free_new in Hi. }
  split_and!; [|done|done|done]. split; [apply Phys.wf_mark_range, Phys.wf_phys_new|].
  intros f [->|(a & He & _)]%elem_of_tree_tables; [done|].
  assert (top_entry (demo_fresh_mem W n) (kernel_pml4 (demo_fresh_mem W n)) a = 0) as Hz; [|lia].
  unfold top_entry, frame_words. cbn [ram demo_fresh_mem]. rewrite lookup_empty. cbn [default from_option].
  rewrite nth_lookup. destruct (replicate 512 0 !! _) as [z|] eqn:Hl; [|done]. by apply lookup_replicate in Hl as [-> _].
Qed.
End model.

(** ** A small program: one segment of two pages, 124 bytes of it in the file *)
Definition demo_phdr : ProgramHeader := mkPhdr PT_LOAD 5 0 0x400000 124 0x1800.
Definition demo_elf_file : ElfFile := mkElfFile 0x400078 64 56 [demo_phdr].
Definition demo_program : list Z :=
  [0x7f; 69; 76; 70; 2; 1; 1; 0] ++ replicate 8 0 ++ le_bytes 2 2 ++ le_bytes 2 62 ++ le_bytes 4 1 ++
  le_bytes 8 0x400078 ++ le_bytes 8 64 ++ le_bytes 8 0 ++ le_bytes 4 0 ++ le_bytes 2 64 ++ le_bytes 2 56 ++
  le_bytes 2 1 ++ replicate 6 0 ++
  le_bytes 4 1 ++ le_bytes 4 5 ++ le_bytes 8 0 ++ le_bytes 8 0x400000 ++ le_bytes 8 0 ++ le_bytes 8 124 ++
  le_bytes 8 0x1800 ++ le_bytes 8 0x1000 ++ [0xF4; 0xEB; 0xFD; 0x90].

Lemma demo_program_image : elf_image demo_program demo_elf_file.
Proof.
  split; try (by vm_compute).
  - apply (bool_decide_unpack _). by vm_compute.
  - vm_compute. repeat constructor.
  - constructor; [by vm_compute|constructor].
  - constructor; [|constructor]. split; vm_compute; try discriminate; try reflexivity. by split.
  - apply (bool_decide_unpack _). by vm_compute.
Qed.

Lemma from_elf_correct_witness :
  exists m' pml4 q,
    @Elf.from_elf 2 tree_x86 demo_selectors (demo_fresh_mem 2 60) (pid_new 3 1) demo_program None = Ret (m', Ok q) /\
    @user_byte tree_x86 m' pml4 0x400078 = Some 0xF4.
Proof.
  destruct (@from_elf_correct 2 tree_x86 tree_mapper_laws tree_mapper_total tree_walk (tree_space_laws 2) demo_selectors
    (demo_fresh_mem 2 60) (pid_new 3 1) demo_program demo_elf_file None) as (m' & pml4 & He & Hp).
  - exact demo_program_image.
  - apply tree_kernel_space.
  - vm_compute. lia.
  - apply Nat.leb_le. vm_compute. reflexivity.
  - eexists m', pml4, _. split; [exact He|].
    rewrite (pm_byte _ _ _ _ _ _ Hp demo_phdr 0x400078); [reflexivity|left|].
    vm_compute. left.
Defined.
