(* ===== verification/Dummy.v ===== *)
(** * Processes from kernel code ([Process::new_dummy] in [task/process.rs])

    A test process is not loaded from a file: the two physical pages that hold a
    function of the kernel are copied into an address space of its own, mapped
    readable and executable.  The theorem: given a mapped function and enough
    free frames, the process is built, sees exactly the bytes of the kernel's
    pages at the function's offset, has a stack and nothing else, and shares no
    frame with the kernel's code. *)
From S2P Require Import Prelude Abi CapTable Bitmap Phys Virt Process Elf Mapper MapRegion Sched Kernel Handlers Block.
From S2P Require Import Fat Virtio Syscall UserMem Regions Loader MapperModel SchedProps.
Open Scope Z_scope.

Definition DUMMY_CODE_BASE : Z := 0x400000.
Definition DUMMY_FLAGS : Z := Z.lor PRESENT USER_ACCESSIBLE.

Section dummy.
Context (W : nat) `{X86}.
Implicit Types m : Mem.

(** [virt::translate]: through the kernel's own tables. *)
Definition virt_translate m (addr : Z) : option Z := fst <$> Virt.translate_in m (kernel_pml4 m) addr.

(** The loop over the two pages. *)
Fixpoint copy_code m (s : AddressSpace) (source_frame : Z) (idx : list Z) : outcome (Mem * result unit string) :=
  match idx with
  | [] => Ret (m, Ok tt)
  | i :: idx =>
      let! '(a, r) := Phys.allocate_frame W (frames m) in
      let m := set_frames m a in
      match r with
      | None => Ret (m, Err "out of memory copying dummy code"%string)
      | Some dest_frame =>
          let m := set_ram m (<[dest_frame := frame_words (ram m) (source_frame + i * 4096)]> (ram m)) in
          let! v := Elf.new_virt_addr (DUMMY_CODE_BASE + i * 4096) in
          match Virt.address_space_map m s (page_of v) dest_frame DUMMY_FLAGS with
          | (m, Err _) => Ret (m, Err "failed to map dummy code page"%string)
          | (m, Ok _) => copy_code m s source_frame idx
          end
      end
  end.

(** An address space that is not handed on is dropped on the way out. *)
Definition new_dummy `{Selectors} m (p : Pid) (entry_fn : Z) (par : option Pid) : outcome (Mem * result Process string) :=
  let! '(m, r) := Virt.address_space_new W m in
  match r with
  | Err _ => Ret (m, Err "out of memory creating address space"%string)
  | Ok s =>
      let! kernel_vaddr := Elf.new_virt_addr entry_fn in
      match virt_translate m kernel_vaddr with
      | None =>
          let! m := Virt.address_space_drop W m s in
          Ret (m, Err "dummy entry function is not mapped"%string)
      | Some phys =>
          let source_frame := page_of phys in
          let page_offset := phys - source_frame in
          let! '(m, r) := copy_code m s source_frame [0; 1] in
          match r with
          | Err e => let! m := Virt.address_space_drop W m s in Ret (m, Err e)
          | Ok _ =>
              let! entry := Elf.new_virt_addr (DUMMY_CODE_BASE + page_offset) in
              Elf.process_new W m p s entry par
          end
      end
  end.
End dummy.

(** ** What a new process sees *)
Section spec.
Context (W : nat) `{SpaceLaws W}.
Implicit Types (m : Mem) (pages fs : list Z).
Abbreviation free m f := (free_frame W (frames m) f).

Lemma fresh_unfilled fill m m' pml4 pages flags fs :
  fresh_pages W fill m m' pml4 pages flags fs -> fresh_pages W None m m' pml4 pages flags fs.
Proof. intros []. by split. Qed.

Definition code_page (i : Z) : Z := DUMMY_CODE_BASE + i * 4096.

(** A frame that stays as it is while a process is built. *)
Definition kept_frame m (pml4 f : Z) : Prop := 0 <= f /\ ~ free m f /\ f ∉ tables m pml4.

Lemma kept_fresh fill m m' pml4 pages flags fs f :
  fresh_pages W fill m m' pml4 pages flags fs -> kept_frame m pml4 f -> kept_frame m' pml4 f /\ ram m' !! f = ram m !! f.
Proof.
  intros Hfr (H0f & Hf & Ht). split; [|by apply (fr_ram _ _ _ _ _ _ _ _ Hfr)]. split_and!; [done| |].
  - by intros Hg%(fr_mono _ _ _ _ _ _ _ _ Hfr).
  - intros Hg. by destruct (fr_tables _ _ _ _ _ _ _ _ Hfr f H0f Hg).
Qed.

(** The copies: a fresh frame per page, with the contents of the source. *)
Lemma copy_code_fresh m pml4 src idx :
  roomy W m pml4 (code_page <$> idx) -> Forall (fun i => 0 <= i <= 1) idx ->
  Forall (fun i => kept_frame m pml4 (src + i * 4096)) idx ->
  exists m' fs, copy_code W m (mkAS pml4) src idx = Ret (m', Ok tt) /\
    fresh_pages W None m m' pml4 (code_page <$> idx) DUMMY_FLAGS fs /\
    forall k i f, idx !! k = Some i -> fs !! k = Some f -> ram m' !! f = Some (frame_words (ram m) (src + i * 4096)).
Proof.
  revert m. induction idx as [|i idx IH]; intros m Hr Hi Hk; cbn [copy_code].
  { exists m, []. split; [done|]. split; [apply fresh_nil, Hr|done]. }
  rewrite fmap_cons in Hr |- *. pose proof (ro_aligned _ _ _ _ Hr) as [Ha _]%Forall_cons. pose proof (ro_unmapped _ _ _ _ Hr) as [Hu _]%Forall_cons.
  pose proof (ro_nodup _ _ _ _ Hr) as [Hp _]%NoDup_cons. pose proof (ro_free _ _ _ _ Hr) as Hf. cbn [length] in Hf.
  apply Forall_cons in Hi as [Hi1 Hi]. apply Forall_cons in Hk as [Hk1 Hk].
  set (ws := frame_words (ram m) (src + i * 4096)).
  destruct (fresh_one W (Some ws) m pml4 (code_page i) DUMMY_FLAGS (ro_ok _ _ _ _ Hr) (ro_pml4 _ _ _ _ Hr) Ha Hu ltac:(lia))
    as (a & f & Hal & m1 & Hm1 & Hfr).
  cbn [from_option] in Hm1. rewrite Hal. cbn iota beta. unfold Elf.new_virt_addr.
  rewrite lower_half by (unfold DUMMY_CODE_BASE; lia). cbn iota beta. cbn [ram set_frames] in Hm1 |- *. fold ws.
  fold (code_page i). rewrite page_of_aligned by done. unfold Virt.address_space_map, Virt.map_in. cbn [pml4_frame].
  rewrite Hm1. destruct (roomy_app W (Some ws) m pml4 [code_page i] (fmap (M:=list) code_page idx) Hr) as [_ Hnext].
  destruct (IH m1 (Hnext _ _ _ Hfr) Hi) as (m' & fs & Hrun & Hfs & Hws).
  { eapply Forall_impl; [exact Hk|]. intros j Hj. by eapply kept_fresh. }
  exists m', (f :: fs). split; [exact Hrun|]. split.
  { apply (fresh_app W None m m1 m' pml4 [code_page i] (fmap (M:=list) code_page idx) DUMMY_FLAGS [f] fs);
      [apply Hr|by eapply fresh_unfilled|done|set_solver]. }
  destruct (fr_took _ _ _ _ _ _ _ _ Hfr f ltac:(left)) as [Hff Hnf].
  intros [|k] j g Hj Hg; simplify_eq/=.
  - rewrite (fr_ram _ _ _ _ _ _ _ _ Hfs); [by apply (fr_fill _ _ _ _ _ _ _ _ Hfr); [|left]|by apply (free_nonneg W m)|done|].
    apply (fr_data _ _ _ _ _ _ _ _ Hfr). left.
  - rewrite (Hws k j g Hj Hg). f_equal. unfold frame_words. f_equal. eapply kept_fresh; [done|].
    by apply (proj1 (Forall_forall _ _) Hk), list_elem_of_lookup_2 with k.
Qed.

(** The space [pml4], created in [m], of a process whose code is the two frames
    from [src] on. *)
Record dummy_image m m' (pml4 src : Z) : Prop := {
  di_byte : forall i x, 0 <= i <= 1 -> page_of x = code_page i ->
    user_byte m' pml4 x = frame_bytes (ram m) (src + i * 4096) !! Z.to_nat (x - code_page i);
  di_flags : forall i, 0 <= i <= 1 -> exists f, translate m' pml4 (code_page i) = Mapped f 0 DUMMY_FLAGS /\ free m f;
  di_stack : forall p, p ∈ user_stack_pages -> exists f, translate m' pml4 p = Mapped f 0 STACK_FLAGS;
  di_nothing_else : forall a, 0 <= a < 2 ^ 47 -> page_of a ∉ [code_page 0; code_page 1] ++ user_stack_pages ->
    translate m' pml4 a = NotMapped;
  di_kernel : forall a, 256 <= pml4_index a -> 2 ^ 47 <= a -> translate m' pml4 a = translate m (kernel_pml4 m) a;
  di_ram : forall f, kept_frame m (kernel_pml4 m) f -> ram m' !! f = ram m !! f;
}.

Lemma code_page_cases p : p ∈ [code_page 0; code_page 1] -> page_of p = p /\ 0 <= p < 2 ^ 32.
Proof.
  intros Hp. repeat (apply elem_of_cons in Hp as [->|Hp]; [split; [done|unfold code_page, DUMMY_CODE_BASE; lia]|]).
  by apply elem_of_nil in Hp.
Qed.

(** The pages a fresh space has room for. *)
Lemma fresh_space_roomy m pml4 :
  space_ok W m pml4 -> 0 <= pml4 -> (forall a, 0 <= a < 2 ^ 47 -> translate m pml4 a = NotMapped) ->
  (24 <= Phys.free_frame_count (frames m))%nat -> roomy W m pml4 ([code_page 0; code_page 1] ++ user_stack_pages).
Proof.
  intros Hok H0p Hlow Hfree.
  assert (forall p, p ∈ [code_page 0; code_page 1] ++ user_stack_pages -> page_of p = p /\ 0 <= p < 2 ^ 47) as Hb.
  { intros p [Hp|Hp]%elem_of_app; [apply code_page_cases in Hp|apply user_stack_bounds in Hp]; destruct Hp; split; [done|lia|done|lia]. }
  split; try done.
  - apply NoDup_app. split_and!; [| |apply NoDup_page_range].
    + apply NoDup_cons. split; [|apply NoDup_singleton]. by intros ?%list_elem_of_singleton.
    + intros p [_ Hp]%code_page_cases [_ Hq]%user_stack_bounds. lia.
  - apply Forall_forall. intros p [Hp _]%Hb. rewrite page_of_sub in Hp. lia.
  - apply Forall_forall. intros p [_ Hp]%Hb. by apply Hlow.
Qed.

Lemma fresh_page_at fill m m' pml4 pages flags fs p :
  fresh_pages W fill m m' pml4 pages flags fs -> p ∈ pages -> page_of p = p ->
  exists k f, pages !! k = Some p /\ fs !! k = Some f /\ translate m' pml4 p = Mapped f 0 flags /\ f ∈ fs.
Proof.
  intros Hfr [k Hk]%list_elem_of_lookup_1 Hpp. destruct (lookup_lt_is_Some_2 fs k) as [f Hf].
  { rewrite (fr_length _ _ _ _ _ _ _ _ Hfr). by eapply lookup_lt_Some. }
  exists k, f. split_and!; [done|done| |by eapply list_elem_of_lookup_2].
  rewrite (fr_pages _ _ _ _ _ _ _ _ Hfr k p f Hk Hf p Hpp). by rewrite Z.sub_diag.
Qed.

(** From the steps of [new_dummy] to what the process sees. *)
Lemma dummy_image_intro m m1 m2 m3 pml4 src fs gs :
  free m pml4 -> kept_frame m (kernel_pml4 m) src -> kept_frame m (kernel_pml4 m) (src + 4096) ->
  (forall a, 0 <= a < 2 ^ 47 -> translate m1 pml4 a = NotMapped) ->
  (forall a, 256 <= pml4_index a -> translate m1 pml4 a = translate m (kernel_pml4 m) a) ->
  (forall f, free m1 f <-> free m f /\ f <> pml4) ->
  (forall f, kept_frame m (kernel_pml4 m) f -> kept_frame m1 pml4 f /\ ram m1 !! f = ram m !! f) ->
  fresh_pages W None m1 m2 pml4 [code_page 0; code_page 1] DUMMY_FLAGS fs ->
  (forall k i f, [0; 1] !! k = Some i -> fs !! k = Some f -> ram m2 !! f = Some (frame_words (ram m1) (src + i * 4096))) ->
  fresh_pages W None m2 m3 pml4 user_stack_pages STACK_FLAGS gs -> dummy_image m m3 pml4 src.
Proof.
  intros Hf1 Hs0 Hs1 Hlow Hup Hfree Hkeep Hcode Hws Hst.
  assert (forall i, 0 <= i <= 1 -> exists f, translate m3 pml4 (code_page i) = Mapped f 0 DUMMY_FLAGS /\ free m f /\
    ram m3 !! f = Some (frame_words (ram m) (src + i * 4096))) as Hc.
  { intros i Hi. assert (code_page i ∈ [code_page 0; code_page 1]) as Hin.
    { assert (i = 0 \/ i = 1) as [->| ->] by lia; [left|right; left]. }
    destruct (code_page_cases _ Hin) as [Hpp Hb]. destruct (fresh_page_at _ _ _ _ _ _ _ _ Hcode Hin Hpp) as (k & f & Hk & Hf & Ht & Hfs).
    destruct (fr_took _ _ _ _ _ _ _ _ Hcode f Hfs) as [Hff Hnf]. exists f. split_and!.
    - rewrite (fr_others _ _ _ _ _ _ _ _ Hst); [done|]. rewrite Hpp. intros [_ ?]%user_stack_bounds. lia.
    - by apply Hfree.
    - rewrite (fr_ram _ _ _ _ _ _ _ _ Hst); [|by apply (free_nonneg W m1)|done|by apply (fr_data _ _ _ _ _ _ _ _ Hcode)].
      assert ([0; 1] !! k = Some i) as Hki.
      { destruct k as [|[|k]]; simplify_eq/=; f_equal; unfold code_page in *; lia. }
      rewrite (Hws k i f Hki Hf). f_equal. unfold frame_words. f_equal.
      assert (i = 0 \/ i = 1) as [->| ->] by lia; rewrite ?Z.mul_0_l, ?Z.mul_1_l, ?Z.add_0_r; by apply Hkeep. }
  split.
  - intros i x Hi Hx. destruct (Hc i Hi) as (f & Ht & _ & Hr). unfold user_byte, Virt.translate_in.
    rewrite Hx, Ht, Z.add_0_r. unfold frame_bytes, frame_words at 1. by rewrite Hr.
  - intros i Hi. destruct (Hc i Hi) as (f & Ht & Hff & _). by exists f.
  - intros p Hp. destruct (user_stack_bounds p Hp) as [Hpp _].
    destruct (fresh_page_at _ _ _ _ _ _ _ _ Hst Hp Hpp) as (k & f & _ & _ & Ht & _). by exists f.
  - intros a Ha [Hn1 Hn2]%not_elem_of_app.
    rewrite (fr_others _ _ _ _ _ _ _ _ Hst), (fr_others _ _ _ _ _ _ _ _ Hcode) by done. by apply Hlow.
  - intros a Hi Ha. apply page_of_upper in Ha.
    rewrite (fr_others _ _ _ _ _ _ _ _ Hst), (fr_others _ _ _ _ _ _ _ _ Hcode); [by apply Hup|..].
    + intros [_ Hb]%code_page_cases. lia.
    + intros [_ Hb]%user_stack_bounds. lia.
  - intros f Hf. destruct (Hkeep f Hf) as [Hf' <-]. destruct (kept_fresh _ _ _ _ _ _ _ _ Hcode Hf') as [Hf2 <-].
    by apply (kept_fresh _ _ _ _ _ _ _ _ Hst).
Qed.

(** C22: A process from kernel code.  Given the address of a mapped kernel function,
    whose two physical pages are neither free nor page tables, a process-table
    index and 25 free frames, [new_dummy] succeeds.  The process starts at the
    function's offset in the copied pages, which hold exactly the kernel's bytes
    on frames of its own and are not writable; it has a stack, nothing else in
    its half of the address space, and the kernel in the other; no frame of the
    kernel but a page table is written. *)
Theorem new_dummy_correct `{Selectors} m (p : Pid) (entry_fn phys : Z) (par : option Pid)
    (Hk : kernel_space_ok W m) (Hp : (pid_index p < MAX_PROCESSES)%nat) (Hfree : (25 <= Phys.free_frame_count (frames m))%nat)
    (Hup : 2 ^ 64 - 2 ^ 47 <= entry_fn < 2 ^ 64) (Ht : virt_translate m entry_fn = Some phys)
    (Hs0 : kept_frame m (kernel_pml4 m) (page_of phys)) (Hs1 : kept_frame m (kernel_pml4 m) (page_of phys + 4096)) :
  exists m' pml4,
    new_dummy W m p entry_fn par = Ret (m', Ok (mkProcess p (mkAS pml4)
      (initial_user_frame (DUMMY_CODE_BASE + (phys - page_of phys)) USER_STACK_TOP) Cap.new Ready par None None USER_HEAP_START)) /\
    dummy_image m m' pml4 (page_of phys).
Proof.
  destruct (new_space W m Hk ltac:(lia)) as (m1 & pml4 & Hnew & Hok1 & Hf1 & Hlow & Hupper & Hfr & Htab & Hram & Hc & Hkp).
  pose proof (free_nonneg W m pml4 Hf1) as H0p.
  pose proof (fresh_space_roomy m1 pml4 Hok1 H0p Hlow ltac:(lia)) as Hroom.
  assert (forall f, kept_frame m (kernel_pml4 m) f -> kept_frame m1 pml4 f /\ ram m1 !! f = ram m !! f) as Hkeep.
  { intros f (H0f & Hf & Hft). assert (f <> pml4) as Hne by (by intros ->). split; [|by apply Hram].
    split_and!; [done|rewrite Hfr; tauto|]. by intros [?|?]%Htab. }
  destruct (roomy_app W None m1 pml4 _ _ Hroom) as [Hr1 Hnext].
  destruct (copy_code_fresh m1 pml4 (page_of phys) [0; 1] Hr1) as (m2 & fs & Hcopy & Hcode & Hws).
  { repeat constructor; lia. }
  { repeat constructor; rewrite ?Z.mul_0_l, ?Z.mul_1_l, ?Z.add_0_r; by apply Hkeep. }
  destruct (map_stack_fresh W m2 pml4 user_stack_pages (Hnext _ _ _ Hcode)) as (m3 & gs & Hmap & Hst).
  exists m3, pml4. split; [|by eapply dummy_image_intro].
  unfold new_dummy. rewrite Hnew. cbn iota beta. unfold Elf.new_virt_addr at 1. rewrite upper_half by done. cbn iota beta.
  assert (virt_translate m1 entry_fn = Some phys) as ->.
  { revert Ht. unfold virt_translate, Virt.translate_in. rewrite Hkp. intros <-. f_equal. destruct Hk as (Hkok & _ & Hkf & _).
    destruct (walk_tables m m1 (kernel_pml4 m)) as [_ Htr]; [|by rewrite Htr].
    intros g Hg. apply Hram. intros ->. by apply (proj2 Hkok pml4). }
  rewrite Hcopy. cbn iota beta. pose proof (page_of_bounds phys). unfold Elf.new_virt_addr, Elf.process_new.
  rewrite lower_half by (unfold DUMMY_CODE_BASE; lia). cbn iota beta. cbn [pml4_frame]. fold user_stack_pages.
  rewrite Hmap. cbn iota beta. by rewrite decide_False by lia.
Qed.
End spec.

(** ** A kernel function on a small machine
    Sixty free frames; the kernel's text in frames 101 and 102, at the top of
    the address space. *)
Definition KERNEL_TEXT : Z := 0xffffffff80010000.
Definition code_mem (W : nat) (text : list Z) : Mem :=
  let e := 100 * 4096 + 7 in
  set_ram (demo_fresh_mem W 60)
    (<[0 := set_entry [] 511 e]>
       (<[- e - 1 := [KERNEL_TEXT; 101 * 4096; PRESENT; KERNEL_TEXT + 4096; 102 * 4096; PRESENT]]>
          (<[101 * 4096 := text]> (ram (demo_fresh_mem W 60))))).

Lemma free_frame_index W a i : free_frame W a (Z.of_nat i * 4096) -> BM.is_free W (bitmap a) i = true.
Proof. intros (j & Hj & Hi). unfold FRAME_SIZE in Hj. by assert (j = i) as -> by lia. Qed.

Lemma tree_tables_top m p f : 0 <= f -> f ∈ @tables tree_x86 tree_walk m p -> f = p.
Proof. intros Hf [->|(a & He & ->)]%elem_of_tree_tables; [done|lia]. Qed.

(** Another contents of memory with the same frames. *)
Lemma tree_kernel_ram W m r :
  @kernel_space_ok W tree_x86 tree_walk m -> length (frame_words r (kernel_pml4 m)) = 512%nat ->
  @kernel_space_ok W tree_x86 tree_walk (set_ram m r).
Proof.
  intros ([Hwf _] & _ & Hfree & H0) Hl. split_and!; [split; [exact Hwf|]|exact Hl|exact Hfree|exact H0].
  intros f Hf Hff. assert (0 <= f) as Hnn by (destruct Hff as (i & -> & _); unfold FRAME_SIZE; lia).
  apply (tree_tables_top _ _ _ Hnn) in Hf as ->. exact (Hfree Hff).
Qed.

Lemma tree_kept W m i :
  kernel_pml4 m = 0 -> BM.is_free W (bitmap (frames m)) i = false -> i <> 0%nat ->
  @kept_frame W tree_x86 tree_walk m (kernel_pml4 m) (Z.of_nat i * 4096).
Proof.
  intros Hk Hi Hne. rewrite Hk. split_and!; [lia| |].
  - intros Hf%free_frame_index. congruence.
  - intros Hin%tree_tables_top; lia.
Qed.

Lemma new_dummy_correct_witness :
  exists m' pml4 q,
    @new_dummy 2 tree_x86 demo_selectors (code_mem 2 [0; 0; 0xFDEBF4]) (pid_new 3 1) (KERNEL_TEXT + 16) None = Ret (m', Ok q) /\
    @user_byte tree_x86 m' pml4 (rip (trap_frame q)) = Some 0xF4.
Proof.
  destruct (@new_dummy_correct 2 tree_x86 tree_mapper_laws tree_mapper_total tree_walk (tree_space_laws 2) demo_selectors
    (code_mem 2 [0; 0; 0xFDEBF4]) (pid_new 3 1) (KERNEL_TEXT + 16) (101 * 4096 + 16) None) as (m' & pml4 & Hd & Hi).
  - apply tree_kernel_ram; [apply tree_kernel_space|reflexivity].
  - vm_compute. lia.
  - apply Nat.leb_le. vm_compute. reflexivity.
  - unfold KERNEL_TEXT. lia.
  - vm_compute. reflexivity.
  - apply (tree_kept 2 _ 101); [reflexivity|vm_compute; reflexivity|lia].
  - apply (tree_kept 2 _ 102); [reflexivity|vm_compute; reflexivity|lia].
  - eexists m', pml4, _. split; [exact Hd|].
    etransitivity; [refine (di_byte _ _ _ _ _ Hi 0 (DUMMY_CODE_BASE + 16) _ _); [lia|reflexivity]|reflexivity].
Defined.
