(* ===== verification/BootMem.v ===== *)
(** * Memory at boot
    ([memory/mod.rs], [memory/heap.rs], [task/process.rs], [task/scheduler.rs],
    [lapic.rs])

    The calls of [_start] that map the kernel's fixed regions, in its order:
    the heap, the kernel stacks, the scheduler's fields, the trap frames and the
    process boxes; then, inside [arch::x86_64::init] and the start of the other
    cores, the double-fault stacks, the local APIC's page and the idle stacks.
    The values the guarded slots are initialized with are the initial states of
    the other models.  [grown] is what a stretch of the boot does to memory;
    stretches compose. *)
From S2P Require Import Prelude Abi CapTable Bitmap Phys Virt Process Elf Mapper MapRegion Sched Kernel Handlers Block.
From S2P Require Import Fat Virtio Syscall UserMem Regions Loader.
Open Scope Z_scope.

Section boot_mem.
Context (W : nat) `{SpaceLaws W} (MEMMAP_USABLE : Z).
Implicit Types (m : Mem) (pages own : list Z).

(** ** The operations *)

(** [heap::init]; the allocator behind it is a third-party crate. *)
Definition heap_init m : outcome Mem :=
  map_region W m (Elf.page_range HEAP_START (HEAP_START + HEAP_SIZE - 1)) KERNEL_FLAGS
    "out of physical memory while mapping the kernel heap" "failed to map kernel heap page".

(** [memory::init]: the allocator from the memory map, the mapper over the
    table that [Cr3] names, and the heap. *)
Definition memory_init (hhdm_offset cr3 : Z) (boot_ram : gmap Z (list Z)) (entries : list MemmapEntry) : outcome Mem :=
  let! _ := Elf.new_virt_addr hhdm_offset in
  let! a := Phys.populate W MEMMAP_USABLE (Phys.new W) entries in
  heap_init (mkMem a boot_ram cr3).

(** A region with one mapping per slot. *)
Fixpoint map_slots m (slot_pages : nat -> list Z) (slots : list nat) (no_frame no_map : string) : outcome Mem :=
  match slots with
  | [] => Ret m
  | slot :: slots =>
      let! m := map_region W m (slot_pages slot) KERNEL_FLAGS no_frame no_map in
      map_slots m slot_pages slots no_frame no_map
  end.

Definition init_kernel_stacks m : outcome Mem :=
  map_slots m kernel_stack_pages (seq 0 MAX_PROCESSES)
    "out of memory mapping kernel stacks" "failed to map a kernel stack page".

Definition map_guarded_raw m (slot_base size : Z) : outcome Mem :=
  map_region W m (guarded_pages slot_base size) KERNEL_FLAGS
    "out of memory mapping a guarded slot" "failed to map a guarded slot page".

Fixpoint map_guarded_slots m (slots : list (Z * Z)) : outcome Mem :=
  match slots with
  | [] => Ret m
  | (slot_base, size) :: slots => let! m := map_guarded_raw m slot_base size in map_guarded_slots m slots
  end.

(** [scheduler::init]: the four fields of [Inner]. *)
Definition map_guarded_scheduler_state m (z : Sizes) : outcome (Mem * Inner) :=
  let! m := map_guarded_slots m
    ((fun f => (SCHED_STATE_BASE + Z.of_nat f * SCHED_FIELD_STRIDE, nth f (size_fields z) 0)) <$> seq 0 4) in
  Ret (m, inner_new).

Definition init_trap_frames m : outcome Mem :=
  map_guarded_slots m ((fun i => (trap_frame_slot_base (pid_new i 0), 160)) <$> seq 0 MAX_PROCESSES).

Definition init_process_slots m (z : Sizes) : outcome Mem :=
  map_guarded_slots m ((fun slot => (process_box_slot_base slot, size_process z)) <$> seq 0 PROCESS_SLOT_COUNT).

Definition NO_CACHE : Z := 2 ^ 4.
Definition LAPIC_FLAGS : Z := Z.lor PRESENT (Z.lor WRITABLE (Z.lor NO_CACHE NO_EXECUTE)).

(** [frame] is what [ApicBase::read] returned. *)
Definition init_mmio_mapping m (frame : Z) : outcome Mem :=
  let! v := Elf.new_virt_addr LAPIC_MMIO_VBASE in
  match Virt.map m (page_of v) frame LAPIC_FLAGS with
  | (m, Ok _) => Ret m
  | (_, Err _) => Panic "failed to map the LAPIC's MMIO page"
  end.

(** [init_idle_address_space], when it is the first to get there. *)
Definition build_idle_address_space m : outcome (Mem * AddressSpace) :=
  let! '(m, r) := Virt.address_space_new W m in
  match r with
  | Ok idle => Ret (m, idle)
  | Err _ => Panic "out of memory building the shared idle address space"
  end.

(** The regions mapped before [arch::x86_64::init]. *)
Definition map_fixed_regions m (z : Sizes) : outcome (Mem * Inner) :=
  let! m := init_kernel_stacks m in
  let! '(m, inner) := map_guarded_scheduler_state m z in
  let! m := init_trap_frames m in
  let! m := init_process_slots m z in
  Ret (m, inner).

(** ** Every region is one call of the mapping loop *)
Lemma heap_range : Elf.page_range HEAP_START (HEAP_START + HEAP_SIZE - 1) = heap_pages.
Proof. vm_compute. reflexivity. Qed.

Lemma map_slots_region m slot_pages slots no_frame no_map :
  map_slots m slot_pages slots no_frame no_map = map_region W m (slots ≫= slot_pages) KERNEL_FLAGS no_frame no_map.
Proof.
  revert m. induction slots as [|i slots IH]; intros m; [done|]. cbn [map_slots]. rewrite bind_cons, map_region_app.
  destruct (map_region W m (slot_pages i) _ _ _) as [m1|]; [|done]. cbn iota beta. apply IH.
Qed.

Lemma map_guarded_region m slots :
  map_guarded_slots m slots = map_region W m (slots ≫= fun '(b, s) => guarded_pages b s) KERNEL_FLAGS
    "out of memory mapping a guarded slot" "failed to map a guarded slot page".
Proof.
  revert m. induction slots as [|[b s] slots IH]; intros m; [done|]. cbn [map_guarded_slots]. unfold map_guarded_raw.
  rewrite bind_cons, map_region_app. destruct (map_region W m (guarded_pages b s) _ _ _) as [m1|]; [|done].
  cbn iota beta. apply IH.
Qed.

(** ** The kernel's space stays one *)
Lemma kernel_space_frames m a :
  kernel_space_ok W m -> Phys.wf W a -> (forall g, free_frame W a g -> free_frame W (frames m) g) ->
  kernel_space_ok W (set_frames m a).
Proof.
  intros ([_ Hst] & Hl & Hk & H0k) Hwf Hfree. split_and!; [|done|by intros Hf%Hfree|done]. split; [done|].
  intros g Hg Hf%Hfree. destruct (walk_tables m (set_frames m a) (kernel_pml4 m)) as [Ht _]; [done|].
  cbn [kernel_pml4 set_frames] in Hg. rewrite Ht in Hg. by apply (Hst g).
Qed.

Lemma kernel_space_map m page frame flags :
  kernel_space_ok W m -> kernel_space_ok W (fst (map_to m (kernel_pml4 m) page frame flags)).
Proof.
  intros (Hok & Hl & Hk & H0k). pose proof Hok as [Hwf Hst].
  pose proof (map_walk m (kernel_pml4 m) page frame flags Hok) as [Hmt _].
  pose proof (map_keeps m (kernel_pml4 m) page frame flags) as [Hmk Hmw].
  pose proof (fun g => free_map W m (kernel_pml4 m) page frame flags g Hwf) as Hmf.
  pose proof (map_size m (kernel_pml4 m) page frame flags Hl) as Hms.
  destruct (map_to m (kernel_pml4 m) page frame flags) as [m' r]. cbn [fst] in *. unfold kernel_space_ok. rewrite Hmk.
  split_and!; [|done|by intros Hf%Hmf|done]. split; [by apply Hmw|]. intros g Hg Hf.
  destruct (Hmt g (free_nonneg W m' g Hf) Hg) as [Ht|[_ Hn]]; [|done]. by apply (Hst g Ht), Hmf.
Qed.

Lemma map_region_space m m' pages flags no_frame no_map :
  kernel_space_ok W m -> map_region W m pages flags no_frame no_map = Ret m' -> kernel_space_ok W m'.
Proof.
  revert m. induction pages as [|p pages IH]; intros m Hk; cbn [map_region]; [by intros [= <-]|].
  destruct (Elf.new_virt_addr p) as [v|]; [|done]. cbn iota beta. pose proof Hk as ([Hwf _] & _).
  destruct (Phys.allocate_frame_cases W (frames m) Hwf) as ([a [f|]] & Ha & Hres); rewrite Ha; cbn iota beta; [|done].
  destruct Hres as (Hwf1 & _ & _ & i & _ & _ & Hall).
  assert (kernel_space_ok W (set_frames m a)) as Hk1.
  { apply kernel_space_frames; [done|done|]. intros g (j & -> & Hj). exists j. split; [done|]. rewrite Hall in Hj.
    by apply andb_true_iff in Hj as [Hj _]. }
  apply (kernel_space_map _ (page_of v) f flags) in Hk1. revert Hk1. unfold Virt.map.
  destruct (map_to _ _ _ _ _) as [m1 [[]|e]]; cbn [fst]; intros Hk1; [|done]. by apply IH.
Qed.

(** ** What a stretch of the boot does to memory *)

(** The pages [own] are mapped on frames of their own, the pages of [dev] on
    the device frames given with them, nothing else changed. *)
Record grown m m' own (dev : list (Z * Z)) : Prop := {
  gr_space : kernel_space_ok W m';
  gr_pml4 : kernel_pml4 m' = kernel_pml4 m;
  gr_keeps : forall f, Phys.held W (frames m) f -> Phys.held W (frames m') f;
  gr_own : exists fs, length fs = length own /\ took W m m' fs /\
    forall i page f x, own !! i = Some page -> fs !! i = Some f -> page_of x = page ->
      translate m' (kernel_pml4 m) x = Mapped f (x - page) KERNEL_FLAGS;
  gr_dev : forall page f x, (page, f) ∈ dev -> page_of x = page ->
    translate m' (kernel_pml4 m) x = Mapped f (x - page) LAPIC_FLAGS;
  gr_others : forall x, page_of x ∉ own ++ dev.*1 -> translate m' (kernel_pml4 m) x = translate m (kernel_pml4 m) x;
  gr_free : (Phys.free_frame_count (frames m) <=
             Phys.free_frame_count (frames m') + 4 * (length own + length dev))%nat;
}.

Lemma mapped_grown m m' pages fs : kernel_space_ok W m' -> mapped W m m' pages KERNEL_FLAGS fs -> grown m m' pages [].
Proof.
  intros Hk [Hwf Hp Hke Ht Hpg Hl Ho Hf]. split; try done.
  - exists fs. split_and!; [done..|]. intros i page f x Hpi Hfi Hx. by eapply Hpg.
  - intros page f x Hin. by apply elem_of_nil in Hin.
  - intros x. cbn. rewrite app_nil_r. apply Ho.
  - cbn [length]. lia.
Qed.

(** Pages that can be mapped, in a sound kernel space. *)
Definition growable m pages : Prop := kernel_space_ok W m /\ mappable W m pages.

Lemma growable_free m pages : growable m pages -> (4 * length pages <= Phys.free_frame_count (frames m))%nat.
Proof. intros [_ [_ _ _ _ _ Hf]]. done. Qed.

Lemma growable_prefix m ps qs : growable m (ps ++ qs) -> growable m ps.
Proof. intros [Hk Hm]. split; [done|]. by apply (mappable_app W m ps qs). Qed.

Lemma growable_next m m1 ps dev qs : growable m (ps ++ dev.*1 ++ qs) -> grown m m1 ps dev -> growable m1 qs.
Proof.
  intros [Hk [Hwf H0p Hn Hkp Hu Hf]] Hg. rewrite app_assoc in *. apply NoDup_app in Hn as (_ & Hd & Hn).
  apply Forall_app in Hkp as [_ Hkp]. apply Forall_app in Hu as [_ Hu]. rewrite !length_app, length_fmap in Hf.
  pose proof (gr_free _ _ _ _ Hg). split; [apply Hg|]. destruct (gr_space _ _ _ _ Hg) as ([Hwf1 _] & _ & _ & H0k).
  split; try done; [|lia]. apply Forall_forall. intros q Hq. rewrite (gr_pml4 _ _ _ _ Hg), (gr_others _ _ _ _ Hg).
  - by apply (proj1 (Forall_forall _ _) Hu).
  - rewrite page_of_aligned by (apply (proj1 (Forall_forall _ _) Hkp); done). intros Hp. by apply (Hd q).
Qed.

Lemma grown_region m pages no_frame no_map :
  growable m pages -> exists m', map_region W m pages KERNEL_FLAGS no_frame no_map = Ret m' /\ grown m m' pages [].
Proof.
  intros [Hk Hm]. edestruct (map_region_complete W m) as (m' & fs & Hr & Hmap); [done|]. exists m'. split; [exact Hr|].
  eapply mapped_grown; [|done]. by eapply map_region_space.
Qed.

Lemma grown_app m m1 m2 own1 dev1 own2 dev2 :
  grown m m1 own1 dev1 -> grown m1 m2 own2 dev2 ->
  (forall p, p ∈ own1 ++ dev1.*1 -> p ∉ own2 ++ dev2.*1) -> grown m m2 (own1 ++ own2) (dev1 ++ dev2).
Proof.
  intros [S1 K1 H1k (fs & L1 & [N1 T1] & P1) D1 O1 F1] [S2 K2 H2k (gs & L2 & [N2 T2] & P2) D2 O2 F2] Hdis.
  rewrite K1 in *. split.
  - done.
  - congruence.
  - auto.
  - exists (fs ++ gs). split_and!; [rewrite !length_app; lia| |].
    + split.
      * apply NoDup_app. split_and!; [done| |done]. intros f Hf Hg. destruct (T1 f Hf) as [Hh _].
        by destruct (T2 f Hg) as [_ Hn].
      * intros f [Hf|Hf]%elem_of_app; [destruct (T1 f Hf); auto|]. destruct (T2 f Hf). auto.
    + intros i page f x Hp Hf Hx. apply lookup_app_Some in Hp as [Hp|[Hge Hp]].
      * rewrite lookup_app_l in Hf by (rewrite L1; by eapply lookup_lt_Some). rewrite O2; [by eapply P1|].
        rewrite Hx. apply Hdis, elem_of_app. left. by eapply list_elem_of_lookup_2.
      * rewrite lookup_app_r in Hf by lia. rewrite L1 in Hf. by eapply P2.
  - intros page f x [Hin|Hin]%elem_of_app Hx; [|by eapply D2]. rewrite O2; [by eapply D1|]. rewrite Hx.
    apply Hdis, elem_of_app. right. apply list_elem_of_fmap. by exists (page, f).
  - intros x Hx. rewrite fmap_app, !elem_of_app in Hx. rewrite O2, O1; [done|..]; rewrite elem_of_app; tauto.
  - rewrite !length_app. lia.
Qed.

Lemma grown_nil m : kernel_space_ok W m -> grown m m [] [].
Proof.
  intros Hk. eapply mapped_grown; [done|]. apply mapped_nil. by destruct Hk as ([Hwf _] & _).
Qed.

Lemma lapic_page_ok : Elf.new_virt_addr LAPIC_MMIO_VBASE = Ret LAPIC_MMIO_VBASE /\ page_of LAPIC_MMIO_VBASE = LAPIC_MMIO_VBASE.
Proof. split; [|done]. unfold Elf.new_virt_addr. by rewrite upper_half by (unfold LAPIC_MMIO_VBASE; lia). Qed.

Lemma init_mmio_grown m frame :
  growable m lapic_pages ->
  exists m', init_mmio_mapping m frame = Ret m' /\ grown m m' [] [(LAPIC_MMIO_VBASE, frame)].
Proof.
  intros [Hk [Hwf H0p _ _ [Hu _]%Forall_cons Hf]]. cbn [length lapic_pages] in Hf.
  destruct (map_total W m (kernel_pml4 m) LAPIC_MMIO_VBASE frame LAPIC_FLAGS Hwf H0p eq_refl Hu ltac:(lia))
    as (m' & Hm & Hle).
  pose proof (kernel_space_map m LAPIC_MMIO_VBASE frame LAPIC_FLAGS Hk) as Hk'.
  pose proof (fun g => held_map W m (kernel_pml4 m) LAPIC_MMIO_VBASE frame LAPIC_FLAGS g Hwf) as Hh.
  pose proof (proj1 (map_keeps m (kernel_pml4 m) LAPIC_MMIO_VBASE frame LAPIC_FLAGS)) as Hp.
  destruct (map_ok _ _ _ _ _ _ Hm) as [Hin Hout]. rewrite Hm in Hk', Hh, Hp. cbn [fst] in Hk', Hh, Hp.
  exists m'. unfold init_mmio_mapping. rewrite (proj1 lapic_page_ok). cbn iota beta. rewrite (proj2 lapic_page_ok).
  unfold Virt.map. rewrite Hm. split; [done|]. split; try done.
  - exists []. split_and!; [done| |done]. split; [constructor|]. intros f Hf'. by apply elem_of_nil in Hf'.
  - intros page f x [= -> ->]%list_elem_of_singleton Hx. by apply Hin.
  - intros x Hx. apply Hout. intros Heq. apply Hx. rewrite Heq. cbn. by left.
  - cbn [length]. lia.
Qed.

(** [_start]'s first calls, on a machine whose kernel space is sound. *)
Definition fixed_pages (z : Sizes) : list Z :=
  (seq 0 MAX_PROCESSES ≫= kernel_stack_pages) ++
  (seq 0 4 ≫= fun f => sched_field_pages f (nth f (size_fields z) 0)) ++
  (seq 0 MAX_PROCESSES ≫= trap_frame_pages) ++
  (seq 0 PROCESS_SLOT_COUNT ≫= fun s => process_box_pages s (size_process z)).

Lemma growable_split m ps qs :
  growable m (ps ++ qs) -> growable m ps /\ (forall p, p ∈ ps -> p ∉ qs) /\ forall m1, grown m m1 ps [] -> growable m1 qs.
Proof.
  intros Hg. split_and!; [by eapply growable_prefix| |intros m1 Hm1; by apply (growable_next m m1 ps [] qs)].
  destruct Hg as [_ [_ _ Hn _ _ _]]. by apply NoDup_app in Hn as (_ & Hd & _).
Qed.

Lemma grown_then m m1 m2 ps qs :
  grown m m1 ps [] -> grown m1 m2 qs [] -> (forall p, p ∈ ps -> p ∉ qs) -> grown m m2 (ps ++ qs) [].
Proof. intros H1g H2g Hd. apply (grown_app m m1 m2 ps [] qs []); [done..|]. cbn. by rewrite !app_nil_r. Qed.

Lemma trap_frame_slots :
  (((fun i => (trap_frame_slot_base (pid_new i 0), 160)) <$> seq 0 MAX_PROCESSES) ≫= fun '(b, s) => guarded_pages b s) =
  (seq 0 MAX_PROCESSES ≫= trap_frame_pages).
Proof. vm_compute. reflexivity. Qed.

Lemma map_fixed_regions_grown m z :
  growable m (fixed_pages z) ->
  exists m', map_fixed_regions m z = Ret (m', inner_new) /\ grown m m' (fixed_pages z) [].
Proof.
  intros Hg. unfold fixed_pages in Hg |- *. unfold map_fixed_regions, init_kernel_stacks, map_guarded_scheduler_state,
    init_trap_frames, init_process_slots. rewrite map_slots_region.
  apply growable_split in Hg as (Hg1 & Hd1 & Hn1).
  edestruct (grown_region m) as (m1 & -> & Hm1); [exact Hg1|]. cbn iota beta. specialize (Hn1 m1 Hm1).
  apply growable_split in Hn1 as (Hg2 & Hd2 & Hn2). rewrite map_guarded_region.
  edestruct (grown_region m1) as (m2 & Hr2 & Hm2); [exact Hg2|]. rewrite list_fmap_bind.
  change (_ ∘ _) with (fun f => sched_field_pages f (nth f (size_fields z) 0)). rewrite Hr2.
  cbn iota beta. specialize (Hn2 m2 Hm2).
  apply growable_split in Hn2 as (Hg3 & Hd3 & Hn3). rewrite map_guarded_region, trap_frame_slots.
  edestruct (grown_region m2) as (m3 & Hr3 & Hm3); [exact Hg3|]. rewrite Hr3.
  cbn iota beta. specialize (Hn3 m3 Hm3). rewrite map_guarded_region, list_fmap_bind.
  edestruct (grown_region m3) as (m4 & Hr4 & Hm4); [exact Hn3|].
  change (_ ∘ _) with (fun s => process_box_pages s (size_process z)). rewrite Hr4. exists m4. split; [done|].
  eapply grown_then; [done| |done]. eapply grown_then; [done| |done]. by eapply grown_then.
Qed.

(** [memory::init] on the memory map of the boot loader. *)
Lemma memory_init_grown hhdm cr3 boot_ram entries a :
  Elf.new_virt_addr hhdm = Ret hhdm -> Phys.populate W MEMMAP_USABLE (Phys.new W) entries = Ret a ->
  growable (mkMem a boot_ram cr3) heap_pages ->
  exists m', memory_init hhdm cr3 boot_ram entries = Ret m' /\ grown (mkMem a boot_ram cr3) m' heap_pages [].
Proof.
  intros Hh Hp Hg. unfold memory_init, heap_init. rewrite Hh, Hp, heap_range. by apply grown_region.
Qed.

(** [init_idle_address_space]: one frame; the kernel's own space is as before. *)
Lemma idle_space m :
  kernel_space_ok W m -> (1 <= Phys.free_frame_count (frames m))%nat ->
  exists m' idle, build_idle_address_space m = Ret (m', mkAS idle) /\ kernel_space_ok W m' /\
    kernel_pml4 m' = kernel_pml4 m /\
    (Phys.free_frame_count (frames m) <= Phys.free_frame_count (frames m') + 1)%nat /\
    (forall x, translate m' (kernel_pml4 m) x = translate m (kernel_pml4 m) x) /\
    (forall x, 256 <= pml4_index x -> translate m' idle x = translate m (kernel_pml4 m) x) /\
    (forall x, 0 <= x < 2 ^ 47 -> translate m' idle x = NotMapped).
Proof.
  intros Hk Hc. pose proof Hk as ([Hwf Hst] & Hl & Hkf & H0k).
  destruct (new_space W m Hk Hc) as (m1 & pml4 & Hnew & [Hok1 _] & Hf1 & Hlow & Hup & Hfr & _ & Hram & Hcnt & Hkp).
  assert (kernel_pml4 m <> pml4) as Hne by (by intros <-).
  destruct (walk_tables m m1 (kernel_pml4 m)) as [Ht Htr].
  { intros g Hg. apply Hram. intros ->. by apply (Hst pml4). }
  exists m1, pml4. unfold build_idle_address_space. rewrite Hnew. cbn iota beta. split_and!; [done| |done..].
  unfold kernel_space_ok. rewrite Hkp. split_and!; [|unfold frame_words; by rewrite Hram| |done].
  - split; [done|]. intros g Hg [Hgf _]%Hfr. rewrite Ht in Hg. by apply (Hst g).
  - by intros [? _]%Hfr.
Qed.
End boot_mem.
