(* ===== verification/Pci.v ===== *)
(** * PCI configuration space ([kernel/src/arch/x86_64/pci.rs])

    Configuration mechanism 1: an address dword names bus, device, function
    and register, and a data dword is read or written there.  The host bridge
    and the devices behind it are hardware: a parameter with its own state.
    Byte arithmetic that overflows panics, as in the default build.  The
    theorems: an address dword decodes to what it was built from, the scan
    finds the first matching function and only that, the walk of the
    capability list is exact when the list ends and endless when it does not,
    and updating the command register rewrites the status register. *)
From S2P Require Import Prelude.
Open Scope Z_scope.

(** Reading has no side effects on the device. *)
Class PciHost (H : Type) := {
  cfg_read : H -> Z -> Z;
  cfg_write : H -> Z -> Z -> H;
}.

Record PciAddress := mkPciAddress { bus : Z; device : Z; function : Z }.

#[global] Instance PciAddress_eq_dec : EqDecision PciAddress.
Proof. solve_decision. Defined.

Record PciDevice := mkPciDevice { address : PciAddress; vendor : Z; device_id_ : Z }.

Definition config_address (a : PciAddress) (offset : Z) : Z :=
  Z.lor 0x80000000 (Z.lor (Z.shiftl (bus a) 16) (Z.lor (Z.shiftl (device a) 11)
    (Z.lor (Z.shiftl (function a) 8) (Z.land offset 0xFC)))).

(** [a + b] on [u8]. *)
Definition add_u8 (a b : Z) : outcome Z :=
  if decide (a + b < 256) then Ret (a + b) else Panic "attempt to add with overflow".

Definition mul_u8 (a b : Z) : outcome Z :=
  if decide (a * b < 256) then Ret (a * b) else Panic "attempt to multiply with overflow".

Module Pci.
Section pci.
Context {H : Type} `{PciHost H}.
Implicit Types (h : H) (a : PciAddress).

Definition read_u32 h a (offset : Z) : Z := cfg_read h (config_address a offset).

Definition dword_offset (offset : Z) : Z := Z.land offset (Z.lnot 3).
Definition shift_of (offset : Z) : Z := Z.land offset 3 * 8.

Definition write_u16 h a (offset value : Z) : H :=
  let existing := read_u32 h a (dword_offset offset) in
  let mask := wrap32 (Z.shiftl 0xFFFF (shift_of offset)) in
  let merged := Z.lor (Z.land existing (wrap32 (Z.lnot mask))) (wrap32 (Z.shiftl value (shift_of offset))) in
  cfg_write h (config_address a (dword_offset offset)) merged.

Definition read_u16 h a (offset : Z) : Z :=
  wrap 16 (Z.shiftr (read_u32 h a (dword_offset offset)) (shift_of offset)).
Definition read_u8 h a (offset : Z) : Z :=
  wrap 8 (Z.shiftr (read_u32 h a (dword_offset offset)) (shift_of offset)).

Definition vendor_id h a : Z := read_u16 h a 0x00.
Definition device_id h a : Z := read_u16 h a 0x02.
Definition header_type h a : Z := read_u8 h a 0x0E.
Definition command h a : Z := read_u16 h a 0x04.
Definition set_command h a (value : Z) : H := write_u16 h a 0x04 value.
Definition status h a : Z := read_u16 h a 0x06.
Definition bar_raw h a (index : Z) : outcome Z :=
  let! i := mul_u8 index 4 in
  let! o := add_u8 0x10 i in
  Ret (read_u32 h a o).

Definition mmio_bar_address h (d : PciDevice) (index : Z) : outcome Z :=
  let! raw := bar_raw h (address d) index in
  assert! bool_decide (Z.land raw 1 = 0) else "BAR is an I/O-space BAR, not memory";
  let base_low := Z.land raw 0xFFFFFFF0 in
  if decide (Z.land (Z.shiftr raw 1) 3 = 2)
  then let! i := add_u8 index 1 in let! high := bar_raw h (address d) i in Ret (Z.lor base_low (Z.shiftl high 32))
  else Ret base_low.

Definition MEMORY_SPACE_ENABLE : Z := 2.
Definition BUS_MASTER_ENABLE : Z := 4.
Definition enable_mmio_and_bus_master h (d : PciDevice) : H :=
  set_command h (address d) (Z.lor (Z.lor (command h (address d)) MEMORY_SPACE_ENABLE) BUS_MASTER_ENABLE).

(** [PciDevice::capabilities]: the iterator's starting offset. *)
Definition STATUS_CAPABILITIES_LIST : Z := 16.
Definition capabilities h (d : PciDevice) : Z :=
  if decide (Z.land (status h (address d)) STATUS_CAPABILITIES_LIST <> 0) then read_u8 h (address d) 0x34 else 0.

(** [PciCapabilities::next]: the entry and the next offset. *)
Definition cap_next h a (next : Z) : outcome (option (Z * Z) * Z) :=
  if decide (next = 0) then Ret (None, next)
  else
    let! after := add_u8 next 1 in
    Ret (Some (read_u8 h a next, next), read_u8 h a after).

(** A [for] loop over the iterator collecting its entries; [None] when the
    fuel is used up. *)
Fixpoint cap_list (fuel : nat) h a (next : Z) : option (outcome (list (Z * Z))) :=
  match fuel with
  | O => None
  | S fuel =>
      match cap_next h a next with
      | Panic w => Some (Panic w)
      | Ret (None, _) => Some (Ret [])
      | Ret (Some e, next) =>
          match cap_list fuel h a next with
          | Some (Ret l) => Some (Ret (e :: l))
          | x => x
          end
      end
  end.

(** ** [find_device], loop by loop *)
Definition match_function h (v d : Z) a : option PciDevice :=
  let vid := vendor_id h a in
  if decide (vid = 0xFFFF) then None
  else
    let did := device_id h a in
    if decide (vid = v /\ did = d) then Some (mkPciDevice a vid did) else None.

Fixpoint scan_functions h (v d b dev : Z) (fs : list Z) : option PciDevice :=
  match fs with
  | [] => None
  | f :: fs =>
      match match_function h v d (mkPciAddress b dev f) with
      | Some x => Some x
      | None => scan_functions h v d b dev fs
      end
  end.

Definition function_count h (b dev : Z) : Z :=
  if decide (Z.land (header_type h (mkPciAddress b dev 0)) 0x80 <> 0) then 8 else 1.

Fixpoint scan_devices h (v d b : Z) (devs : list Z) : option PciDevice :=
  match devs with
  | [] => None
  | dev :: devs =>
      if decide (vendor_id h (mkPciAddress b dev 0) = 0xFFFF) then scan_devices h v d b devs
      else
        match scan_functions h v d b dev (seqZ 0 (function_count h b dev)) with
        | Some x => Some x
        | None => scan_devices h v d b devs
        end
  end.

Fixpoint scan_buses h (v d : Z) (buses : list Z) : option PciDevice :=
  match buses with
  | [] => None
  | b :: buses =>
      match scan_devices h v d b (seqZ 0 32) with
      | Some x => Some x
      | None => scan_buses h v d buses
      end
  end.

Definition find_device h (v d : Z) : option PciDevice := scan_buses h v d (seqZ 0 256).

(** ** Address dwords *)
Lemma dword_aligned o : 0 <= o < 256 -> Z.land o 0xFC = o / 4 * 4.
Proof.
  intros Ho. assert (forallb (fun o => Z.land o 0xFC =? o / 4 * 4) (seqZ 0 256) = true) as Hall by (vm_compute; reflexivity).
  rewrite forallb_forall in Hall. apply Z.eqb_eq, Hall, list_elem_of_In, elem_of_seqZ. lia.
Qed.

Lemma config_address_sum a o :
  is_u8 (bus a) -> 0 <= device a < 32 -> 0 <= function a < 8 -> is_u8 o ->
  config_address a o = 2 ^ 31 + bus a * 2 ^ 16 + device a * 2 ^ 11 + function a * 2 ^ 8 + o / 4 * 4.
Proof.
  unfold in_width. intros Hb Hd Hf Ho. unfold config_address. rewrite dword_aligned by lia.
  assert (0 <= o / 4 * 4 < 256) as Hq by div_lia. revert Hq. generalize (o / 4 * 4). intros q Hq.
  change (2 ^ 16) with 65536. change (2 ^ 11) with 2048. change (2 ^ 8) with 256 in *. change (2 ^ 31) with 2147483648.
  rewrite (Z.lor_comm (Z.shiftl (function a) 8)), (lor_shiftl_add _ _ 8) by lia.
  rewrite (Z.lor_comm (Z.shiftl (device a) 11)), (lor_shiftl_add _ _ 11) by lia.
  rewrite (Z.lor_comm (Z.shiftl (bus a) 16)), (lor_shiftl_add _ _ 16) by lia.
  change 0x80000000 with (Z.shiftl 1 31). rewrite Z.lor_comm, (lor_shiftl_add _ _ 31) by lia.
  change (Z.shiftl 1 31) with 2147483648. lia.
Qed.

(** The address dword names exactly one register: it has the enable bit
    and 32 bits, and bus, device, function and aligned register number can be
    read back from it. *)
Theorem config_address_decodes (a : PciAddress) (o : Z)
    (Hb : is_u8 (bus a)) (Hd : 0 <= device a < 32) (Hf : 0 <= function a < 8) (Ho : is_u8 o) :
  let w := config_address a o in
  2 ^ 31 <= w < 2 ^ 32 /\ Z.land (Z.shiftr w 16) 0xFF = bus a /\ Z.land (Z.shiftr w 11) 0x1F = device a /\
  Z.land (Z.shiftr w 8) 7 = function a /\ Z.land w 0xFF = o - o mod 4.
Proof.
  intros w. pose proof (config_address_sum a o Hb Hd Hf Ho) as Hw. fold w in Hw. unfold in_width in *.
  change 0xFF with (Z.ones 8). change 0x1F with (Z.ones 5). change 7 with (Z.ones 3).
  rewrite !Z.land_ones, !Z.shiftr_div_pow2 by lia. clearbody w.
  assert (o - o mod 4 = o / 4 * 4) as -> by div_lia. assert (0 <= o / 4 * 4 < 256) as Hq by div_lia.
  revert Hw Hq. generalize (o / 4 * 4). intros q Hw Hq. subst w. clear Ho.
  destruct a as [b d f]. simpl in *. change (Z.ones 5) with 31. split_and!; [lia|lia|..].
  - replace (2 ^ 31 + b * 2 ^ 16 + d * 2 ^ 11 + f * 2 ^ 8 + q)
      with ((2 ^ 15 + b) * 2 ^ 16 + (d * 2 ^ 11 + f * 2 ^ 8 + q)) by lia.
    rewrite Z.div_add_l, (Z.div_small (_ + q)) by lia. div_lia.
  - replace (2 ^ 31 + b * 2 ^ 16 + d * 2 ^ 11 + f * 2 ^ 8 + q)
      with ((2 ^ 20 + b * 2 ^ 5 + d) * 2 ^ 11 + (f * 2 ^ 8 + q)) by lia.
    rewrite Z.div_add_l, (Z.div_small (_ + q)) by lia. div_lia.
  - replace (2 ^ 31 + b * 2 ^ 16 + d * 2 ^ 11 + f * 2 ^ 8 + q)
      with ((2 ^ 23 + b * 2 ^ 8 + d * 2 ^ 3 + f) * 2 ^ 8 + q) by lia.
    rewrite Z.div_add_l, (Z.div_small q) by lia. div_lia.
  - div_lia.
Qed.

(** ** The scan *)
Definition matches h (v d : Z) a : Prop := vendor_id h a = v /\ device_id h a = d /\ v <> 0xFFFF.

#[global] Instance matches_dec h v d a : Decision (matches h v d a).
Proof. unfold matches. apply _. Defined.

(** The functions the scan visits, in order: of every device that is present
    function 0, and functions 1 to 7 when it says it has more than one. *)
Definition device_functions h (b dev : Z) : list PciAddress :=
  if decide (vendor_id h (mkPciAddress b dev 0) = 0xFFFF) then []
  else mkPciAddress b dev <$> seqZ 0 (function_count h b dev).
Definition bus_functions h (b : Z) : list PciAddress := seqZ 0 32 ≫= device_functions h b.
Definition all_functions h : list PciAddress := seqZ 0 256 ≫= bus_functions h.

Definition first_match h (v d : Z) (l : list PciAddress) : option PciDevice :=
  (fun a => mkPciDevice a v d) <$> head (filter (matches h v d) l).

Lemma match_function_spec h v d a :
  match_function h v d a = if decide (matches h v d a) then Some (mkPciDevice a v d) else None.
Proof.
  unfold match_function, matches. repeat case_decide; try done; try naive_solver.
Qed.

Lemma first_match_app h v d l l' :
  first_match h v d (l ++ l') = match first_match h v d l with Some x => Some x | None => first_match h v d l' end.
Proof. unfold first_match. rewrite filter_app. by destruct (filter _ l). Qed.

Lemma scan_functions_spec h v d b dev fs :
  scan_functions h v d b dev fs = first_match h v d (mkPciAddress b dev <$> fs).
Proof.
  induction fs as [|f fs IH]; [done|]. cbn [scan_functions fmap list_fmap]. rewrite match_function_spec, IH.
  unfold first_match. rewrite filter_cons. by case_decide.
Qed.

Lemma scan_devices_spec h v d b devs :
  scan_devices h v d b devs = first_match h v d (devs ≫= device_functions h b).
Proof.
  induction devs as [|dev devs IH]; [done|]. cbn [scan_devices]. rewrite bind_cons, first_match_app, IH.
  rewrite scan_functions_spec. 
  replace (device_functions h b dev) with
    (if decide (vendor_id h (mkPciAddress b dev 0) = 0xFFFF) then []
     else mkPciAddress b dev <$> seqZ 0 (function_count h b dev)) by done.
  by case_decide.
Qed.

(** [find_device] returns the first function, in bus, device and function
    order, whose identifiers are the wanted ones, among function 0 of every
    device present and all eight functions of those with several; it returns
    nothing exactly when there is none. *)
Theorem find_device_first h (v d : Z) : find_device h v d = first_match h v d (all_functions h).
Proof.
  unfold find_device, all_functions. induction (seqZ 0 256) as [|b buses IH]; [done|].
  cbn [scan_buses]. by rewrite bind_cons, first_match_app, IH, scan_devices_spec.
Qed.

(** ** The capability list *)

(** What following the list from [n] meets: its entries, and whether it ends
    at a zero pointer or runs into the byte arithmetic. *)
Inductive cap_run h a : Z -> list (Z * Z) -> bool -> Prop :=
| cr_end : cap_run h a 0 [] true
| cr_overflow : cap_run h a 255 [] false
| cr_entry n l ok : 0 < n < 255 -> cap_run h a (read_u8 h a (n + 1)) l ok ->
    cap_run h a n ((read_u8 h a n, n) :: l) ok.

Definition run_result (l : list (Z * Z)) (ok : bool) : outcome (list (Z * Z)) :=
  if ok then Ret l else Panic "attempt to add with overflow".

Lemma read_u8_range h a o : 0 <= read_u8 h a o < 256.
Proof. unfold read_u8, wrap. apply Z.mod_pos_bound. lia. Qed.

Lemma cap_run_unique h a n l ok l' ok' : cap_run h a n l ok -> cap_run h a n l' ok' -> l' = l /\ ok' = ok.
Proof.
  intros Hr. revert l' ok'. induction Hr as [| |n l ok Hn Hr IH]; intros l' ok' Hr'; inversion Hr'; subst; try lia; try done.
  destruct (IH _ _ ltac:(eassumption)) as [-> ->]. done.
Qed.

Lemma cap_run_drop h a n l ok i m :
  cap_run h a n l ok -> (snd <$> l) !! i = Some m -> cap_run h a m (drop i l) ok.
Proof.
  intros Hr. revert i. induction Hr as [| |n l ok Hn Hr IH]; intros i Hi; [done..|].
  destruct i as [|i]; simpl in Hi; [|by apply IH]. simplify_eq. by constructor.
Qed.

Lemma cap_run_short h a n l ok : cap_run h a n l ok -> (length l <= 254)%nat.
Proof.
  intros Hr. assert (NoDup (snd <$> l)) as Hnd.
  { apply NoDup_alt. intros i j m Hi Hj.
    destruct (cap_run_unique _ _ _ _ _ _ _ (cap_run_drop _ _ _ _ _ _ _ Hr Hi) (cap_run_drop _ _ _ _ _ _ _ Hr Hj)) as [He _].
    apply (f_equal length) in He. rewrite !length_drop in He.
    apply lookup_lt_Some in Hi, Hj. rewrite length_fmap in Hi, Hj. lia. }
  assert (forall m, m ∈ snd <$> l -> m ∈ seqZ 1 254) as Hsub.
  { intros m [i Hi]%list_elem_of_lookup. pose proof (cap_run_drop _ _ _ _ _ _ _ Hr Hi) as Hd.
    apply elem_of_seqZ. inversion Hd as [Hm He|Hm He|]; [..|lia].
    - apply (f_equal length) in He. rewrite length_drop in He. apply lookup_lt_Some in Hi. rewrite length_fmap in Hi.
      simpl in He. lia.
    - apply (f_equal length) in He. rewrite length_drop in He. apply lookup_lt_Some in Hi. rewrite length_fmap in Hi.
      simpl in He. lia. }
  apply NoDup_submseteq in Hsub; [|done]. apply submseteq_length in Hsub.
  by rewrite length_fmap, length_seqZ in Hsub.
Qed.

Lemma cap_list_run h a n l ok fuel :
  cap_run h a n l ok -> (length l < fuel)%nat -> cap_list fuel h a n = Some (run_result l ok).
Proof.
  intros Hr. revert fuel. induction Hr as [| |n l ok Hn Hr IH]; intros [|fuel] Hf; simpl in *; try lia; try done.
  unfold cap_next, add_u8. rewrite decide_False, decide_True by lia. rewrite IH by lia. by destruct ok.
Qed.

Lemma cap_list_complete h a n r fuel :
  0 <= n < 256 -> cap_list fuel h a n = Some r -> exists l ok, cap_run h a n l ok /\ r = run_result l ok.
Proof.
  revert n r. induction fuel as [|fuel IH]; intros n r Hn; [done|]. cbn [cap_list]. unfold cap_next, add_u8.
  case_decide as Hz; [intros [= <-]; subst; exists [], true; by split; [constructor|]|].
  case_decide as Hs.
  2: { intros [= <-]. assert (n = 255) as -> by lia. exists [], false. by split; [constructor|]. }
  destruct (cap_list fuel h a (read_u8 h a (n + 1))) as [r'|] eqn:Hc; [|done].
  destruct (IH _ _ (read_u8_range h a (n + 1)) Hc) as (l & ok & Hr & ->).
  intros Hres. exists ((read_u8 h a n, n) :: l), ok. split; [constructor; [lia|done]|].
  destruct ok; simpl in *; congruence.
Qed.

(** Walking the capability list.  When the list ends, the loop over it
    yields exactly its entries within 255 turns; when it does not end, as
    with a pointer back into the list, no number of turns finishes the loop. *)
Theorem capability_walk h a (n : Z) (Hn : 0 <= n < 256) :
  (forall l ok, cap_run h a n l ok -> cap_list 255 h a n = Some (run_result l ok)) /\
  ((forall l ok, ~ cap_run h a n l ok) -> forall fuel, cap_list fuel h a n = None).
Proof.
  split.
  - intros l ok Hr. apply cap_list_run; [done|]. pose proof (cap_run_short _ _ _ _ _ Hr). lia.
  - intros Hno fuel. destruct (cap_list fuel h a n) as [r|] eqn:Hc; [|done].
    destruct (cap_list_complete _ _ _ _ _ Hn Hc) as (l & ok & Hr & _). by destruct (Hno l ok).
Qed.

(** ** The command register *)

(** A dword of two halves. *)
Definition halves (lo hi : Z) : Z := Z.lor lo (Z.shiftl hi 16).

Lemma halves_low lo hi : 0 <= lo < 2 ^ 16 -> halves lo hi mod 2 ^ 16 = lo.
Proof.
  intros Hlo. unfold halves. rewrite lor_shiftl_add by lia. rewrite Z.mod_add by lia. by apply Z.mod_small.
Qed.

Lemma halves_high lo hi : 0 <= lo < 2 ^ 16 -> Z.shiftr (halves lo hi) 16 = hi.
Proof.
  intros Hlo. unfold halves. rewrite lor_shiftl_add by lia.
  rewrite Z.shiftr_div_pow2 by lia. rewrite Z.div_add by lia. rewrite Z.div_small; lia.
Qed.

Lemma high_half x : is_u32 x -> Z.land x 0xFFFF0000 = Z.shiftl (Z.shiftr x 16) 16.
Proof.
  unfold in_width. intros Hx. change 0xFFFF0000 with (Z.shiftl (Z.ones 16) 16).
  assert (x = halves (x mod 2 ^ 16) (Z.shiftr x 16)) as Hh.
  { unfold halves. rewrite lor_shiftl_add by div_lia. rewrite Z.shiftr_div_pow2 by lia. div_lia. }
  assert (0 <= Z.shiftr x 16 < 2 ^ 16) as Hs by (rewrite Z.shiftr_div_pow2 by lia; div_lia).
  rewrite Hh at 1. unfold halves. rewrite Z.land_lor_distr_l, <- Z.shiftl_land, Z.land_ones by lia.
  rewrite (Z.mod_small (Z.shiftr x 16)) by lia.
  replace (Z.land (x mod 2 ^ 16) (Z.shiftl (Z.ones 16) 16)) with 0; [done|].
  symmetry. rewrite <- Z.land_ones by lia. rewrite <- Z.land_assoc. change (Z.land (Z.ones 16) _) with 0. apply Z.land_0_r.
Qed.

(** The status bits a write of one clears, as the PCI specification lists
    them: parity, system, abort and master data errors. *)
Definition RW1C : Z := 0xF900.

Definition status_register (a : PciAddress) : Prop :=
  forall h v, is_u32 v ->
    cfg_read (cfg_write h (config_address a 4) v) (config_address a 4) =
    halves (v mod 2 ^ 16)
      (Z.land (Z.shiftr (cfg_read h (config_address a 4)) 16) (Z.lnot (Z.land (Z.shiftr v 16) RW1C))).

(** What the driver writes: the new command below the status it read. *)
Lemma enable_value x :
  is_u32 x ->
  let lo := Z.lor (Z.lor (wrap 16 x) MEMORY_SPACE_ENABLE) BUS_MASTER_ENABLE in
  0 <= lo < 2 ^ 16 /\ Z.lor (Z.land x 0xFFFF0000) (wrap32 lo) = halves lo (Z.shiftr x 16).
Proof.
  intros Hx lo. assert (lo = Z.lor (Z.lor x 2) 4 mod 2 ^ 16) as Hlo.
  { unfold lo, wrap. rewrite <- !Z.land_ones by lia. by rewrite !Z.land_lor_distr_l. }
  assert (0 <= lo < 2 ^ 16) as Hr by (rewrite Hlo; apply Z.mod_pos_bound; lia). split; [done|].
  rewrite high_half by done. unfold wrap, halves. rewrite Z.mod_small by lia. apply Z.lor_comm.
Qed.

Lemma land_lnot_land x m : Z.land x (Z.lnot (Z.land x m)) = Z.land x (Z.lnot m).
Proof.
  apply Z.bits_inj'. intros n Hn. rewrite !Z.land_spec, !Z.lnot_spec, Z.land_spec by done.
  by destruct (Z.testbit x n), (Z.testbit m n).
Qed.

(** [enable_mmio_and_bus_master] sets the two enable bits and keeps the
    rest of the command register, and it clears every error bit that was
    latched in the status register, whatever the comment on [write_u16] says:
    the status half is written back as it was read. *)
Theorem enable_clears_status h (d : PciDevice) (Hreg : status_register (address d))
    (Hu : is_u32 (cfg_read h (config_address (address d) 4))) :
  let h' := enable_mmio_and_bus_master h d in
  command h' (address d) = Z.lor (command h (address d)) 6 /\
  status h' (address d) = Z.land (status h (address d)) (Z.lnot RW1C).
Proof.
  intros h'. unfold h', enable_mmio_and_bus_master, set_command, command, status, write_u16, read_u16, read_u32.
  change (dword_offset 4) with 4. change (dword_offset 6) with 4. change (shift_of 4) with 0. change (shift_of 6) with 16.
  change (wrap32 (Z.lnot (wrap32 (Z.shiftl 0xFFFF 0)))) with 0xFFFF0000. rewrite !Z.shiftl_0_r, !Z.shiftr_0_r.
  destruct (enable_value _ Hu) as [Hlo ->].
  assert (0 <= Z.shiftr (cfg_read h (config_address (address d) 4)) 16 < 2 ^ 16) as Hhi.
  { unfold in_width in Hu. rewrite Z.shiftr_div_pow2 by lia. div_lia. }
  rewrite Hreg.
  2: { unfold halves, in_width. rewrite lor_shiftl_add; lia. }
  rewrite halves_high, halves_low, land_lnot_land by done. unfold wrap at 1 3.
  rewrite halves_high, halves_low by done. split; [by rewrite <- Z.lor_assoc|].
  unfold wrap. rewrite <- !Z.land_ones by lia. by rewrite <- !Z.land_assoc, (Z.land_comm (Z.lnot _)).
Qed.
End pci.

(** ** A configuration space

    Dwords by address, all ones where there is nothing; the status half of
    register 4 clears the error bits it is written with. *)
Abbreviation Space := (gmap Z Z).

#[global] Instance space_host : PciHost Space := {|
  cfg_read m w := default 0xFFFFFFFF (m !! w);
  cfg_write m w v :=
    if decide (Z.land w 0xFF = 4) then
      <[w := halves (v mod 2 ^ 16)
               (Z.land (Z.shiftr (default 0xFFFFFFFF (m !! w)) 16) (Z.lnot (Z.land (Z.shiftr v 16) RW1C)))]> m
    else <[w := v]> m;
|}.

(** A virtio block device at bus 0, device 3, with a master abort latched and
    two capabilities, and a device 4 whose capability points to itself. *)
Definition at3 : PciAddress := mkPciAddress 0 3 0.
Definition at4 : PciAddress := mkPciAddress 0 4 0.
Definition demo_space : Space := list_to_map [
  (config_address at3 0, 0x10421AF4); (config_address at3 4, 0x20100001); (config_address at3 0x0C, 0);
  (config_address at3 0x34, 0x40); (config_address at3 0x40, 0x5009); (config_address at3 0x50, 0x0009);
  (config_address at4 0, 0x10421AF4); (config_address at4 4, 0x00100001); (config_address at4 0x0C, 0);
  (config_address at4 0x34, 0x60); (config_address at4 0x60, 0x6009)].

Lemma find_device_demo : find_device demo_space 0x1AF4 0x1042 = Some (mkPciDevice at3 0x1AF4 0x1042).
Proof. vm_compute. reflexivity. Qed.

Lemma config_address_decodes_witness :
  Z.land (Z.shiftr (config_address at3 0x36) 11) 0x1F = 3 /\ Z.land (config_address at3 0x36) 0xFF = 0x34.
Proof.
  destruct (config_address_decodes at3 0x36 ltac:(done) ltac:(done) ltac:(done) ltac:(done)) as (_ & _ & Hd & _ & Ho).
  split; [exact Hd|exact Ho].
Defined.

Lemma demo_cycle l ok : ~ cap_run demo_space at4 0x60 l ok.
Proof.
  intros Hr. remember 0x60 as n eqn:Hn. induction Hr as [| |n l ok _ _ IH]; [done..|]. apply IH. by subst n.
Qed.

Lemma capability_walk_witness :
  cap_list 255 demo_space at3 0x40 = Some (Ret [(9, 0x40); (9, 0x50)]) /\ (forall fuel, cap_list fuel demo_space at4 0x60 = None).
Proof.
  split.
  - destruct (capability_walk demo_space at3 0x40 ltac:(done)) as [Hw _].
    apply (Hw [(9, 0x40); (9, 0x50)] true).
    pose proof (cr_entry demo_space at3 0x50 _ _ ltac:(done) (cr_end demo_space at3)) as Hl.
    exact (cr_entry demo_space at3 0x40 _ _ ltac:(done) Hl).
  - destruct (capability_walk demo_space at4 0x60 ltac:(done)) as [_ Hw]. exact (Hw demo_cycle).
Defined.

Lemma demo_status_register : status_register at3 (H := Space).
Proof.
  intros m v Hv. cbn [cfg_read cfg_write space_host]. rewrite decide_True by done. by rewrite lookup_insert_eq.
Qed.

Lemma enable_clears_status_witness :
  let d := mkPciDevice at3 0x1AF4 0x1042 in
  command (enable_mmio_and_bus_master demo_space d) at3 = 7 /\
  status demo_space at3 = 0x2010 /\ status (enable_mmio_and_bus_master demo_space d) at3 = 0x0010.
Proof.
  intros d. destruct (enable_clears_status demo_space d demo_status_register ltac:(done)) as [Hc Hs].
  split; [exact Hc|]. split; [done|exact Hs].
Defined.
End Pci.
