(* ===== verification/VirtioInit.v ===== *)
(** * Bringing up the virtio block device
    ([kernel/src/driver/virtio_blk.rs], [VirtioBlk::new] and [init])

    The walk of the PCI capability list that finds the register blocks, the
    mapping of the BARs they lie in, the feature negotiation and the set-up of
    queue 0.  The device is hardware reached through configuration space and
    memory-mapped registers: a parameter, with [Transport] and
    [transport_laws] stating what the virtio specification says of the common
    configuration structure.  The theorems: every register block found lies in
    the pages mapped for its BAR, and a conforming device ends up live, with
    the queue the driver will use, the driver being in the state its read
    operation starts from. *)
From S2P Require Import Prelude Bitmap Phys Virt Abi CapTable Process Elf Mapper Block Virtio Regions Pci.
Open Scope Z_scope.

Definition VIRTIO_VENDOR_ID : Z := 0x1AF4.
Definition VIRTIO_BLK_DEVICE_ID : Z := 0x1042.
Definition PCI_CAP_ID_VENDOR_SPECIFIC : Z := 9.
Definition VIRTIO_PCI_CAP_COMMON_CFG : Z := 1.
Definition VIRTIO_PCI_CAP_NOTIFY_CFG : Z := 2.
Definition VIRTIO_PCI_CAP_DEVICE_CFG : Z := 4.
Definition STATUS_ACKNOWLEDGE : Z := 1.
Definition STATUS_DRIVER : Z := 2.
Definition STATUS_FEATURES_OK : Z := 8.
Definition STATUS_DRIVER_OK : Z := 4.
Definition VIRTIO_F_VERSION_1_SELECT : Z := 1.
Definition VIRTIO_F_VERSION_1_BIT : Z := 1.
Definition VIRTQ_AVAIL_F_NO_INTERRUPT : Z := 1.
Definition QUEUE_SIZE_CAP : Z := 8.
Definition COMMON_DEVICE_FEATURE_SELECT : Z := 0x00.
Definition COMMON_DEVICE_FEATURE : Z := 0x04.
Definition COMMON_GUEST_FEATURE_SELECT : Z := 0x08.
Definition COMMON_GUEST_FEATURE : Z := 0x0C.
Definition COMMON_DEVICE_STATUS : Z := 0x14.
Definition COMMON_QUEUE_SELECT : Z := 0x16.
Definition COMMON_QUEUE_SIZE : Z := 0x18.
Definition COMMON_QUEUE_ENABLE : Z := 0x1C.
Definition COMMON_QUEUE_NOTIFY_OFF : Z := 0x1E.
Definition COMMON_QUEUE_DESC : Z := 0x20.
Definition COMMON_QUEUE_AVAIL : Z := 0x28.
Definition COMMON_QUEUE_USED : Z := 0x30.
Definition NO_CACHE : Z := 16.

Record VirtioCap := mkCap { cap_bar : Z; cap_offset : Z; cap_length : Z }.

(** The locals of [VirtioBlk::new] that the capability loop fills in. *)
Record Caps := mkCaps {
  common : option VirtioCap;
  notify : option VirtioCap;
  notify_off_multiplier : Z;
  device_cfg : option VirtioCap;
  bar_min_size : list Z;
}.

Definition caps_new : Caps := mkCaps None None 0 None (replicate 6 0).

(** Memory-mapped registers of a device, by virtual address and width; a read
    may advance the device. *)
Class VirtioMmio (H : Type) := {
  mmio_read : Z -> H -> Z -> H * Z;
  mmio_write : Z -> H -> Z -> Z -> H;
}.

Definition add_u32 (a b : Z) : outcome Z :=
  if decide (a + b < 2 ^ 32) then Ret (a + b) else Panic "attempt to add with overflow".

Section caps.
Context {H : Type} `{PciHost H}.
Implicit Types (h : H) (d : PciDevice).

Definition read_cap h d (o : Z) : outcome (Z * VirtioCap) :=
  let! o3 := add_u8 o 3 in
  let! o4 := add_u8 o 4 in
  let! o8 := add_u8 o 8 in
  let! o12 := add_u8 o 12 in
  Ret (Pci.read_u8 h (address d) o3,
       mkCap (Pci.read_u8 h (address d) o4) (Pci.read_u32 h (address d) o8) (Pci.read_u32 h (address d) o12)).

(** One turn of the capability loop. *)
Definition parse_cap h d (c : Caps) (entry : Z * Z) : outcome Caps :=
  let '(cap_id, o) := entry in
  if decide (cap_id <> PCI_CAP_ID_VENDOR_SPECIFIC) then Ret c
  else
    let! '(cfg_type, cap) := read_cap h d o in
    let bar := Z.to_nat (cap_bar cap) in
    let! old := index_or_panic (bar_min_size c) bar in
    let! e := add_u32 (cap_offset cap) (cap_length cap) in
    let sizes := <[bar := Z.max old e]> (bar_min_size c) in
    if decide (cfg_type = VIRTIO_PCI_CAP_COMMON_CFG) then
      Ret (mkCaps (Some cap) (notify c) (notify_off_multiplier c) (device_cfg c) sizes)
    else if decide (cfg_type = VIRTIO_PCI_CAP_NOTIFY_CFG) then
      let! o16 := add_u8 o 16 in
      Ret (mkCaps (common c) (Some cap) (Pci.read_u32 h (address d) o16) (device_cfg c) sizes)
    else if decide (cfg_type = VIRTIO_PCI_CAP_DEVICE_CFG) then
      Ret (mkCaps (common c) (notify c) (notify_off_multiplier c) (Some cap) sizes)
    else Ret (mkCaps (common c) (notify c) (notify_off_multiplier c) (device_cfg c) sizes).

(** [for (cap_id, cap_offset) in device.capabilities()]; [None] when the fuel
    is used up. *)
Fixpoint parse_caps (fuel : nat) h d (next : Z) (c : Caps) : option (outcome Caps) :=
  match fuel with
  | O => None
  | S fuel =>
      match Pci.cap_next h (address d) next with
      | Panic w => Some (Panic w)
      | Ret (None, _) => Some (Ret c)
      | Ret (Some entry, next) =>
          match parse_cap h d c entry with
          | Panic w => Some (Panic w)
          | Ret c => parse_caps fuel h d next c
          end
      end
  end.
End caps.

(** ** BARs *)
Section bars.
Context {H : Type} `{X86} `{PciHost H}.
Implicit Types (h : H) (d : PciDevice) (m : Mem).

Definition BAR_FLAGS : Z := Z.lor PRESENT (Z.lor WRITABLE (Z.lor NO_CACHE NO_EXECUTE)).

(** The loop of [map_bar], page by page. *)
Fixpoint map_bar_pages m (virt phys : Z) (n : nat) : outcome Mem :=
  match n with
  | O => Ret m
  | S n =>
      let '(m, r) := Virt.map m (page_of virt) (page_of phys) BAR_FLAGS in
      match r with
      | Ok _ => map_bar_pages m (virt + 4096) (phys + 4096) n
      | Err _ => Panic "failed to map a virtio-blk BAR's MMIO page"
      end
  end.

Definition bar_vaddr (bar : nat) : Z := MMIO_VBASE + Z.of_nat bar * BAR_VSTRIDE.

(** [PhysAddr::new], and the addition inside the loop, panic above 52 bits. *)
Definition map_bar m h d (bar : nat) (size : Z) : outcome (Mem * Z) :=
  let! phys := Pci.mmio_bar_address h d (Z.of_nat bar) in
  let n := Z.to_nat (Z.max 1 (div_ceil size 4096)) in
  assert! bool_decide (phys + Z.of_nat (n - 1) * 4096 < 2 ^ 52) else "physical address too large";
  let! m := map_bar_pages m (bar_vaddr bar) phys n in
  Ret (m, bar_vaddr bar).

(** The loop over [bar_min_size], filling in [bar_vbase]. *)
Fixpoint map_bars m h d (bar : nat) (sizes : list Z) : outcome (Mem * list (option Z)) :=
  match sizes with
  | [] => Ret (m, [])
  | size :: sizes =>
      let! '(m, v) := (if decide (0 < size) then let! '(m, v) := map_bar m h d bar size in Ret (m, Some v)
                       else Ret (m, None)) in
      let! '(m, vs) := map_bars m h d (S bar) sizes in
      Ret (m, v :: vs)
  end.
End bars.

Definition resolve (bar_vbase : list (option Z)) (cap : VirtioCap) : outcome Z :=
  let! v := index_or_panic bar_vbase (Z.to_nat (cap_bar cap)) in
  match v with
  | Some v => Ret (v + cap_offset cap)
  | None => Panic "BAR mapped above for every referenced index"
  end.

(** ** Negotiation and queue set-up *)
Section setup.
Context (W : nat) {H : Type} `{VirtioMmio H}.
Implicit Types (h : H) (m : Mem).

Fixpoint wait_reset (fuel : nat) h (common_cfg : Z) : option H :=
  match fuel with
  | O => None
  | S fuel =>
      let '(h, s) := mmio_read 8 h (common_cfg + COMMON_DEVICE_STATUS) in
      if decide (s <> 0) then wait_reset fuel h common_cfg else Some h
  end.

Definition negotiate h (common_cfg : Z) : outcome H :=
  let h := mmio_write 8 h (common_cfg + COMMON_DEVICE_STATUS) STATUS_ACKNOWLEDGE in
  let h := mmio_write 8 h (common_cfg + COMMON_DEVICE_STATUS) (Z.lor STATUS_ACKNOWLEDGE STATUS_DRIVER) in
  let h := mmio_write 32 h (common_cfg + COMMON_DEVICE_FEATURE_SELECT) VIRTIO_F_VERSION_1_SELECT in
  let '(h, high_features) := mmio_read 32 h (common_cfg + COMMON_DEVICE_FEATURE) in
  assert! bool_decide (Z.land high_features VIRTIO_F_VERSION_1_BIT <> 0)
    else "virtio-blk device didn't offer VIRTIO_F_VERSION_1";
  let h := mmio_write 32 h (common_cfg + COMMON_GUEST_FEATURE_SELECT) 0 in
  let h := mmio_write 32 h (common_cfg + COMMON_GUEST_FEATURE) 0 in
  let h := mmio_write 32 h (common_cfg + COMMON_GUEST_FEATURE_SELECT) VIRTIO_F_VERSION_1_SELECT in
  let h := mmio_write 32 h (common_cfg + COMMON_GUEST_FEATURE) VIRTIO_F_VERSION_1_BIT in
  let h := mmio_write 8 h (common_cfg + COMMON_DEVICE_STATUS)
             (Z.lor STATUS_ACKNOWLEDGE (Z.lor STATUS_DRIVER STATUS_FEATURES_OK)) in
  let '(h, s) := mmio_read 8 h (common_cfg + COMMON_DEVICE_STATUS) in
  assert! bool_decide (Z.land s STATUS_FEATURES_OK <> 0)
    else "virtio-blk device rejected this driver's minimal feature set";
  Ret h.

Definition alloc_dma_frame m : outcome (Mem * Z) :=
  let! '(a, r) := Phys.allocate_frame W (frames m) in
  match r with
  | None => Panic "out of physical memory setting up the virtio-blk driver"
  | Some f => Ret (set_ram (set_frames m a) (<[f := replicate 512 0]> (ram m)), f)
  end.

(** A 16-bit store at the start of a frame. *)
Definition store16 (r : gmap Z (list Z)) (f v : Z) : gmap Z (list Z) :=
  let ws := frame_words r f in
  <[f := <[0%nat := Z.lor (Z.land (nth 0 ws 0) (Z.lnot 0xFFFF)) v]> ws]> r.

Definition setup_queue h m (common_cfg desc avail used : Z) : outcome (Mem * H * Z * Z) :=
  let h := mmio_write 16 h (common_cfg + COMMON_QUEUE_SELECT) 0 in
  let '(h, max_queue_size) := mmio_read 16 h (common_cfg + COMMON_QUEUE_SIZE) in
  assert! bool_decide (3 <= max_queue_size) else "virtio-blk device's queue 0 max size is too small";
  let queue_size := Z.min max_queue_size QUEUE_SIZE_CAP in
  let h := mmio_write 16 h (common_cfg + COMMON_QUEUE_SIZE) queue_size in
  let h := mmio_write 64 h (common_cfg + COMMON_QUEUE_DESC) desc in
  let h := mmio_write 64 h (common_cfg + COMMON_QUEUE_AVAIL) avail in
  let h := mmio_write 64 h (common_cfg + COMMON_QUEUE_USED) used in
  let '(h, queue_notify_off) := mmio_read 16 h (common_cfg + COMMON_QUEUE_NOTIFY_OFF) in
  let h := mmio_write 16 h (common_cfg + COMMON_QUEUE_ENABLE) 1 in
  let m := set_ram m (store16 (ram m) avail VIRTQ_AVAIL_F_NO_INTERRUPT) in
  let h := mmio_write 8 h (common_cfg + COMMON_DEVICE_STATUS)
             (Z.lor STATUS_ACKNOWLEDGE (Z.lor STATUS_DRIVER (Z.lor STATUS_FEATURES_OK STATUS_DRIVER_OK))) in
  Ret (m, h, queue_size, queue_notify_off).

(** ** The rings and buffers as they lie in memory *)
Definition halfwords (ws : list Z) : list Z :=
  ws ≫= fun w => [w mod 2 ^ 16; Z.shiftr w 16 mod 2 ^ 16; Z.shiftr w 32 mod 2 ^ 16; Z.shiftr w 48 mod 2 ^ 16].

Definition desc_of (ws : list Z) (i : nat) : Desc :=
  let w := nth (2 * i + 1) ws 0 in
  mkDesc (nth (2 * i) ws 0) (w mod 2 ^ 32) (Z.shiftr w 32 mod 2 ^ 16) (Z.shiftr w 48).

Definition dma_view (r : gmap Z (list Z)) (desc avail used header data status : Z) : Dma :=
  let hd := frame_words r header in
  mkDma (desc_of (frame_words r desc) <$> seq 0 256)
    (nth 1 (halfwords (frame_words r avail)) 0) (drop 2 (halfwords (frame_words r avail)))
    (nth 1 (halfwords (frame_words r used)) 0)
    (nth 0 hd 0 mod 2 ^ 32, Z.shiftr (nth 0 hd 0) 32, nth 1 hd 0)
    (frame_words r data ≫= le_bytes 8) (nth 0 (frame_words r status) 0 mod 256).

(** What [VirtioBlk::new] returns beyond [VirtioBlk] as its read operation
    uses it: the queue's frames and the doorbell. *)
Record Driver := mkDriver {
  blk : VirtioBlk H;
  queue_frames : list Z;
  notify_base : Z;
  multiplier : Z;
  queue_notify_off : Z;
}.

(** [VirtioBlk::new] from the feature negotiation on. *)
Definition setup (fuel : nat) m h (common_cfg notify_base multiplier device_cfg_addr : Z)
    : option (outcome (Mem * Driver)) :=
  let h := mmio_write 8 h (common_cfg + COMMON_DEVICE_STATUS) 0 in
  match wait_reset fuel h common_cfg with
  | None => None
  | Some h => Some (
      let! h := negotiate h common_cfg in
      let! '(m, desc) := alloc_dma_frame m in
      let! '(m, avail) := alloc_dma_frame m in
      let! '(m, used) := alloc_dma_frame m in
      let! '(m, h, queue_size, notify_off) := setup_queue h m common_cfg desc avail used in
      let '(h, capacity) := mmio_read 64 h device_cfg_addr in
      let! '(m, header) := alloc_dma_frame m in
      let! '(m, data) := alloc_dma_frame m in
      let! '(m, status) := alloc_dma_frame m in
      let v := mkVirtio capacity (mkLayout queue_size header data status)
                 (dma_view (ram m) desc avail used header data status) h in
      Ret (m, mkDriver v [desc; avail; used] notify_base multiplier notify_off))
  end.
End setup.
Arguments blk {H} d.
Arguments queue_frames {H} d.
Arguments notify_base {H} d.
Arguments multiplier {H} d.
Arguments queue_notify_off {H} d.

(** ** [VirtioBlk::new] and [init] *)
Section new.
Context (W : nat) {H : Type} `{X86} `{PciHost H} `{VirtioMmio H}.
Implicit Types (h : H) (m : Mem) (d : PciDevice).

Definition expect {A} (o : option A) (why : string) : outcome A :=
  match o with Some x => Ret x | None => Panic why end.

(** The register blocks, mapped: common, notify and device configuration. *)
Definition map_blocks m h d (c : Caps) : outcome (Mem * (Z * Z * Z)) :=
  let! co := expect (common c) "virtio-blk device missing its COMMON_CFG capability" in
  let! no := expect (notify c) "virtio-blk device missing its NOTIFY_CFG capability" in
  let! de := expect (device_cfg c) "virtio-blk device missing its DEVICE_CFG capability" in
  let! '(m, bar_vbase) := map_bars m h d 0 (bar_min_size c) in
  let! common_cfg := resolve bar_vbase co in
  let! notify_base := resolve bar_vbase no in
  let! device_cfg_addr := resolve bar_vbase de in
  Ret (m, (common_cfg, notify_base, device_cfg_addr)).

Definition virtio_new (fuel : nat) m h d : option (outcome (Mem * Driver)) :=
  match parse_caps fuel h d (Pci.capabilities h d) caps_new with
  | None => None
  | Some (Panic w) => Some (Panic w)
  | Some (Ret c) =>
      match map_blocks m h d c with
      | Panic w => Some (Panic w)
      | Ret (m, (common_cfg, notify_base, device_cfg_addr)) =>
          setup W fuel m h common_cfg notify_base (notify_off_multiplier c) device_cfg_addr
      end
  end.

(** [init]; the two BAR addresses it prints can panic as well. *)
Definition virtio_init (fuel : nat) m h : option (outcome (Mem * result Driver string)) :=
  match Pci.find_device h VIRTIO_VENDOR_ID VIRTIO_BLK_DEVICE_ID with
  | None => Some (Ret (m, Err "no virtio-blk PCI device found"))
  | Some d =>
      let h := Pci.enable_mmio_and_bus_master h d in
      match Pci.mmio_bar_address h d 1, Pci.mmio_bar_address h d 4 with
      | Panic w, _ | _, Panic w => Some (Panic w)
      | Ret _, Ret _ =>
          match virtio_new fuel m h d with
          | None => None
          | Some (Panic w) => Some (Panic w)
          | Some (Ret (m, v)) => Some (Ret (m, Ok v))
          end
      end
  end.
End new.

(** ** The register blocks are where the device has them *)

(** What the loop over the capabilities keeps true. *)
Definition cap_ok (sizes : list Z) (o : option VirtioCap) : Prop :=
  forall cap, o = Some cap ->
    0 <= cap_bar cap /\ 0 <= cap_offset cap /\ 0 <= cap_length cap /\
    exists s, sizes !! Z.to_nat (cap_bar cap) = Some s /\ cap_offset cap + cap_length cap <= s.

Record caps_ok (c : Caps) : Prop := {
  co_sizes : length (bar_min_size c) = 6%nat;
  co_common : cap_ok (bar_min_size c) (common c);
  co_notify : cap_ok (bar_min_size c) (notify c);
  co_device : cap_ok (bar_min_size c) (device_cfg c);
}.

Lemma cap_ok_grow sizes bar old e o :
  sizes !! bar = Some old -> cap_ok sizes o -> cap_ok (<[bar := Z.max old e]> sizes) o.
Proof.
  intros Hold Hok cap Hcap. destruct (Hok cap Hcap) as (Hb & Ho & Hl & s & Hs & Hle). split_and!; try done.
  destruct (decide (bar = Z.to_nat (cap_bar cap))) as [->|Hne].
  - exists (Z.max old e). rewrite list_lookup_insert_eq by by eapply lookup_lt_Some. split; [done|]. simplify_eq. lia.
  - exists s. by rewrite list_lookup_insert_ne.
Qed.

Lemma cap_ok_new sizes old cap :
  sizes !! Z.to_nat (cap_bar cap) = Some old -> 0 <= cap_bar cap -> 0 <= cap_offset cap -> 0 <= cap_length cap ->
  cap_ok (<[Z.to_nat (cap_bar cap) := Z.max old (cap_offset cap + cap_length cap)]> sizes) (Some cap).
Proof.
  intros Hold Hb Ho Hl cap' [= <-]. split_and!; try done. eexists. rewrite list_lookup_insert_eq by by eapply lookup_lt_Some.
  split; [done|]. lia.
Qed.

Lemma caps_ok_new : caps_ok caps_new.
Proof. by split. Qed.

Section blocks.
Context {H : Type} `{MapperLaws} `{PciHost H}.
Implicit Types (h : H) (m : Mem) (d : PciDevice).

Lemma add_u32_Ret a b e : add_u32 a b = Ret e -> e = a + b.
Proof. unfold add_u32. case_decide; congruence. Qed.

Lemma parse_cap_ok h d c entry c' :
  (forall w, is_u32 (cfg_read h w)) -> caps_ok c -> parse_cap h d c entry = Ret c' -> caps_ok c'.
Proof.
  intros Hu [Hs Hc Hn Hd] Hp. destruct entry as [id o]. unfold parse_cap in Hp.
  case_decide; [by simplify_eq|]. destruct (read_cap h d o) as [[ty cap]|] eqn:Hr; [|done].
  assert (0 <= cap_bar cap /\ 0 <= cap_offset cap /\ 0 <= cap_length cap) as (Hb & Ho & Hl).
  { unfold read_cap in Hr. inv_ret. split; [apply Pci.read_u8_range|]. split; apply Hu. }
  destruct (index_or_panic _ _) as [old|] eqn:Hi; [|done]. apply index_or_panic_Ret in Hi.
  destruct (add_u32 _ _) as [e|] eqn:He; [|done]. apply add_u32_Ret in He as ->.
  pose proof (cap_ok_grow _ _ _ (cap_offset cap + cap_length cap) _ Hi Hc) as Hc'.
  pose proof (cap_ok_grow _ _ _ (cap_offset cap + cap_length cap) _ Hi Hn) as Hn'.
  pose proof (cap_ok_grow _ _ _ (cap_offset cap + cap_length cap) _ Hi Hd) as Hd'.
  pose proof (cap_ok_new _ _ _ Hi Hb Ho Hl) as Hnew.
  repeat case_decide; inv_ret; split; cbn [common notify device_cfg bar_min_size]; try done; by rewrite length_insert.
Qed.

Lemma parse_caps_ok fuel h d n c c' :
  (forall w, is_u32 (cfg_read h w)) -> caps_ok c -> parse_caps fuel h d n c = Some (Ret c') -> caps_ok c'.
Proof.
  intros Hu. revert n c. induction fuel as [|fuel IH]; intros n c Hc Hp; [done|]. cbn [parse_caps] in Hp.
  destruct (Pci.cap_next _ _ _) as [[[entry|] n']|]; [|by simplify_eq|done].
  destruct (parse_cap h d c entry) as [c1|] eqn:Hp1; [|done]. eapply IH; [|done]. by eapply parse_cap_ok.
Qed.

(** Pages of a BAR, translated. *)
Definition shows m (v p : Z) (n : nat) : Prop :=
  forall i, (i < n)%nat -> forall x, page_of x = v + Z.of_nat i * 4096 ->
    translate m (kernel_pml4 m) x = Mapped (page_of (p + Z.of_nat i * 4096)) (x - page_of x) BAR_FLAGS.

Definition extends m m' : Prop :=
  kernel_pml4 m' = kernel_pml4 m /\
  forall x f o fl, translate m (kernel_pml4 m) x = Mapped f o fl -> translate m' (kernel_pml4 m) x = Mapped f o fl.

Lemma extends_trans m1 m2 m3 : extends m1 m2 -> extends m2 m3 -> extends m1 m3.
Proof.
  intros [E1 Ha] [E2 Hb]. split; [congruence|]. intros x f o fl Hx. apply Ha in Hx. rewrite <- E1 in Hx. apply Hb in Hx.
  by rewrite E1 in Hx.
Qed.

Lemma shows_extends m m' v p n : shows m v p n -> extends m m' -> shows m' v p n.
Proof. intros Hs [E Hx] i Hi x Hp. rewrite E. apply Hx. by apply Hs. Qed.

Lemma map_bar_pages_shows n m v p m' :
  v mod 4096 = 0 -> map_bar_pages m v p n = Ret m' -> extends m m' /\ shows m' v p n.
Proof.
  revert m v p. induction n as [|n IH]; intros m v p Hv Hm; cbn [map_bar_pages] in Hm.
  { simplify_eq. split; [by split|]. intros i Hi. lia. }
  unfold Virt.map in Hm. destruct (map_to _ _ _ _ _) as [m1 [[]|e]] eqn:Hmap; [|done].
  destruct (map_ok _ _ _ _ _ _ Hmap) as (Hin & Hout).
  pose proof (proj1 (map_keeps m (kernel_pml4 m) (page_of v) (page_of p) BAR_FLAGS)) as Hk. rewrite Hmap in Hk. simpl in Hk.
  rewrite (page_of_aligned v Hv) in *.
  assert (extends m m1) as He.
  { split; [done|]. intros x f o fl Hx. destruct (decide (page_of x = v)) as [Hp|Hp]; [|by rewrite Hout].
    destruct (Hin x Hp) as [Hno _]. congruence. }
  destruct (IH m1 (v + 4096) (p + 4096)) as [He' Hs]; [by rewrite <- Z.add_mod_idemp_r, Z.mod_same, Z.add_0_r by lia|done|].
  split; [by eapply extends_trans|]. intros [|i] Hi x Hx.
  - rewrite (proj1 He'). apply (proj2 He'). rewrite Hk. rewrite Z.mul_0_l, Z.add_0_r in *. by rewrite (proj2 (Hin x Hx)), Hx.
  - replace (p + Z.of_nat (S i) * 4096) with (p + 4096 + Z.of_nat i * 4096) by lia. apply Hs; lia.
Qed.

Lemma map_bars_shows sizes m h d bar m' vs :
  map_bars m h d bar sizes = Ret (m', vs) ->
  extends m m' /\ length vs = length sizes /\
  forall j v, vs !! j = Some (Some v) -> exists size phys,
    sizes !! j = Some size /\ v = bar_vaddr (bar + j) /\
    Pci.mmio_bar_address h d (Z.of_nat (bar + j)) = Ret phys /\
    shows m' v phys (Z.to_nat (Z.max 1 (div_ceil size 4096))).
Proof.
  revert m bar m' vs. induction sizes as [|size sizes IH]; intros m bar m' vs Hm; cbn [map_bars] in Hm.
  { simplify_eq. split; [by split|]. by split. }
  destruct (if decide (0 < size) then _ else _) as [[m1 v1]|] eqn:Hm1; [|done].
  destruct (map_bars m1 h d (S bar) sizes) as [[m2 vs2]|] eqn:Hm2; [|done]. simplify_eq.
  destruct (IH _ _ _ _ Hm2) as (He & Hlen & Hj).
  assert (extends m m1 /\ forall v, v1 = Some v -> exists phys, v = bar_vaddr bar /\
    Pci.mmio_bar_address h d (Z.of_nat bar) = Ret phys /\
    shows m1 v phys (Z.to_nat (Z.max 1 (div_ceil size 4096)))) as [He1 Hv1].
  { case_decide; [|simplify_eq; split; [by split|done]]. unfold map_bar in Hm1.
    destruct (Pci.mmio_bar_address _ _ _) as [phys|] eqn:Hp; [|done]. inv_ret.
    apply map_bar_pages_shows in Hret0 as [??]; [|unfold bar_vaddr, MMIO_VBASE, BAR_VSTRIDE; div_lia].
    split; [done|]. intros v [= <-]. by exists phys. }
  split; [by eapply extends_trans|]. split; [by simpl; rewrite Hlen|]. intros [|j] v Hl.
  - simplify_eq/=. destruct (Hv1 v eq_refl) as (phys & -> & Hp & Hs). exists size, phys. rewrite Nat.add_0_r.
    split_and!; try done. by eapply shows_extends.
  - destruct (Hj j v Hl) as (s & phys & Hs & -> & Hp & Hsh). exists s, phys. by rewrite Nat.add_succ_r.
Qed.

(** The address a block is resolved to, byte by byte. *)
Lemma resolve_shows m' h d c cap vs a k :
  cap_ok (bar_min_size c) (Some cap) -> 0 <= k < cap_length cap -> resolve vs cap = Ret a ->
  (forall j v, vs !! j = Some (Some v) -> exists size phys,
    bar_min_size c !! j = Some size /\ v = bar_vaddr j /\ Pci.mmio_bar_address h d (Z.of_nat j) = Ret phys /\
    shows m' v phys (Z.to_nat (Z.max 1 (div_ceil size 4096)))) ->
  exists phys, Pci.mmio_bar_address h d (cap_bar cap) = Ret phys /\
    (phys mod 4096 = 0 -> Virt.translate_in m' (kernel_pml4 m') (a + k) = Some (phys + cap_offset cap + k, BAR_FLAGS)).
Proof.
  intros Hok Hk Hr Hvs. destruct (Hok cap eq_refl) as (Hb & Ho & Hl & s & Hs & Hle). unfold resolve in Hr.
  destruct (index_or_panic _ _) as [[v|]|] eqn:Hi; [|done..]. apply index_or_panic_Ret in Hi. simplify_eq.
  destruct (Hvs _ _ Hi) as (size & phys & Hsize & -> & Hp & Hsh). simplify_eq. rewrite Z2Nat.id in Hp by done.
  exists phys. split; [done|]. intros Hal. set (o := cap_offset cap + k).
  replace (bar_vaddr _ + cap_offset cap + k) with (bar_vaddr (Z.to_nat (cap_bar cap)) + o) by (unfold o; lia).
  replace (phys + cap_offset cap + k) with (phys + o) by (unfold o; lia).
  pose proof (div_ceil_spec s 4096 ltac:(lia)) as Hd.
  assert (0 <= o < s) as Ho' by (unfold o; lia). clearbody o.
  assert (o / 4096 < Z.max 1 (div_ceil s 4096)) as Hq by (apply Z.div_lt_upper_bound; lia).
  unfold Virt.translate_in. rewrite (Hsh (Z.to_nat (o / 4096))).
  - rewrite ?page_of_sub; unfold bar_vaddr, MMIO_VBASE, BAR_VSTRIDE. f_equal. f_equal. div_lia.
  - div_lia.
  - rewrite ?page_of_sub; unfold bar_vaddr, MMIO_VBASE, BAR_VSTRIDE. div_lia.
Qed.

(** Every register block the driver uses is where the device has it.
    After the capability list was read and the BARs were mapped, each byte of
    the common, notify and device configuration blocks, at the address the
    driver computed for it, translates to the physical address the BAR and
    the capability give, uncached and not executable, provided the firmware
    placed the BAR on a page boundary. *)
Theorem virtio_blocks_mapped fuel m h (d : PciDevice) n c m' common_cfg notify_base device_cfg_addr
    (Hu : forall w, is_u32 (cfg_read h w))
    (Hparse : parse_caps fuel h d n caps_new = Some (Ret c))
    (Hmap : map_blocks m h d c = Ret (m', (common_cfg, notify_base, device_cfg_addr))) cap a k
    (Hcap : common c = Some cap /\ a = common_cfg \/ notify c = Some cap /\ a = notify_base \/
            device_cfg c = Some cap /\ a = device_cfg_addr) (Hk : 0 <= k < cap_length cap) :
  exists phys, Pci.mmio_bar_address h d (cap_bar cap) = Ret phys /\
    (phys mod 4096 = 0 -> Virt.translate_in m' (kernel_pml4 m') (a + k) = Some (phys + cap_offset cap + k, BAR_FLAGS)).
Proof.
  destruct (parse_caps_ok _ _ _ _ _ _ Hu caps_ok_new Hparse) as [Hsz Hc Hn Hd]. unfold map_blocks, expect in Hmap.
  destruct (common c) as [co|]; [|done]. destruct (notify c) as [no|]; [|done].
  destruct (device_cfg c) as [de|]; [|done].
  destruct (map_bars m h d 0 (bar_min_size c)) as [[m1 vs]|] eqn:Hb; [|done].
  destruct (resolve vs co) as [a1|] eqn:Ha1; [|done]. destruct (resolve vs no) as [a2|] eqn:Ha2; [|done].
  destruct (resolve vs de) as [a3|] eqn:Ha3; [|done]. simplify_eq.
  destruct (map_bars_shows _ _ _ _ _ _ _ Hb) as (_ & _ & Hvs).
  destruct Hcap as [[[= ->] ->]|[[[= ->] ->]|[[= ->] ->]]]; by eapply resolve_shows.
Qed.
End blocks.

(** ** The common configuration structure of a conforming device

    Sections 2.1, 3.1 and 4.1.4.3 of the virtio 1.0 specification: a write of
    zero to the status register resets the device, which then shows zero only
    once it is done; the FEATURES_OK bit stays set only when the driver
    accepted version 1 and nothing that was not offered; queue 0 has a size
    the driver may lower. *)
Record Transport := mkTransport {
  t_resetting : nat;
  t_status : Z;
  t_device_select : Z;
  t_guest_select : Z;
  t_guest : Z * Z;
  t_queue_select : Z;
  t_queue_size : Z;
  t_queue_desc : Z;
  t_queue_avail : Z;
  t_queue_used : Z;
  t_queue_enable : Z;
}.

(** What does not change: the features offered, the largest queue, the
    doorbell offset, the capacity, and how often the status reads nonzero
    after a reset. *)
Record Offer := mkOffer {
  offered : Z * Z;
  max_queue : Z;
  notify_off : Z;
  capacity : Z;
  reset_reads : nat;
}.

Definition accepts (o : Offer) (g : Z * Z) : bool :=
  bool_decide (Z.land (fst g) (Z.lnot (fst (offered o))) = 0 /\ Z.land (snd g) (Z.lnot (snd (offered o))) = 0 /\
               Z.land (snd g) VIRTIO_F_VERSION_1_BIT <> 0).

Definition t_write (o : Offer) (t : Transport) (off v : Z) : Transport :=
  let 'mkTransport r s ds gs g qs qz qd qa qu qe := t in
  if decide (off = COMMON_DEVICE_STATUS) then
    if decide (v = 0) then mkTransport (reset_reads o) 0 0 0 (0, 0) 0 (max_queue o) 0 0 0 0
    else if decide (Z.land v STATUS_FEATURES_OK <> 0 /\ accepts o g = false)
    then mkTransport r (Z.land v (Z.lnot STATUS_FEATURES_OK)) ds gs g qs qz qd qa qu qe
    else mkTransport r v ds gs g qs qz qd qa qu qe
  else if decide (off = COMMON_DEVICE_FEATURE_SELECT) then mkTransport r s v gs g qs qz qd qa qu qe
  else if decide (off = COMMON_GUEST_FEATURE_SELECT) then mkTransport r s ds v g qs qz qd qa qu qe
  else if decide (off = COMMON_GUEST_FEATURE) then
    mkTransport r s ds gs (if decide (gs = 0) then (v, snd g) else if decide (gs = 1) then (fst g, v) else g)
      qs qz qd qa qu qe
  else if decide (off = COMMON_QUEUE_SELECT) then mkTransport r s ds gs g v qz qd qa qu qe
  else if decide (qs <> 0) then t
  else if decide (off = COMMON_QUEUE_SIZE) then mkTransport r s ds gs g qs v qd qa qu qe
  else if decide (off = COMMON_QUEUE_DESC) then mkTransport r s ds gs g qs qz v qa qu qe
  else if decide (off = COMMON_QUEUE_AVAIL) then mkTransport r s ds gs g qs qz qd v qu qe
  else if decide (off = COMMON_QUEUE_USED) then mkTransport r s ds gs g qs qz qd qa v qe
  else if decide (off = COMMON_QUEUE_ENABLE) then mkTransport r s ds gs g qs qz qd qa qu v
  else t.

Definition t_read (o : Offer) (t : Transport) (off : Z) : Transport * Z :=
  let 'mkTransport r s ds gs g qs qz qd qa qu qe := t in
  if decide (off = COMMON_DEVICE_STATUS) then
    match r with
    | S r => (mkTransport r s ds gs g qs qz qd qa qu qe, 1)
    | O => (t, s)
    end
  else if decide (off = COMMON_DEVICE_FEATURE) then
    (t, if decide (ds = 0) then fst (offered o) else if decide (ds = 1) then snd (offered o) else 0)
  else if decide (off = COMMON_QUEUE_SIZE) then (t, if decide (qs = 0) then qz else 0)
  else if decide (off = COMMON_QUEUE_NOTIFY_OFF) then (t, if decide (qs = 0) then notify_off o else 0)
  else (t, 0).

(** A device whose common configuration structure is at [common_cfg] and its
    device configuration at [device_cfg]. *)
Record transport_laws {H : Type} `{VirtioMmio H} (o : Offer) (view : H -> Transport) (common_cfg device_cfg : Z) : Prop := {
  tl_write : forall w h off v, 0 <= off < 0x38 ->
    view (mmio_write w h (common_cfg + off) v) = t_write o (view h) off v;
  tl_read : forall w h off, 0 <= off < 0x38 ->
    let '(h', v) := mmio_read w h (common_cfg + off) in (view h', v) = t_read o (view h) off;
  tl_capacity : forall w h, let '(h', v) := mmio_read w h device_cfg in view h' = view h /\ v = capacity o;
}.

Section ready.
Context (W : nat) {H : Type} `{VirtioMmio H} (o : Offer) (view : H -> Transport) (common_cfg device_cfg : Z).
Hypothesis Hlaws : transport_laws o view common_cfg device_cfg.
Implicit Types (h : H) (m : Mem).

Lemma mmio_read_common w h off :
  0 <= off < 0x38 -> exists h', mmio_read w h (common_cfg + off) = (h', snd (t_read o (view h) off)) /\
    view h' = fst (t_read o (view h) off).
Proof.
  intros Hoff. pose proof (tl_read _ _ _ _ Hlaws w h off Hoff) as Hr.
  destruct (mmio_read w h (common_cfg + off)) as [h' v]. exists h'. by rewrite <- Hr.
Qed.

Lemma wait_reset_done fuel h :
  (t_resetting (view h) < fuel)%nat -> t_status (view h) = 0 ->
  exists h', wait_reset fuel h common_cfg = Some h' /\ view h' =
    let 'mkTransport _ s ds gs g qs qz qd qa qu qe := view h in mkTransport 0 s ds gs g qs qz qd qa qu qe.
Proof.
  revert h. induction fuel as [|fuel IH]; intros h Hf Hs; [lia|]. cbn [wait_reset].
  destruct (mmio_read_common 8 h COMMON_DEVICE_STATUS) as (h' & -> & Hv); [done|].
  destruct (view h) as [[|r] s ds gs g qs qz qd qa qu qe]; simpl in *.
  - rewrite decide_False by lia. eexists. split; [done|]. exact Hv.
  - destruct (IH h') as (h'' & -> & Hv'').
    + rewrite Hv. simpl. lia.
    + by rewrite Hv.
    + exists h''. split; [done|]. by rewrite Hv'', Hv.
Qed.

(** After the reset: the device as it comes up. *)
Definition t_fresh : Transport := mkTransport 0 0 0 0 (0, 0) 0 (max_queue o) 0 0 0 0.
Definition t_negotiated : Transport := mkTransport 0 11 1 1 (0, 1) 0 (max_queue o) 0 0 0 0.

Lemma accepts_version_1 : Z.land (snd (offered o)) VIRTIO_F_VERSION_1_BIT <> 0 -> accepts o (0, 1) = true.
Proof.
  intros Hv. unfold accepts. apply bool_decide_eq_true. simpl. split; [done|]. split; [|done].
  apply Z.bits_inj'. intros n Hn. rewrite Z.land_spec, Z.lnot_spec, Z.bits_0 by done.
  destruct (decide (n = 0)) as [->|]; [|change 1 with (2 ^ 0); by rewrite Z.pow2_bits_false].
  destruct (Z.testbit (snd (offered o)) 0) eqn:Hb; [done|]. destruct Hv. unfold VIRTIO_F_VERSION_1_BIT.
  change 1 with (Z.ones 1). rewrite Z.land_ones by lia. rewrite Z.bit0_odd, <- Z.negb_even in Hb.
  apply negb_false_iff, Z.even_spec in Hb as [q Hq]. rewrite Hq. change (2 ^ 1) with 2. by rewrite Z.mul_comm, Z.mod_mul.
Qed.

Lemma negotiate_done h :
  Z.land (snd (offered o)) VIRTIO_F_VERSION_1_BIT <> 0 -> view h = t_fresh ->
  exists h', negotiate h common_cfg = Ret h' /\ view h' = t_negotiated.
Proof.
  intros Hv Hh. unfold negotiate.
  set (h1 := mmio_write 32 _ (common_cfg + COMMON_DEVICE_FEATURE_SELECT) _).
  assert (view h1 = mkTransport 0 3 1 0 (0, 0) 0 (max_queue o) 0 0 0 0) as H1.
  { unfold h1. by rewrite !(tl_write _ _ _ _ Hlaws), Hh by done. }
  clearbody h1. destruct (mmio_read_common 32 h1 COMMON_DEVICE_FEATURE) as (h2 & -> & H2); [done|].
  rewrite H1 in *. cbn [t_read fst snd] in *. rewrite bool_decide_true by done.
  set (h3 := mmio_write 8 _ _ _).
  assert (view h3 = t_negotiated) as H3.
  { unfold h3. rewrite !(tl_write _ _ _ _ Hlaws), H2 by done.
    transitivity (t_write o (mkTransport 0 3 1 1 (0, 1) 0 (max_queue o) 0 0 0 0) COMMON_DEVICE_STATUS 11); [reflexivity|].
    unfold t_write. rewrite accepts_version_1 by done. done. }
  clearbody h3. destruct (mmio_read_common 8 h3 COMMON_DEVICE_STATUS) as (h4 & -> & H4); [done|].
  rewrite H3 in *. exists h4. split; [done|exact H4].
Qed.

(** ** The frames of the queue and of the buffers *)
Record claimed m (fs : list Z) (k : nat) : Prop := {
  cl_wf : Phys.wf W (frames m);
  cl_held : forall f, f ∈ fs -> Phys.held W (frames m) f;
  cl_nodup : NoDup fs;
  cl_free : Phys.free_frame_count (frames m) = k;
}.

Lemma alloc_dma_frame_ok m fs k :
  claimed m fs (S k) ->
  exists m' f, alloc_dma_frame W m = Ret (m', f) /\ claimed m' (f :: fs) k /\ f ∉ fs /\
    ram m' = <[f := replicate 512 0]> (ram m).
Proof.
  intros [Hwf Hh Hnd Hf]. unfold alloc_dma_frame.
  destruct (Phys.allocate_frame_cases W (frames m) Hwf) as ([a' [f|]] & -> & Hres).
  2: { destruct Hres as [_ Hz]. congruence. }
  destruct Hres as (Hwf' & Hus & Hcnt & i & -> & Hi & Hall).
  assert (Z.of_nat i * FRAME_SIZE ∉ fs) as Hni.
  { intros Hin. destruct (Hh _ Hin) as (j & Hj & _ & Hfree). unfold FRAME_SIZE in Hj.
    assert (j = i) as -> by lia. congruence. }
  eexists _, _. split; [done|]. split; [|done]. split; cbn [frames set_ram set_frames].
  - done.
  - intros g [->|Hg]%elem_of_cons.
    + exists i. rewrite Hus, Hall. split; [done|]. split; [by apply (Phys.wf_sub W _ Hwf)|].
      by rewrite bool_decide_true, andb_false_r.
    + destruct (Hh _ Hg) as (j & Hj & Hu & Hb). exists j. rewrite Hus, Hall, Hb. done.
  - by constructor.
  - congruence.
Qed.

Definition t_live (desc avail used : Z) : Transport :=
  mkTransport 0 15 1 1 (0, 1) 0 (Z.min (max_queue o) QUEUE_SIZE_CAP) desc avail used 1.

Lemma setup_queue_done h m desc avail used :
  Z.land (snd (offered o)) VIRTIO_F_VERSION_1_BIT <> 0 -> 3 <= max_queue o -> view h = t_negotiated ->
  exists h', setup_queue h m common_cfg desc avail used =
    Ret (set_ram m (store16 (ram m) avail VIRTQ_AVAIL_F_NO_INTERRUPT), h',
         Z.min (max_queue o) QUEUE_SIZE_CAP, notify_off o) /\
    view h' = t_live desc avail used.
Proof.
  intros Hv Hq Hh. unfold setup_queue.
  set (h1 := mmio_write 16 h _ _). assert (view h1 = t_negotiated) as H1.
  { unfold h1. by rewrite (tl_write _ _ _ _ Hlaws), Hh by done. }
  clearbody h1. destruct (mmio_read_common 16 h1 COMMON_QUEUE_SIZE) as (h2 & -> & H2); [done|].
  rewrite H1 in *. change (snd (t_read o t_negotiated COMMON_QUEUE_SIZE)) with (max_queue o).
  rewrite bool_decide_true by done. set (h3 := mmio_write 64 _ (common_cfg + COMMON_QUEUE_USED) _).
  assert (view h3 = mkTransport 0 11 1 1 (0, 1) 0 (Z.min (max_queue o) QUEUE_SIZE_CAP) desc avail used 0) as H3.
  { unfold h3. by rewrite !(tl_write _ _ _ _ Hlaws), H2 by done. }
  clearbody h3. destruct (mmio_read_common 16 h3 COMMON_QUEUE_NOTIFY_OFF) as (h4 & -> & H4); [done|].
  rewrite H3 in *. eexists. split; [reflexivity|]. rewrite !(tl_write _ _ _ _ Hlaws), H4 by done.
  transitivity (t_write o (mkTransport 0 11 1 1 (0, 1) 0 (Z.min (max_queue o) QUEUE_SIZE_CAP) desc avail used 1)
    COMMON_DEVICE_STATUS 15); [reflexivity|].
  unfold t_write. rewrite accepts_version_1 by done. done.
Qed.

Lemma frame_words_insert r f g ws : frame_words (<[g := ws]> r) f = if decide (f = g) then ws else frame_words r f.
Proof. unfold frame_words. case_decide; subst; [by rewrite lookup_insert_eq|by rewrite lookup_insert_ne]. Qed.

Lemma frame_words_store16 r f g v :
  frame_words (store16 r g v) f =
  if decide (f = g) then <[0%nat := Z.lor (Z.land (nth 0 (frame_words r g) 0) (Z.lnot 0xFFFF)) v]> (frame_words r g)
  else frame_words r f.
Proof. apply frame_words_insert. Qed.

(** The memory the driver starts from: six frames cleared to [z], but for the
    flag in the available ring. *)
Lemma dma_frames_fresh r z desc avail used header data status v :
  NoDup [status; data; header; used; avail; desc] ->
  let r' := <[status := z]> (<[data := z]> (<[header := z]>
              (store16 (<[used := z]> (<[avail := z]> (<[desc := z]> r))) avail v))) in
  frame_words r' avail = <[0%nat := Z.lor (Z.land (nth 0 z 0) (Z.lnot 0xFFFF)) v]> z /\ frame_words r' used = z.
Proof.
  intros Hnd r'. repeat (apply NoDup_cons in Hnd as [? Hnd]).
  assert (avail <> status /\ avail <> data /\ avail <> header /\ avail <> used /\
          used <> status /\ used <> data /\ used <> header) as (? & ? & ? & ? & ? & ? & ?) by set_solver.
  unfold r'. rewrite !frame_words_insert, !frame_words_store16, !frame_words_insert.
  rewrite !(decide_False (P := avail = status)), !(decide_False (P := avail = data)), !(decide_False (P := avail = header)),
    !(decide_False (P := avail = used)), !(decide_False (P := used = status)), !(decide_False (P := used = data)),
    !(decide_False (P := used = header)), !(decide_False (P := used = avail)), !(decide_True (P := avail = avail)),
    !(decide_True (P := used = used)) by done.
  done.
Qed.

Lemma dma_ready r desc avail used header data status :
  frame_words r avail = 1 :: replicate 511 0 -> frame_words r used = replicate 512 0 ->
  let v := dma_view r desc avail used header data status in
  length (descs v) = 256%nat /\ length (avail_ring v) = 2046%nat /\ avail_idx v = 0 /\ used_idx v = 0.
Proof.
  intros Ha Hu v. unfold v, dma_view. rewrite Ha, Hu. cbn [descs avail_ring avail_idx used_idx].
  split; [by rewrite length_fmap, length_seq|]. split_and!; vm_compute; reflexivity.
Qed.

(** C14: Set-up ends, and ends with a working device.  From a device that
    offers version 1 and a queue of at least three entries, with six free
    frames, [VirtioBlk::new] leaves the device live: every status bit
    acknowledged, version 1 the only feature, queue 0 enabled with the size
    and the frames the driver keeps, interrupts suppressed; the six frames are
    distinct, allocated, and no others were taken; and the driver is in the
    state its read operation starts from. *)
Theorem virtio_setup_ready (fuel : nat) m h (notify_base multiplier : Z)
    (Hfuel : (reset_reads o < fuel)%nat) (Hv1 : Z.land (snd (offered o)) VIRTIO_F_VERSION_1_BIT <> 0)
    (Hq : 3 <= max_queue o) (Hcap : is_u64 (capacity o))
    (Hwf : Phys.wf W (frames m)) (Hfree : (6 <= Phys.free_frame_count (frames m))%nat) :
  exists m' drv desc avail used,
    setup W fuel m h common_cfg notify_base multiplier device_cfg = Some (Ret (m', drv)) /\
    view (hw (blk drv)) = t_live desc avail used /\ queue_frames drv = [desc; avail; used] /\
    frame_words (ram m') avail = VIRTQ_AVAIL_F_NO_INTERRUPT :: replicate 511 0 /\
    (let l := layout (blk drv) in let fs := [status_phys l; data_phys l; header_phys l; used; avail; desc] in
     NoDup fs /\ (forall f, f ∈ fs -> Phys.held W (frames m') f)) /\
    (Phys.free_frame_count (frames m') + 6 = Phys.free_frame_count (frames m))%nat /\
    queue_size (layout (blk drv)) = t_queue_size (t_live desc avail used) /\ vb_capacity (blk drv) = capacity o /\
    queue_notify_off drv = notify_off o /\ virtio_wf (blk drv).
Proof.
  unfold setup. set (h0 := mmio_write 8 h _ 0).
  assert (view h0 = mkTransport (reset_reads o) 0 0 0 (0, 0) 0 (max_queue o) 0 0 0 0) as Hh0.
  { unfold h0. rewrite (tl_write _ _ _ _ Hlaws) by done. by destruct (view h). }
  destruct (wait_reset_done fuel h0) as (h1 & -> & Hh1); [by rewrite Hh0|by rewrite Hh0|]. rewrite Hh0 in Hh1.
  destruct (negotiate_done h1 Hv1 Hh1) as (h2 & -> & Hh2).
  destruct (Nat.le_exists_sub 6 _ Hfree) as (k & Hk & _).
  assert (claimed m [] (S (S (S (S (S (S k))))))) as Hc.
  { split; [done|by intros ? ?%elem_of_nil|constructor|lia]. }
  destruct (alloc_dma_frame_ok _ _ _ Hc) as (m1 & desc & -> & Hc1 & _ & Hr1).
  destruct (alloc_dma_frame_ok _ _ _ Hc1) as (m2 & avail & -> & Hc2 & _ & Hr2).
  destruct (alloc_dma_frame_ok _ _ _ Hc2) as (m3 & used & -> & Hc3 & _ & Hr3).
  destruct (setup_queue_done h2 m3 desc avail used Hv1 Hq Hh2) as (h3 & -> & Hh3).
  pose proof (tl_capacity _ _ _ _ Hlaws 64 h3) as Hcfg.
  destruct (mmio_read 64 h3 device_cfg) as [h4 cap]. destruct Hcfg as [Hh4 ->].
  assert (claimed (set_ram m3 (store16 (ram m3) avail VIRTQ_AVAIL_F_NO_INTERRUPT)) [used; avail; desc] (S (S (S k))))
    as Hc3' by (destruct Hc3; by split).
  destruct (alloc_dma_frame_ok _ _ _ Hc3') as (m4 & header & -> & Hc4 & _ & Hr4).
  destruct (alloc_dma_frame_ok _ _ _ Hc4) as (m5 & data & -> & Hc5 & _ & Hr5).
  destruct (alloc_dma_frame_ok _ _ _ Hc5) as (m6 & status & -> & Hc6 & _ & Hr6).
  destruct Hc6 as [Hwf6 Hheld6 Hnd6 Hfree6].
  destruct (dma_frames_fresh (ram m) (replicate 512 0) desc avail used header data status
    VIRTQ_AVAIL_F_NO_INTERRUPT Hnd6) as [Ha Hu].
  cbn [ram set_ram] in Hr4. rewrite <- Hr1, <- Hr2, <- Hr3, <- Hr4, <- Hr5, <- Hr6 in Ha, Hu.
  change (frame_words (ram m6) avail = VIRTQ_AVAIL_F_NO_INTERRUPT :: replicate 511 0) in Ha.
  destruct (dma_ready _ desc avail used header data status Ha Hu) as (Hd & Hr & Hai & Hui).
  eexists m6, _, desc, avail, used. split; [reflexivity|]. cbn [blk hw queue_frames layout status_phys data_phys
    header_phys queue_size vb_capacity queue_notify_off t_queue_size t_live].
  split_and!; try done; [by rewrite Hh4|lia|].
  split; cbn [layout queue_size dma vb_capacity]; rewrite ?Hd, ?Hr, ?Hai, ?Hui; unfold QUEUE_SIZE_CAP; try done; lia.
Qed.
End ready.

(** ** A device with its three blocks in BAR 4 *)
Definition demo_dwords : list (Z * Z) := [
  (0x20, 0xFE000004); (0x24, 0);
  (0x40, 0x01105009); (0x44, 4); (0x48, 0); (0x4C, 0x38);
  (0x50, 0x02146409); (0x54, 4); (0x58, 0x3000); (0x5C, 0x1000); (0x60, 4);
  (0x64, 0x04100009); (0x68, 4); (0x6C, 0x2000); (0x70, 0x1000)].
Definition demo_pci : Pci.Space := list_to_map (prod_map (config_address Pci.at3) id <$> demo_dwords).
Definition demo_blk : PciDevice := mkPciDevice Pci.at3 VIRTIO_VENDOR_ID VIRTIO_BLK_DEVICE_ID.

Lemma demo_pci_u32 (w : Z) : is_u32 (cfg_read demo_pci w).
Proof.
  cbn [cfg_read Pci.space_host]. destruct (demo_pci !! w) as [v|] eqn:Hl; [|done].
  apply elem_of_list_to_map_2, list_elem_of_fmap in Hl as ([off v'] & [= -> ->] & Hin).
  assert (forallb (fun p => (0 <=? snd p) && (snd p <? 2 ^ 32)) demo_dwords = true) as Hall by (vm_compute; reflexivity).
  rewrite forallb_forall in Hall. apply list_elem_of_In, Hall in Hin. simpl in *. unfold in_width. lia.
Qed.

Definition demo_caps : Caps :=
  mkCaps (Some (mkCap 4 0 0x38)) (Some (mkCap 4 0x3000 0x1000)) 4 (Some (mkCap 4 0x2000 0x1000)) [0; 0; 0; 0; 0x4000; 0].

Lemma virtio_blocks_mapped_witness :
  exists m', @map_blocks _ demo_x86 _ demo_mem demo_pci demo_blk demo_caps =
    Ret (m', (0xffff960000400000, 0xffff960000403000, 0xffff960000402000)) /\
    @Virt.translate_in demo_x86 m' (kernel_pml4 m') 0xffff960000403004 = Some (0xFE003004, BAR_FLAGS).
Proof.
  destruct (@map_blocks _ demo_x86 _ demo_mem demo_pci demo_blk demo_caps) as [[m' a]|] eqn:Hm;
    [|vm_compute in Hm; discriminate Hm].
  assert (a = (0xffff960000400000, 0xffff960000403000, 0xffff960000402000)) as -> by (vm_compute in Hm; congruence).
  exists m'. split; [done|].
  destruct (@virtio_blocks_mapped _ demo_x86 demo_mapper_laws _ 16 demo_mem demo_pci demo_blk 0x40 demo_caps m' _ _ _
    demo_pci_u32 ltac:(vm_compute; reflexivity) Hm (mkCap 4 0x3000 0x1000) _ 4 ltac:(right; left; done) ltac:(done))
    as (phys & Hp & Ht).
  assert (phys = 0xFE000000) as -> by (vm_compute in Hp; congruence). exact (Ht eq_refl).
Defined.

(** A device that takes two reads to reset and offers a queue of 128. *)
Definition demo_offer : Offer := mkOffer (0x24, 1) 128 0 64 2.

#[local] Instance demo_mmio : VirtioMmio Transport := {|
  mmio_read _ t a := if decide (a = 0x9000) then (t, capacity demo_offer) else t_read demo_offer t (a - 0x1000);
  mmio_write _ t a v := t_write demo_offer t (a - 0x1000) v;
|}.

Lemma demo_transport_laws : transport_laws demo_offer id 0x1000 0x9000.
Proof.
  split.
  - intros w t off v Hoff. unfold mmio_write, demo_mmio, id. f_equal. lia.
  - intros w t off Hoff. unfold mmio_read, demo_mmio, id. rewrite decide_False by lia.
    replace (0x1000 + off - 0x1000) with off by lia. by destruct (t_read demo_offer t off).
  - intros w t. unfold mmio_read, demo_mmio. by rewrite decide_True.
Qed.

Lemma demo_seven_free : Phys.wf 1 (mkFrames (mkBitmap [0xFE] 8) (mkBitmap [0xFE] 8)).
Proof.
  assert (BM.wf 1 (mkBitmap [0xFE] 8)) as Hb; [|by split].
  split; simpl; [done|repeat constructor; lia|unfold BM.CAPACITY; lia|].
  intros i Hi. destruct (decide (i < 8)%nat); [done|].
  pose proof (BM.is_free_lt_capacity _ _ _ Hi) as Hc. unfold BM.CAPACITY in Hc.
  rewrite BM.is_free_testbit in Hi by done. simpl in Hi.
  rewrite Nat.div_small, Nat.mod_small in Hi by lia. simpl in Hi.
  rewrite Z.bits_above_log2 in Hi; [done|lia|]. change (Z.log2 254) with 7. lia.
Qed.

Lemma virtio_setup_ready_witness :
  exists m' drv, setup 1 3 (mkMem (mkFrames (mkBitmap [0xFE] 8) (mkBitmap [0xFE] 8)) ∅ 0) (t_fresh demo_offer)
      0x1000 0x5000 4 0x9000 = Some (Ret (m', drv)) /\
    virtio_wf (blk drv) /\ queue_size (layout (blk drv)) = 8.
Proof.
  destruct (virtio_setup_ready 1 demo_offer id 0x1000 0x9000 demo_transport_laws 3
    (mkMem (mkFrames (mkBitmap [0xFE] 8) (mkBitmap [0xFE] 8)) ∅ 0) (t_fresh demo_offer) 0x5000 4)
    as (m' & drv & desc & avail & used & Hs & _ & _ & _ & _ & _ & Hq & _ & _ & Hw).
  - cbn. lia.
  - done.
  - cbn. lia.
  - done.
  - exact demo_seven_free.
  - vm_compute. lia.
  - exists m', drv. split; [exact Hs|]. split; [exact Hw|]. exact Hq.
Defined.
