(* ===== verification/Boot.v ===== *)
(** * Boot ([kernel/src/main.rs])

    [_start] from the boot loader's answers to the first process, as a normal
    build runs it: memory, the fixed regions, the processor's tables and timers,
    the other cores, the block driver, the self-tests, the console and [init].
    The lines it prints before the console server exists are not recorded.

    While the boot processor goes on, the cores it has started poll an empty
    ready queue; [others] is whatever they do to the scheduler's state in the
    meantime.  The theorems: on a machine with enough memory boot reaches the
    scheduler with [init] ready and the console server waiting; and a panic
    before the cores have their slots is never reported. *)
From S2P Require Import Prelude Bitmap Abi Ring Rendezvous CapTable Phys Virt Process Elf Mapper MapRegion Sched.
From S2P Require Import SchedAbs SchedInv SchedSteps Uart Kernel Handlers Block Fat Virtio Syscall UserMem Idle Irq Trap Rt.
From S2P Require Import Idt CoreId Lapic Regions Gdt SmpBoot Loader MapperModel BootMem Pci VirtioInit.
Open Scope Z_scope.

(** The boot loader's answers; a module is its command line and its data. *)
Record BootInfo := mkBootInfo {
  base_revision_supported : bool;
  hhdm_response : option Z;
  memmap_response : option (list MemmapEntry);
  modules_response : option (list (list Z * list Z));
  mp_response : option MpRespData;
}.

(** The hardware as it is handed over. *)
Record Hardware (H : Type) := mkHardware {
  hw_cr3 : Z;
  hw_ram : gmap Z (list Z);
  hw_apic_base : Z;
  hw_apic_id : Z;
  hw_timers : Timers;
  hw_pic : Pic;
  hw_uart : Uart;
  hw_pci : H;
}.
Arguments mkHardware {H} _ _ _ _ _ _ _ _.
Arguments hw_cr3 {H} _.
Arguments hw_ram {H} _.
Arguments hw_apic_base {H} _.
Arguments hw_apic_id {H} _.
Arguments hw_timers {H} _.
Arguments hw_pic {H} _.
Arguments hw_uart {H} _.
Arguments hw_pci {H} _.

Section boot.
Context (W : nat) {D H : Type} `{X86} `{GdtCrate} `{RightsOps} `{BlockDevice D} `{PciHost H} `{VirtioMmio H}.
Context (MEMMAP_USABLE : Z) (star_write : Z -> Z -> Z -> Z -> bool) (ENTRY_ADDRS : list Z).
Context (delay : nat -> Z) (pit_unit count_unit : Z) (ready_at : nat -> Z -> bool).
Context (attach : @Driver H -> D) (others : nat -> Sched -> Sched) (fuel : nat).

Definition expect {A} (o : option A) (why : string) : outcome A :=
  match o with Some a => Ret a | None => Panic why end.

(** ** [arch::x86_64::init] *)
Record Arch := mkArch {
  arch_tss : list Tss;
  arch_gdt : Gdt;
  arch_selectors : GdtSelectors;
  arch_seg : SegRegs;
  arch_idt : Idt;
  arch_timers : Timers;
  arch_pic : Pic;
  arch_reload : Z;
}.

Definition arch_init (m : Mem) (hw : Hardware H) : outcome (Mem * Arch) :=
  let! '(m, tss, g, s, r) := init_bsp W m in
  let '(t, p) := interrupts_init delay (hw_timers hw) (hw_pic hw) in
  let! m := init_mmio_mapping m (hw_apic_base hw) in
  let t := init_this_core delay t in
  match calibrate_against_pit delay pit_unit count_unit fuel t with
  | None => Panic "calibration bound exceeded"
  | Some (t, reload) => Ret (m, mkArch tss g s r idt_init (arm_timer_this_core delay t reload) p reload)
  end.

(** ** The other cores *)
Definition bring_up (m : Mem) (s : Sched) (hw : Hardware H) (mp : option MpRespData)
    : outcome (Mem * Sched * list Launch) :=
  match mp with
  | Some resp => let! '(m, s, launches, _) := bring_up_aps W ready_at m s resp in Ret (m, s, launches)
  | None => let! '(m, s) := bring_up_bsp_only W m s (hw_apic_id hw) in Ret (m, s, [])
  end.

(** [init_spawnable_modules]. *)
Definition init_spawnable_modules (modules : list (list Z * list Z)) : list (list Z * list Z) :=
  filter (fun f => f.1 <> str_bytes "init") modules.

(** The block driver, when there is a disk; an error is ignored. *)
Definition probe_disk (m : Mem) (h : H) : outcome (Mem * option D) :=
  match virtio_init W fuel m h with
  | None => Panic "device bound exceeded"
  | Some r =>
      let! '(m, r) := r in
      Ret (m, match r with Ok v => Some (attach v) | Err _ => None end)
  end.

(** ** Self-tests *)

(** [int3]: the gate must be the handler that returns. *)
Definition breakpoint_self_test (idt : Idt) : outcome unit :=
  match deliver 3 idt VECTOR_BP with
  | Some (Entered (mkGate breakpoint_handler _ _)) => Ret tt
  | _ => Panic "the breakpoint did not return"
  end.

Definition is_ok {A E} (r : result A E) : bool := match r with Ok _ => true | Err _ => false end.

Definition captable_smoke_test (probe_endpoint : nat) : outcome unit :=
  let table := Cap.insert Cap.new CONSOLE_CAP (mkCapSlot (OEndpoint probe_endpoint) SEND) in
  assert! is_ok (Cap.lookup table CONSOLE_CAP SEND) else "assertion failed: lookup(SEND).is_ok()";
  assert! negb (is_ok (Cap.lookup table CONSOLE_CAP RECV)) else "assertion failed: lookup(RECV).is_err()";
  assert! negb (is_ok (Cap.get table (mkCapIndex 99))) else "assertion failed: get(99).is_err()";
  Ret tt.

(** [Arc::new(Endpoint::new())]: endpoints are numbered as they are made. *)
Definition endpoint_new (k : Kernel) : Kernel * nat :=
  let e := size (kendpoints k) in (put_ep k e SlotEmpty, e).

(** [executor::spawn(Task::new(..))]. *)
Definition spawn_task (k : Kernel) (t : Task) : Kernel :=
  let '(k, id) := task_new k in exec_spawn k id t.

Definition ipc_smoke_test (k : Kernel) : outcome Kernel :=
  let '(k, probe_endpoint) := endpoint_new k in
  let! _ := captable_smoke_test probe_endpoint in
  let '(k, receiver_first) := endpoint_new k in
  let k := spawn_task k (SmokeRecv receiver_first 111) in
  let k := spawn_task k (SmokeSend receiver_first (Some (mkMessage 111 [0; 0; 0; 0]))) in
  let '(k, sender_first) := endpoint_new k in
  let k := spawn_task k (SmokeSend sender_first (Some (mkMessage 222 [0; 0; 0; 0]))) in
  let k := spawn_task k (SmokeRecv sender_first 222) in
  run_ready_tasks fuel k.

(** ** The console *)

(** [uart::init]. *)
Definition uart_init (m : Machine) : outcome Machine :=
  let m := set_kernel m (set_uart (kernel m) (Com1.init (kuart (kernel m)))) in
  let! m := register_irq m (Z.to_nat IRQ4) uart_handle_irq in
  Ret (unmask_irq4 m).

Definition uart_banner : list Z := str_bytes "[uart] real 16550 driver online, this line went through it" ++ [13; 10].

Definition start_console (k : Kernel) : outcome (Kernel * nat) :=
  let '(k, console_endpoint) := endpoint_new k in
  let k := spawn_task k (ConsoleServer console_endpoint) in
  let! k := run_ready_tasks fuel k in
  Ret (k, console_endpoint).

(** The kernel tasks: the echo task, the smoke test's, the console server. *)
Definition start_tasks (k : Kernel) : outcome (Kernel * nat) :=
  let k := spawn_task k EchoTask in
  let! k := ipc_smoke_test k in
  start_console k.

(** ** The first process *)

Definition spawn_init (y : Sys D) (sel : GdtSelectors) (modules : list (list Z * list Z)) (console_endpoint : nat)
    : outcome (Sys D * Pid) :=
  let! '(_, data) := expect (find (fun f => bool_decide (f.1 = str_bytes "init")) modules)
                       "no boot module with cmdline init (check limine.conf's module_string)" in
  let k := set_sched (sk y) (others 0 (ksched (sk y))) in
  let '(s, init_pid) := allocate_pid (ksched k) in
  let! '(m, r) := @Elf.from_elf W _ (Build_Selectors (sel_user_code sel) (sel_user_data sel)) (kmem k) init_pid data None in
  match r with
  | Err _ => Panic "failed to load init's ELF image"
  | Ok q =>
      let q := set_cap_table q (Cap.insert (cap_table q) CONSOLE_CAP (mkCapSlot (OEndpoint console_endpoint) SEND)) in
      let '(k, child_link) := endpoint_new (set_mem (set_sched k s) m) in
      let q := set_cap_table q (Cap.insert (cap_table q) CHILD_LINK_CAP
                 (mkCapSlot (OEndpoint child_link) (rights_or SEND RECV))) in
      let '(y, r) := mount_root (set_sk y k) in
      let q := if is_ok r then set_cap_table q (Cap.insert (cap_table q) FS_CAP (mkCapSlot OFsRoot READ)) else q in
      let! '(s, r) := spawn (others 1 (ksched (sk y))) q in
      match r with
      | Err _ => Panic "process table exhausted spawning the very first process"
      | Ok _ => Ret (set_sk y (set_sched (sk y) s), init_pid)
      end
  end.

(** ** [_start] *)
Record Booted := mkBooted {
  bt_sys : Sys D;
  bt_arch : Arch;
  bt_user : Z * Z * Msrs;
  bt_launches : list Launch;
  bt_pic : Pic;
  bt_irq_table : list (option (Kernel -> Kernel));
  bt_init : Pid;
  bt_resume : Resume;
}.

(** Up to the idle address space: what every feature of the kernel shares. *)
Definition boot_kernel (info : BootInfo) (hw : Hardware H) (z : Sizes)
    : outcome (Mem * Sched * Arch * (Z * Z * Msrs) * list Launch * AddressSpace * list (list Z * list Z)) :=
  assert! base_revision_supported info else "unsupported Limine base revision";
  let! hhdm_offset := expect (hhdm_response info) "Limine did not honor the HHDM request" in
  let! entries := expect (memmap_response info) "Limine did not honor the memory map request" in
  let! m := memory_init W MEMMAP_USABLE hhdm_offset (hw_cr3 hw) (hw_ram hw) entries in
  let! '(m, inner) := map_fixed_regions W m z in
  let s := set_inner sched_new inner in
  let! modules := expect (modules_response info) "Limine did not honor the modules request" in
  let! '(m, arch) := arch_init m hw in
  let! '(m, s, launches) := bring_up m s hw (mp_response info) in
  let! core := core_index s (hw_apic_id hw) in
  let! user := syscall_init star_write ENTRY_ADDRS (arch_selectors arch) core in
  let! '(m, idle) := build_idle_address_space W m in
  Ret (m, s, arch, user, launches, idle, modules).

(** The normal boot sequence from there. *)
Definition boot_services (m : Mem) (s : Sched) (arch : Arch) (idle : AddressSpace) (modules : list (list Z * list Z))
    (hw : Hardware H) : outcome (Sys D * Pic * list (option (Kernel -> Kernel)) * Pid * Resume) :=
  let! '(m, disk) := probe_disk m (hw_pci hw) in
  let! _ := breakpoint_self_test (arch_idt arch) in
  let k := mkKernel s m ∅ (mkExec ∅ ∅ (Ring.new READY_QUEUE_CAPACITY) false 0) (hw_uart hw) idle in
  let! mc := uart_init (mkMachine k (replicate MAX_CORES (mkApic ∅ [])) (arch_pic arch) 0 (replicate MAX_IRQ None)) in
  let k := set_uart (kernel mc) (Com1.write_bytes (kuart (kernel mc)) uart_banner) in
  let! '(k, console_endpoint) := start_tasks k in
  let! '(y, init_pid) := spawn_init (mkSys k disk None (init_spawnable_modules modules)) (arch_selectors arch)
                           modules console_endpoint in
  let! core := core_index (ksched (sk y)) (hw_apic_id hw) in
  let '(k, r) := ap_enter_scheduler (sk y) core in
  Ret (set_sk y k, pic mc, irq_table mc, init_pid, r).

Definition boot (info : BootInfo) (hw : Hardware H) (z : Sizes) : outcome Booted :=
  let! '(m, s, arch, user, launches, idle, modules) := boot_kernel info hw z in
  let! '(y, pic, irqs, init_pid, r) := boot_services m s arch idle modules hw in
  Ret (mkBooted y arch user launches pic irqs init_pid r).
End boot.

(** ** The scheduler before the first process *)

(** No process yet; whatever the cores' own slots say. *)
Record quiet (s : Sched) : Prop := {
  qt_inv : inv s;
  qt_inner : inner s = inner_new;
  qt_busy : stack_busy s = replicate MAX_PROCESSES false;
  qt_boxes : process_slot_used s = replicate PROCESS_SLOT_COUNT false;
}.

Lemma quiet_new : quiet sched_new.
Proof. split; [apply inv_new|done..]. Qed.

Lemma quiet_percpu s f c :
  quiet s -> (forall x, pc_current (f x) = pc_current x) -> quiet (set_percpu s (alter f c (percpu s))).
Proof. intros [Hi H1 H2 H3] Hf. split; [by apply inv_set_percpu|done..]. Qed.

Lemma quiet_assign s i id : quiet s -> quiet (assign_slot s i id).
Proof. intros Hq. by apply quiet_percpu. Qed.

Lemma quiet_ready s i : quiet s -> quiet (set_slot_ready s i).
Proof. intros Hq. by apply quiet_percpu. Qed.

Lemma quiet_start_aps bsp infos m s n : quiet s -> quiet (start_aps bsp infos m s n).1.1.
Proof.
  revert s n. induction infos as [|id infos IH]; intros s n Hq; cbn [start_aps]; [done|].
  case_decide; [by apply IH|]. case_decide; [done|]. pose proof (IH (assign_slot s n id) (S n) (quiet_assign s n id Hq)) as Hs.
  by destruct (start_aps bsp infos m (assign_slot s n id) (S n)) as [[s' n'] ls].
Qed.

(** What the started cores may do to the scheduler while nothing can run. *)
Definition idle_polling (others : nat -> Sched -> Sched) : Prop :=
  forall n s, inv s -> inv (others n s) /\ inner (others n s) = inner s /\ stack_busy (others n s) = stack_busy s /\
    process_slot_used (others n s) = process_slot_used s /\ slot_ids (others n s) = slot_ids s.

Lemma quiet_others others n s : idle_polling others -> quiet s -> quiet (others n s).
Proof. intros Ho [Hi H1 H2 H3]. destruct (Ho n s Hi) as (? & ? & ? & ? & _). split; [done|congruence..]. Qed.

Definition init_pid : Pid := pid_new 0 1.

(** The first process: slot 0, generation 1, alone in the table and the ready
    queue, running nowhere. *)
Record only_process (s : Sched) (q : Process) : Prop := {
  op_inv : inv s;
  op_slot : proc_at s 0 = Some (Occupied (mkBox 0 q));
  op_others : forall i, (0 < i < MAX_PROCESSES)%nat -> proc_at s i = Some Empty;
  op_ready : Ring.ring_repr MAX_PROCESSES (ready (inner s)) [pid q];
  op_current : forall core, current_of s core = None;
}.

Lemma first_pid s : quiet s -> allocate_pid s =
  (put_slot (set_inner s (set_generations (inner s) (<[0%nat := 1]> (generations (inner s))))) 0 Reserved, init_pid).
Proof.
  intros [_ Hi Hb _]. unfold allocate_pid.
  assert (position (slot_allocatable s) (seq 0 MAX_PROCESSES) = Some 0%nat) as ->.
  { cbn [seq MAX_PROCESSES position]. unfold slot_allocatable. by rewrite Hi, Hb. }
  by rewrite Hi.
Qed.

Lemma spawn_first others s q :
  idle_polling others -> quiet s -> pid q = init_pid -> state q = Ready -> wait_waiter q = None ->
  exists s', spawn (others 1%nat (allocate_pid s).1) q = Ret (s', Ok tt) /\ only_process s' q /\ slot_ids s' = slot_ids s.
Proof.
  intros Ho Hq Hp Hst Hw. pose proof (allocate_pid_inv s (qt_inv s Hq)) as Hinv.
  rewrite (first_pid s Hq) in Hinv |- *. cbn [fst] in Hinv |- *. destruct Hq as [_ Hi Hb Hu].
  set (s1 := put_slot _ _ _) in *. destruct (Ho 1%nat s1 Hinv) as (Hinv2 & Hi2 & Hb2 & Hu2 & Hids). set (s2 := others 1%nat s1) in *.
  assert (inner s1 = mkInner (<[0%nat := Reserved]> (replicate MAX_PROCESSES Empty))
    (<[0%nat := 1]> (replicate MAX_PROCESSES 0)) (Ring.new MAX_PROCESSES) (replicate MAX_CORES None)) as Hin1.
  { unfold s1. cbn [inner put_slot set_inner set_processes set_generations]. by rewrite Hi. }
  assert (fits s2 q Ready) as Hfits.
  { split; rewrite ?Hi2, ?Hin1, ?Hp; done. }
  destruct (spawn s2 q) as [[s' r]|] eqn:Hs.
  2: { exfalso. revert Hs. unfold spawn. rewrite Hp. change (pid_index init_pid) with 0%nat.
    rewrite decide_False by (unfold MAX_PROCESSES; lia). unfold process_box_new, alloc_process_slot.
    rewrite Hu2. change (process_slot_used s1) with (process_slot_used s). by rewrite Hu. }
  pose proof (spawn_inv s2 q s' r Hinv2 Hfits Hs) as Hinv'. revert Hs. unfold spawn. rewrite Hp.
  change (pid_index init_pid) with 0%nat. rewrite decide_False by (unfold MAX_PROCESSES; lia).
  unfold process_box_new, alloc_process_slot. rewrite Hu2. change (process_slot_used s1) with (process_slot_used s).
  rewrite Hu. change (position negb _) with (Some 0%nat). cbn iota beta.
  destruct (notify_idle_cores_eq (ready_push (put_slot (set_process_slot_used s2 (<[0%nat := true]> (replicate PROCESS_SLOT_COUNT false)))
    0 (Occupied (mkBox 0 q))) init_pid)) as [evs ->]. intros [= <- <-]. eexists. split; [reflexivity|]. split.
  - split; [done|..].
    + unfold proc_at. cbn [inner ready_push put_slot set_inner set_processes set_ready set_process_slot_used processes].
      rewrite Hi2, Hin1. done.
    + intros i Hr. unfold proc_at. cbn [inner ready_push put_slot set_inner set_processes set_ready set_process_slot_used processes].
      rewrite Hi2, Hin1. cbn [processes]. rewrite !list_lookup_insert_ne by lia. apply lookup_replicate_2. lia.
    + cbn [inner ready_push put_slot set_inner set_processes set_ready set_process_slot_used ready]. rewrite Hi2, Hin1, Hp. cbn [ready].
      destruct (Ring.ring_repr_push MAX_PROCESSES (Ring.new MAX_PROCESSES) [] init_pid) as (r' & -> & Hr);
        [apply Ring.ring_repr_new|unfold MAX_PROCESSES; simpl; lia|done].
    + intros core. unfold current_of. cbn [inner ready_push put_slot set_inner set_processes set_ready set_process_slot_used current].
      rewrite Hi2, Hin1. cbn [current]. destruct (replicate MAX_CORES None !! core) as [x|] eqn:Hx; [|done].
      by apply lookup_replicate in Hx as [-> _].
  - change (slot_ids s2 = slot_ids s1). exact Hids.
Qed.

(** ** The kernel tasks *)
Lemma captable_smoke_passes `{RightsLaws} e : captable_smoke_test e = Ret tt.
Proof.
  assert (contains SEND SEND = true) as Hs by (by apply contains_spec).
  assert (contains SEND RECV = false) as Hr.
  { destruct (contains SEND RECV) eqn:E; [|done]. by apply contains_spec in E. }
  unfold captable_smoke_test, Cap.lookup.
  change (Cap.get _ CONSOLE_CAP) with (Ok (E := SyscallError) (mkCapSlot (OEndpoint e) SEND)). cbn iota beta.
  cbn [rights]. by rewrite Hs, Hr.
Qed.

(** The tasks after boot: each waits for its next input, with the smoke test's
    four gone. *)
Record tasks_started (k k' : Kernel) : Prop := {
  ts_sched : ksched k' = ksched k;
  ts_mem : kmem k' = kmem k;
  ts_idle : kidle k' = kidle k;
  ts_tasks : tasks (kexec k') = {[0%nat := EchoTask; 5%nat := ConsoleServer 3]};
  ts_console : kendpoints k' !! 3%nat = Some (ReceiverWaiting (WTask 5%nat));
  ts_echo : rx_waker (kuart k') = Some 0%nat;
  ts_endpoints : size (kendpoints k') = 4%nat;
  ts_tx : tx (kuart k') = tx (kuart k);
}.

Ltac evaluate_lhs :=
  lazymatch goal with |- ?x = _ => let v := eval vm_compute in x in transitivity v; [vm_compute; reflexivity|reflexivity] end.

Lemma start_tasks_spec `{RightsLaws} f s m u idle :
  rx u = [] ->
  let k := mkKernel s m ∅ (mkExec ∅ ∅ (Ring.new READY_QUEUE_CAPACITY) false 0) u idle in
  exists k', start_tasks (20 + f) k = Ret (k', 3%nat) /\ tasks_started k k'.
Proof.
  intros Hrx k. unfold start_tasks, ipc_smoke_test. cbn [endpoint_new]. rewrite captable_smoke_passes. cbn iota beta.
  destruct u as [l b t p e w]. cbn [rx] in Hrx. subst l. eexists. split; [evaluate_lhs|].
  split; vm_compute; reflexivity.
Qed.

(** ** The regions *)
Abbreviation double_fault_pages := (seq 0 MAX_CORES ≫= double_fault_stack_pages).
Abbreviation all_idle_pages := (seq 0 MAX_CORES ≫= idle_stack_pages).

(** Without an answer about the other cores only the first idle stack is
    mapped. *)
Definition idle_pages (mp : option MpRespData) : list Z :=
  match mp with Some _ => all_idle_pages | None => idle_stack_pages 0 end.

Definition kernel_pages (z : Sizes) (mp : option MpRespData) : list Z :=
  heap_pages ++ fixed_pages z ++ double_fault_pages ++ idle_pages mp.

(** The pages in the order boot maps them. *)
Definition boot_order (z : Sizes) (mp : option MpRespData) : list Z :=
  heap_pages ++ fixed_pages z ++ double_fault_pages ++ lapic_pages ++ idle_pages mp.

Lemma boot_order_all z resp : boot_order z (Some resp) ≡ₚ boot_pages z.
Proof.
  unfold boot_order, fixed_pages, boot_pages, idle_pages.
  generalize heap_pages, lapic_pages, double_fault_pages, all_idle_pages, (seq 0 MAX_PROCESSES ≫= kernel_stack_pages).
  generalize (seq 0 4 ≫= fun f => sched_field_pages f (nth f (size_fields z) 0)), (seq 0 MAX_PROCESSES ≫= trap_frame_pages).
  generalize (seq 0 PROCESS_SLOT_COUNT ≫= fun s => process_box_pages s (size_process z)). intros. solve_Permutation.
Qed.

Lemma kernel_pages_length z mp : (length (kernel_pages z mp) + 1 <= length (boot_pages z))%nat.
Proof.
  rewrite <- (boot_order_all z (mkMp 0 [])). unfold kernel_pages, boot_order. rewrite !length_app.
  assert (length (idle_pages mp) <= length all_idle_pages)%nat.
  { destruct mp; [done|]. change (seq 0 MAX_CORES) with (0%nat :: seq 1 (MAX_CORES - 1)). unfold idle_pages.
    rewrite bind_cons, length_app. lia. }
  change (length lapic_pages) with 1%nat. cbn [idle_pages]. lia.
Qed.

Lemma kernel_pages_in z mp resp (frame p : Z) :
  p ∈ kernel_pages z mp ++ [(LAPIC_MMIO_VBASE, frame)].*1 -> p ∈ boot_order z (Some resp).
Proof.
  assert (forall q, q ∈ idle_pages mp -> q ∈ all_idle_pages) as Hi.
  { intros q. destruct mp; [done|]. intros Hq. apply list_elem_of_bind. exists 0%nat. split; [exact Hq|].
    apply elem_of_seq. unfold MAX_CORES. lia. }
  unfold kernel_pages, boot_order. change ([(LAPIC_MMIO_VBASE, frame)].*1) with lapic_pages. cbn [idle_pages].
  rewrite !elem_of_app. intros [[?|[?|[?|?%Hi]]]|?]; tauto.
Qed.

Lemma run_aligned base n p : base mod 4096 = 0 -> p ∈ page_run base n -> p mod 4096 = 0.
Proof. intros Hb (i & _ & ->)%elem_of_page_run. div_lia. Qed.

Lemma slots_aligned base s (size : nat -> nat) l p :
  base mod 4096 = 0 -> s mod 4096 = 0 ->
  p ∈ (l ≫= fun i => page_run (base + Z.of_nat i * s + 4096) (size i)) -> p mod 4096 = 0.
Proof.
  intros Hb Hs (i & Hp & _)%list_elem_of_bind. eapply run_aligned; [|exact Hp].
  apply Z.mod_divide in Hb as [b ->]; [|done]. apply Z.mod_divide in Hs as [t ->]; [|done].
  apply Z.mod_divide; [done|]. exists (b + Z.of_nat i * t + 1). ring.
Qed.

Lemma boot_pages_kernel z : sizes_ok z -> Forall kernel_page (boot_pages z).
Proof.
  intros Hz. apply Forall_forall. intros p Hp. split.
  - destruct (boot_region z Hz) as [_ Hw]. specialize (Hw p Hp). lia.
  - unfold boot_pages in Hp. rewrite !elem_of_app in Hp. destruct Hp as [Hp|[Hp|[Hp|[Hp|[Hp|[Hp|[Hp|Hp]]]]]]].
    + eapply run_aligned; [|exact Hp]; done.
    + refine (slots_aligned DOUBLE_FAULT_STACK_BASE DOUBLE_FAULT_STACK_SLOT_STRIDE (fun _ => DOUBLE_FAULT_STACK_PAGES) (seq 0 MAX_CORES) p _ _ Hp); done.
    + by apply list_elem_of_singleton in Hp as ->.
    + refine (slots_aligned IDLE_STACK_BASE IDLE_STACK_SLOT_STRIDE (fun _ => IDLE_STACK_PAGES) (seq 0 MAX_CORES) p _ _ Hp); done.
    + refine (slots_aligned SCHED_STATE_BASE SCHED_FIELD_STRIDE
        (fun f => Z.to_nat (Z.max 1 (div_ceil (nth f (size_fields z) 0) 4096))) (seq 0 4) p _ _ Hp); done.
    + refine (slots_aligned TRAP_FRAME_BASE TRAP_FRAME_STRIDE (fun _ => Z.to_nat (Z.max 1 (div_ceil 160 4096))) (seq 0 MAX_PROCESSES) p _ _ Hp); done.
    + refine (slots_aligned PROCESS_BOX_BASE PROCESS_BOX_STRIDE
        (fun _ => Z.to_nat (Z.max 1 (div_ceil (size_process z) 4096))) (seq 0 PROCESS_SLOT_COUNT) p _ _ Hp); done.
    + refine (slots_aligned KERNEL_STACKS_BASE KERNEL_STACK_SLOT_STRIDE (fun _ => Z.to_nat KERNEL_STACK_PAGES) (seq 0 MAX_PROCESSES) p _ _ Hp); done.
Qed.

Section memory.
Context (W : nat) `{SpaceLaws W}.

(** All of them can be mapped on a machine with enough free frames whose own
    tables have none of them. *)
Lemma boot_order_growable m z mp :
  sizes_ok z -> kernel_space_ok W m -> unmapped m (boot_pages z) ->
  (4 * length (boot_pages z) <= Phys.free_frame_count (frames m))%nat -> growable W m (boot_order z mp).
Proof.
  intros Hz Hk Hu Hf. assert (forall resp, growable W m (boot_order z (Some resp))) as Hall.
  { intros resp. split; [done|]. pose proof (boot_order_all z resp) as Hp. pose proof Hk as ([Hwf _] & _ & _ & H0k).
    split; [done|done|..].
    - rewrite Hp. apply (boot_region z Hz).
    - rewrite Hp. by apply boot_pages_kernel.
    - unfold unmapped. by rewrite Hp.
    - by rewrite Hp. }
  destruct mp as [resp|]; [apply Hall|]. specialize (Hall (mkMp 0 [])). unfold boot_order, idle_pages in Hall |- *.
  change (seq 0 MAX_CORES) with (0%nat :: seq 1 (MAX_CORES - 1)) in Hall at 2. rewrite bind_cons in Hall.
  rewrite !app_assoc in Hall. apply growable_prefix in Hall. by rewrite <- !app_assoc in Hall.
Qed.
End memory.

(** ** The processor and the other cores *)

(** Operations of at most [J] time units, a PIT tick of more than four of them,
    a timer count that neither outlasts a tick nor overflows within one, and
    fuel for a tick's worth of polling. *)
Record timing_ok (delay : nat -> Z) (pit_unit count_unit J : Z) (fuel : nat) : Prop := {
  tm_delay : forall n, 1 <= delay n <= J;
  tm_pit : 0 < pit_unit;
  tm_count : 0 < count_unit;
  tm_ops : 4 * J < period pit_unit;
  tm_rate : 2 * J + count_unit <= period pit_unit;
  tm_width : period pit_unit + 2 * J < count_unit * (2 ^ 32 - 1);
  tm_fuel : period pit_unit + 1 < Z.of_nat fuel;
}.

(** What the boot loader reports about the cores: the boot processor's own
    identifier, no identifier twice. *)
Definition cores_ok (mp : option MpRespData) (own : Z) : Prop :=
  own <> UNASSIGNED /\
  match mp with
  | Some resp => bsp_lapic_id resp = own /\ NoDup (cpus resp) /\ UNASSIGNED ∉ cpus resp
  | None => True
  end.

Section cores.
Context (W : nat) {H : Type} `{SpaceLaws W} `{GdtLaws}.
Context (star_write : Z -> Z -> Z -> Z -> bool) (ENTRY_ADDRS : list Z).
Context (delay : nat -> Z) (pit_unit count_unit J : Z) (ready_at : nat -> Z -> bool) (fuel : nat).
Context (Hstar : star_documented star_write) (Hlen : length ENTRY_ADDRS = MAX_CORES)
  (Hup : Forall (fun a => 2 ^ 64 - 2 ^ 47 <= a < 2 ^ 64) ENTRY_ADDRS) (Htime : timing_ok delay pit_unit count_unit J fuel).
Implicit Types (m : Mem) (hw : Hardware H).

Lemma fill_ist_space m m' cores tss : kernel_space_ok W m -> fill_ist W m cores = Ret (m', tss) -> kernel_space_ok W m'.
Proof.
  revert m tss. induction cores as [|c cores IH]; intros m tss Hk; cbn [fill_ist]; [by intros [= <- _]|].
  unfold double_fault_stack_top. destruct (map_region _ _ _ _ _ _) as [m1|] eqn:Hm; [|done]. cbn iota beta.
  pose proof (map_region_space W _ _ _ _ _ _ Hk Hm) as Hk1. destruct (Elf.new_virt_addr _); [|done]. cbn iota beta.
  destruct (fill_ist W m1 cores) as [[m2 rest]|] eqn:Hf; [|done]. intros [= <- _]. by eapply IH.
Qed.

Lemma map_idle_space m m' cores : kernel_space_ok W m -> map_idle_stacks W m cores = Ret m' -> kernel_space_ok W m'.
Proof.
  revert m. induction cores as [|c cores IH]; intros m Hk; cbn [map_idle_stacks]; [by intros [= <-]|].
  unfold idle_stack_top. destruct (map_region _ _ _ _ _ _) as [m1|] eqn:Hm; [|done]. cbn iota beta.
  pose proof (map_region_space W _ _ _ _ _ _ Hk Hm) as Hk1. destruct (Elf.new_virt_addr _); [|done]. cbn iota beta. by apply IH.
Qed.

Lemma arch_init_spec m hw :
  growable W m (double_fault_pages ++ lapic_pages) ->
  exists m' arch, arch_init W delay pit_unit count_unit fuel m hw = Ret (m', arch) /\
    grown W m m' double_fault_pages [(LAPIC_MMIO_VBASE, hw_apic_base hw)] /\
    arch_selectors arch = the_selectors /\ arch_idt arch = idt_init /\
    (mask1 (arch_pic arch), mask2 (arch_pic arch)) = (254, 255) /\
    period pit_unit - 2 * J - count_unit < arch_reload arch * count_unit <= period pit_unit + 2 * J.
Proof.
  intros Hg. apply growable_split in Hg as (Hg1 & Hd & Hn). destruct Htime as [Td Tp Tc To Tr Tw Tf].
  destruct (fill_ist_spec W m (seq 0 MAX_CORES) (proj2 Hg1)) as (m1 & fs & Hf & Hmap).
  { apply Forall_forall. intros c. rewrite elem_of_seq. lia. }
  pose proof (mapped_grown W m m1 _ fs (fill_ist_space _ _ _ _ (proj1 Hg1) Hf) Hmap) as Hgr.
  destruct (build_gdt_spec star_write) as (g & Hb & _). destruct (init_mmio_grown W m1 (hw_apic_base hw) (Hn m1 Hgr)) as (m2 & Hm2 & Hgr2).
  destruct (load_segments_ready W star_write m m1 fs g 0 Hmap Hb ltac:(unfold MAX_CORES; lia)) as (r & Hr & _).
  unfold arch_init, init_bsp. rewrite Hf. cbn iota beta. rewrite Hb. cbn iota beta. rewrite Hr. cbn iota beta.
  destruct (interrupts_init delay (hw_timers hw) (hw_pic hw)) as [t p] eqn:Hi. rewrite Hm2. cbn iota beta.
  assert (running t (clock t) /\ (mask1 p, mask2 p) = (254, 255)) as [Hrun Hp].
  { unfold interrupts_init in Hi. by simplify_eq. }
  destruct (calibrate_spec delay pit_unit count_unit J Td Tp Tc fuel (init_this_core delay t) (clock t)) as (t' & reload & -> & Hcal);
    [done| |done..|].
  { pose proof (pass_clock delay J Td t). cbn in *. lia. }
  eexists _, _. split; [reflexivity|]. split; [|done]. 
  rewrite <- (app_nil_r double_fault_pages). apply (grown_app W m m1 m2 _ [] [] [(LAPIC_MMIO_VBASE, hw_apic_base hw)] Hgr Hgr2).
  cbn [fmap list_fmap app fst]. rewrite app_nil_r. exact Hd.
Qed.

Lemma bring_up_spec m s hw mp reload :
  growable W m (idle_pages mp) -> quiet s -> slots_are s [] -> cores_ok mp (hw_apic_id hw) ->
  exists m' s' ls, bring_up W ready_at m s hw mp = Ret (m', s', ls) /\ grown W m m' (idle_pages mp) [] /\ quiet s' /\
    only_slot s' 0 (hw_apic_id hw) /\
    l_lapic_id <$> ls = from_option (fun r => started_ids (bsp_lapic_id r) (cpus r) (MAX_CORES - 1)) [] mp /\
    forall l, l ∈ ls -> comes_up star_write ENTRY_ADDRS delay (kernel_pml4 m) idt_init the_selectors reload l.
Proof.
  intros [Hk Hm] Hq Hs [Hown Hmp]. destruct mp as [resp|]; cbn [idle_pages bring_up from_option] in *.
  - destruct Hmp as (Hbsp & Hn & Hu).
    destruct (bring_up_aps_spec W star_write ENTRY_ADDRS delay ready_at Hstar Hlen Hup m s resp reload Hm Hs Hn)
      as (m' & s' & ls & ws & fs & Hb & Hmap & Hids & Hls & H0s & _).
    { rewrite Hbsp. intros [Heq|Hin]%elem_of_cons; [by apply Hown|done]. }
    rewrite Hb. cbn iota beta. exists m', s', ls. rewrite <- Hbsp. split_and!; [done| | |done|done|intros l Hl; by apply Hls].
    + eapply mapped_grown; [|done]. unfold bring_up_aps in Hb. destruct (map_idle_stacks _ _ _) as [m1|] eqn:Hm1; [|done].
      cbn iota beta in Hb. destruct (start_aps _ _ _ _ _) as [[s1 n1] l1]. simplify_eq. by eapply map_idle_space.
    + unfold bring_up_aps in Hb. destruct (map_idle_stacks _ _ _) as [m1|]; [|done]. cbn iota beta in Hb.
      pose proof (quiet_start_aps (bsp_lapic_id resp) (cpus resp) m1 _ 1 (quiet_ready _ 0 (quiet_assign s 0 (bsp_lapic_id resp) Hq))) as Hq'.
      destruct (start_aps _ _ _ _ _) as [[s1 n1] l1]. by simplify_eq.
  - unfold bring_up_bsp_only. destruct (grown_region W m (idle_stack_pages 0) "out of memory mapping an idle stack"
      "failed to map idle stack page" (conj Hk Hm)) as (m' & Hr & Hg).
    unfold idle_stack_top. rewrite Hr. cbn iota beta. unfold Elf.new_virt_addr.
    rewrite upper_half by (split; by vm_compute). cbn iota beta.
    eexists m', _, []. split; [reflexivity|]. split_and!; [done|by apply quiet_ready, quiet_assign| |done|].
    + eapply (slots_are_only _ [hw_apic_id hw]); [| | |done].
      * unfold slots_are. rewrite slot_ids_ready. apply (slots_are_assign s []); [done|unfold MAX_CORES; simpl; lia].
      * apply NoDup_singleton.
      * intros Heq%list_elem_of_singleton. by apply Hown.
    + intros l Hl. by apply elem_of_nil in Hl.
Qed.
End cores.

Lemma only_slot_ids s s' i id : slot_ids s' = slot_ids s -> only_slot s i id -> only_slot s' i id.
Proof.
  unfold slot_ids, only_slot. intros He Ho j. rewrite <- Ho, <- !list_lookup_fmap, He. done.
Qed.

(** The first process as [_start] leaves it, without a disk: the console, and a
    link to the children it will make. *)
Definition init_caps : CapTable KernelObjectRef :=
  mkCapTable [Some (mkCapSlot (OEndpoint 3) SEND); Some (mkCapSlot (OEndpoint 4) (rights_or SEND RECV))].

Definition init_process (pml4 : Z) (e : ElfFile) : Process :=
  mkProcess init_pid (mkAS pml4)
    (@initial_user_frame (Build_Selectors (sel_user_code the_selectors) (sel_user_data the_selectors)) (ef_entry e) USER_STACK_TOP)
    init_caps Ready None None None USER_HEAP_START.

(** ** Up to the idle address space *)
Section start.
Context (W : nat) {D H : Type} `{SpaceLaws W} `{GdtLaws} `{RightsLaws} `{BlockDevice D} `{PciHost H} `{VirtioMmio H}.
Context (MEMMAP_USABLE : Z) (star_write : Z -> Z -> Z -> Z -> bool) (ENTRY_ADDRS : list Z).
Context (delay : nat -> Z) (pit_unit count_unit J : Z) (ready_at : nat -> Z -> bool).
Context (attach : @Driver H -> D) (others : nat -> Sched -> Sched) (fuel : nat).
Implicit Types (m : Mem) (hw : Hardware H) (info : BootInfo).

(** A machine that can boot: the boot loader answered, left the kernel a sound
    space of its own without the fixed regions and enough free frames [a],
    shipped a well-formed [init] and no virtio disk is attached. *)
Record machine_ok info hw (z : Sizes) (a : BitmapFrameAllocator) (modules : list (list Z * list Z)) (data : list Z)
    (e : ElfFile) : Prop := {
  mo_revision : base_revision_supported info = true;
  mo_hhdm : exists h, hhdm_response info = Some h /\ Elf.new_virt_addr h = Ret h;
  mo_memmap : exists es, memmap_response info = Some es /\ Phys.populate W MEMMAP_USABLE (Phys.new W) es = Ret a;
  mo_modules : modules_response info = Some modules;
  mo_init : find (fun f => bool_decide (f.1 = str_bytes "init")) modules = Some (str_bytes "init", data);
  mo_elf : elf_image data e;
  mo_sizes : sizes_ok z;
  mo_space : kernel_space_ok W (mkMem a (hw_ram hw) (hw_cr3 hw));
  mo_unmapped : unmapped (mkMem a (hw_ram hw) (hw_cr3 hw)) (boot_pages z);
  mo_frames : (4 * length (boot_pages z) + 1 + frames_needed e <= Phys.free_frame_count a)%nat;
  mo_cores : cores_ok (mp_response info) (hw_apic_id hw);
  mo_disk : Pci.find_device (hw_pci hw) VIRTIO_VENDOR_ID VIRTIO_BLK_DEVICE_ID = None;
}.

(** The kernel's regions as an address space shows them. *)
Definition sees_kernel m (pml4 : Z) (own : list Z) (dev : list (Z * Z)) : Prop :=
  exists fs, length fs = length own /\ NoDup fs /\
    (forall i page f x, own !! i = Some page -> fs !! i = Some f -> page_of x = page ->
       translate m pml4 x = Mapped f (x - page) KERNEL_FLAGS) /\
    (forall page f x, (page, f) ∈ dev -> page_of x = page -> translate m pml4 x = Mapped f (x - page) LAPIC_FLAGS).

Lemma kernel_page_upper x page : kernel_page page -> page_of x = page -> 256 <= pml4_index x /\ 2 ^ 47 <= x.
Proof. intros [Hr Ha] Hx. unfold page_of, PAGE, pml4_index in *. div_lia. Qed.

Lemma grown_sees m m1 m2 q own dev :
  grown W m m1 own dev -> Forall kernel_page (own ++ dev.*1) ->
  (forall x, 256 <= pml4_index x -> 2 ^ 47 <= x -> translate m2 q x = translate m1 (kernel_pml4 m) x) ->
  sees_kernel m2 q own dev.
Proof.
  intros Hg [Ho Hd]%Forall_app Heq. destruct (gr_own _ _ _ _ _ Hg) as (fs & Hl & [Hn _] & Hm). exists fs.
  split_and!; [done..| |].
  - intros i page f x Hp Hf Hx. destruct (kernel_page_upper x page) as [H1x H2x]; [exact (Forall_lookup_1 _ _ _ _ Ho Hp)|done|].
    rewrite Heq by done. by eapply Hm.
  - intros page f x Hin Hx. destruct (kernel_page_upper x page) as [H1x H2x]; [|done|].
    + apply (proj1 (Forall_forall _ _) Hd), list_elem_of_fmap. by exists (page, f).
    + rewrite Heq by done. by eapply (gr_dev _ _ _ _ _ Hg).
Qed.

Lemma pages_moved (p : Z) (ps qs dev : list Z) : p ∉ ps ++ dev ++ qs -> p ∉ (ps ++ qs) ++ dev.
Proof. rewrite !elem_of_app. tauto. Qed.

(** The state after [boot_kernel]. *)
Record kernel_up info hw (z : Sizes) (e : ElfFile) m (s : Sched) (arch : Arch) (launches : list Launch)
    (idle : Z) : Prop := {
  ku_space : kernel_space_ok W m;
  ku_frames : (frames_needed e <= Phys.free_frame_count (frames m))%nat;
  ku_regions : exists m0 m1, grown W m0 m1 (kernel_pages z (mp_response info)) [(LAPIC_MMIO_VBASE, hw_apic_base hw)] /\
    (forall x, translate m (kernel_pml4 m) x = translate m1 (kernel_pml4 m0) x) /\
    (forall x, 256 <= pml4_index x -> translate m idle x = translate m1 (kernel_pml4 m0) x);
  ku_quiet : quiet s;
  ku_own : only_slot s 0 (hw_apic_id hw);
  ku_selectors : arch_selectors arch = the_selectors;
  ku_idt : arch_idt arch = idt_init;
  ku_pic : (mask1 (arch_pic arch), mask2 (arch_pic arch)) = (254, 255);
  ku_reload : period pit_unit - 2 * J - count_unit < arch_reload arch * count_unit <= period pit_unit + 2 * J;
  ku_started : l_lapic_id <$> launches =
    from_option (fun r => started_ids (bsp_lapic_id r) (cpus r) (MAX_CORES - 1)) [] (mp_response info);
  ku_launches : exists pml4, forall l, l ∈ launches ->
    comes_up star_write ENTRY_ADDRS delay pml4 idt_init the_selectors (arch_reload arch) l;
}.

Context (Hstar : star_documented star_write) (Hlen : length ENTRY_ADDRS = MAX_CORES)
  (Hup : Forall (fun a => 2 ^ 64 - 2 ^ 47 <= a < 2 ^ 64) ENTRY_ADDRS) (Htime : timing_ok delay pit_unit count_unit J fuel).

Lemma boot_kernel_spec info hw z a modules data e :
  machine_ok info hw z a modules data e ->
  exists m s arch user launches idle,
    boot_kernel W MEMMAP_USABLE star_write ENTRY_ADDRS delay pit_unit count_unit ready_at fuel info hw z =
      Ret (m, s, arch, user, launches, mkAS idle, modules) /\
    kernel_up info hw z e m s arch launches idle /\ ENTRY_ADDRS !! 0%nat = Some (lstar user.2).
Proof.
  intros [Hrev (h & Hh & Hhv) (es & Hes & Hpop) Hmod _ _ Hz Hk Hu Hfr Hc _]. set (m0 := mkMem a _ _) in *.
  assert (growable W m0 (boot_order z (mp_response info))) as Hg.
  { apply boot_order_growable; [done..|]. cbn [frames m0]. lia. }
  unfold boot_order in Hg. unfold boot_kernel. rewrite Hrev, Hh, Hes, Hmod. cbn iota beta. cbn [expect].
  apply growable_split in Hg as (Hg1 & Hd1 & Hn1).
  destruct (memory_init_grown W MEMMAP_USABLE h (hw_cr3 hw) (hw_ram hw) es a Hhv Hpop Hg1) as (m1 & -> & Hm1). cbn iota beta.
  specialize (Hn1 m1 Hm1). apply growable_split in Hn1 as (Hg2 & Hd2 & Hn2).
  destruct (map_fixed_regions_grown W m1 z Hg2) as (m2 & -> & Hm2). cbn iota beta. specialize (Hn2 m2 Hm2).
  rewrite app_assoc in Hn2. pose proof (growable_prefix W m2 _ _ Hn2) as Hg3.
  destruct (arch_init_spec W star_write ENTRY_ADDRS delay pit_unit count_unit J ready_at fuel Hlen Htime m2 hw Hg3)
    as (m3 & arch & -> & Hm3 & Hsel & Hidt & Hpic & Hrel). cbn iota beta.
  rewrite <- app_assoc in Hn2.
  pose proof (growable_next W m2 m3 double_fault_pages [(LAPIC_MMIO_VBASE, hw_apic_base hw)] _ Hn2 Hm3) as Hg4.
  destruct (bring_up_spec W star_write ENTRY_ADDRS delay ready_at fuel Hstar Hlen Hup m3 (set_inner sched_new inner_new) hw (mp_response info)
    (arch_reload arch) Hg4 quiet_new eq_refl Hc) as (m4 & s & ls & -> & Hm4 & Hq & Hown & Hids & Hls). cbn iota beta.
  rewrite (core_index_own _ _ _ Hown), Hsel. cbn iota beta.
  destruct (lookup_lt_is_Some_2 ENTRY_ADDRS 0) as [addr Ha]; [rewrite Hlen; unfold MAX_CORES; lia|].
  unfold syscall_init, syscall_entry_addr_for_core. rewrite Hstar by done. cbn iota beta.
  rewrite (proj2 (index_or_panic_Ret _ 0%nat addr) Ha). cbn iota beta. unfold Elf.new_virt_addr at 1.
  rewrite upper_half by apply (Forall_lookup_1 _ _ _ _ Hup Ha). cbn iota beta.
  assert (grown W m0 m4 (kernel_pages z (mp_response info)) [(LAPIC_MMIO_VBASE, hw_apic_base hw)]) as Hgr.
  { destruct Hn2 as [_ [_ _ Hn _ _ _]]. rewrite app_assoc in Hn. apply NoDup_app in Hn as (_ & Hd & _).
    apply (grown_app W m0 m1 m4 heap_pages [] _ [_] Hm1).
    - apply (grown_app W m1 m2 m4 _ [] _ [_] Hm2).
      + apply (grown_app W m2 m3 m4 _ [_] _ [] Hm3 Hm4). intros p Hp. rewrite app_nil_r. by apply Hd.
      + intros p. rewrite app_nil_r. intros Hp. apply pages_moved, (Hd2 p Hp).
    - intros p. rewrite app_nil_r. intros Hp. rewrite (app_assoc (fixed_pages z)). apply pages_moved. rewrite <- app_assoc. exact (Hd1 p Hp). }
  pose proof (gr_free _ _ _ _ _ Hgr) as Hcnt. pose proof (kernel_pages_length z (mp_response info)) as Hkl.
  cbn [length] in Hcnt. change (frames m0) with a in Hcnt.
  destruct (idle_space W m4 (gr_space _ _ _ _ _ Hgr) ltac:(lia)) as (m5 & idle & -> & Hk5 & Hp5 & Hc5 & Htr & Hidle & _).
  cbn iota beta. eexists _, _, _, _, _, _. split; [reflexivity|]. split; [|exact Ha]. split; try done.
  - lia.
  - exists m0, m4. rewrite Hp5, (gr_pml4 _ _ _ _ _ Hgr) in *. split_and!; [done|intros x; apply Htr|intros x Hx; by apply Hidle].
  - exists (kernel_pml4 m3). exact Hls.
Qed.

(** ** From there to the first process *)
Lemma spawn_init_spec y modules data e :
  idle_polling others -> quiet (ksched (sk y)) -> kernel_space_ok W (kmem (sk y)) ->
  (frames_needed e <= Phys.free_frame_count (frames (kmem (sk y))))%nat -> size (kendpoints (sk y)) = 4%nat ->
  sys_device y = None -> find (fun f => bool_decide (f.1 = str_bytes "init")) modules = Some (str_bytes "init", data) ->
  elf_image data e ->
  exists y' pml4, spawn_init W others y the_selectors modules 3 = Ret (y', init_pid) /\
    process_image W (kmem (sk y)) (kmem (sk y')) pml4 data e /\ only_process (ksched (sk y')) (init_process pml4 e) /\
    slot_ids (ksched (sk y')) = slot_ids (ksched (sk y)) /\
    kendpoints (sk y') = <[4%nat := SlotEmpty]> (kendpoints (sk y)) /\ kexec (sk y') = kexec (sk y) /\
    kidle (sk y') = kidle (sk y) /\ kuart (sk y') = kuart (sk y) /\ sys_modules y' = sys_modules y /\ sys_device y' = None.
Proof.
  intros Ho Hq Hk Hf He Hdev Hfind Helf. unfold spawn_init. rewrite Hfind. cbn [expect]. cbn iota beta.
  set (s0 := others 0%nat (ksched (sk y))). pose proof (quiet_others others 0 _ Ho Hq) as Hq0. fold s0 in Hq0.
  cbn [ksched kmem set_sched].
  destruct (@from_elf_loads W _ _ _ _ _ (Build_Selectors (sel_user_code the_selectors) (sel_user_data the_selectors))
    (kmem (sk y)) init_pid data e None Helf Hk ltac:(apply Nat.ltb_lt; reflexivity) Hf) as (m' & pml4 & Hload & Himg).
  rewrite (first_pid s0 Hq0). cbn iota beta. rewrite Hload. cbn iota beta.
  unfold endpoint_new. cbn [kendpoints set_mem set_sched]. rewrite He.
  unfold mount_root. cbn [sys_device set_sk]. rewrite Hdev. cbn [is_ok]. cbn iota beta.
  destruct (spawn_first others s0 (init_process pml4 e) Ho Hq0 eq_refl eq_refl eq_refl) as (s' & Hsp & Honly & Hids).
  rewrite (first_pid s0 Hq0) in Hsp. cbn [fst] in Hsp.
  cbn [sk set_sk ksched put_ep set_endpoints set_mem set_sched].
  change (set_cap_table _ _) with (init_process pml4 e). rewrite Hsp. cbn iota beta.
  eexists _, pml4. split; [reflexivity|].
  cbn [sk set_sk ksched kmem kendpoints kexec kidle kuart sys_modules sys_device put_ep set_endpoints set_mem set_sched].
  split_and!; try done. rewrite Hids. by apply (Ho 0%nat), qt_inv.
Qed.

Lemma uart_started u bytes : rx (Com1.write_bytes (Com1.init u) bytes) = [].
Proof. by rewrite (proj2 (Com1.write_bytes_sends bytes (Com1.init u) ltac:(by constructor))). Qed.

(** The machine [_start] leaves to the scheduler. *)
Record boot_done info hw (z : Sizes) (data : list Z) (e : ElfFile) (modules : list (list Z * list Z))
    (b : @Booted D _) : Prop := {
  bd_init : exists m pml4, process_image W m (kmem (sk (bt_sys b))) pml4 data e /\
    only_process (ksched (sk (bt_sys b))) (init_process pml4 e) /\
    sees_kernel (kmem (sk (bt_sys b))) pml4 (kernel_pages z (mp_response info)) [(LAPIC_MMIO_VBASE, hw_apic_base hw)];
  bd_pid : bt_init b = init_pid;
  bd_console : kendpoints (sk (bt_sys b)) !! 3%nat = Some (ReceiverWaiting (WTask 5%nat)) /\
    kendpoints (sk (bt_sys b)) !! 4%nat = Some SlotEmpty;
  bd_tasks : tasks (kexec (sk (bt_sys b))) = {[0%nat := EchoTask; 5%nat := ConsoleServer 3]} /\
    rx_waker (kuart (sk (bt_sys b))) = Some 0%nat;
  bd_modules : sys_modules (bt_sys b) = filter (fun f => f.1 <> str_bytes "init") modules;
  bd_cores : l_lapic_id <$> bt_launches b =
      from_option (fun r => started_ids (bsp_lapic_id r) (cpus r) (MAX_CORES - 1)) [] (mp_response info) /\
    exists pml4, forall l, l ∈ bt_launches b ->
      comes_up star_write ENTRY_ADDRS delay pml4 idt_init the_selectors (arch_reload (bt_arch b)) l;
  bd_timer : period pit_unit - 2 * J - count_unit < arch_reload (bt_arch b) * count_unit <= period pit_unit + 2 * J;
  bd_syscalls : ENTRY_ADDRS !! 0%nat = Some (lstar (bt_user b).2);
  bd_lines : forall line, 0 <= line < 8 -> Z.testbit (mask1 (bt_pic b)) line = false <-> line = TIMER_IRQ \/ line = IRQ4;
  bd_idle : bt_resume b = RIdle None;
}.

Lemma boot_services_spec info hw z e data modules m s arch launches idle :
  idle_polling others -> (20 <= fuel)%nat -> kernel_up info hw z e m s arch launches idle ->
  Pci.find_device (hw_pci hw) VIRTIO_VENDOR_ID VIRTIO_BLK_DEVICE_ID = None ->
  find (fun f => bool_decide (f.1 = str_bytes "init")) modules = Some (str_bytes "init", data) -> elf_image data e ->
  exists y p irqs pml4, boot_services W attach others fuel m s arch (mkAS idle) modules hw =
      Ret (y, p, irqs, init_pid, RIdle None) /\
    process_image W m (kmem (sk y)) pml4 data e /\ only_process (ksched (sk y)) (init_process pml4 e) /\
    kendpoints (sk y) !! 3%nat = Some (ReceiverWaiting (WTask 5%nat)) /\ kendpoints (sk y) !! 4%nat = Some SlotEmpty /\
    tasks (kexec (sk y)) = {[0%nat := EchoTask; 5%nat := ConsoleServer 3]} /\ rx_waker (kuart (sk y)) = Some 0%nat /\
    sys_modules y = init_spawnable_modules modules /\ mask1 p = Z.land 254 (Z.lnot (Z.shiftl 1 IRQ4)).
Proof.
  intros Ho Hfuel [Hk Hf _ Hq Hown Hsel Hidt Hpic _ _ _] Hdisk Hfind Helf. unfold boot_services, probe_disk, virtio_init.
  rewrite Hdisk, Hidt, Hsel. cbn iota beta. change (breakpoint_self_test idt_init) with (Ret tt). cbn iota beta.
  change (uart_init _) with (Ret (unmask_irq4 (mkMachine (mkKernel s m ∅ (mkExec ∅ ∅ (Ring.new READY_QUEUE_CAPACITY) false 0)
    (Com1.init (hw_uart hw)) (mkAS idle)) (replicate MAX_CORES (mkApic ∅ [])) (arch_pic arch) 0
    (<[Z.to_nat IRQ4 := Some uart_handle_irq]> (replicate MAX_IRQ None))))). cbn iota beta.
  unfold unmask_irq4, set_pic. cbn [kernel kuart pic irq_table]. unfold set_uart at 1. cbn [ksched kmem kendpoints kexec kidle].
  destruct (start_tasks_spec (fuel - 20) s m (Com1.write_bytes (Com1.init (hw_uart hw)) uart_banner) (mkAS idle)
    (uart_started _ _)) as (k1 & Hst & [T1 T2 T3 T4 T5 T6 T7 T8]).
  replace (20 + (fuel - 20))%nat with fuel in Hst by lia. rewrite Hst. cbn iota beta. cbn [ksched kmem kidle] in T1, T2, T3.
  destruct (spawn_init_spec (mkSys k1 None None (init_spawnable_modules modules)) modules data e Ho) as
    (y & pml4 & Hsi & Himg & Honly & Hids & Hep & Hex & _ & Hua & Hmods & _); cbn [sk sys_device]; rewrite ?T1, ?T2; try done.
  rewrite Hsi. cbn iota beta. cbn [sk] in *. rewrite T1 in *. rewrite T2 in *.
  rewrite (core_index_own _ _ _ (only_slot_ids _ _ _ _ Hids Hown)). cbn iota beta.
  unfold ap_enter_scheduler. cbn iota beta. eexists _, _, _, pml4. split; [reflexivity|].
  unfold activate_idle_address_space. cbn [sk set_sk kmem kendpoints kexec kuart set_sched sys_modules ksched mask1].
  rewrite Hep, Hex, Hua, lookup_insert_eq, lookup_insert_ne by done. split_and!; try done.
  - destruct Honly as [O1 O2 O3 O4 O5]. split; [|done..].
    apply (inv_same_inner (ksched (sk y))); [done| |done]. destruct O1 as [[] _]. split; cbn; rewrite ?length_insert; done.
  - injection Hpic as Hmask _. by rewrite Hmask.
Qed.


(** ** Panics during boot *)

(** The panic handler begins with [core_index]; when that panics, the handler
    is entered again, before its guard against recursion.  [None]: the fuel ran
    out and no core was found. *)
Fixpoint panic_core (fuel : nat) (s : Sched) (apic_id : Z) : option nat :=
  match fuel with
  | O => None
  | S fuel => match core_index s apic_id with Ret core => Some core | Panic _ => panic_core fuel s apic_id end
  end.

Lemma no_slot_no_index s id : slots_are s [] -> id <> UNASSIGNED -> exists w, core_index s id = Panic w.
Proof.
  intros Hs Hid. unfold core_index. destruct (position _ (percpu s)) as [i|] eqn:Hp; [|by eexists].
  apply position_Some in Hp as [(x & Hx & Hq) _]. apply Z.eqb_eq in Hq. exfalso. apply Hid. rewrite <- Hq.
  assert (slot_ids s !! i = Some (lapic_id x)) as Hl by (unfold slot_ids; by rewrite list_lookup_fmap, Hx).
  rewrite Hs in Hl. by apply lookup_replicate in Hl as [-> _].
Qed.

(** A panic early in boot is never reported.  Without a free frame the heap
    cannot be mapped and boot panics with the message that says so.  No core has
    its slot then, so the panic handler panics in its first statement, before
    its guard against recursion, and again in every handler that enters: the
    message is never printed.  Once the boot processor has its slot, the handler
    finds it at once. *)
Theorem early_panic_unreported info hw z h entries a (Hrev : base_revision_supported info = true)
    (Hh : hhdm_response info = Some h) (Hhv : Elf.new_virt_addr h = Ret h) (Hes : memmap_response info = Some entries)
    (Hpop : Phys.populate W MEMMAP_USABLE (Phys.new W) entries = Ret a) (Hnone : Phys.free_frame_count a = 0%nat)
    (Hid : hw_apic_id hw <> UNASSIGNED) :
  boot W MEMMAP_USABLE star_write ENTRY_ADDRS delay pit_unit count_unit ready_at attach others fuel info hw z =
    Panic "out of physical memory while mapping the kernel heap" /\
  (forall n, panic_core n sched_new (hw_apic_id hw) = None) /\
  (forall s n, only_slot s 0 (hw_apic_id hw) -> panic_core (S n) s (hw_apic_id hw) = Some 0%nat).
Proof.
  split_and!.
  - unfold boot, boot_kernel, memory_init, heap_init. rewrite Hrev, Hh, Hes. cbn [expect]. cbn iota beta.
    rewrite Hhv, Hpop. cbn iota beta. rewrite heap_range. change heap_pages with (HEAP_START :: tail heap_pages).
    cbn [map_region]. unfold Elf.new_virt_addr. rewrite upper_half by (split; by vm_compute). cbn iota beta. cbn [frames].
    destruct (Phys.allocate_frame_cases W a) as ([a' [f|]] & -> & Hres).
    + by eapply Phys.wf_populate, Hpop; apply Phys.wf_phys_new.
    + destruct Hres as (_ & _ & Hc & _). congruence.
    + done.
  - intros n. destruct (no_slot_no_index sched_new (hw_apic_id hw) eq_refl Hid) as [w Hw].
    induction n as [|n IH]; cbn [panic_core]; [done|]. by rewrite Hw.
  - intros s n Hs. cbn [panic_core]. by rewrite (core_index_own _ _ _ Hs).
Qed.
End start.

(** ** A machine that boots, with three cores, and one without memory *)
Definition demo_host : PciHost unit := {| cfg_read _ _ := 0xFFFFFFFF; cfg_write _ _ _ := tt |}.
Definition demo_no_mmio : VirtioMmio unit := {| mmio_read _ h _ := (h, 0); mmio_write _ h _ _ := h |}.
Definition demo_hardware : Hardware unit :=
  mkHardware 0 ∅ 0xFEE00000 0 demo_timers (mkPic 0 0 []) (mkUart [] 0 [] [] 0 None) tt.
Definition demo_info (entries : list MemmapEntry) : BootInfo :=
  mkBootInfo true (Some 0xffff800000000000) (Some entries) (Some [(str_bytes "init", demo_program)]) (Some demo_mp).

Lemma demo_machine_ok :
  @machine_ok 150 unit tree_x86 tree_walk demo_host 0 (demo_info [mkEntry 4096 (9200 * 4096) 0]) demo_hardware demo_sizes
    (frames (demo_fresh_mem 150 9200)) [(str_bytes "init", demo_program)] demo_program demo_elf_file.
Proof.
  split.
  - reflexivity.
  - eexists. split; reflexivity.
  - eexists. split; [reflexivity|]. cbn [Phys.populate type_ base length_]. rewrite decide_False by lia.
    change (usable_frame_range _ _ _) with (Ret (1, 9200 + 1)). cbn iota beta. cbn [Phys.populate].
    unfold demo_fresh_mem. cbn [frames]. reflexivity.
  - reflexivity.
  - reflexivity.
  - exact demo_program_image.
  - exact demo_sizes_ok.
  - exact (tree_kernel_space 150 9200).
  - apply Forall_forall. intros p _. apply (@walk_absent 150 _ _ _ _ (tree_space_laws 150)).
    unfold top_entry. change (frame_words _ _) with (replicate 512 0). rewrite nth_lookup.
    destruct (replicate 512 0 !! _) as [x|] eqn:E; [|done]. by apply lookup_replicate in E as [-> _].
  - rewrite fresh_count by lia. apply Nat.leb_le. vm_compute. reflexivity.
  - split; [discriminate|]. split_and!; [done| |]; cbn.
    + repeat constructor; set_solver.
    + unfold UNASSIGNED. set_solver.
  - vm_compute. reflexivity.
Qed.

Lemma demo_timing : timing_ok (fun _ => 1) 1 2 1 (Z.to_nat 12000).
Proof. by split; change (period 1) with 11931; lia. Qed.


Lemma early_panic_unreported_witness :
  @boot 2 RamDisk unit tree_x86 demo_gdt bitflags_ops ram_disk demo_host demo_no_mmio 0 demo_star demo_entries
      (fun _ => 1) 1 2 (fun _ _ => true) (fun _ => mkRamDisk ∅) (fun _ s => s) 20
      (demo_info [mkEntry 4096 (9200 * 4096) 1]) demo_hardware demo_sizes =
    Panic "out of physical memory while mapping the kernel heap" /\
  forall n, panic_core n sched_new 0 = None.
Proof.
  destruct (@early_panic_unreported 2 RamDisk unit tree_x86 tree_mapper_laws tree_mapper_total demo_gdt bitflags_ops ram_disk
    demo_host demo_no_mmio 0 demo_star demo_entries (fun _ => 1) 1 2 (fun _ _ => true) (fun _ => mkRamDisk ∅) (fun _ s => s) 20
    (demo_info [mkEntry 4096 (9200 * 4096) 1]) demo_hardware demo_sizes 0xffff800000000000 [mkEntry 4096 (9200 * 4096) 1]
    (Phys.new 2) eq_refl eq_refl eq_refl eq_refl eq_refl eq_refl ltac:(discriminate)) as (Hb & Hp & _).
  exact (conj Hb Hp).
Defined.
