(* ===== verification/Programs.v ===== *)
(** * User programs on the kernel ([userland/], [libs/tarnos-rt/src/lib.rs])

    A program is what it does between its entry point and its end: system calls,
    with the registers of its [asm!] block, each continued with the registers
    the kernel returns and the memory the process then sees.  [World] puts the
    programs on the cores of the modelled machine: a core runs a process up to
    and through its next system call, or makes one turn of the idle loop.  Which
    core goes next is arbitrary.

    [explore] follows every order of the cores' steps; the theorem says that
    from the boot services on, every order of [init] and [echo-child] on two
    cores ends with the same lines on the console, all processes gone and no
    frame lost. *)
From S2P Require Import Prelude Abi Ring Rendezvous CapTable Phys Virt Process Elf Mapper MapRegion Sched Uart Kernel.
From S2P Require Import Handlers Block Fat Virtio Syscall UserMem Irq Trap Rt Idt Lapic Regions Gdt SmpBoot Loader MapperModel.
From S2P Require Import BootMem Pci VirtioInit Boot.
Open Scope Z_scope.

(** A byte of the process's own memory. *)
Abbreviation UserView := (Z -> option Z).

(** [Trap] is a system call with exactly these registers, made by code whose
    whole state they are: it goes on as before.  [Spin] is a loop that never
    enters the kernel. *)
Inductive Prog :=
| Do (call : Asm) (k : TrapFrame -> UserView -> Prog)
| Exit (code : Z)
| Trap (frame : TrapFrame)
| Fault (vector : Z)
| Spin.

(** [panic] of the runtime. *)
Definition rt_panic : Prog := Exit 101.

(** [.expect(..)] on a result. *)
Definition expect_ok {A} (r : result A SyscallError) (k : A -> Prog) : Prog :=
  match r with Ok a => k a | Err _ => rt_panic end.

Definition read_buf (v : UserView) (buf : Z) (len : nat) : list Z :=
  (fun i => default 0 (v (buf + Z.of_nat i))) <$> seq 0 len.

Definition cap_of (c : CapIndex) : Z := cap_raw c.

(** ** [userland/echo-child] *)
Definition PARENT_LINK_CAP : CapIndex := mkCapIndex 0.

Definition echo_child_main : Prog :=
  Do (rt_sys_recv (cap_of PARENT_LINK_CAP)) (fun f _ =>
    match rt_message f with
    | Err _ => Exit 1
    | Ok _ =>
        let pong := from_str_lossy (str_bytes "pong") in
        Do (rt_sys_send (cap_of PARENT_LINK_CAP) pong) (fun _ _ => Exit 0)
    end).

(** ** [userland/exit-code-child] *)
Definition exit_code_child_main : Prog := Exit 42.

(** ** [userland/init] *)
Definition CHILD_PARENT_LINK_CAP : CapIndex := mkCapIndex 0.
Definition HELLO_EXPECTED : list Z := str_bytes "TarnOS Milestone 12 FAT12 smoke test payload." ++ [10].
Definition BIGFILE_LEN : nat := 3000.

Definition format_child_reply (text : list Z) : list Z :=
  let PREFIX := str_bytes "child replied: " in
  let len := length PREFIX in
  let remaining := (32 - len)%nat in
  let take_ := Nat.min (length text) remaining in
  let report := PREFIX ++ take take_ text in
  if valid_utf8 report then report else str_bytes "child replied: <invalid utf-8>".

Definition counts_up (bytes : list Z) : bool :=
  forallb (fun '(i, b) => b =? Z.of_nat (i mod 256)) (imap (fun i b => (i, b)) bytes).

Section init.
(** The addresses of the buffers on its stack. *)
Context (hello_buf bigfile_buf : Z).

Definition probe_filesystem (next : Prog) : Prog :=
  Do (rt_sys_file_read (cap_of FS_CAP) (str_bytes "HELLO.TXT") hello_buf 64) (fun f v =>
    let big (hello_ok : bool) : Prog :=
      Do (rt_sys_file_read (cap_of FS_CAP) (str_bytes "BIGFILE.TXT") bigfile_buf (Z.of_nat BIGFILE_LEN)) (fun f v =>
        let bigfile_ok :=
          match rt_value f with
          | Ok n => (n =? Z.of_nat BIGFILE_LEN) && counts_up (read_buf v bigfile_buf BIGFILE_LEN)
          | Err _ => false
          end in
        let report := str_bytes (if hello_ok && bigfile_ok then "FS_SYSCALL_OK" else "FS_SYSCALL_FAIL") in
        Do (rt_sys_send (cap_of CONSOLE_CAP) (from_str_lossy report)) (fun _ _ => next)) in
    match rt_value f with
    | Ok n => big (bool_decide (read_buf v hello_buf (Z.to_nat n) = HELLO_EXPECTED))
    | Err BadCapability => next
    | Err _ => big false
    end).

Definition probe_filesystem_spawn (next : Prog) : Prog :=
  let report text := Do (rt_sys_send (cap_of CONSOLE_CAP) (from_str_lossy (str_bytes text))) (fun _ _ => next) in
  Do (rt_sys_spawn (str_bytes "FSCHILD.ELF")) (fun f _ =>
    match rt_value f with
    | Err _ => next
    | Ok child_pid =>
        Do (rt_sys_process_start child_pid) (fun f _ =>
          match rt_unit f with
          | Err _ => report "FS_SPAWN_FAIL"%string
          | Ok _ =>
              Do (rt_sys_wait child_pid) (fun f _ =>
                match rt_status f with
                | Ok (Exited 42) => report "FS_SPAWN_OK"%string
                | _ => report "FS_SPAWN_FAIL"%string
                end)
          end)
    end).

Definition init_main : Prog :=
  let greeting := from_str_lossy (str_bytes "Hello from TarnOS userspace!") in
  Do (rt_sys_send (cap_of CONSOLE_CAP) greeting) (fun _ _ =>
  Do (rt_sys_spawn (str_bytes "echo-child")) (fun f _ => expect_ok (rt_value f) (fun child_pid =>
  Do (rt_sys_grant child_pid (cap_of CHILD_LINK_CAP) (cap_of CHILD_PARENT_LINK_CAP) (bits (rights_or SEND RECV)))
    (fun f _ => expect_ok (rt_unit f) (fun _ =>
  Do (rt_sys_process_start child_pid) (fun f _ => expect_ok (rt_unit f) (fun _ =>
  Do (rt_sys_send (cap_of CHILD_LINK_CAP) (from_str_lossy (str_bytes "ping"))) (fun f _ => expect_ok (rt_unit f) (fun _ =>
  Do (rt_sys_recv (cap_of CHILD_LINK_CAP)) (fun f _ => expect_ok (rt_message f) (fun reply =>
  let report := format_child_reply (as_str_lossy reply) in
  Do (rt_sys_send (cap_of CONSOLE_CAP) (from_str_lossy report)) (fun _ _ =>
  probe_filesystem (probe_filesystem_spawn (Exit 0)))))))))))))).
End init.

(** ** [userland/block-child] and [userland/fs-child] *)
Definition KNOWN_TEST_LBA : Z := 2.

Definition report_and_exit (ok : bool) (good bad : string) : Prog :=
  Do (rt_sys_send (cap_of CONSOLE_CAP) (from_str_lossy (str_bytes (if ok then good else bad)))) (fun _ _ =>
    Exit (if ok then 0 else 1)).

Definition block_child_main (buf : Z) : Prog :=
  Do (rt_sys_block_read (cap_of BLOCK_CAP) KNOWN_TEST_LBA buf 1) (fun f v =>
    let read_ok := is_ok (rt_unit f) in
    let content_matches := read_ok && counts_up (read_buf v buf 512) in
    report_and_exit content_matches "BLOCK_FIXTURE_OK" "BLOCK_FIXTURE_FAIL").

Definition fs_child_main (buf : Z) : Prog :=
  Do (rt_sys_file_read (cap_of FS_CAP) (str_bytes "HELLO.TXT") buf 64) (fun f v =>
    let content_matches :=
      match rt_value f with
      | Ok n => bool_decide (read_buf v buf (Z.to_nat n) = HELLO_EXPECTED)
      | Err _ => false
      end in
    report_and_exit content_matches "FS_FIXTURE_OK" "FS_FIXTURE_FAIL").

(** ** Programs on cores *)
Inductive CoreState :=
| CUser (p : Pid) (frame : TrapFrame)
| CIdle (halt_message : option string)
| CHalted.

(** The message of a core that was evicted and found nothing else to run. *)
Definition EVICTED_MESSAGE : string := "[sched] evicted core found nothing else ready, halting.".

(** A kernel with none of its devices. *)
Definition bare_machine (k : Kernel) : Machine := mkMachine k [] (mkPic 0 0 []) 0 [].

(** A byte of a process's memory, straight from its word. *)
Definition peek `{X86} (m : Mem) (pml4 a : Z) : option Z :=
  match Virt.translate_in m pml4 (Z.ldiff a 4095) with
  | Some (f, _) =>
      let off := Z.land a 4095 in
      (fun w => Z.land (Z.shiftr w (8 * Z.land off 7)) 255) <$> frame_words (ram m) f !! Z.to_nat (Z.shiftr off 3)
  | None => None
  end.

Lemma lookup_le_bytes n z i : (i < n)%nat -> le_bytes n z !! i = Some (z / 256 ^ Z.of_nat i mod 256).
Proof.
  revert z i. induction n as [|n IH]; intros z i Hi; [lia|]. cbn [le_bytes]. destruct i as [|i]; [by rewrite Z.div_1_r|].
  cbn [lookup list_lookup]. rewrite IH by lia. rewrite Z.div_div by lia. do 3 f_equal.
  by rewrite Nat2Z.inj_succ, Z.pow_succ_r by lia.
Qed.

Lemma lookup_words_bytes l k :
  (l ≫= le_bytes 8) !! k = (fun w => w / 256 ^ Z.of_nat (k mod 8) mod 256) <$> l !! (k / 8)%nat.
Proof.
  revert k. induction l as [|w l IH]; intros k; [done|]. rewrite bind_cons. destruct (decide (k < 8)%nat) as [Hk|Hk].
  - rewrite lookup_app_l by (by rewrite length_le_bytes). rewrite lookup_le_bytes by done.
    by rewrite Nat.div_small, Nat.mod_small by done.
  - rewrite lookup_app_r, length_le_bytes by (rewrite length_le_bytes; lia). rewrite IH.
    assert (k mod 8 = (k - 8) mod 8)%nat as ->.
    { replace k with (k - 8 + 1 * 8)%nat at 1 by lia. by rewrite Nat.Div0.mod_add. }
    assert (k / 8 = S ((k - 8) / 8))%nat as ->; [|done].
    replace k with (k - 8 + 1 * 8)%nat at 1 by lia. rewrite Nat.div_add by done. lia.
Qed.

Lemma peek_user_byte `{X86} m pml4 a : peek m pml4 a = user_byte m pml4 a.
Proof.
  assert (Z.land a 4095 = a mod 4096) as Hl by (change 4095 with (Z.ones 12); by rewrite Z.land_ones).
  assert (Z.ldiff a 4095 = page_of a) as Hp.
  { change 4095 with (Z.ones 12). rewrite Z.ldiff_ones_r, Z.shiftl_mul_pow2, Z.shiftr_div_pow2 by done. done. }
  unfold peek, user_byte. rewrite Hp. destruct (Virt.translate_in _ _ _) as [[f fl]|]; [|done]. unfold frame_bytes.
  rewrite lookup_words_bytes. cbv zeta. rewrite Hl. replace (a - page_of a) with (a mod 4096) by (unfold page_of, PAGE; lia).
  assert (0 <= a mod 4096) as Hoff by (apply Z.mod_pos_bound; lia). set (o := a mod 4096) in *.
  rewrite Z.shiftr_div_pow2 by done. change (2 ^ 3) with 8. rewrite Z2Nat.inj_div by lia. change (Z.to_nat 8) with 8%nat.
  destruct (frame_words _ _ !! _) as [w|]; [|done]. cbn [fmap option_fmap option_map].
  rewrite Nat2Z.inj_mod, Z2Nat.id by done. change (Z.of_nat 8) with 8. change 7 with (Z.ones 3). change 255 with (Z.ones 8).
  rewrite !Z.land_ones by done. rewrite Z.shiftr_div_pow2 by (pose proof (Z.mod_pos_bound o (2 ^ 3)); lia).
  change (2 ^ 3) with 8. rewrite Z.pow_mul_r; [done|done|]. apply Z.mod_pos_bound. lia.
Qed.

Section world.
Context (W : nat) {D : Type} `{X86} `{Selectors} `{RightsOps} `{BlockDevice D} (poll_fuel : nat).
(** The program behind a name that [SYS_SPAWN] finds. *)
Context (program_of : list Z -> Prog).

(** What each process does once it is back from the kernel. *)
Record World := mkWorld {
  w_sys : Sys D;
  w_cores : list CoreState;
  w_procs : gmap Z (TrapFrame -> UserView -> Prog);
}.

Definition view_of (y : Sys D) (p : Pid) : UserView := fun a =>
  match occupied (ksched (sk y)) p with
  | Some b => peek (kmem (sk y)) (pml4_frame (address_space (box_process b))) a
  | None => None
  end.

(** Where the handler's result leaves the core. *)
Definition land_core (y : Sys D) (caller : Pid) (r : Resume) : CoreState :=
  match r with
  | RCaller f => CUser caller f
  | RProcess i =>
      match proc_at (ksched (sk y)) i with
      | Some (Occupied b) => CUser (pid (box_process b)) (trap_frame (box_process b))
      | _ => CHalted
      end
  | RIdle msg => CIdle msg
  | RHalt _ => CHalted
  end.

(** A program comes with the process that [SYS_SPAWN] makes for it. *)
Definition add_spawned (procs : gmap Z (TrapFrame -> UserView -> Prog)) (frame : TrapFrame) (r : Resume)
    : gmap Z (TrapFrame -> UserView -> Prog) :=
  match r with
  | RCaller f =>
      if decide (rax frame = SYS_SPAWN) then
        match rt_value f with
        | Ok child => <[child := fun _ _ => program_of (unpack_short_name (rdi frame) (rsi frame) (rdx frame))]> procs
        | Err _ => procs
        end
      else procs
  | _ => procs
  end.

Definition exit_asm (code : Z) : Asm := mkAsm [(RAX, SYS_EXIT); (RDI, wrap64 code)] [].

(** While a [SYS_KILL] waits, the core it asked to let go of its process takes
    the interrupt. *)
Definition serve_evictions (cores : list CoreState) (core : nat) (k : Kernel) : Kernel :=
  foldl (fun k c =>
    match cores !! c with
    | Some (CUser _ f) =>
        if negb (c =? core)%nat && negb (from_option evict_request 0 (percpu (ksched k) !! c) =? 0)
        then match on_reschedule_ipi W poll_fuel k c f with Ret (k, _) => k | Panic _ => k end
        else k
    | _ => k
    end) k (seq 0 (length cores)).

(** What a core does when it is back from that interrupt. *)
Definition after_eviction (y : Sys D) (c : nat) (x : CoreState) : CoreState :=
  match x with
  | CUser p _ =>
      match current_of (ksched (sk y)) c with
      | Some q => if decide (q = p) then x else land_core y p (RProcess (pid_index q))
      | None => CIdle (Some EVICTED_MESSAGE)
      end
  | _ => x
  end.

Definition land_all (y : Sys D) (cores : list CoreState) (core : nat) (p : Pid) (r : Resume) : list CoreState :=
  <[core := land_core y p r]> (imap (after_eviction y) cores).

(** One step of a core: [None] when it has halted. *)
Definition core_step (w : World) (core : nat) : option (outcome World) :=
  match w_cores w !! core with
  | Some (CUser p f) =>
      let run frame procs :=
        let! '(y, r) := syscall_dispatch W poll_fuel 2 (serve_evictions (w_cores w) core) (w_sys w) core frame in
        Ret (mkWorld y (land_all y (w_cores w) core p r) (add_spawned procs frame r)) in
      let handle (o : outcome (Kernel * Resume)) :=
        let! '(k, r) := o in
        let y := set_sk (w_sys w) k in
        Ret (mkWorld y (<[core := land_core y p r]> (w_cores w)) (w_procs w)) in
      Some match w_procs w !! pid_raw p with
           | None => Panic "a process without a program"
           | Some k =>
               match k f (view_of (w_sys w) p) with
               | Do call k => run (enter_asm call f) (<[pid_raw p := k]> (w_procs w))
               | Exit code => run (enter_asm (exit_asm code) f) (w_procs w)
               | Trap frame => run frame (w_procs w)
               | Fault v =>
                   handle (let! '(m, r) := user_exception W poll_fuel idt_init v (bare_machine (sk (w_sys w))) core f in
                           Ret (kernel m, r))
               | Spin => handle (on_timer_tick poll_fuel (sk (w_sys w)) core f)
               end
           end
  | Some (CIdle msg) =>
      Some (let! '(k, r) := idle_turn poll_fuel (sk (w_sys w)) core msg in
            let y := set_sk (w_sys w) k in
            Ret (mkWorld y (<[core := land_core y (pid_new 0 0) r]> (w_cores w)) (w_procs w)))
  | _ => None
  end.

(** A turn of the idle loop that would find nothing is not a step. *)
Definition has_work (w : World) (core : nat) : bool :=
  match w_cores w !! core with
  | Some (CUser _ _) => true
  | Some (CIdle msg) =>
      let k := sk (w_sys w) in
      negb (Ring.is_empty (task_ready (kexec k))) || overflowed (kexec k) ||
      negb (Ring.is_empty (ready (inner (ksched k)))) ||
      match msg with Some _ => all_processes_empty (ksched k) | None => false end
  | _ => false
  end.

Inductive wstep : World -> World -> Prop :=
| wstep_core w core w' : has_work w core = true -> core_step w core = Some (Ret w') -> wstep w w'.

(** Every order of the steps, as long as there are any. *)
Section explore.
Context (good : World -> bool).

Fixpoint explore (fuel : nat) (w : World) : bool :=
  match fuel with
  | O => false
  | S fuel =>
      let cores := List.filter (has_work w) (seq 0 (length (w_cores w))) in
      match cores with
      | [] => good w
      | _ => forallb (fun c => match core_step w c with Some (Ret w') => explore fuel w' | _ => false end) cores
      end
  end.

Lemma has_work_core w core : has_work w core = true -> core ∈ List.filter (has_work w) (seq 0 (length (w_cores w))).
Proof.
  intros Hw. apply list_elem_of_In, filter_In. split; [|done]. apply list_elem_of_In, elem_of_seq.
  unfold has_work in Hw. destruct (w_cores w !! core) eqn:Hc; [|done]. apply lookup_lt_Some in Hc. lia.
Qed.

(** The exploration is sound: no step panics, every run ends within the fuel,
    and it ends in a good state. *)
Lemma explore_sound fuel w : explore fuel w = true ->
  (forall n w', nsteps wstep n w w' -> (n < fuel)%nat /\
     (forall core, has_work w' core = true -> exists w'', core_step w' core = Some (Ret w'')) /\
     ((forall core, has_work w' core = false) -> good w' = true)).
Proof.
  revert w. induction fuel as [|fuel IH]; intros w He n w' Hn; cbn [explore] in He; [done|].
  assert (forall core, has_work w core = true ->
    exists w1, core_step w core = Some (Ret w1) /\ explore fuel w1 = true) as Hstep.
  { intros core Hw. pose proof (has_work_core w core Hw) as Hin.
    destruct (List.filter _ _) as [|c cs] eqn:Hf; [by apply elem_of_nil in Hin|].
    rewrite forallb_forall in He. specialize (He core (proj1 (list_elem_of_In _ _) Hin)).
    destruct (core_step w core) as [[w1|]|]; [|done..]. by exists w1. }
  inversion Hn as [|n1 x w1 y Hs Hrest]; subst.
  - split_and!; [lia|intros core Hw; destruct (Hstep core Hw) as (w1 & Hw1 & _); by exists w1|].
    intros Hnone. destruct (List.filter (has_work w') _) as [|c cs] eqn:Hf; [done|].
    assert (c ∈ List.filter (has_work w') (seq 0 (length (w_cores w')))) as Hin by (rewrite Hf; left).
    apply list_elem_of_In, filter_In in Hin as [_ Hc]. by rewrite Hnone in Hc.
  - inversion Hs as [? core ? Hw Hc]; subst. destruct (Hstep core Hw) as (w2 & Hw2 & He2).
    rewrite Hc in Hw2. simplify_eq. destruct (IH w2 He2 n1 w' Hrest) as (Hlt & Hrest2). split; [lia|done].
Qed.
End explore.
End world.

(** ** Page tables

    The processor's four levels of tables, walked and extended word by word: the
    mapper the executions below run with, so that dropping an address space
    finds real tables. *)
Definition ADDR_MASK : Z := 0x000ffffffffff000.
Definition table_index (level : nat) (a : Z) : nat := Z.to_nat (Z.land (Z.shiftr a (12 + 9 * Z.of_nat (pred level))) 511).

Definition walk_entry (e : Z) : option Z := if Z.odd e then Some (Z.land e ADDR_MASK) else None.

Fixpoint walk (m : Mem) (level : nat) (table a : Z) : TranslateResult :=
  match level with
  | O => NotMapped
  | S level' =>
      let e := nth (table_index level a) (frame_words (ram m) table) 0 in
      match walk_entry e with
      | None => NotMapped
      | Some f =>
          match level' with
          | O => Mapped f (a - page_of a) (Z.land e (Z.lnot ADDR_MASK))
          | _ => walk m level' f a
          end
      end
  end.

Definition put_entry (m : Mem) (table : Z) (i : nat) (e : Z) : Mem :=
  set_ram m (<[table := <[i := e]> (frame_words (ram m) table)]> (ram m)).

Fixpoint extend (m : Mem) (level : nat) (table page frame flags : Z) : Mem * result unit MapToError :=
  match level with
  | O => (m, Err ParentEntryHugePage)
  | S level' =>
      let i := table_index level page in
      let e := nth i (frame_words (ram m) table) 0 in
      match level', walk_entry e with
      | O, Some f => (m, Err (PageAlreadyMapped f))
      | O, None => (put_entry m table i (Z.lor frame flags), Ok tt)
      | _, Some f => extend m level' f page frame flags
      | _, None =>
          match Phys.allocate_frame (bitmap_words m) (frames m) with
          | Ret (a, Some f) =>
              let m := set_frames m a in
              let m := set_ram m (<[f := replicate 512 0]> (ram m)) in
              extend (put_entry m table i (Z.lor f 7)) level' f page frame flags
          | _ => (m, Err FrameAllocationFailed)
          end
      end
  end.

Definition paging_x86 : X86 := {|
  entry_frame := walk_entry;
  map_to m pml4 page frame flags := extend m 4 pml4 page frame flags;
  translate m pml4 a := walk m 4 pml4 a;
  virt_addr_new z := if demo_canonical z then Some z else None;
|}.

(** ** [init] and [echo-child] on two cores *)
#[local] Instance user_selectors : Selectors := Build_Selectors (sel_user_code the_selectors) (sel_user_data the_selectors).

Definition demo_modules : list (list Z * list Z) := [(str_bytes "init", demo_program); (str_bytes "echo-child", demo_program)].
Definition demo_programs (name : list Z) : Prog :=
  if bool_decide (name = str_bytes "echo-child") then echo_child_main else exit_code_child_main.

Definition two_cores : Sched :=
  set_slot_ready (assign_slot (set_slot_ready (assign_slot sched_new 0 0) 0) 1 2) 1.

Definition demo_arch : @Arch demo_gdt :=
  @mkArch demo_gdt [] (@gdt_empty demo_gdt) the_selectors seg_boot idt_init demo_timers (mkPic 254 255 []) 1000.

(** The machine as the boot services leave it, the two cores in their idle
    loops. *)
Definition demo_services :=
  @boot_services 1 RamDisk unit paging_x86 demo_gdt bitflags_ops ram_disk demo_host demo_no_mmio
    (fun _ => mkRamDisk ∅) (fun _ s => s) 64.

Definition booted_sys {A B C E : Type} (r : outcome (Sys RamDisk * A * B * C * E)) : outcome (Sys RamDisk) :=
  let! '(y, _, _, _, _) := r in Ret y.

Definition services_on (m : Mem) (s : Sched) (arch : @Arch demo_gdt) (modules : list (list Z * list Z))
    (hw : Hardware unit) : outcome (Sys RamDisk) :=
  let! '(m, idle) := build_idle_address_space 1 m in
  booted_sys (demo_services m s arch idle modules hw).

Definition world_of (main : Prog) (booted : outcome (Sys RamDisk)) : option World :=
  match booted with
  | Ret y => Some (mkWorld y [CIdle None; CIdle None] {[pid_raw init_pid := fun _ _ => main]})
  | Panic _ => None
  end.

(** The buffers [probe_filesystem] has on its stack. *)
Definition demo_world : option World :=
  world_of (init_main 0x7ffffffe0000 0x7ffffffe1000) (services_on (demo_fresh_mem 1 60) two_cores demo_arch demo_modules demo_hardware).

Definition console_lines : list Z :=
  uart_banner ++ str_bytes "Hello from TarnOS userspace!" ++ [13; 10] ++ str_bytes "child replied: pong" ++ [13; 10].

(** The console shows the lines, every slot of the process table is empty, and
    as many frames are free as before [init] was loaded. *)
Definition all_done (w : @World RamDisk) : bool :=
  let k := sk (w_sys w) in
  bool_decide (tx (kuart k) = console_lines) && all_processes_empty (ksched k) &&
  (Phys.free_frame_count (frames (kmem k)) =? 59)%nat &&
  existsb (fun c => match c with CHalted => true | _ => false end) (w_cores w).


Abbreviation demo_step := (@wstep 1 RamDisk paging_x86 user_selectors bitflags_ops ram_disk 64 demo_programs).
Abbreviation demo_core_step := (@core_step 1 RamDisk paging_x86 user_selectors bitflags_ops ram_disk 64 demo_programs).

Lemma demo_explored :
  from_option (@explore 1 RamDisk paging_x86 user_selectors bitflags_ops ram_disk 64 demo_programs all_done 40) false demo_world = true.
Proof. vm_cast_no_check (eq_refl true). Qed.

