(* ===== verification/TestProcs.v ===== *)
(** * The test processes ([kernel/src/milestone*_tests.rs], [kitchen_sink_tests.rs])

    The kernel's integration tests run functions of the kernel as ring-3
    processes.  Most are one [asm!] block: here the block is the list of its
    instructions, interpreted on the registers of the trap frame between one
    system call and the next.  An instruction takes one address, so the saved
    [rip] is the position in the list.  The others call the kernel through
    single [asm!] statements and are written as programs. *)
From S2P Require Import Prelude Abi Ring Rendezvous CapTable Phys Virt Process Elf Mapper Sched Uart Kernel.
From S2P Require Import Handlers Block Fat Virtio Syscall UserMem Irq Trap Rt Idt Programs.
Open Scope Z_scope.

(** [u64::from_le_bytes( *b"..")]; trailing zero bytes add nothing. *)
Definition from_le_bytes (s : string) : Z := of_le_bytes (str_bytes s).

(** ** Assembly *)
Inductive Operand := OpReg (r : Reg) | OpImm (z : Z).
Coercion OpReg : Reg >-> Operand.
Coercion OpImm : Z >-> Operand.

(** [2f] and [2b]: the next and the previous label of that number. *)
Inductive Target := fwd (n : nat) | bwd (n : nat).

Inductive Insn :=
| mov (d : Reg) (s : Operand)
| load (d s : Reg)
| add (d : Reg) (s : Operand)
| inc (d : Reg)
| cmp (d : Reg) (s : Operand)
| jmp (t : Target)
| jne (t : Target)
| jl (t : Target)
| jge (t : Target)
| label (n : nat)
| pause
| hlt
| syscall.

(** Immediates are sign-extended to the register's width. *)
Definition operand (f : TrapFrame) (o : Operand) : Z :=
  match o with OpReg r => freg f r | OpImm z => wrap64 z end.

Definition set_rip_flags (f : TrapFrame) (vrip vrflags : Z) : TrapFrame :=
  mkFrame (r15 f) (r14 f) (r13 f) (r12 f) (r11 f) (r10 f) (r9 f) (r8 f) (rbp f) (rdi f) (rsi f) (rdx f) (rcx f) (rbx f) (rax f)
    vrip (cs f) vrflags (rsp f) (ss f).
Definition set_rip (f : TrapFrame) (v : Z) : TrapFrame := set_rip_flags f v (rflags f).

(** The status flags that the conditional jumps read. *)
Definition ZF : Z := 6.
Definition SF : Z := 7.
Definition OF : Z := 11.
Definition STATUS : Z := 2 ^ ZF + 2 ^ SF + 2 ^ OF.

(** The flags of a result [r] whose exact signed value is [exact]. *)
Definition status (rf r exact : Z) : Z :=
  let bit b (c : bool) := if c then 2 ^ b else 0 in
  Z.lor (Z.land rf (Z.lnot STATUS))
    (bit ZF (r =? 0) + bit SF (Z.testbit r 63) + bit OF (negb ((- 2 ^ 63 <=? exact) && (exact <? 2 ^ 63)))).

Definition add_flags (rf a b : Z) : Z := status rf (wrap64 (a + b)) (to_signed 64 a + to_signed 64 b).
Definition cmp_flags (rf a b : Z) : Z := status rf (wrap64 (a - b)) (to_signed 64 a - to_signed 64 b).

Definition not_equal (rf : Z) : bool := negb (Z.testbit rf ZF).
Definition less (rf : Z) : bool := xorb (Z.testbit rf SF) (Z.testbit rf OF).

Definition is_label (n : nat) (i : Insn) : bool := match i with label m => (m =? n)%nat | _ => false end.

(** The position a jump at position [pc] goes to. *)
Definition resolve (code : list Insn) (pc : nat) (t : Target) : option nat :=
  match t with
  | fwd n => (fun i => pc + i)%nat <$> position (is_label n) (drop pc code)
  | bwd n => (fun i => pc - 1 - i)%nat <$> position (is_label n) (rev (take pc code))
  end.

(** The eight bytes at an address of the process. *)
Definition load64 (v : UserView) (a : Z) : option Z :=
  of_le_bytes <$> mapM (fun i => v (a + Z.of_nat i)) (seq 0 8).

Section run.
Context (code : list Insn) (base : Z).

(** From the saved registers to the next system call or exception; [fuel]
    bounds the instructions in between, and a loop that makes none is [Spin].
    Past the end of the block is the compiler's [ud2]. *)
Fixpoint asm_run (fuel : nat) (f : TrapFrame) (v : UserView) : Prog :=
  match fuel with
  | O => Spin
  | S fuel =>
      let pc := Z.to_nat (rip f - base) in
      let next f := asm_run fuel (set_rip f (rip f + 1)) v in
      let next_flags f rf := asm_run fuel (set_rip_flags f (rip f + 1) rf) v in
      let jump (c : bool) t :=
        if c then match resolve code pc t with
                  | Some i => asm_run fuel (set_rip f (base + Z.of_nat i)) v
                  | None => Fault VECTOR_UD
                  end
        else next f in
      match code !! pc with
      | None => Fault VECTOR_UD
      | Some i =>
          match i with
          | mov d s => next (set_freg f d (operand f s))
          | load d s =>
              match load64 v (freg f s) with
              | Some x => next (set_freg f d x)
              | None => Fault VECTOR_PF
              end
          | add d s => next_flags (set_freg f d (wrap64 (freg f d + operand f s))) (add_flags (rflags f) (freg f d) (operand f s))
          | inc d => next_flags (set_freg f d (wrap64 (freg f d + 1))) (add_flags (rflags f) (freg f d) 1)
          | cmp d s => next_flags f (cmp_flags (rflags f) (freg f d) (operand f s))
          | jmp t => jump true t
          | jne t => jump (not_equal (rflags f)) t
          | jl t => jump (less (rflags f)) t
          | jge t => jump (negb (less (rflags f))) t
          | label _ | pause => next f
          | hlt => Fault VECTOR_GP
          | syscall =>
              let f := set_rip f (rip f + 1) in
              Trap (set_freg (set_freg f RCX (rip f)) R11 (rflags f))
          end
      end
  end.
End run.

(** What a process does from a saved frame on. *)
Abbreviation Proc := (TrapFrame -> UserView -> Prog).

(** More instructions than any block runs through without a system call. *)
Definition BLOCK_FUEL : nat := 64.

(** A block whose first instruction is at [base]; a program from its start. *)
Definition asm_process (code : list Insn) (base : Z) : Proc := asm_run code base BLOCK_FUEL.
Definition prog_process (p : Prog) (base : Z) : Proc := fun _ _ => p.

(** [asm!("syscall", in("rax") n, in("rdi") a0, ...)]. *)
Definition syscall_asm (n a0 a1 a2 a3 a4 a5 : Z) : Asm :=
  mkAsm [(RAX, n); (RDI, a0); (RSI, a1); (RDX, a2); (R10, a3); (R8, a4); (R9, a5)] (RAX :: CLOBBERED).

(** [loop { asm!("syscall", in("rax") SYS_YIELD, ..) }]. *)
Definition yield_loop : list Insn := [label 2; mov RAX SYS_YIELD; syscall; jmp (bwd 2)].

(** ** [milestone2_tests]: faults and queued senders *)
Definition faulting_process : list Insn :=
  [mov RAX 0x200000000000; load RAX RAX; label 2; hlt; jmp (bwd 2)].

Definition survivor_process : Prog := Exit 0.

Definition sender_process_a : Prog :=
  let WORD := from_le_bytes "MSGA" in
  Do (syscall_asm SYS_SEND 0 4 WORD 0 0 0) (fun _ _ => Exit 0).

Definition sender_process_b : Prog :=
  let WORD := from_le_bytes "MSGB" in
  Do (syscall_asm SYS_SEND 0 4 WORD 0 0 0) (fun _ _ => Exit 0).

(** ** [milestone3_tests]: spawning and granting *)
Definition boundary_bystander_process : list Insn := yield_loop.

Definition boundary_test_process : list Insn :=
  let NAME_LO := from_le_bytes "echo-chi" in
  let NAME_HI := from_le_bytes "ld" in
  let WORD0 := from_le_bytes "BOUNDARY" in
  let OK_WORD1 := from_le_bytes "_OK" in
  let FAIL_WORD1 := from_le_bytes "_FAIL" in
  let BYSTANDER_PID := Z.lor 0 (Z.shiftl 1 32) in
  [mov RAX 5; mov RDI BYSTANDER_PID; mov RSI 0; mov RDX 0; mov R10 1; syscall; cmp RAX (-6); jne (fwd 2);
   mov RAX 4; mov RDI NAME_LO; mov RSI NAME_HI; mov RDX 10; syscall; cmp RAX 0; jl (fwd 2); mov R12 RAX;
   mov RAX 5; mov RDI R12; mov RSI 0; mov RDX 0; mov R10 2; syscall; cmp RAX (-3); jne (fwd 2);
   mov RAX 5; mov RDI R12; mov RSI 0; mov RDX 0; mov R10 1; syscall; cmp RAX 0; jne (fwd 2);
   mov RAX 6; mov RDI R12; syscall; cmp RAX 0; jne (fwd 2);
   mov RAX 1; mov RDI 0; mov RSI 11; mov RDX WORD0; mov R10 OK_WORD1; mov R8 0; mov R9 0; syscall; jmp (fwd 3);
   label 2;
   mov RAX 1; mov RDI 0; mov RSI 13; mov RDX WORD0; mov R10 FAIL_WORD1; mov R8 0; mov R9 0; syscall;
   label 3;
   mov RAX 3; mov RDI 0; syscall].

(** ** [milestone4_tests]: waiting and killing *)
Definition kill_test_bystander_process : list Insn := yield_loop.

Definition lifecycle_test_process : list Insn :=
  let NAME_LO := from_le_bytes "echo-chi" in
  let NAME_HI := from_le_bytes "ld" in
  let WORD0 := from_le_bytes "LIFECYCL" in
  let OK_WORD1 := from_le_bytes "E_OK" in
  let FAIL_WORD1 := from_le_bytes "E_FAIL" in
  [mov R13 0;
   label 2; cmp R13 48; jge (fwd 3);
   mov RAX 4; mov RDI NAME_LO; mov RSI NAME_HI; mov RDX 10; syscall; cmp RAX 0; jl (fwd 4); mov R12 RAX;
   mov RAX 8; mov RDI R12; syscall; cmp RAX 0; jne (fwd 4);
   mov RAX 7; mov RDI R12; syscall; cmp RAX 0; jne (fwd 4); inc R13; jmp (bwd 2);
   label 3;
   mov RAX 1; mov RDI 0; mov RSI 12; mov RDX WORD0; mov R10 OK_WORD1; mov R8 0; mov R9 0; syscall; jmp (fwd 5);
   label 4;
   mov RAX 1; mov RDI 0; mov RSI 14; mov RDX WORD0; mov R10 FAIL_WORD1; mov R8 0; mov R9 0; syscall;
   label 5;
   mov RAX 3; mov RDI 0; syscall].

Definition wait_test_process : list Insn :=
  let NAME_LO := from_le_bytes "exit-cod" in
  let NAME_HI := from_le_bytes "e-child" in
  let OK_WORD0 := from_le_bytes "WAIT_OK" in
  let FAIL_WORD0 := from_le_bytes "WAIT_FAI" in
  let FAIL_WORD1 := from_le_bytes "L" in
  [mov RAX 4; mov RDI NAME_LO; mov RSI NAME_HI; mov RDX 15; syscall; cmp RAX 0; jl (fwd 2); mov R12 RAX;
   mov RAX 6; mov RDI R12; syscall; cmp RAX 0; jne (fwd 2);
   mov RAX 7; mov RDI R12; syscall; cmp RAX 0; jne (fwd 2); cmp RDI 0; jne (fwd 2); cmp RSI 42; jne (fwd 2);
   mov RAX 1; mov RDI 0; mov RSI 7; mov RDX OK_WORD0; mov R10 0; mov R8 0; mov R9 0; syscall; jmp (fwd 3);
   label 2;
   mov RAX 1; mov RDI 0; mov RSI 9; mov RDX FAIL_WORD0; mov R10 FAIL_WORD1; mov R8 0; mov R9 0; syscall;
   label 3;
   mov RAX 3; mov RDI 0; syscall].

Definition kill_boundary_test_process : list Insn :=
  let NAME_LO := from_le_bytes "echo-chi" in
  let NAME_HI := from_le_bytes "ld" in
  let OK_WORD0 := from_le_bytes "KILL_OK" in
  let FAIL_WORD0 := from_le_bytes "KILL_FAI" in
  let FAIL_WORD1 := from_le_bytes "L" in
  let BYSTANDER_PID := Z.lor 0 (Z.shiftl 1 32) in
  [mov RAX 8; mov RDI BYSTANDER_PID; syscall; cmp RAX (-6); jne (fwd 2);
   mov RAX 4; mov RDI NAME_LO; mov RSI NAME_HI; mov RDX 10; syscall; cmp RAX 0; jl (fwd 2); mov R12 RAX;
   mov RAX 8; mov RDI R12; syscall; cmp RAX 0; jne (fwd 2);
   mov RAX 4; mov RDI NAME_LO; mov RSI NAME_HI; mov RDX 10; syscall; cmp RAX 0; jl (fwd 2); mov R12 RAX;
   mov RAX 5; mov RDI R12; mov RSI 1; mov RDX 0; mov R10 3; syscall; cmp RAX 0; jne (fwd 2);
   mov RAX 6; mov RDI R12; syscall; cmp RAX 0; jne (fwd 2);
   mov RAX 0; syscall;
   mov RAX 0; syscall;
   mov RAX 0; syscall;
   mov RAX 8; mov RDI R12; syscall; cmp RAX 0; jne (fwd 2);
   mov RAX 1; mov RDI 0; mov RSI 7; mov RDX OK_WORD0; mov R10 0; mov R8 0; mov R9 0; syscall; jmp (fwd 3);
   label 2;
   mov RAX 1; mov RDI 0; mov RSI 9; mov RDX FAIL_WORD0; mov R10 FAIL_WORD1; mov R8 0; mov R9 0; syscall;
   label 3;
   mov RAX 3; mov RDI 0; syscall].

(** ** [milestone5_tests]: the heap *)
Definition heap_growth_test_process : list Insn :=
  let NAME_LO := from_le_bytes "heap-chi" in
  let NAME_HI := from_le_bytes "ld" in
  let OK_WORD0 := from_le_bytes "HEAP_OK" in
  let FAIL_WORD0 := from_le_bytes "HEAP_FAI" in
  let FAIL_WORD1 := from_le_bytes "L" in
  [mov RAX 4; mov RDI NAME_LO; mov RSI NAME_HI; mov RDX 10; syscall; cmp RAX 0; jl (fwd 2); mov R12 RAX;
   mov RAX 6; mov RDI R12; syscall; cmp RAX 0; jne (fwd 2);
   mov RAX 7; mov RDI R12; syscall; cmp RAX 0; jne (fwd 2); cmp RDI 0; jne (fwd 2); cmp RSI 0; jne (fwd 2);
   mov RAX 1; mov RDI 0; mov RSI 7; mov RDX OK_WORD0; mov R10 0; mov R8 0; mov R9 0; syscall; jmp (fwd 3);
   label 2;
   mov RAX 1; mov RDI 0; mov RSI 9; mov RDX FAIL_WORD0; mov R10 FAIL_WORD1; mov R8 0; mov R9 0; syscall;
   label 3;
   mov RAX 3; mov RDI 0; syscall].

Definition sbrk_boundary_test_process : list Insn :=
  let OK_WORD0 := from_le_bytes "SBRK_OK" in
  let FAIL_WORD0 := from_le_bytes "SBRK_FAI" in
  let FAIL_WORD1 := from_le_bytes "L" in
  let GROW_BYTES := 3 * 4096 in
  let ABSURD_INCREMENT := 128 * 1024 * 1024 in
  [mov RAX 9; mov RDI ABSURD_INCREMENT; syscall; cmp RAX (-8); jne (fwd 2);
   mov RAX 9; mov RDI GROW_BYTES; syscall; cmp RAX 0; jl (fwd 2); mov R12 RAX;
   mov RAX 9; mov RDI (-4096); syscall; cmp RAX (-8); jne (fwd 2);
   mov RAX 9; mov RDI 0; syscall; cmp RAX 0; jl (fwd 2); mov R13 R12; add R13 GROW_BYTES; cmp RAX R13; jne (fwd 2);
   mov RAX 1; mov RDI 0; mov RSI 7; mov RDX OK_WORD0; mov R10 0; mov R8 0; mov R9 0; syscall; jmp (fwd 3);
   label 2;
   mov RAX 1; mov RDI 0; mov RSI 9; mov RDX FAIL_WORD0; mov R10 FAIL_WORD1; mov R8 0; mov R9 0; syscall;
   label 3;
   mov RAX 3; mov RDI 0; syscall].

(** ** [milestone7_tests]: several cores *)
Definition concurrency_process_a : list Insn :=
  [mov R13 0;
   label 2; cmp R13 100000; jge (fwd 3);
   mov RAX 0; syscall; inc R13; jmp (bwd 2);
   label 3;
   mov RAX 3; mov RDI 0; syscall].

Definition concurrency_process_b : list Insn :=
  [mov R13 0;
   label 2; cmp R13 100000; jge (fwd 3);
   mov RAX 0; syscall; inc R13; jmp (bwd 2);
   label 3;
   mov RAX 3; mov RDI 0; syscall].

Definition kill_cc_target_process : list Insn := yield_loop.

Definition kill_cc_killer_process : list Insn :=
  let TARGET_PID := Z.lor 0 (Z.shiftl 1 32) in
  let NAME_LO := from_le_bytes "exit-cod" in
  let NAME_HI := from_le_bytes "e-child" in
  let WORD0 := from_le_bytes "KILL_CC_" in
  let OK_WORD1 := from_le_bytes "OK" in
  let FAIL_WORD1 := from_le_bytes "FAIL" in
  [mov RAX 0; syscall;
   mov RAX 0; syscall;
   mov RAX 0; syscall;
   mov RAX 0; syscall;
   mov RAX 0; syscall;
   mov RAX 8; mov RDI TARGET_PID; syscall; cmp RAX 0; jne (fwd 2);
   mov RAX 4; mov RDI NAME_LO; mov RSI NAME_HI; mov RDX 15; syscall; cmp RAX 0; jl (fwd 2); mov R12 RAX;
   mov RAX 6; mov RDI R12; syscall; cmp RAX 0; jne (fwd 2);
   mov RAX 7; mov RDI R12; syscall; cmp RAX 0; jne (fwd 2); cmp RDI 0; jne (fwd 2); cmp RSI 42; jne (fwd 2);
   mov RAX 1; mov RDI 0; mov RSI 10; mov RDX WORD0; mov R10 OK_WORD1; mov R8 0; mov R9 0; syscall; jmp (fwd 3);
   label 2;
   mov RAX 1; mov RDI 0; mov RSI 12; mov RDX WORD0; mov R10 FAIL_WORD1; mov R8 0; mov R9 0; syscall;
   label 3;
   mov RAX 3; mov RDI 0; syscall].

(** ** [milestone8_tests]: messages and preemption across cores *)
Definition TEST_ENDPOINT_CAP : Z := 1.

Definition send_cc_receiver_process : list Insn :=
  let EXPECTED_TAG := 4 in
  let EXPECTED_WORD0 := from_le_bytes "ping" in
  let WORD0 := from_le_bytes "SEND_CC_" in
  let OK_WORD1 := from_le_bytes "OK" in
  let FAIL_WORD1 := from_le_bytes "FAIL" in
  [mov RAX 2; mov RDI TEST_ENDPOINT_CAP; syscall; cmp RAX 0; jne (fwd 2); cmp RDI EXPECTED_TAG; jne (fwd 2);
   cmp RSI EXPECTED_WORD0; jne (fwd 2);
   mov RAX 1; mov RDI 0; mov RSI 10; mov RDX WORD0; mov R10 OK_WORD1; mov R8 0; mov R9 0; syscall; jmp (fwd 3);
   label 2;
   mov RAX 1; mov RDI 0; mov RSI 12; mov RDX WORD0; mov R10 FAIL_WORD1; mov R8 0; mov R9 0; syscall;
   label 3;
   mov RAX 3; mov RDI 0; syscall].

Definition send_cc_sender_process : Prog :=
  let WORD := from_le_bytes "ping" in
  Do (syscall_asm SYS_SEND TEST_ENDPOINT_CAP 4 WORD 0 0 0) (fun _ _ => Exit 0).

Definition forced_preempt_busy_process : list Insn :=
  [label 2; pause; jmp (bwd 2)].

Definition forced_preempt_ordinary_process : Prog :=
  let WORD0 := from_le_bytes "PREEMPT_" in
  let WORD1 := from_le_bytes "ORD_OK" in
  Do (syscall_asm SYS_SEND 0 14 WORD0 WORD1 0 0) (fun _ _ => Exit 0).

Definition forced_preempt_killer_process : list Insn :=
  let TARGET_PID := Z.lor 0 (Z.shiftl 1 32) in
  let NAME_LO := from_le_bytes "exit-cod" in
  let NAME_HI := from_le_bytes "e-child" in
  let WORD0 := from_le_bytes "FRC_PRE_" in
  let OK_WORD1 := from_le_bytes "OK" in
  let FAIL_WORD1 := from_le_bytes "FAIL" in
  [mov RAX 0; syscall;
   mov RAX 0; syscall;
   mov RAX 0; syscall;
   mov RAX 0; syscall;
   mov RAX 0; syscall;
   mov RAX 8; mov RDI TARGET_PID; syscall; cmp RAX 0; jne (fwd 2);
   mov RAX 4; mov RDI NAME_LO; mov RSI NAME_HI; mov RDX 15; syscall; cmp RAX 0; jl (fwd 2); mov R12 RAX;
   mov RAX 6; mov RDI R12; syscall; cmp RAX 0; jne (fwd 2);
   mov RAX 7; mov RDI R12; syscall; cmp RAX 0; jne (fwd 2); cmp RDI 0; jne (fwd 2); cmp RSI 42; jne (fwd 2);
   mov RAX 1; mov RDI 0; mov RSI 10; mov RDX WORD0; mov R10 OK_WORD1; mov R8 0; mov R9 0; syscall; jmp (fwd 3);
   label 2;
   mov RAX 1; mov RDI 0; mov RSI 12; mov RDX WORD0; mov R10 FAIL_WORD1; mov R8 0; mov R9 0; syscall;
   label 3;
   mov RAX 3; mov RDI 0; syscall].

(** ** [milestone11_tests]: the disk

    [buf] is the address of the buffer on the stack. *)
Definition block_read_syscall_process (buf : Z) : Prog :=
  let KNOWN_TEST_LBA := 2 in
  Do (syscall_asm SYS_BLOCK_READ 2 KNOWN_TEST_LBA buf 1 0 0) (fun f v =>
    let result := to_signed 64 (rax f) in
    let content_matches := (result =? 0) && counts_up (read_buf v buf 512) in
    let WORD0 := from_le_bytes "BLK_SYSC" in
    let WORD1_OK := from_le_bytes "ALL_OK" in
    let WORD1_FAIL := from_le_bytes "ALL_FAIL" in
    let '(tag, word1) := if content_matches then (14, WORD1_OK) else (16, WORD1_FAIL) in
    Do (syscall_asm SYS_SEND 0 tag WORD0 word1 0 0) (fun _ _ => Exit 0)).

Definition block_boundary_process (buf : Z) : Prog :=
  let VALID_CAP := 2 in
  let MISSING_CAP := 5 in
  let VALID_LBA := 2 in
  let OUT_OF_RANGE_LBA := 1000 in
  let UNMAPPED_BUF := 0x0000700000000000 in
  let EXPECT_IO_OUT_OF_RANGE := -10 in
  let EXPECT_BAD_CAPABILITY := -2 in
  let EXPECT_INVALID_ARGUMENT := -8 in
  let probe cap lba dest count expected (all_ok : bool) (next : bool -> Prog) :=
    Do (syscall_asm SYS_BLOCK_READ cap lba dest count 0 0) (fun f _ =>
      next (all_ok && (to_signed 64 (rax f) =? expected))) in
  probe VALID_CAP OUT_OF_RANGE_LBA buf 1 EXPECT_IO_OUT_OF_RANGE true (fun all_ok =>
  probe MISSING_CAP VALID_LBA buf 1 EXPECT_BAD_CAPABILITY all_ok (fun all_ok =>
  probe VALID_CAP VALID_LBA buf 0 EXPECT_INVALID_ARGUMENT all_ok (fun all_ok =>
  probe VALID_CAP VALID_LBA UNMAPPED_BUF 1 EXPECT_INVALID_ARGUMENT all_ok (fun all_ok =>
  let WORD0 := from_le_bytes "BLK_BOUN" in
  let '(tag, word1, word2) :=
    if all_ok then (15, from_le_bytes "DARY_OK", 0) else (17, from_le_bytes "DARY_FAI", from_le_bytes "L") in
  Do (syscall_asm SYS_SEND 0 tag WORD0 word1 word2 0) (fun _ _ => Exit 0))))).

(** ** [milestone12_tests]: files *)
Definition fat_boundary_process (buf : Z) : Prog :=
  let VALID_CAP := 3 in
  let MISSING_CAP := 5 in
  let HELLO_LO := from_le_bytes "HELLO.TX" in
  let HELLO_HI := from_le_bytes "T" in
  let HELLO_LEN := 9 in
  let HELLO_FILE_SIZE := 46 in
  let NOSUCH_LO := from_le_bytes "NOSUCH.T" in
  let NOSUCH_HI := from_le_bytes "XT" in
  let NOSUCH_LEN := 10 in
  let UNMAPPED_BUF := 0x0000700000000000 in
  let BUF_LEN := 128 in
  let EXPECT_NO_SUCH_FILE := -12 in
  let EXPECT_BAD_CAPABILITY := -2 in
  let EXPECT_INVALID_ARGUMENT := -8 in
  let probe cap lo hi len dest expected (all_ok : bool) (next : bool -> Prog) :=
    Do (syscall_asm SYS_FILE_READ cap lo hi len dest BUF_LEN) (fun f _ =>
      next (all_ok && (to_signed 64 (rax f) =? expected))) in
  probe VALID_CAP NOSUCH_LO NOSUCH_HI NOSUCH_LEN buf EXPECT_NO_SUCH_FILE true (fun all_ok =>
  probe MISSING_CAP HELLO_LO HELLO_HI HELLO_LEN buf EXPECT_BAD_CAPABILITY all_ok (fun all_ok =>
  probe VALID_CAP HELLO_LO HELLO_HI HELLO_LEN UNMAPPED_BUF EXPECT_INVALID_ARGUMENT all_ok (fun all_ok =>
  probe VALID_CAP HELLO_LO HELLO_HI HELLO_LEN buf HELLO_FILE_SIZE all_ok (fun all_ok =>
  let WORD0 := from_le_bytes "FAT_BOUN" in
  let '(tag, word1, word2) :=
    if all_ok then (15, from_le_bytes "DARY_OK", 0) else (17, from_le_bytes "DARY_FAI", from_le_bytes "L") in
  Do (syscall_asm SYS_SEND 0 tag WORD0 word1 word2 0) (fun _ _ => Exit 0))))).

(** ** [kitchen_sink_tests]: everything at once *)
Definition CHILD_LINK_CAP_RAW : Z := 1.

Definition ks_ipc_orchestrator : list Insn :=
  let NAME_LO := from_le_bytes "echo-chi" in
  let NAME_HI := from_le_bytes "ld" in
  let PING := from_le_bytes "ping" in
  let PONG := from_le_bytes "pong" in
  let WORD0 := from_le_bytes "KS_IPC__" in
  let OK_WORD1 := from_le_bytes "OK" in
  let FAIL_WORD1 := from_le_bytes "FAIL" in
  [mov RAX 4; mov RDI NAME_LO; mov RSI NAME_HI; mov RDX 10; syscall; cmp RAX 0; jl (fwd 2); mov R12 RAX;
   mov RAX 5; mov RDI R12; mov RSI CHILD_LINK_CAP_RAW; mov RDX 0; mov R10 3; syscall; cmp RAX 0; jne (fwd 2);
   mov RAX 6; mov RDI R12; syscall; cmp RAX 0; jne (fwd 2);
   mov RAX 1; mov RDI CHILD_LINK_CAP_RAW; mov RSI 4; mov RDX PING; mov R10 0; mov R8 0; mov R9 0; syscall; cmp RAX 0;
   jne (fwd 2);
   mov RAX 2; mov RDI CHILD_LINK_CAP_RAW; syscall; cmp RAX 0; jne (fwd 2); cmp RDI 4; jne (fwd 2); cmp RSI PONG;
   jne (fwd 2);
   mov RAX 1; mov RDI 0; mov RSI 10; mov RDX WORD0; mov R10 OK_WORD1; mov R8 0; mov R9 0; syscall; jmp (fwd 3);
   label 2;
   mov RAX 1; mov RDI 0; mov RSI 12; mov RDX WORD0; mov R10 FAIL_WORD1; mov R8 0; mov R9 0; syscall;
   label 3;
   mov RAX 3; mov RDI 0; syscall].

Definition ks_heap_orchestrator : list Insn :=
  let NAME_LO := from_le_bytes "heap-chi" in
  let NAME_HI := from_le_bytes "ld" in
  let WORD0 := from_le_bytes "KS_HEAP_" in
  let OK_WORD1 := from_le_bytes "OK" in
  let FAIL_WORD1 := from_le_bytes "FAIL" in
  [mov RAX 4; mov RDI NAME_LO; mov RSI NAME_HI; mov RDX 10; syscall; cmp RAX 0; jl (fwd 2); mov R12 RAX;
   mov RAX 6; mov RDI R12; syscall; cmp RAX 0; jne (fwd 2);
   mov RAX 7; mov RDI R12; syscall; cmp RAX 0; jne (fwd 2); cmp RDI 0; jne (fwd 2); cmp RSI 0; jne (fwd 2);
   mov RAX 1; mov RDI 0; mov RSI 10; mov RDX WORD0; mov R10 OK_WORD1; mov R8 0; mov R9 0; syscall; jmp (fwd 3);
   label 2;
   mov RAX 1; mov RDI 0; mov RSI 12; mov RDX WORD0; mov R10 FAIL_WORD1; mov R8 0; mov R9 0; syscall;
   label 3;
   mov RAX 3; mov RDI 0; syscall].

Definition ks_lifecycle_orchestrator : list Insn :=
  let NAME_LO := from_le_bytes "exit-cod" in
  let NAME_HI := from_le_bytes "e-child" in
  let WORD0 := from_le_bytes "KS_LIFE_" in
  let OK_WORD1 := from_le_bytes "OK" in
  let FAIL_WORD1 := from_le_bytes "FAIL" in
  let ITERATIONS := 3 in
  [mov R13 0;
   label 5; cmp R13 ITERATIONS; jge (fwd 4);
   mov RAX 4; mov RDI NAME_LO; mov RSI NAME_HI; mov RDX 15; syscall; cmp RAX 0; jl (fwd 2); mov R12 RAX;
   mov RAX 6; mov RDI R12; syscall; cmp RAX 0; jne (fwd 2);
   mov RAX 7; mov RDI R12; syscall; cmp RAX 0; jne (fwd 2); cmp RDI 0; jne (fwd 2); cmp RSI 42; jne (fwd 2); inc R13;
   jmp (bwd 5);
   label 4;
   mov RAX 1; mov RDI 0; mov RSI 10; mov RDX WORD0; mov R10 OK_WORD1; mov R8 0; mov R9 0; syscall; jmp (fwd 3);
   label 2;
   mov RAX 1; mov RDI 0; mov RSI 12; mov RDX WORD0; mov R10 FAIL_WORD1; mov R8 0; mov R9 0; syscall;
   label 3;
   mov RAX 3; mov RDI 0; syscall].

Definition ks_kill_target_process : list Insn := yield_loop.

Definition ks_kill_orchestrator : list Insn :=
  let TARGET_PID := Z.lor 0 (Z.shiftl 1 32) in
  let WORD0 := from_le_bytes "KS_KILL_" in
  let OK_WORD1 := from_le_bytes "OK" in
  let FAIL_WORD1 := from_le_bytes "FAIL" in
  [mov RAX 0; syscall;
   mov RAX 0; syscall;
   mov RAX 0; syscall;
   mov RAX 0; syscall;
   mov RAX 0; syscall;
   mov RAX 8; mov RDI TARGET_PID; syscall; cmp RAX 0; jne (fwd 2);
   mov RAX 1; mov RDI 0; mov RSI 10; mov RDX WORD0; mov R10 OK_WORD1; mov R8 0; mov R9 0; syscall; jmp (fwd 3);
   label 2;
   mov RAX 1; mov RDI 0; mov RSI 12; mov RDX WORD0; mov R10 FAIL_WORD1; mov R8 0; mov R9 0; syscall;
   label 3;
   mov RAX 3; mov RDI 0; syscall].

Definition ks_pressure_process : list Insn :=
  [mov R13 0;
   label 2; cmp R13 5000; jge (fwd 3);
   mov RAX 0; syscall; inc R13; jmp (bwd 2);
   label 3;
   mov RAX 3; mov RDI 0; syscall].

(** ** The flags *)
Lemma testbit_63 d : Z.testbit (d mod 2 ^ 64) 63 = bool_decide (2 ^ 63 <= d mod 2 ^ 64).
Proof.
  rewrite Z.testbit_eqb by lia. pose proof (Z.mod_pos_bound d (2 ^ 64) ltac:(lia)) as Hd.
  set (x := d mod 2 ^ 64) in *. case_bool_decide as Hb.
  - assert (x / 2 ^ 63 = 1) as -> by (symmetry; apply (Z.div_unique x _ 1 (x - 2 ^ 63)); lia). done.
  - rewrite Z.div_small by lia. done.
Qed.

Lemma status_bits rf r exact :
  Z.testbit (status rf r exact) ZF = (r =? 0) /\
  Z.testbit (status rf r exact) SF = Z.testbit r 63 /\
  Z.testbit (status rf r exact) OF = negb ((- 2 ^ 63 <=? exact) && (exact <? 2 ^ 63)).
Proof.
  unfold status. rewrite !Z.lor_spec, !Z.land_spec, !Z.lnot_spec by done.
  change (Z.testbit STATUS ZF) with true. change (Z.testbit STATUS SF) with true. change (Z.testbit STATUS OF) with true.
  cbn [negb]. rewrite !andb_false_r. cbn [orb].
  destruct (r =? 0), (Z.testbit r 63), (negb _); repeat split; reflexivity.
Qed.

Lemma to_signed_range z : - 2 ^ 63 <= to_signed 64 z < 2 ^ 63.
Proof.
  unfold to_signed. change (64 - 1) with 63. pose proof (Z.mod_pos_bound z (2 ^ 64) ltac:(lia)). case_decide; lia.
Qed.

Lemma to_signed_mod z : (z - to_signed 64 z) mod 2 ^ 64 = 0.
Proof.
  unfold to_signed. change (64 - 1) with 63. pose proof (Z.div_mod z (2 ^ 64) ltac:(lia)) as Hz.
  apply Z.mod_divide; [done|]. case_decide; [exists (z / 2 ^ 64 + 1)|exists (z / 2 ^ 64)]; lia.
Qed.

(** After [cmp], [jne] jumps exactly if the values differ, [jl] exactly if the
    first is less as a signed number. *)
Lemma cmp_jne rf a b : not_equal (cmp_flags rf a b) = negb (wrap64 a =? wrap64 b).
Proof.
  unfold not_equal, cmp_flags. destruct (status_bits rf (wrap64 (a - b)) (to_signed 64 a - to_signed 64 b)) as [-> _].
  f_equal. apply eq_true_iff_eq. rewrite !Z.eqb_eq. unfold wrap64, wrap. rewrite <- Zminus_mod_idemp_l, <- Zminus_mod_idemp_r.
  pose proof (Z.mod_pos_bound a (2 ^ 64) ltac:(lia)). pose proof (Z.mod_pos_bound b (2 ^ 64) ltac:(lia)).
  split; intros Hd.
  - apply Z.mod_divide in Hd as [q Hq]; [|done]. lia.
  - rewrite Hd, Z.sub_diag. done.
Qed.

Lemma cmp_jl rf a b : less (cmp_flags rf a b) = (to_signed 64 a <? to_signed 64 b).
Proof.
  unfold less, cmp_flags. destruct (status_bits rf (wrap64 (a - b)) (to_signed 64 a - to_signed 64 b)) as (_ & -> & ->).
  pose proof (to_signed_range a). pose proof (to_signed_range b).
  assert (wrap64 (a - b) = (to_signed 64 a - to_signed 64 b) mod 2 ^ 64) as ->.
  { pose proof (to_signed_mod a) as Ha. pose proof (to_signed_mod b) as Hb. apply Z.mod_divide in Ha as [p Ha]; [|done].
    apply Z.mod_divide in Hb as [q Hb]; [|done]. unfold wrap64, wrap.
    replace (a - b) with (to_signed 64 a - to_signed 64 b + (p - q) * 2 ^ 64) by lia. by rewrite Z.mod_add. }
  rewrite testbit_63. set (d := to_signed 64 a - to_signed 64 b) in *.
  assert (d mod 2 ^ 64 = if decide (d < 0) then d + 2 ^ 64 else d) as ->.
  { case_decide; [|by apply Z.mod_small; lia]. symmetry. apply (Z.mod_unique d _ (-1)); lia. }
  apply eq_true_iff_eq. rewrite Z.ltb_lt.
  destruct (- 2 ^ 63 <=? d) eqn:H1, (d <? 2 ^ 63) eqn:H2; cbn [andb negb]; case_bool_decide as H3; cbn [xorb];
    destruct (decide (d < 0)); lia.
Qed.

(** The busy process never enters the kernel. *)
Lemma busy_process_spins base fuel f v :
  base <= rip f < base + 3 -> asm_run forced_preempt_busy_process base fuel f v = Spin.
Proof.
  revert f. induction fuel as [|fuel IH]; intros f Hf; [done|]. cbn [asm_run].
  assert (rip f = base \/ rip f = base + 1 \/ rip f = base + 2) as [Hr|[Hr|Hr]] by lia; rewrite Hr.
  - rewrite Z.sub_diag. cbn. apply IH. cbn. lia.
  - replace (base + 1 - base) with 1 by lia. cbn. apply IH. cbn. lia.
  - replace (base + 2 - base) with 2 by lia. cbn. apply IH. cbn. lia.
Qed.
