(* ===== verification/LogText.v ===== *)
(** * Text on the serial line

    Formatting of unsigned numbers as the kernel prints them, and the string
    operations with which the test tool reads the log back ([contains],
    [matches], [split], [lines], [trim], [parse]), over lists of bytes.  The
    theorems: printing and parsing are inverse, and the lines of what was
    printed line by line are those lines. *)
From S2P Require Import Prelude Abi.
Open Scope Z_scope.

(** ** Printing *)

(** [{}] of an unsigned number. *)
Fixpoint digits (fuel : nat) (n : Z) (acc : list Z) : list Z :=
  match fuel with
  | O => acc
  | S fuel =>
      let acc := (48 + n mod 10) :: acc in
      if n <? 10 then acc else digits fuel (n / 10) acc
  end.

(** Twenty digits hold every 64-bit number. *)
Definition fmt_u64 (n : Z) : list Z := digits 20 n [].

Definition CR : Z := 13.
Definition LF : Z := 10.

(** A line of [earlyprintln!]. *)
Definition println (l : list Z) : list Z := l ++ [CR; LF].

(** ** Searching *)
Fixpoint starts_with (l pat : list Z) : bool :=
  match pat, l with
  | [], _ => true
  | p :: pat, x :: l => if x =? p then starts_with l pat else false
  | _, _ => false
  end.

Definition strip_prefix (l pat : list Z) : option (list Z) :=
  if starts_with l pat then Some (drop (length pat) l) else None.

(** [split_once]: around the first occurrence. *)
Fixpoint split_once (l pat : list Z) : option (list Z * list Z) :=
  if starts_with l pat then Some ([], drop (length pat) l)
  else
    match l with
    | [] => None
    | x :: l => (fun '(a, b) => (x :: a, b)) <$> split_once l pat
    end.

Fixpoint contains_bytes (l pat : list Z) : bool :=
  if starts_with l pat then true else match l with [] => false | _ :: l => contains_bytes l pat end.
Definition contains (l : list Z) (s : string) : bool := contains_bytes l (str_bytes s).

(** [matches(s).count()]: occurrences that do not overlap; [skip] bytes of the
    last one are still to come. *)
Fixpoint count_matches (skip : nat) (l pat : list Z) : nat :=
  match l with
  | [] => 0
  | _ :: r =>
      match skip with
      | S skip => count_matches skip r pat
      | O => if starts_with l pat then S (count_matches (length pat - 1) r pat) else count_matches 0 r pat
      end
  end.
Definition matches (l : list Z) (s : string) : nat := count_matches 0 l (str_bytes s).

(** [split(s).nth(1)]: between the first occurrence and the second. *)
Definition split_nth1 (l pat : list Z) : option (list Z) :=
  match split_once l pat with
  | None => None
  | Some (_, rest) => Some match split_once rest pat with Some (a, _) => a | None => rest end
  end.

(** [split(s).next()]. *)
Definition split_next (l pat : list Z) : list Z := match split_once l pat with Some (a, _) => a | None => l end.

(** [split(c).collect()]. *)
Fixpoint split_on (c : Z) (l : list Z) : list (list Z) :=
  match l with
  | [] => [[]]
  | x :: l =>
      if decide (x = c) then [] :: split_on c l
      else match split_on c l with w :: ws => (x :: w) :: ws | [] => [[x]] end
  end.

(** ** Lines *)

(** A line that a line feed ends loses a carriage return before it. *)
Definition strip_cr (l : list Z) : list Z :=
  match rev l with x :: r => if decide (x = CR) then rev r else l | [] => l end.

(** [cur] is the line so far. *)
Fixpoint lines_from (cur l : list Z) : list (list Z) :=
  match l with
  | [] => match cur with [] => [] | _ => [cur] end
  | x :: l => if decide (x = LF) then strip_cr cur :: lines_from [] l else lines_from (cur ++ [x]) l
  end.
Definition lines (l : list Z) : list (list Z) := lines_from [] l.

(** ** Numbers *)
Definition is_space (z : Z) : bool := (z =? 32) || (9 <=? z) && (z <=? 13).
Fixpoint trim_start (l : list Z) : list Z :=
  match l with x :: r => if is_space x then trim_start r else l | [] => [] end.
Definition trim (l : list Z) : list Z := rev (trim_start (rev (trim_start l))).

Definition is_digit (z : Z) : bool := (48 <=? z) && (z <=? 57).

(** Too large a number is refused. *)
Fixpoint parse_digits (acc : Z) (l : list Z) : option Z :=
  match l with
  | [] => Some acc
  | d :: l =>
      let acc := acc * 10 + (d - 48) in
      if is_digit d && (acc <? 2 ^ 64) then parse_digits acc l else None
  end.

(** [parse::<u64>()]: a sign in front is allowed, nothing is not a number. *)
Definition parse_u64 (l : list Z) : option Z :=
  let l := match l with 43 :: r => r | _ => l end in
  match l with [] => None | _ => parse_digits 0 l end.

(** ** Printing and parsing *)
Lemma digits_app fuel n acc : digits fuel n acc = digits fuel n [] ++ acc.
Proof.
  revert n acc. induction fuel as [|fuel IH]; intros n acc; [done|]. cbn [digits]. destruct (n <? 10); [done|].
  rewrite IH, (IH _ [_]), <- (assoc_L (++)). done.
Qed.

Lemma parse_digits_app acc l l' :
  parse_digits acc (l ++ l') = match parse_digits acc l with Some acc => parse_digits acc l' | None => None end.
Proof.
  revert acc. induction l as [|d l IH]; intros acc; [done|]. cbn [app parse_digits].
  destruct (is_digit d && _); [apply IH|done].
Qed.

Lemma digit_mod n : is_digit (48 + n mod 10) = true.
Proof. pose proof (Z.mod_pos_bound n 10 ltac:(lia)). unfold is_digit. lia. Qed.

Lemma parse_print_digits fuel n :
  0 <= n < 10 ^ Z.of_nat fuel -> n < 2 ^ 64 -> parse_digits 0 (digits fuel n []) = Some n.
Proof.
  revert n. induction fuel as [|fuel IH]; intros n Hn Hm; [simpl; f_equal; lia|]. cbn [digits].
  pose proof (Z.div_mod n 10 ltac:(lia)) as Hd. pose proof (Z.mod_pos_bound n 10 ltac:(lia)) as Hb.
  destruct (n <? 10) eqn:Hs.
  - cbn [parse_digits]. rewrite digit_mod. rewrite (proj2 (Z.ltb_lt _ _)) by lia. cbn [andb]. f_equal.
    rewrite Z.mod_small by lia. lia.
  - rewrite digits_app, parse_digits_app, IH.
    + cbn [parse_digits]. rewrite digit_mod. replace (n / 10 * 10 + (48 + n mod 10 - 48)) with n by lia.
      by rewrite (proj2 (Z.ltb_lt _ _)).
    + rewrite Nat2Z.inj_succ, Z.pow_succ_r in Hn by lia. lia.
    + lia.
Qed.

Lemma digits_first fuel n : (0 < fuel)%nat -> exists d l, digits fuel n [] = d :: l /\ is_digit d = true.
Proof.
  revert n. induction fuel as [|fuel IH]; intros n Hf; [lia|]. cbn [digits]. destruct (n <? 10).
  - by exists (48 + n mod 10), []; rewrite digit_mod.
  - rewrite digits_app. destruct fuel as [|fuel]; [exists (48 + n mod 10), []; by rewrite digit_mod|].
    destruct (IH (n / 10) ltac:(lia)) as (d & l & -> & Hd). by exists d, (l ++ [48 + n mod 10]).
Qed.

(** What the kernel prints, the tool reads. *)
Lemma parse_fmt n : 0 <= n < 2 ^ 64 -> parse_u64 (fmt_u64 n) = Some n.
Proof.
  intros Hn. unfold parse_u64, fmt_u64. pose proof (parse_print_digits 20 n ltac:(lia) ltac:(lia)) as Hp.
  destruct (digits_first 20 n ltac:(lia)) as (d & l & Hd & Hdig). rewrite Hd in Hp |- *.
  assert (d <> 43) as Hne by (unfold is_digit in Hdig; lia).
  destruct d as [|p|p]; try done. repeat (destruct p as [p|p|]; try done).
Qed.

Lemma digits_all fuel n acc : forallb is_digit acc = true -> forallb is_digit (digits fuel n acc) = true.
Proof.
  revert n acc. induction fuel as [|fuel IH]; intros n acc Ha; [done|]. cbn [digits].
  destruct (n <? 10); [|apply IH]; cbn [forallb]; by rewrite digit_mod.
Qed.

(** ** Lines that were printed *)
Definition is_line (l : list Z) : Prop := LF ∉ l.

Lemma lines_from_app cur l rest : is_line l -> lines_from cur (l ++ LF :: rest) = strip_cr (cur ++ l) :: lines_from [] rest.
Proof.
  revert cur. induction l as [|x l IH]; intros cur Hl; cbn [app lines_from].
  - rewrite decide_True by done. by rewrite (right_id_L [] (++)).
  - apply not_elem_of_cons in Hl as [Hx Hl]. rewrite decide_False by done. rewrite IH by done.
    by rewrite <- (assoc_L (++)).
Qed.

Lemma strip_cr_snoc l : strip_cr (l ++ [CR]) = l.
Proof. unfold strip_cr. rewrite rev_app_distr. cbn [rev app]. rewrite decide_True by done. apply rev_involutive. Qed.

(** The lines of a log that was printed line by line. *)
Lemma lines_println ls rest : Forall is_line ls -> lines ((ls ≫= println) ++ rest) = ls ++ lines rest.
Proof.
  induction ls as [|l ls IH]; intros Hl; [done|]. apply Forall_cons in Hl as [Hl Hls].
  rewrite bind_cons. unfold println at 1, lines. rewrite <- !(assoc_L (++)).
  change ([CR; LF] ++ ?x) with ([CR] ++ LF :: x). rewrite (assoc_L (++)), lines_from_app.
  - cbn [app]. rewrite strip_cr_snoc. f_equal. by apply IH.
  - unfold is_line. rewrite not_elem_of_app. split; [done|]. by intros ?%list_elem_of_singleton.
Qed.

Lemma trim_digits l : forallb is_digit l = true -> trim l = l.
Proof.
  assert (forall l, forallb is_digit l = true -> trim_start l = l) as Ht.
  { intros [|d k]; [done|]. cbn [forallb trim_start]. intros [Hd _]%andb_true_iff.
    destruct (is_space d) eqn:Hs; [|done]. unfold is_digit, is_space in *. lia. }
  intros Hl. unfold trim. rewrite (Ht l Hl), Ht; [apply rev_involutive|].
  rewrite forallb_forall in Hl |- *. intros x Hx. apply Hl. by apply in_rev.
Qed.
