(* ===== verification/Xtask.v ===== *)
(** * The build and test tool ([xtask/src/main.rs])

    What the tool computes: its command line, the disk images it seeds, and the
    verdict of every test on the log of the run.  Building the kernel and running
    it in the emulator is a parameter, [run_scenario_ext], as are writing a file
    and the programs [mformat], [mcopy] and [strip]; where a test hands the
    emulator the path of a disk image, it hands [run_scenario_ext] the image.
    In the texts of the errors a quotation mark is an apostrophe; the lines for
    the user of the tool are left out. *)
From S2P Require Import Prelude Abi LogText.
Open Scope Z_scope.

Notation "'try!' p := e 'in' k" := (match e with Ok p => k | Err e' => Err e' end)
  (at level 200, p pattern, e at level 100, k at level 200).
Notation "'fail_if!' c 'with' m 'in' k" := (if c then Err (str_bytes m) else k)
  (at level 200, c at level 0, m at level 0, k at level 200).

(** ** The command line *)

(** [parse_features]: the first of the two forms decides. *)
Fixpoint parse_features (args : list (list Z)) : list (list Z) :=
  match args with
  | [] => []
  | arg :: rest =>
      if decide (arg = str_bytes "--features") then
        match rest with list :: _ => split_on 44 list | [] => [] end
      else
        match strip_prefix arg (str_bytes "--features=") with
        | Some list => split_on 44 list
        | None => parse_features rest
        end
  end.

(** ** Reading the log *)
Definition free_frame_count (line : list Z) : option Z :=
  match split_nth1 line (str_bytes "free_frames=") with
  | Some rest => parse_u64 (trim rest)
  | None => None
  end.

Definition extract_free_frame_counts (log : list Z) : list Z := omap free_frame_count (lines log).

Definition assert_booted_once (log : list Z) : result unit (list Z) :=
  let boot_lines := matches log "TarnOS booting" in
  if negb (boot_lines =? 1)%nat then
    Err (str_bytes "expected exactly one boot ('TarnOS booting' once); saw " ++ fmt_u64 (Z.of_nat boot_lines) ++
         str_bytes " -- looks like the guest reset instead of halting")
  else Ok tt.

(** The number of processors in the line about them. *)
Definition reported_cpus (log : list Z) : option Z :=
  match omap (fun line => split_nth1 line (str_bytes "MP info received (")) (lines log) with
  | rest :: _ => parse_u64 (split_next rest [32])
  | [] => None
  end.

(** ** Disk images *)
Definition TEST_SECTOR_SIZE : nat := 512.
Definition XTASK_KNOWN_TEST_LBA : nat := 2.
Definition FAT_TEST_HELLO_CONTENT : list Z := str_bytes "TarnOS Milestone 12 FAT12 smoke test payload." ++ [LF].
Definition FAT_TEST_BIGFILE_LEN : nat := 3000.
Definition pattern (n : nat) : list Z := (fun i => Z.of_nat (i mod 256)) <$> seq 0 n.
Definition fat_test_bigfile_content : list Z := pattern FAT_TEST_BIGFILE_LEN.

(** Zeros but for the pattern in one sector. *)
Definition test_disk_data (sector_count : nat) : list Z :=
  replicate (XTASK_KNOWN_TEST_LBA * TEST_SECTOR_SIZE) 0 ++ pattern TEST_SECTOR_SIZE ++
  replicate ((sector_count - XTASK_KNOWN_TEST_LBA - 1) * TEST_SECTOR_SIZE) 0.

(** [test-all]'s chain, and the table of commands. *)
Fixpoint and_then (l : list (result unit (list Z))) : result unit (list Z) :=
  match l with [] => Ok tt | r :: l => try! _ := r in and_then l end.
Fixpoint find_test {A} (cmd : string) (l : list (string * A)) : option A :=
  match l with [] => None | (n, r) :: l => if decide (n = cmd) then Some r else find_test cmd l end.

(** ** The tests *)
Section tests.
(** [run_scenario_ext features log_name timeout uefi smp disk] is the log. *)
Context (run_scenario_ext : list string -> string -> Z -> bool -> Z -> option (list Z) -> result (list Z) (list Z)).
Context (write_file : string -> list Z -> result unit (list Z)).
Context (create_fat_test_disk_image : string -> list (list Z * string) -> result (list Z) (list Z)).
Context (stripped_program : string -> result (list Z) (list Z)).

Definition run_scenario (features : list string) (log_name : string) (timeout_secs : Z) (uefi : bool) (smp : Z)
    : result (list Z) (list Z) :=
  run_scenario_ext features log_name timeout_secs uefi smp None.

Definition create_test_disk_image (path : string) (sector_count : nat) : result (list Z) (list Z) :=
  let data := test_disk_data sector_count in
  try! _ := write_file path data in Ok data.

Definition test_uefi_boot : result unit (list Z) :=
  try! log := run_scenario []%string "uefi-boot-test.log" 8 true 1 in
  try! _ := assert_booted_once log in
  fail_if! (contains log "[KERNEL PANIC]") with "expected no kernel panic on a normal UEFI boot" in
  fail_if! (negb (contains log "Hello from TarnOS userspace!"))
    with "expected init's greeting to arrive over UEFI, same as it does over BIOS" in
  Ok tt.

Definition test_fault : result unit (list Z) :=
  try! log := run_scenario ["fault-injection-test"]%string "fault-test.log" 5 false 1 in
  try! _ := assert_booted_once log in
  fail_if! (negb (contains log "[KERNEL PANIC]") || negb (contains log "page fault"))
    with "expected a '[KERNEL PANIC] ... page fault ...' line in the serial output, but didn't find one" in
  Ok tt.

Definition test_fault_isolation : result unit (list Z) :=
  try! log := run_scenario ["fault-isolation-test"]%string "fault-isolation-test.log" 5 false 1 in
  try! _ := assert_booted_once log in
  fail_if! (contains log "[KERNEL PANIC]")
    with "expected no kernel panic -- a ring-3 fault should kill only the offending process, not the kernel" in
  fail_if! (negb (contains log "[fault]") || negb (contains log "killed"))
    with "expected a '[fault] pid ... killed: ...' line showing the faulting process was terminated" in
  fail_if! (negb (contains log "last process exited, halting"))
    with "expected the survivor process to still reach a clean exit after the other process faulted" in
  Ok tt.

Definition test_blocking_ipc : result unit (list Z) :=
  try! log := run_scenario ["blocking-ipc-test"]%string "blocking-ipc-test.log" 8 false 1 in
  try! _ := assert_booted_once log in
  fail_if! (contains log "[KERNEL PANIC]") with "expected no kernel panic" in
  fail_if! (negb (contains log "Hello from TarnOS userspace!"))
    with "expected init's greeting to still arrive after genuinely blocking on sys_send" in
  Ok tt.

Definition test_double_send : result unit (list Z) :=
  try! log := run_scenario ["double-send-test"]%string "double-send-test.log" 8 false 1 in
  try! _ := assert_booted_once log in
  fail_if! (contains log "[KERNEL PANIC]")
    with "expected no kernel panic -- a second sender with nobody receiving must queue, not panic" in
  fail_if! (negb (contains log "MSGA") || negb (contains log "MSGB"))
    with "expected both queued senders' messages ('MSGA' and 'MSGB') to have been delivered" in
  fail_if! (negb (contains log "last process exited, halting"))
    with "expected both sender processes to reach a clean exit" in
  Ok tt.

Definition test_spawn_ipc : result unit (list Z) :=
  try! log := run_scenario []%string "spawn-ipc-test.log" 8 false 1 in
  try! _ := assert_booted_once log in
  fail_if! (contains log "[KERNEL PANIC]") with "expected no kernel panic" in
  fail_if! (negb (contains log "Hello from TarnOS userspace!"))
    with "expected init's own greeting (regression check)" in
  fail_if! (negb (contains log "child replied: pong"))
    with "expected 'child replied: pong' -- init's dynamically spawned echo-child should have replied over the granted capability" in
  fail_if! (negb (contains log "last process exited, halting"))
    with "expected both init and its spawned child to reach a clean exit" in
  Ok tt.

Definition test_spawn_boundary : result unit (list Z) :=
  try! log := run_scenario ["spawn-boundary-test"]%string "spawn-boundary-test.log" 5 false 1 in
  try! _ := assert_booted_once log in
  fail_if! (contains log "[KERNEL PANIC]") with "expected no kernel panic" in
  fail_if! (contains log "BOUNDARY_FAIL")
    with "boundary-test process reported BOUNDARY_FAIL -- SYS_GRANT/SYS_PROCESS_START did not enforce ownership/rights the way it should have" in
  fail_if! (negb (contains log "BOUNDARY_OK"))
    with "expected 'BOUNDARY_OK' -- the boundary-test process never reported a result at all" in
  Ok tt.

Definition test_process_lifecycle : result unit (list Z) :=
  try! log := run_scenario ["process-lifecycle-test"]%string "process-lifecycle-test.log" 8 false 1 in
  try! _ := assert_booted_once log in
  fail_if! (contains log "[KERNEL PANIC]") with "expected no kernel panic" in
  fail_if! (contains log "LIFECYCLE_FAIL")
    with "lifecycle-test process reported LIFECYCLE_FAIL -- a spawn or kill failed partway through the loop, suggesting the process table is leaking" in
  fail_if! (negb (contains log "LIFECYCLE_OK"))
    with "expected 'LIFECYCLE_OK' -- the lifecycle-test process never reported a result at all" in
  match extract_free_frame_counts log with
  | [before; after] =>
      if decide (before = after) then Ok tt
      else Err (str_bytes "expected the free physical frame count to return to its starting value after 48 spawn+kill cycles, but it went from " ++ fmt_u64 before ++ str_bytes " to " ++
                fmt_u64 after ++ str_bytes " -- AddressSpace teardown is leaking physical memory")
  | other => Err (str_bytes "expected exactly two 'free_frames=' log lines (before and after), found " ++ fmt_u64 (Z.of_nat (length other)))
  end.

Definition test_wait_exit_code : result unit (list Z) :=
  try! log := run_scenario ["wait-exit-code-test"]%string "wait-exit-code-test.log" 8 false 1 in
  try! _ := assert_booted_once log in
  fail_if! (contains log "[KERNEL PANIC]") with "expected no kernel panic" in
  fail_if! (contains log "WAIT_FAIL")
    with "wait-test process reported WAIT_FAIL -- SYS_WAIT did not report the exit code exit-code-child actually passed to sys_exit" in
  fail_if! (negb (contains log "WAIT_OK"))
    with "expected 'WAIT_OK' -- the wait-test process never reported a result at all" in
  Ok tt.

Definition test_kill_boundary : result unit (list Z) :=
  try! log := run_scenario ["kill-boundary-test"]%string "kill-boundary-test.log" 5 false 1 in
  try! _ := assert_booted_once log in
  fail_if! (contains log "[KERNEL PANIC]") with "expected no kernel panic" in
  fail_if! (contains log "KILL_FAIL")
    with "kill-test process reported KILL_FAIL -- SYS_KILL did not enforce ownership, or a legitimate kill against a Suspended/Blocked child did not succeed" in
  fail_if! (negb (contains log "KILL_OK"))
    with "expected 'KILL_OK' -- the kill-test process never reported a result at all" in
  Ok tt.

Definition test_heap_growth : result unit (list Z) :=
  try! log := run_scenario ["heap-growth-test"]%string "heap-growth-test.log" 8 false 1 in
  try! _ := assert_booted_once log in
  fail_if! (contains log "[KERNEL PANIC]") with "expected no kernel panic" in
  fail_if! (contains log "HEAP_FAIL")
    with "heap-growth-test process reported HEAP_FAIL -- heap-child's Vec<u64> either failed to grow via sys_sbrk or lost data it had already written" in
  fail_if! (negb (contains log "HEAP_OK"))
    with "expected 'HEAP_OK' -- the heap-growth-test process never reported a result at all" in
  Ok tt.

Definition test_sbrk_boundary : result unit (list Z) :=
  try! log := run_scenario ["sbrk-boundary-test"]%string "sbrk-boundary-test.log" 5 false 1 in
  try! _ := assert_booted_once log in
  fail_if! (contains log "[KERNEL PANIC]") with "expected no kernel panic" in
  fail_if! (contains log "SBRK_FAIL")
    with "sbrk-boundary-test process reported SBRK_FAIL -- SYS_SBRK did not enforce its heap ceiling or grow-only contract, or a legitimate grow/query misbehaved" in
  fail_if! (negb (contains log "SBRK_OK"))
    with "expected 'SBRK_OK' -- the sbrk-boundary-test process never reported a result at all" in
  Ok tt.

(** [spin_lines]: the cores' counters. *)
Definition spin_line (line : list Z) : option (Z * Z) :=
  match strip_prefix line (str_bytes "[smp-test] core ") with
  | None => None
  | Some rest =>
      match split_once rest (str_bytes " spin_count=") with
      | None => None
      | Some (idx, count) =>
          match parse_u64 (trim idx), parse_u64 (trim count) with
          | Some i, Some c => Some (i, c)
          | _, _ => None
          end
      end
  end.

Definition smp_boot_check (smp : Z) (log_name : string) : result Z (list Z) :=
  try! log := run_scenario ["smp-boot-test"]%string log_name 10 false smp in
  try! _ := assert_booted_once log in
  fail_if! (contains log "[KERNEL PANIC]") with "expected no kernel panic" in
  match reported_cpus log with
  | None => Err (str_bytes "expected an 'MP info received (N CPU(s)...' log line")
  | Some reported =>
      let ready_count := Z.of_nat (matches log " ready") in
      if negb (ready_count =? reported) then
        Err (str_bytes "expected " ++ fmt_u64 reported ++ str_bytes " core(s) to report ready (Limine reported " ++ fmt_u64 reported ++
             str_bytes " CPU(s)), but saw " ++ fmt_u64 ready_count ++ str_bytes " 'ready' line(s)")
      else
        fail_if! (negb (contains log "[smp-test] boot check complete"))
          with "expected the smp-boot-test process to reach its final log line" in
        let spin_lines := omap spin_line (lines log) in
        if negb (Z.of_nat (length spin_lines) =? reported) then
          Err (str_bytes "expected " ++ fmt_u64 reported ++ str_bytes " 'spin_count=' log line(s), found " ++
               fmt_u64 (Z.of_nat (length spin_lines)))
        else
          let ap_spin_counts := snd <$> List.filter (fun '(core_index, _) => negb (core_index =? 0)) spin_lines in
          match ap_spin_counts with
          | [] => Err (str_bytes "expected at least one AP to check spin counters for")
          | c :: cs =>
              fail_if! (existsb (fun c => c =? 0) ap_spin_counts)
                with "expected every AP's spin counter to have advanced -- a zero count suggests that core never actually ran concurrently with the others" in
              let min := foldr Z.min c cs in
              let max := foldr Z.max c cs in
              if Z.min (min * 1000) (2 ^ 64 - 1) <? max then
                Err (str_bytes "expected every AP's spin counter to advance by a comparable order of magnitude, but saw counts ranging from " ++
                     fmt_u64 min ++ str_bytes " to " ++ fmt_u64 max)
              else Ok reported
          end
  end.

Definition test_smp_boot : result unit (list Z) :=
  try! _ := smp_boot_check 4 "smp-boot-test.log" in
  Ok tt.

Definition test_smp_degraded : result unit (list Z) :=
  try! _ := smp_boot_check 2 "smp-degraded-test.log" in
  Ok tt.

Definition test_smp_ipi : result unit (list Z) :=
  try! log := run_scenario ["smp-ipi-test"]%string "smp-ipi-test.log" 10 false 4 in
  try! _ := assert_booted_once log in
  fail_if! (contains log "[KERNEL PANIC]") with "expected no kernel panic" in
  fail_if! (contains log "IPI_FAIL")
    with "smp-ipi-test reported IPI_FAIL -- a targeted IPI reached the wrong core(s), or the bad-target send hung/faulted the kernel" in
  fail_if! (negb (contains log "IPI_OK"))
    with "expected 'IPI_OK' -- the smp-ipi-test process never reported a result at all" in
  Ok tt.

Definition test_smp_regression : result unit (list Z) :=
  try! log := run_scenario ["fault-isolation-test"]%string "smp-regression-fault-isolation.log" 5 false 4 in
  try! _ := assert_booted_once log in
  fail_if! (contains log "[KERNEL PANIC]")
    with "expected no kernel panic under -smp 4 -- a ring-3 fault should still kill only the offending process, not the kernel" in
  fail_if! (negb (contains log "[fault]") || negb (contains log "killed"))
    with "expected a '[fault] pid ... killed: ...' line under -smp 4, same as at -smp 1" in
  fail_if! (negb (contains log "last process exited, halting"))
    with "expected the survivor process to still reach a clean exit under -smp 4" in
  try! log := run_scenario ["blocking-ipc-test"]%string "smp-regression-blocking-ipc.log" 8 false 4 in
  try! _ := assert_booted_once log in
  fail_if! (contains log "[KERNEL PANIC]") with "expected no kernel panic under -smp 4" in
  fail_if! (negb (contains log "Hello from TarnOS userspace!"))
    with "expected init's greeting to still arrive after genuinely blocking on sys_send, under -smp 4" in
  Ok tt.

Definition test_smp_sched_concurrency : result unit (list Z) :=
  try! log := run_scenario ["smp-sched-concurrency-test"]%string "smp-sched-concurrency-test.log" 15 false 4 in
  try! _ := assert_booted_once log in
  fail_if! (contains log "[KERNEL PANIC]") with "expected no kernel panic" in
  fail_if! (contains log "CONCURRENCY_FAIL")
    with "smp-sched-concurrency-test reported CONCURRENCY_FAIL -- never observed both test processes resident on two different cores at the same instant" in
  fail_if! (negb (contains log "CONCURRENCY_OK"))
    with "expected 'CONCURRENCY_OK' -- the concurrency check never reported a result at all" in
  fail_if! (negb (contains log "concurrent"))
    with "expected a 'pid_a on core ..., pid_b on core ... -- concurrent' line naming the two distinct cores" in
  fail_if! (negb (contains log "last process exited, halting"))
    with "expected both spinning processes to still reach a clean exit" in
  Ok tt.

Definition test_smp_wait_cross_core : result unit (list Z) :=
  try! log := run_scenario ["wait-exit-code-test"]%string "smp-wait-cross-core-test.log" 8 false 4 in
  try! _ := assert_booted_once log in
  fail_if! (contains log "[KERNEL PANIC]") with "expected no kernel panic under -smp 4" in
  fail_if! (contains log "WAIT_FAIL")
    with "wait-exit-code-test reported WAIT_FAIL under -smp 4 -- the cross-core wake-and-report path did not deliver the correct exit status" in
  fail_if! (negb (contains log "WAIT_OK"))
    with "expected 'WAIT_OK' -- the wait-test process never reported a result at all" in
  fail_if! (negb (contains log "last process exited, halting"))
    with "expected the wait-test process to still reach a clean exit" in
  Ok tt.

Definition test_smp_kill_cross_core : result unit (list Z) :=
  try! log := run_scenario ["kill-cross-core-test"]%string "smp-kill-cross-core-test.log" 10 false 4 in
  try! _ := assert_booted_once log in
  fail_if! (contains log "[KERNEL PANIC]")
    with "expected no kernel panic -- a missing idle-core stale-CR3 fix would surface as a spurious page fault right after the cross-core kill" in
  fail_if! (contains log "KILL_CC_FAIL")
    with "kill-cross-core-test reported KILL_CC_FAIL -- either the cross-core kill itself failed, or the machine was not fully healthy afterward" in
  fail_if! (negb (contains log "KILL_CC_OK"))
    with "expected 'KILL_CC_OK' -- the kill-cross-core-test process never reported a result at all" in
  fail_if! (negb (contains log "last process exited, halting"))
    with "expected the killer process to still reach a clean exit" in
  Ok tt.

Definition test_smp_send_cross_core : result unit (list Z) :=
  try! log := run_scenario ["smp-send-cross-core-test"]%string "smp-send-cross-core-test.log" 8 false 4 in
  try! _ := assert_booted_once log in
  fail_if! (contains log "[KERNEL PANIC]") with "expected no kernel panic under -smp 4" in
  fail_if! (contains log "SEND_CC_FAIL")
    with "smp-send-cross-core-test reported SEND_CC_FAIL -- the delivered message did not match what the sender actually sent" in
  fail_if! (negb (contains log "SEND_CC_OK"))
    with "expected 'SEND_CC_OK' -- the send-cross-core-test receiver never reported a result at all" in
  fail_if! (negb (contains log "last process exited, halting"))
    with "expected the machine to still reach a clean final halt" in
  Ok tt.

Definition test_smp_forced_preempt : result unit (list Z) :=
  try! log := run_scenario ["forced-preempt-test"]%string "forced-preempt-test.log" 10 false 4 in
  try! _ := assert_booted_once log in
  fail_if! (contains log "[KERNEL PANIC]") with "expected no kernel panic under -smp 4" in
  fail_if! (contains log "PREEMPTION_FAIL")
    with "forced-preempt-test reported PREEMPTION_FAIL -- the never-syscalling busy process never got preempted on its own core" in
  fail_if! (negb (contains log "PREEMPTION_OK"))
    with "expected 'PREEMPTION_OK' -- the forced-preempt-test busy process never started running at all" in
  fail_if! (negb (contains log "PREEMPT_ORD_OK"))
    with "expected 'PREEMPT_ORD_OK' -- the ordinary process never got to run and exit alongside the never-yielding busy process" in
  fail_if! (contains log "FRC_PRE_FAIL")
    with "forced-preempt-test reported FRC_PRE_FAIL -- either SYS_KILL failed against the forcibly-scheduled busy process, or the machine was not fully healthy afterward" in
  fail_if! (negb (contains log "FRC_PRE_OK"))
    with "expected 'FRC_PRE_OK' -- the forced-preempt-test killer process never reported a result at all" in
  fail_if! (negb (contains log "last process exited, halting"))
    with "expected the machine to still reach a clean final halt" in
  Ok tt.

Fixpoint kitchen_checks (log : list Z) (l : list (string * string * string)) : result unit (list Z) :=
  match l with
  | [] => Ok tt
  | (fail_marker, ok_marker, description) :: l =>
      if contains log fail_marker then
        Err (str_bytes "kitchen-sink-test reported " ++ str_bytes fail_marker ++ str_bytes " -- " ++ str_bytes description ++
             str_bytes " failed while running concurrently with every other workload")
      else if negb (contains log ok_marker) then
        Err (str_bytes "expected '" ++ str_bytes ok_marker ++ str_bytes "' -- " ++ str_bytes description ++
             str_bytes " never reported a result at all")
      else kitchen_checks log l
  end.

Definition test_kitchen_sink : result unit (list Z) :=
  try! log := run_scenario ["kitchen-sink-test"]%string "kitchen-sink-test.log" 20 false 4 in
  try! _ := assert_booted_once log in
  fail_if! (contains log "[KERNEL PANIC]") with "expected no kernel panic under -smp 4" in
  try! _ := kitchen_checks log
    [("KS_IPC__FAIL", "KS_IPC__OK", "the IPC round trip via echo-child"); ("KS_HEAP_FAIL", "KS_HEAP_OK", "heap growth via heap-child");
     ("KS_LIFE_FAIL", "KS_LIFE_OK", "the exit-code-child lifecycle loop"); ("KS_KILL_FAIL", "KS_KILL_OK", "the kill-mid-flight orchestrator")]%string in
  fail_if! (negb (contains log "last process exited, halting")) with "expected the machine to still reach a clean final halt" in
  Ok tt.

Definition test_smp_sched_stress : result unit (list Z) :=
  try! log := run_scenario ["process-lifecycle-test"]%string "smp-sched-stress-test.log" 10 false 4 in
  try! _ := assert_booted_once log in
  fail_if! (contains log "[KERNEL PANIC]") with "expected no kernel panic under -smp 4" in
  fail_if! (contains log "LIFECYCLE_FAIL")
    with "process-lifecycle-test reported LIFECYCLE_FAIL under -smp 4 -- a rapid spawn+kill cycle failed under real cross-core scheduling pressure" in
  fail_if! (negb (contains log "LIFECYCLE_OK"))
    with "expected 'LIFECYCLE_OK' -- the lifecycle-test process never reported a result at all" in
  match extract_free_frame_counts log with
  | [before; after] =>
      if decide (before = after) then 
        fail_if! (negb (contains log "last process exited, halting"))
          with "expected the lifecycle-test process to still reach a clean exit" in
        Ok tt
      else Err (str_bytes "expected the free physical frame count to return to its starting value after 48 rapid spawn+kill cycles under -smp 4, but it went from " ++ fmt_u64 before ++ str_bytes " to " ++
                fmt_u64 after ++ str_bytes " -- AddressSpace teardown is leaking physical memory")
  | other => Err (str_bytes "expected exactly two 'free_frames=' log lines (before and after) under -smp 4, found " ++ fmt_u64 (Z.of_nat (length other)))
  end.

Definition test_block_driver : result unit (list Z) :=
  try! disk := create_test_disk_image "block-driver-test-disk.img" 64 in
  try! log := run_scenario_ext ["block-driver-test"]%string "block-driver-test.log" 10 false 1 (Some disk) in
  try! _ := assert_booted_once log in
  fail_if! (contains log "[KERNEL PANIC]") with "expected no kernel panic" in
  fail_if! (negb (contains log "PCI_ENUM_OK"))
    with "expected PCI enumeration to still succeed with the disk attached" in
  fail_if! (contains log "BLOCK_READ_FAIL")
    with "virtio-blk smoke test reported BLOCK_READ_FAIL -- see the captured log above for which stage failed" in
  fail_if! (negb (contains log "BLOCK_READ_OK"))
    with "expected 'BLOCK_READ_OK' -- the virtio-blk smoke test never reported a result at all" in
  Ok tt.

Definition test_block_syscall : result unit (list Z) :=
  try! disk := create_test_disk_image "block-syscall-test-disk.img" 64 in
  try! log := run_scenario_ext ["block-syscall-test"]%string "block-syscall-test.log" 10 false 1 (Some disk) in
  try! _ := assert_booted_once log in
  fail_if! (contains log "[KERNEL PANIC]") with "expected no kernel panic" in
  fail_if! (negb (contains log "PCI_ENUM_OK"))
    with "expected PCI enumeration to still succeed with the disk attached" in
  fail_if! (contains log "BLK_SYSCALL_FAIL")
    with "the dummy process's own SYS_BLOCK_READ reported BLK_SYSCALL_FAIL -- either the syscall itself failed or the content it read back didn't match what this scenario seeded" in
  fail_if! (negb (contains log "BLK_SYSCALL_OK"))
    with "expected 'BLK_SYSCALL_OK' -- the dummy process never reported a result at all" in
  Ok tt.

Definition test_block_boundary : result unit (list Z) :=
  try! disk := create_test_disk_image "block-boundary-test-disk.img" 64 in
  try! log := run_scenario_ext ["block-boundary-test"]%string "block-boundary-test.log" 10 false 1 (Some disk) in
  try! _ := assert_booted_once log in
  fail_if! (contains log "[KERNEL PANIC]") with "expected no kernel panic" in
  fail_if! (negb (contains log "PCI_ENUM_OK"))
    with "expected PCI enumeration to still succeed with the disk attached" in
  fail_if! (contains log "BLK_BOUNDARY_FAIL")
    with "the boundary-test process reported BLK_BOUNDARY_FAIL -- at least one adversarial SYS_BLOCK_READ probe didn't fail with the exact error code expected" in
  fail_if! (negb (contains log "BLK_BOUNDARY_OK"))
    with "expected 'BLK_BOUNDARY_OK' -- the boundary-test process never reported a result at all" in
  Ok tt.

Definition test_block_fixture : result unit (list Z) :=
  try! disk := create_test_disk_image "block-fixture-test-disk.img" 64 in
  try! log := run_scenario_ext ["block-fixture-test"]%string "block-fixture-test.log" 10 false 1 (Some disk) in
  try! _ := assert_booted_once log in
  fail_if! (contains log "[KERNEL PANIC]") with "expected no kernel panic" in
  fail_if! (negb (contains log "PCI_ENUM_OK"))
    with "expected PCI enumeration to still succeed with the disk attached" in
  fail_if! (contains log "BLOCK_FIXTURE_FAIL")
    with "block-child reported BLOCK_FIXTURE_FAIL -- either its own SYS_BLOCK_READ call failed or the content it read back didn't match what this scenario seeded" in
  fail_if! (negb (contains log "BLOCK_FIXTURE_OK"))
    with "expected 'BLOCK_FIXTURE_OK' -- block-child never reported a result at all" in
  Ok tt.

Definition test_fat_parsing : result unit (list Z) :=
  try! _ := write_file "fat-parsing-test-hello.txt" FAT_TEST_HELLO_CONTENT in
  try! _ := write_file "fat-parsing-test-bigfile.txt" fat_test_bigfile_content in
  try! disk := create_fat_test_disk_image "fat-parsing-test-disk.img" [(FAT_TEST_HELLO_CONTENT, "HELLO.TXT"); (fat_test_bigfile_content, "BIGFILE.TXT")]%string in
  try! log := run_scenario_ext ["fat-fs-test"]%string "fat-parsing-test.log" 10 false 1 (Some disk) in
  try! _ := assert_booted_once log in
  fail_if! (contains log "[KERNEL PANIC]") with "expected no kernel panic" in
  fail_if! (negb (contains log "PCI_ENUM_OK"))
    with "expected PCI enumeration to still succeed with the disk attached" in
  fail_if! (contains log "FAT_READ_FAIL")
    with "the fs::fat smoke test reported FAT_READ_FAIL -- see the captured log above for which stage failed" in
  fail_if! (negb (contains log "FAT_READ_OK"))
    with "expected 'FAT_READ_OK' -- the fs::fat smoke test never reported a result at all" in
  fail_if! (contains log "FS_SYSCALL_FAIL")
    with "the real init process's own SYS_FILE_READ probe reported FS_SYSCALL_FAIL -- either the syscall itself failed or the content it read back didn't match (Milestone 12 Phase 3)" in
  fail_if! (negb (contains log "FS_SYSCALL_OK"))
    with "expected 'FS_SYSCALL_OK' -- the real init process's own SYS_FILE_READ probe never reported a result at all (Milestone 12 Phase 3)" in
  Ok tt.

Definition test_fat_spawn : result unit (list Z) :=
  try! fschild_stripped := stripped_program "exit-code-child" in
  try! _ := write_file "fat-spawn-test-hello.txt" FAT_TEST_HELLO_CONTENT in
  try! _ := write_file "fat-spawn-test-bigfile.txt" fat_test_bigfile_content in
  try! disk := create_fat_test_disk_image "fat-spawn-test-disk.img" [(FAT_TEST_HELLO_CONTENT, "HELLO.TXT"); (fat_test_bigfile_content, "BIGFILE.TXT"); (fschild_stripped, "FSCHILD.ELF")]%string in
  try! log := run_scenario_ext []%string "fat-spawn-test.log" 10 false 1 (Some disk) in
  try! _ := assert_booted_once log in
  fail_if! (contains log "[KERNEL PANIC]") with "expected no kernel panic" in
  fail_if! (negb (contains log "PCI_ENUM_OK"))
    with "expected PCI enumeration to still succeed with the disk attached" in
  fail_if! (contains log "FS_SPAWN_FAIL")
    with "init's own SYS_SPAWN('FSCHILD.ELF') probe reported FS_SPAWN_FAIL -- either the spawn itself failed or the spawned process's own exit code didn't match (Milestone 12 Phase 4)" in
  fail_if! (negb (contains log "FS_SPAWN_OK"))
    with "expected 'FS_SPAWN_OK' -- init's own SYS_SPAWN('FSCHILD.ELF') probe never reported a result at all (Milestone 12 Phase 4)" in
  Ok tt.

Definition test_fat_fixture : result unit (list Z) :=
  try! _ := write_file "fat-fixture-test-hello.txt" FAT_TEST_HELLO_CONTENT in
  try! _ := write_file "fat-fixture-test-bigfile.txt" fat_test_bigfile_content in
  try! disk := create_fat_test_disk_image "fat-fixture-test-disk.img" [(FAT_TEST_HELLO_CONTENT, "HELLO.TXT"); (fat_test_bigfile_content, "BIGFILE.TXT")]%string in
  try! log := run_scenario_ext ["fat-fixture-test"]%string "fat-fixture-test.log" 10 false 1 (Some disk) in
  try! _ := assert_booted_once log in
  fail_if! (contains log "[KERNEL PANIC]") with "expected no kernel panic" in
  fail_if! (negb (contains log "PCI_ENUM_OK"))
    with "expected PCI enumeration to still succeed with the disk attached" in
  fail_if! (contains log "FS_FIXTURE_FAIL")
    with "the real fs-child userland fixture's own SYS_FILE_READ call reported FS_FIXTURE_FAIL -- either the syscall itself failed or the content it read back didn't match what this scenario seeded" in
  fail_if! (negb (contains log "FS_FIXTURE_OK"))
    with "expected 'FS_FIXTURE_OK' -- fs-child never reported a result at all" in
  Ok tt.

Definition test_fat_boundary : result unit (list Z) :=
  try! _ := write_file "fat-boundary-test-hello.txt" FAT_TEST_HELLO_CONTENT in
  try! _ := write_file "fat-boundary-test-bigfile.txt" fat_test_bigfile_content in
  try! disk := create_fat_test_disk_image "fat-boundary-test-disk.img" [(FAT_TEST_HELLO_CONTENT, "HELLO.TXT"); (fat_test_bigfile_content, "BIGFILE.TXT")]%string in
  try! log := run_scenario_ext ["fat-boundary-test"]%string "fat-boundary-test.log" 10 false 1 (Some disk) in
  try! _ := assert_booted_once log in
  fail_if! (contains log "[KERNEL PANIC]") with "expected no kernel panic" in
  fail_if! (negb (contains log "PCI_ENUM_OK"))
    with "expected PCI enumeration to still succeed with the disk attached" in
  fail_if! (contains log "FAT_BOUNDARY_FAIL")
    with "one or more SYS_FILE_READ boundary probes didn't match its expected outcome -- see the captured log above for which one" in
  fail_if! (negb (contains log "FAT_BOUNDARY_OK"))
    with "expected 'FAT_BOUNDARY_OK' -- the boundary-test process never reported a result at all" in
  Ok tt.

(** ** The command line *)

(** A test by its command. *)
Definition test_of (cmd : string) : option (result unit (list Z)) :=
  find_test cmd
    [("test-fault"%string, test_fault);
     ("test-fault-isolation"%string, test_fault_isolation);
     ("test-blocking-ipc"%string, test_blocking_ipc);
     ("test-double-send"%string, test_double_send);
     ("test-uefi-boot"%string, test_uefi_boot);
     ("test-spawn-ipc"%string, test_spawn_ipc);
     ("test-spawn-boundary"%string, test_spawn_boundary);
     ("test-process-lifecycle"%string, test_process_lifecycle);
     ("test-wait-exit-code"%string, test_wait_exit_code);
     ("test-kill-boundary"%string, test_kill_boundary);
     ("test-heap-growth"%string, test_heap_growth);
     ("test-sbrk-boundary"%string, test_sbrk_boundary);
     ("test-smp-boot"%string, test_smp_boot);
     ("test-smp-degraded"%string, test_smp_degraded);
     ("test-smp-ipi"%string, test_smp_ipi);
     ("test-smp-regression"%string, test_smp_regression);
     ("test-smp-sched-concurrency"%string, test_smp_sched_concurrency);
     ("test-smp-wait-cross-core"%string, test_smp_wait_cross_core);
     ("test-smp-kill-cross-core"%string, test_smp_kill_cross_core);
     ("test-smp-sched-stress"%string, test_smp_sched_stress);
     ("test-smp-send-cross-core"%string, test_smp_send_cross_core);
     ("test-smp-forced-preempt"%string, test_smp_forced_preempt);
     ("test-block-driver"%string, test_block_driver);
     ("test-block-syscall"%string, test_block_syscall);
     ("test-block-boundary"%string, test_block_boundary);
     ("test-block-fixture"%string, test_block_fixture);
     ("test-fat-parsing"%string, test_fat_parsing);
     ("test-fat-spawn"%string, test_fat_spawn);
     ("test-fat-fixture"%string, test_fat_fixture);
     ("test-fat-boundary"%string, test_fat_boundary);
     ("test-kitchen-sink"%string, test_kitchen_sink)].

(** [test-all]: up to the first that fails. *)
Definition test_all : result unit (list Z) :=
  and_then
    [test_fault;
     test_fault_isolation;
     test_blocking_ipc;
     test_double_send;
     test_uefi_boot;
     test_spawn_ipc;
     test_spawn_boundary;
     test_process_lifecycle;
     test_wait_exit_code;
     test_kill_boundary;
     test_heap_growth;
     test_sbrk_boundary;
     test_smp_boot;
     test_smp_degraded;
     test_smp_ipi;
     test_smp_regression;
     test_smp_sched_concurrency;
     test_smp_wait_cross_core;
     test_smp_kill_cross_core;
     test_smp_sched_stress;
     test_smp_send_cross_core;
     test_smp_forced_preempt;
     test_block_driver;
     test_block_syscall;
     test_block_boundary;
     test_block_fixture;
     test_fat_parsing;
     test_fat_spawn;
     test_fat_fixture;
     test_fat_boundary].

End tests.

(** ** The logs that were printed *)

(** A line of the kernel: a count of free frames, or one without any. *)
Inductive LogLine :=
| Frames (n : Z)
| Other (l : list Z).

Definition line_of (l : LogLine) : list Z :=
  match l with Frames n => str_bytes "[memtest] free_frames=" ++ fmt_u64 n | Other l => l end.
Definition frames_of (l : LogLine) : option Z := match l with Frames n => Some n | Other _ => None end.
Definition printed (ls : list LogLine) : list Z := (line_of <$> ls) ≫= println.

Definition printable (l : LogLine) : Prop :=
  match l with Frames n => 0 <= n < 2 ^ 64 | Other l => is_line l /\ contains l "free_frames=" = false end.

Lemma split_once_none l pat : contains_bytes l pat = false -> split_once l pat = None.
Proof.
  induction l as [|x l IH]; cbn [contains_bytes split_once]; destruct (starts_with _ pat); try done.
  intros Hl. by rewrite IH.
Qed.

Lemma digits_no_marker l : forallb is_digit l = true -> split_once l (str_bytes "free_frames=") = None.
Proof.
  intros Hl. apply split_once_none. induction l as [|d l IH]; [done|].
  cbn [forallb] in Hl. apply andb_true_iff in Hl as [Hd Hl]. cbn [contains_bytes]. rewrite (IH Hl).
  assert ((d =? 102) = false) as Hf by (unfold is_digit in Hd; lia).
  change (str_bytes "free_frames=") with (102 :: str_bytes "ree_frames="). cbn [starts_with]. by rewrite Hf.
Qed.

Lemma free_frame_count_line l : printable l -> free_frame_count (line_of l) = frames_of l.
Proof.
  unfold free_frame_count, split_nth1. destruct l as [n|l]; cbn [printable line_of frames_of].
  - intros Hn. assert (forall d, split_once (str_bytes "[memtest] free_frames=" ++ d) (str_bytes "free_frames=")
      = Some (str_bytes "[memtest] ", d)) as -> by (by intros []).
    rewrite digits_no_marker, trim_digits by (apply digits_all; reflexivity). by apply parse_fmt.
  - intros [_ Hl]. by rewrite split_once_none.
Qed.

Lemma printable_line l : printable l -> is_line (line_of l).
Proof.
  destruct l as [n|l]; cbn [printable line_of]; [intros _|by intros []]. unfold is_line.
  rewrite not_elem_of_app. split; [by apply (bool_decide_unpack _)|]. intros Hin.
  pose proof (digits_all 20 n [] eq_refl) as Hd. rewrite forallb_forall in Hd.
  specialize (Hd LF (proj1 (list_elem_of_In _ _) Hin)). done.
Qed.

(** The tool reads back, in order, exactly the counts the kernel printed. *)
Lemma frame_counts_recovered ls : Forall printable ls -> extract_free_frame_counts (printed ls) = omap frames_of ls.
Proof.
  intros Hp. unfold extract_free_frame_counts, printed. pose proof (lines_println (line_of <$> ls) []) as Hl.
  rewrite (right_id_L [] (++)) in Hl. rewrite Hl.
  - unfold lines at 1. cbn [lines_from]. rewrite (right_id_L [] (++)). clear Hl. induction Hp as [|l ls Hx Hp IH]; [done|].
    rewrite fmap_cons. cbn [omap list_omap]. rewrite free_frame_count_line by done. destruct (frames_of l); [f_equal|]; exact IH.
  - apply Forall_fmap. eapply Forall_impl; [exact Hp|]. intros l. apply printable_line.
Qed.

(** C34: whatever the kernel printed, the leak test accepts a run exactly when it
    booted once, did not panic, reported [LIFECYCLE_OK] and not [LIFECYCLE_FAIL],
    and printed the number of free frames exactly twice, the same number. *)
Theorem lifecycle_verdict run ls :
  Forall printable ls -> (forall fs name secs uefi smp disk, run fs name secs uefi smp disk = Ok (printed ls)) ->
  test_process_lifecycle run = Ok tt <->
  matches (printed ls) "TarnOS booting" = 1%nat /\ contains (printed ls) "[KERNEL PANIC]" = false /\
  contains (printed ls) "LIFECYCLE_FAIL" = false /\ contains (printed ls) "LIFECYCLE_OK" = true /\
  exists n, omap frames_of ls = [n; n].
Proof.
  intros Hp Hrun. unfold test_process_lifecycle, run_scenario, assert_booted_once. rewrite Hrun, frame_counts_recovered by done.
  generalize (printed ls), (omap frames_of ls). intros log counts.
  destruct (matches log _ =? 1)%nat eqn:Hb; cbn [negb]; [apply Nat.eqb_eq in Hb|apply Nat.eqb_neq in Hb; split; [done|by intros [? _]]].
  destruct (contains log "[KERNEL PANIC]"); [split; [done|by intros (_ & ? & _)]|].
  destruct (contains log "LIFECYCLE_FAIL"); [split; [done|by intros (_ & _ & ? & _)]|].
  destruct (contains log "LIFECYCLE_OK"); cbn [negb]; [|split; [done|by intros (_ & _ & _ & ? & _)]].
  destruct counts as [|b [|a [|]]]; try (split; [done|by intros (_ & _ & _ & _ & ? & ?)]).
  destruct (decide (b = a)) as [->|Hne]; split; try done.
  - intros _. split_and!; eauto.
  - intros (_ & _ & _ & _ & n & [= -> ->]). done.
Qed.

Definition demo_lines : list LogLine :=
  [Other (str_bytes "TarnOS booting..."); Frames 106; Other (str_bytes "LIFECYCLE_OK");
   Other (str_bytes "[sched] last process exited, halting."); Frames 106].

Lemma lifecycle_verdict_witness : test_process_lifecycle (fun _ _ _ _ _ _ => Ok (printed demo_lines)) = Ok tt.
Proof.
  apply (lifecycle_verdict _ demo_lines).
  - repeat constructor; try lia; try (by apply (bool_decide_unpack _)); done.
  - done.
  - split_and!; try done. by exists 106.
Defined.

(** ** Features on the command line *)
Fixpoint joined (names : list (list Z)) : list Z :=
  match names with [] => [] | [n] => n | n :: names => n ++ 44 :: joined names end.

Lemma split_on_app c n l : c ∉ n -> split_on c (n ++ c :: l) = n :: split_on c l.
Proof.
  induction n as [|x n IH]; intros Hn; cbn [app split_on]; [by rewrite decide_True|].
  apply not_elem_of_cons in Hn as [Hx Hn]. rewrite decide_False by done. by rewrite IH.
Qed.

Lemma split_on_none c n : c ∉ n -> split_on c n = [n].
Proof.
  induction n as [|x n IH]; intros Hn; cbn [split_on]; [done|].
  apply not_elem_of_cons in Hn as [Hx Hn]. rewrite decide_False by done. by rewrite IH.
Qed.

Lemma split_joined names : names <> [] -> Forall (fun n => 44 ∉ n) names -> split_on 44 (joined names) = names.
Proof.
  intros Hne Hn. induction Hn as [|n names Hx Hn IH]; [done|]. destruct names as [|m names].
  - by apply split_on_none.
  - change (joined (n :: m :: names)) with (n ++ 44 :: joined (m :: names)). rewrite split_on_app by done. by rewrite IH.
Qed.

Lemma strip_prefix_app pat l : strip_prefix (pat ++ l) pat = Some l.
Proof.
  assert (starts_with (pat ++ l) pat = true) as Hs.
  { induction pat as [|x pat IH]; [by destruct l|]. cbn [app starts_with]. by rewrite Z.eqb_refl. }
  unfold strip_prefix. rewrite Hs. by rewrite drop_app_length.
Qed.

(** Both spellings name the same features, wherever they stand. *)
Theorem parse_features_forms before names after :
  Forall (fun a => starts_with a (str_bytes "--features") = false) before -> names <> [] -> Forall (fun n => 44 ∉ n) names ->
  parse_features (before ++ str_bytes "--features" :: joined names :: after) = names /\
  parse_features (before ++ (str_bytes "--features=" ++ joined names) :: after) = names.
Proof.
  intros Hb Hne Hn.
  assert (forall rest, parse_features (before ++ rest) = parse_features rest) as Hskip.
  { intros rest. induction Hb as [|a before Ha Hb IH]; [done|]. cbn [app parse_features].
    rewrite decide_False by (intros ->; vm_compute in Ha; done).
    assert (starts_with a (str_bytes "--features=") = false) as Hf; [|unfold strip_prefix; by rewrite Hf].
    assert (forall l p q, starts_with l p = false -> starts_with l (p ++ q) = false) as Hmono.
    { clear. intros l p q. revert l. induction p as [|x p IH]; intros l Hl; [by destruct l|].
      destruct l as [|y l]; [done|]. cbn [app starts_with] in *. destruct (y =? x); [by apply IH|done]. }
    exact (Hmono a (str_bytes "--features") [61] Ha). }
  rewrite !Hskip. split.
  - cbn [parse_features]. rewrite decide_True by done. by apply split_joined.
  - cbn [parse_features]. rewrite decide_False, strip_prefix_app; [by apply split_joined|].
    intros Heq%(f_equal length). rewrite length_app in Heq. vm_compute (length (str_bytes _)) in Heq. lia.
Qed.
