(* ===== verification/Build.v ===== *)
(** * Building the image and running it ([xtask/src/main.rs])

    The half of the tool that works on the host: the commands it runs, the files
    it moves, and how it gets hold of the log of a run.  The host is a map of
    files and a set of directories; a file operation does what the standard
    library documents unless the host refuses it.  The programs the tool starts
    ([cargo], [git], [make], [xorriso], [limine], [mformat], [mcopy], the
    emulator) are parameters.  Theorems: an image is built out of the kernel and
    the programs that were just built, and a log is the one of the run it was
    asked for, never one that was left over. *)
From S2P Require Import Prelude Abi LogText Xtask.
From stdpp Require Import strings.
Open Scope Z_scope.

(** ** The host *)
Abbreviation Path := (list string).

Definition display (p : Path) : string := foldr (fun c s => String.append "/" (String.append c s)) EmptyString p.

Record Command := mkCommand {
  cmd_program : string;
  cmd_args : list string;
  cmd_dir : option Path;
  cmd_env : list (string * string);
}.

Record Host := mkHost {
  h_files : gmap Path (list Z);
  h_dirs : gset Path;
}.
Definition set_files (h : Host) (fs : gmap Path (list Z)) : Host := mkHost fs (h_dirs h).

Definition exists_at (h : Host) (p : Path) : bool := bool_decide (p ∈ h_dirs h) || bool_decide (is_Some (h_files h !! p)).

Inductive FsOp :=
| CreateDirAll (p : Path)
| RemoveDirAll (p : Path)
| Copy (from to : Path)
| RemoveFile (p : Path)
| ReadToString (p : Path)
| WriteFile (p : Path) (data : list Z).

(** How a program ended. *)
Inductive Status :=
| Success
| ExitedWith (status : string)
| NotSpawned (why : string).

Definition M (A : Type) : Type := Host -> Host * result A string.
Definition ret {A} (a : A) : M A := fun h => (h, Ok a).
Definition throw {A} (e : string) : M A := fun h => (h, Err e).
Definition bind {A B} (m : M A) (k : A -> M B) : M B := fun h =>
  match m h with (h, Ok a) => k a h | (h, Err e) => (h, Err e) end.
Notation "'try?' x := m 'in' k" := (bind m (fun x => k)) (at level 200, x name, m at level 100, k at level 200).
Notation "'try?' '_' := m 'in' k" := (bind m (fun _ => k)) (at level 200, m at level 100, k at level 200).

Fixpoint for_each {A} (l : list A) (f : A -> M unit) : M unit :=
  match l with [] => ret tt | x :: l => try? _ := f x in for_each l f end.

Definition concat_str (l : list string) : string := foldr String.append EmptyString l.
Fixpoint join_with (sep : string) (l : list string) : string :=
  match l with [] => EmptyString | [x] => x | x :: l => concat_str [x; sep; join_with sep l] end.

Section host.
(** Where the workspace is; what the host refuses; what the programs do.
    [emulate cmd secs] starts the emulator and kills it after [secs] seconds. *)
Context (root : Path) (refuses : FsOp -> option string).
Context (exec : Command -> Host -> Host * Status) (emulate : Command -> Z -> Host -> result Host string).

(** ** [std::fs] *)
Definition fs (op : FsOp) (f : Host -> option Host) : M unit := fun h =>
  match refuses op with
  | Some e => (h, Err e)
  | None => match f h with Some h => (h, Ok tt) | None => (h, Err "No such file or directory (os error 2)"%string) end
  end.

Fixpoint ancestors (p : Path) : list Path := match p with [] => [[]] | c :: p => [] :: ((c ::.) <$> ancestors p) end.
Definition within (d p : Path) : bool := bool_decide (take (length d) p = d).

Definition create_dir_all (p : Path) : M unit :=
  fs (CreateDirAll p) (fun h => Some (mkHost (h_files h) (list_to_set (ancestors p) ∪ h_dirs h))).
Definition remove_dir_all (p : Path) : M unit :=
  fs (RemoveDirAll p) (fun h =>
    if bool_decide (p ∈ h_dirs h)
    then Some (mkHost (filter (fun '(q, _) => within p q = false) (h_files h)) (filter (fun q => within p q = false) (h_dirs h)))
    else None).
Definition remove_file (p : Path) : M unit :=
  fs (RemoveFile p) (fun h => match h_files h !! p with Some _ => Some (set_files h (delete p (h_files h))) | None => None end).
Definition copy (from to : Path) : M unit :=
  fs (Copy from to) (fun h => match h_files h !! from with Some d => Some (set_files h (<[to := d]> (h_files h))) | None => None end).
Definition write (p : Path) (data : list Z) : M unit :=
  fs (WriteFile p data) (fun h => Some (set_files h (<[p := data]> (h_files h)))).
Definition read_to_string (p : Path) : M (list Z) := fun h =>
  match refuses (ReadToString p), h_files h !! p with
  | Some e, _ => (h, Err e)
  | None, Some d => (h, Ok d)
  | None, None => (h, Err "No such file or directory (os error 2)"%string)
  end.

(** [.map_err(f)]. *)
Definition map_err {A} (f : string -> string) (m : M A) : M A := fun h =>
  match m h with (h, Err e) => (h, Err (f e)) | x => x end.

Definition ask {A} (f : Host -> A) : M A := fun h => (h, Ok (f h)).

(** [let _ = ..]. *)
Definition ignore {A} (m : M A) : M unit := fun h => (fst (m h), Ok tt).

Definition run_cmd (cmd : Command) : M unit := fun h =>
  let program := cmd_program cmd in
  match exec cmd h with
  | (h, Success) => (h, Ok tt)
  | (h, ExitedWith status) => (h, Err (concat_str ["`"; program; "` exited with "; status]%string))
  | (h, NotSpawned e) => (h, Err (concat_str ["failed to spawn `"; program; "`: "; e]%string))
  end.

(** ** Building *)
Definition KERNEL_TARGET : string := "x86_64-unknown-none".
Definition USER_TARGET_JSON : string := "targets/x86_64-tarnos-user.json".
Definition LIMINE_REPO : string := "https://github.com/limine-bootloader/limine".
Definition LIMINE_BRANCH : string := "v9.x-binary".

Definition kernel_command (release : bool) (extra_features : list string) : Command :=
  mkCommand "cargo"
    (["build"; "-p"; "tarnos-kernel"; "--target"; KERNEL_TARGET; "-Zbuild-std=core,alloc,compiler_builtins";
      "-Zbuild-std-features=compiler-builtins-mem"]%string ++
     (if release then ["--release"%string] else []) ++
     (match extra_features with [] => [] | _ => ["--features"%string; join_with "," extra_features] end))
    (Some root) [("RUSTFLAGS", "-C relocation-model=static")]%string.
Definition build_kernel (release : bool) (extra_features : list string) : M unit := run_cmd (kernel_command release extra_features).

Definition user_command (release : bool) (package : string) : Command :=
  mkCommand "cargo"
    (["build"; "-p"; package; "--target"; USER_TARGET_JSON; "-Zjson-target-spec";
      "-Zbuild-std=core,alloc,compiler_builtins"; "-Zbuild-std-features=compiler-builtins-mem"]%string ++
     (if release then ["--release"%string] else []))
    (Some root) [].
Definition build_user_crate (release : bool) (package : string) : M unit := run_cmd (user_command release package).

Definition USER_CRATES : list string := ["init"; "echo-child"; "exit-code-child"; "heap-child"; "block-child"; "fs-child"]%string.

Definition build (release : bool) (kernel_features : list string) : M unit :=
  try? _ := build_kernel release kernel_features in
  for_each USER_CRATES (build_user_crate release).

Definition profile_dir_name (release : bool) : string := if release then "release" else "debug".
Definition kernel_elf_path (release : bool) : Path := root ++ ["target"%string; KERNEL_TARGET; profile_dir_name release; "tarnos-kernel"%string].
Definition user_elf_path (release : bool) (package : string) : Path :=
  root ++ ["target"%string; "x86_64-tarnos-user"%string; profile_dir_name release; package].

Definition limine_dir : Path := root ++ ["build"; "limine"]%string.

Definition ensure_limine : M Path :=
  let deploy_tool := limine_dir ++ ["limine"%string] in
  try? fetched := ask (fun h => exists_at h (limine_dir ++ ["limine-bios-cd.bin"%string])) in
  try? _ :=
    (if fetched then ret tt else
     try? _ := create_dir_all (root ++ ["build"%string]) in
     try? stale := ask (fun h => exists_at h limine_dir) in
     try? _ := (if stale : bool then remove_dir_all limine_dir else ret tt) in
     run_cmd (mkCommand "git" ["clone"%string; "--depth"%string; "1"%string; "--branch"%string; LIMINE_BRANCH; LIMINE_REPO; display limine_dir]
                None [])) in
  try? built := ask (fun h => exists_at h deploy_tool) in
  try? _ := (if built : bool then ret tt else run_cmd (mkCommand "make" ["limine"%string] (Some limine_dir) [])) in
  ret limine_dir.

Definition iso_root : Path := root ++ ["build"; "iso_root"]%string.
Definition boot_dir : Path := iso_root ++ ["boot"%string].
Definition efi_boot_dir : Path := iso_root ++ ["EFI"; "BOOT"]%string.
Definition iso_path : Path := root ++ ["build"; "tarnos.iso"]%string.

Definition iso_copy (from to : Path) : M unit :=
  map_err (fun e => concat_str ["copying "; display from; " -> "; display to; ": "; e]%string) (copy from to).

Definition xorriso_command : Command :=
  mkCommand "xorriso"
    (["-as"; "mkisofs"; "-R"; "-r"; "-J"; "-b"; "boot/limine-bios-cd.bin"; "-no-emul-boot"; "-boot-load-size"; "4";
      "-boot-info-table"; "--efi-boot"; "boot/limine-uefi-cd.bin"; "-efi-boot-part"]%string ++
     [display (boot_dir ++ ["limine-uefi-cd.bin"%string]); "--protective-msdos-label"%string; display iso_root; "-o"%string; display iso_path])
    (Some root) [].

(** What is copied onto the image. *)
Definition iso_copies (release : bool) (limine : Path) : list (Path * Path) :=
  [(kernel_elf_path release, boot_dir ++ ["kernel"%string])] ++
  ((fun package => (user_elf_path release package, boot_dir ++ [package])) <$> USER_CRATES) ++
  [(root ++ ["limine.conf"%string], boot_dir ++ ["limine.conf"%string])] ++
  ((fun name => (limine ++ [name], boot_dir ++ [name])) <$> ["limine-bios.sys"; "limine-bios-cd.bin"; "limine-uefi-cd.bin"]%string) ++
  [(limine ++ ["BOOTX64.EFI"%string], efi_boot_dir ++ ["BOOTX64.EFI"%string])].

Definition iso (release : bool) (kernel_features : list string) : M unit :=
  try? _ := build release kernel_features in
  try? limine := ensure_limine in
  try? _ := create_dir_all boot_dir in
  try? _ := create_dir_all efi_boot_dir in
  try? _ := for_each (iso_copies release limine) (fun '(from, to) => iso_copy from to) in
  try? _ := run_cmd xorriso_command in
  run_cmd (mkCommand (display (limine ++ ["limine"%string])) ["bios-install"%string; display iso_path] None []).

(** ** Running *)
Definition first_existing (l : list Path) (h : Host) : option Path := find (exists_at h) l.

Definition find_ovmf_code : Host -> option Path :=
  first_existing [["usr"; "share"; "OVMF"; "OVMF_CODE_4M.fd"]; ["usr"; "share"; "OVMF"; "OVMF_CODE.fd"]; ["usr"; "share"; "ovmf"; "OVMF.fd"]]%string.
Definition find_ovmf_vars_template : Host -> option Path :=
  first_existing [["usr"; "share"; "OVMF"; "OVMF_VARS_4M.fd"]; ["usr"; "share"; "OVMF"; "OVMF_VARS.fd"]]%string.

(** The firmware's arguments; it writes to a copy of its variables. *)
Definition uefi_args (vars_name : string) : M (list string) :=
  try? code := ask find_ovmf_code in
  match code with
  | None => throw "OVMF firmware not found (looked for /usr/share/OVMF/OVMF_CODE_4M.fd)"
  | Some code =>
      try? vars_template := ask find_ovmf_vars_template in
      match vars_template with
      | None => throw "OVMF vars template not found (looked for /usr/share/OVMF/OVMF_VARS_4M.fd)"
      | Some vars_template =>
          let vars_copy := root ++ ["build"%string; vars_name] in
          try? _ := copy vars_template vars_copy in
          ret ["-drive"; String.append "if=pflash,format=raw,readonly=on,file=" (display code);
               "-drive"; String.append "if=pflash,format=raw,file=" (display vars_copy)]%string
      end
  end.

Definition run (flags kernel_features : list string) : M unit :=
  let uefi := bool_decide ("--uefi"%string ∈ flags) in
  let debug := bool_decide ("--debug"%string ∈ flags) in
  try? _ := iso false kernel_features in
  try? firmware := (if uefi then uefi_args "OVMF_VARS.fd" else ret []) in
  run_cmd (mkCommand "qemu-system-x86_64"
    (["-M"; "q35"; "-m"; "512M"; "-serial"; "stdio"; "-display"; "none"; "-cdrom"]%string ++
     [display iso_path] ++ ["-boot"; "d"; "-no-reboot"; "-no-shutdown"]%string ++ firmware ++
     (if debug then ["-d"; "int,guest_errors"; "-D"]%string ++ [display (root ++ ["build"; "qemu.log"]%string)] else []))
    (Some root) []).

Definition qemu_command (log_path : Path) (smp : Z) (extra_qemu_args firmware : list string) : Command :=
  mkCommand "qemu-system-x86_64"
    (["-M"; "q35"; "-m"; "512M"; "-smp"]%string ++ [pretty.pretty smp; "-serial"%string; String.append "file:" (display log_path)] ++
     ["-display"; "none"; "-cdrom"]%string ++ [display iso_path] ++ ["-boot"; "d"; "-no-reboot"; "-no-shutdown"]%string ++
     extra_qemu_args ++ firmware) (Some root) [].

Definition run_scenario_ext (kernel_features : list string) (log_name : string) (timeout_secs : Z) (uefi : bool) (smp : Z)
    (extra_qemu_args : list string) : M (list Z) :=
  try? _ := iso false kernel_features in
  let log_path := root ++ ["build"%string; log_name] in
  try? _ := ignore (remove_file log_path) in
  try? firmware := (if uefi then uefi_args "OVMF_VARS_test.fd" else ret []) in
  try? _ := (fun h =>
    match emulate (qemu_command log_path smp extra_qemu_args firmware) timeout_secs h with
    | Ok h => (h, Ok tt)
    | Err e => (h, Err (String.append "failed to spawn qemu-system-x86_64: " e))
    end) in
  map_err (fun e => concat_str ["reading "; display log_path; ": "; e]%string) (read_to_string log_path).

(** ** Disk images *)
Definition create_test_disk_image (path : Path) (sector_count : nat) : M unit :=
  map_err (fun e => concat_str ["writing "; display path; ": "; e]%string) (write path (test_disk_data sector_count)).

Definition create_fat_test_disk_image (path : Path) (files : list (Path * string)) : M unit :=
  try? stale := ask (fun h => exists_at h path) in
  try? _ := (if stale : bool
             then map_err (fun e => concat_str ["removing stale "; display path; ": "; e]%string) (remove_file path) else ret tt) in
  try? _ := run_cmd (mkCommand "mformat" (["-f"; "1440"; "-C"; "-i"]%string ++ [display path; "::"%string]) None []) in
  for_each files (fun '(host_path, dos_name) =>
    run_cmd (mkCommand "mcopy" ["-i"%string; display path; display host_path; String.append "::" dos_name] None [])).

(** ** The command line *)
Definition text (l : list Z) : string := String.string_of_list_ascii ((fun b => Ascii.ascii_of_N (Z.to_N b)) <$> l).

(** [main], with the tests by their commands; the result is the exit code. *)
Definition main (test : string -> option (M unit)) (args : list string) (h : Host) : Host * Z :=
  let cmd := default EmptyString (head args) in
  let rest := drop 1 args in
  let features := text <$> parse_features (str_bytes <$> rest) in
  let code (m : M unit) := match m h with (h, Ok _) => (h, 0) | (h, Err _) => (h, 1) end in
  if decide (cmd = "build"%string) then code (build false features)
  else if decide (cmd = "iso"%string) then code (iso false features)
  else if decide (cmd = "run"%string) then code (run rest features)
  else match test cmd with
       | Some m => code m
       | None => (h, if decide (cmd = EmptyString) then 0 else 1)
       end.
End host.

(** ** Reasoning about the tool *)
Lemma bind_ok {A B} (m : M A) (k : A -> M B) h h' b :
  bind m k h = (h', Ok b) -> exists h1 a, m h = (h1, Ok a) /\ k a h1 = (h', Ok b).
Proof. unfold bind. destruct (m h) as [h1 [a|e]]; [|done]. intros Hk. by exists h1, a. Qed.

Ltac steps := repeat match goal with H : bind _ _ _ = (_, Ok _) |- _ => apply bind_ok in H as (? & ? & ? & H) end.

Lemma map_err_ok {A} f (m : M A) h h' a : map_err f m h = (h', Ok a) -> m h = (h', Ok a).
Proof. unfold map_err. destruct (m h) as [h1 [a1|e]]; [by intros [= -> ->]|done]. Qed.

Lemma for_each_inv {A} (f : A -> M unit) (P : list A -> Host -> Prop) l h h' :
  (forall done x h h', x ∈ l -> P done h -> f x h = (h', Ok tt) -> P (done ++ [x]) h') ->
  P [] h -> for_each l f h = (h', Ok tt) -> P l h'.
Proof.
  intros Hstep H0. change l with ([] ++ l). revert H0.
  assert (forall suf pre h, (forall x, x ∈ suf -> x ∈ l) -> P pre h -> for_each suf f h = (h', Ok tt) -> P (pre ++ suf) h') as Hgen.
  { induction suf as [|x suf IH]; intros pre h1 Hin Hp Hf.
    - injection Hf as <-. by rewrite (right_id_L [] (++)).
    - cbn [for_each] in Hf. steps. rewrite cons_middle, (assoc_L (++)). destruct x1. eapply (IH _ x0); [|eapply Hstep; eauto|done].
      + intros y Hy. apply Hin. by right.
      + apply Hin. by left. }
  intros H0 Hf. by eapply Hgen.
Qed.

Lemma within_root root d p : within (root ++ d) (root ++ p) = within d p.
Proof.
  unfold within. rewrite length_app, take_app_add. apply bool_decide_ext. split; [by intros ?%app_inv_head|by intros ->].
Qed.

Section laws.
Context (root : Path) (refuses : FsOp -> option string).
Context (exec : Command -> Host -> Host * Status).
(** What [cargo] makes of the sources. *)
Context (kernel_image : bool -> list string -> list Z) (program_image : bool -> string -> list Z).

(** [cargo] puts the binary of the package where its documentation says, and what
    the programs may write to besides. *)
Record ToolLaws : Prop := {
  cargo_kernel : forall release fs h h', exec (kernel_command root release fs) h = (h', Success) ->
    h_files h' !! kernel_elf_path root release = Some (kernel_image release fs);
  cargo_kernel_frame : forall release fs h h' s p, exec (kernel_command root release fs) h = (h', s) ->
    within (root ++ ["target"%string]) p = false -> h_files h' !! p = h_files h !! p;
  cargo_user : forall release package h h', exec (user_command root release package) h = (h', Success) ->
    h_files h' !! user_elf_path root release package = Some (program_image release package);
  cargo_user_frame : forall release package h h' s p, exec (user_command root release package) h = (h', s) ->
    within (root ++ ["target"; "x86_64-tarnos-user"]%string) p = false \/
    (exists other, other <> package /\ p = user_elf_path root release other) -> h_files h' !! p = h_files h !! p;
  limine_frame : forall program args dir h h' s p, program = "git"%string \/ program = "make"%string ->
    exec (mkCommand program args dir []) h = (h', s) -> within (limine_dir root) p = false -> h_files h' !! p = h_files h !! p;
}.
Context (laws : ToolLaws).

Lemma run_cmd_ok c h h' : run_cmd exec c h = (h', Ok tt) -> exec c h = (h', Success).
Proof. unfold run_cmd. destruct (exec c h) as [h1 []]; by intros [= ->]. Qed.

Lemma run_cmd_files c h h' r : run_cmd exec c h = (h', r) -> exists s, exec c h = (h', s).
Proof. unfold run_cmd. destruct (exec c h) as [h1 []]; intros [= -> _]; eauto. Qed.

Lemma build_post release fs h h' :
  build root exec release fs h = (h', Ok tt) ->
  h_files h' !! kernel_elf_path root release = Some (kernel_image release fs) /\
  (forall package, package ∈ USER_CRATES -> h_files h' !! user_elf_path root release package = Some (program_image release package)) /\
  forall p, within (root ++ ["target"%string]) p = false -> h_files h' !! p = h_files h !! p.
Proof.
  unfold build. intros Hb. apply bind_ok in Hb as (hk & [] & Hk & Hb). apply run_cmd_ok in Hk.
  set (P (done : list string) (h1 : Host) := h_files h1 !! kernel_elf_path root release = Some (kernel_image release fs) /\
    (forall package, package ∈ done -> h_files h1 !! user_elf_path root release package = Some (program_image release package)) /\
    forall p, within (root ++ ["target"%string]) p = false -> h_files h1 !! p = h_files h !! p).
  refine (for_each_inv _ P _ _ _ _ _ Hb).
  - intros done x h1 h2 _ (HK & HU & HF) Hx%run_cmd_ok. split_and!.
    + rewrite (cargo_user_frame laws _ _ _ _ _ _ Hx); [done|left]. unfold kernel_elf_path. by rewrite within_root.
    + intros package [Hin| ->%list_elem_of_singleton]%elem_of_app; [|by eapply cargo_user].
      destruct (decide (package = x)) as [->|Hne]; [by eapply cargo_user|].
      rewrite (cargo_user_frame laws _ _ _ _ _ _ Hx); [by apply HU|right; eauto].
    + intros p Hp. rewrite (cargo_user_frame laws _ _ _ _ _ _ Hx); [by apply HF|left].
      destruct (within (root ++ ["target"; "x86_64-tarnos-user"]%string) p) eqn:Hw; [|done].
      rewrite <-Hp. symmetry. apply bool_decide_eq_true in Hw. apply bool_decide_eq_true.
      rewrite length_app in *. cbn [length] in *. apply (f_equal (take (length root + 1))) in Hw.
      rewrite take_take, take_app_add in Hw. by replace ((length root + 1) `min` (length root + 2))%nat with (length root + 1)%nat in Hw by lia.
  - split_and!; [by eapply cargo_kernel|by intros ? ?%elem_of_nil|]. intros p Hp. by eapply (cargo_kernel_frame laws).
Qed.

Lemma fs_files op f h h' r p :
  fs refuses op f h = (h', r) -> (forall h2, f h = Some h2 -> h_files h2 !! p = h_files h !! p) -> h_files h' !! p = h_files h !! p.
Proof.
  unfold fs. intros Hf Hsame. destruct (refuses op); [by injection Hf as <- <-|].
  destruct (f h) as [h2|]; injection Hf as <- <-; [by apply Hsame|done].
Qed.

Lemma create_dir_all_files d h h' r p : create_dir_all refuses d h = (h', r) -> h_files h' !! p = h_files h !! p.
Proof. intros Hc. eapply fs_files; [exact Hc|]. by intros h2 [= <-]. Qed.

(** The checkout is fetched at most; nothing else changes. *)
Lemma fetch_files h h' p :
  within (limine_dir root) p = false ->
  (try? _ := create_dir_all refuses (root ++ ["build"%string]) in
   try? stale := ask (fun h => exists_at h (limine_dir root)) in
   try? _ := (if stale : bool then remove_dir_all refuses (limine_dir root) else ret tt) in
   run_cmd exec (mkCommand "git" ["clone"%string; "--depth"%string; "1"%string; "--branch"%string; LIMINE_BRANCH; LIMINE_REPO; display (limine_dir root)]
              None [])) h = (h', Ok tt) -> h_files h' !! p = h_files h !! p.
Proof.
  intros Hp Hf. apply bind_ok in Hf as (h1 & [] & H1 & Hf). apply bind_ok in Hf as (h2 & stale & [= <- <-] & Hf).
  apply bind_ok in Hf as (h3 & [] & H3 & Hf). apply run_cmd_files in Hf as [s Hs].
  rewrite (limine_frame laws _ _ _ _ _ _ p (or_introl eq_refl) Hs Hp), <- (create_dir_all_files _ _ _ _ p H1).
  destruct (exists_at h1 _); [|by inversion H3].
  eapply fs_files; [exact H3|]. intros h2. cbv beta. case_bool_decide; [|done]. intros [= <-]. cbn [h_files].
  rewrite map_lookup_filter. destruct (h_files h1 !! p) as [d|]; [|done]. cbn. by rewrite option_guard_True.
Qed.

Lemma ensure_limine_post h h' limine :
  ensure_limine root refuses exec h = (h', Ok limine) ->
  limine = limine_dir root /\ forall p, within (limine_dir root) p = false -> h_files h' !! p = h_files h !! p.
Proof.
  unfold ensure_limine. intros He. apply bind_ok in He as (h1 & fetched & [= <- <-] & He).
  apply bind_ok in He as (h2 & [] & H2 & He). apply bind_ok in He as (h3 & built & [= <- <-] & He).
  apply bind_ok in He as (h4 & [] & H4 & [= -> <-]). split; [done|]. intros p Hp. trans (h_files h2 !! p).
  - destruct (exists_at h2 _); [by inversion H4|]. apply run_cmd_files in H4 as [s Hs].
    eapply (limine_frame laws); [by right|exact Hs|done].
  - destruct (exists_at h _); [by inversion H2|]. by apply fetch_files.
Qed.

(** Copies that do not overwrite what is still to be copied. *)
Definition copied (l done : list (Path * Path)) (h h1 : Host) : Prop :=
  (forall p, p ∉ l.*2 -> h_files h1 !! p = h_files h !! p) /\
  forall from to, (from, to) ∈ done -> is_Some (h_files h !! from) /\ h_files h1 !! to = h_files h !! from.

Lemma copied_step pre from to suf l h h1 h2 :
  l = pre ++ (from, to) :: suf -> NoDup l.*2 -> from ∉ l.*2 ->
  copied l pre h h1 -> iso_copy refuses from to h1 = (h2, Ok tt) -> copied l (pre ++ [(from, to)]) h h2.
Proof.
  intros Hl Hnd Hfrom [Hout Hin] Hc. apply map_err_ok in Hc. unfold copy, fs in Hc. destruct (refuses _); [done|].
  destruct (h_files h1 !! from) as [d|] eqn:Hd; [|done]. injection Hc as <-.
  assert (h_files h !! from = Some d) as Hd0 by (rewrite <-Hd; symmetry; by apply Hout).
  assert (to ∈ l.*2) as Hto by (rewrite Hl, fmap_app, fmap_cons; set_solver).
  split; cbn [h_files set_files].
  - intros p Hp. rewrite lookup_insert_ne by (intros ->; done). by apply Hout.
  - intros f t [Hi|[= -> ->]%list_elem_of_singleton]%elem_of_app; [|by rewrite lookup_insert_eq, Hd0].
    destruct (Hin f t Hi) as [Hs1 Hs2]. split; [done|]. rewrite lookup_insert_ne; [done|]. intros ->.
    rewrite Hl, fmap_app in Hnd. apply NoDup_app in Hnd as (_ & Hfresh & _). apply (Hfresh t).
    + apply list_elem_of_fmap. by exists (f, t).
    + rewrite fmap_cons. by left.
Qed.

Lemma copies_post l h h' :
  NoDup l.*2 -> (forall from, from ∈ l.*1 -> from ∉ l.*2) ->
  for_each l (fun '(from, to) => iso_copy refuses from to) h = (h', Ok tt) -> copied l l h h'.
Proof.
  intros Hnd Hsep.
  assert (forall suf pre h1, l = pre ++ suf -> copied l pre h h1 ->
    for_each suf (fun '(from, to) => iso_copy refuses from to) h1 = (h', Ok tt) -> copied l l h h') as Hgen.
  { induction suf as [|[from to] suf IH]; intros pre h1 Hl Hc Hs.
    - injection Hs as <-. rewrite (right_id_L [] (++)) in Hl. by rewrite Hl in Hc |- *.
    - cbn [for_each] in Hs. apply bind_ok in Hs as (h2 & [] & Hx & Hs). eapply (IH (pre ++ [(from, to)]) h2); [|
        eapply copied_step; eauto|exact Hs].
      + by rewrite <- (assoc_L (++)).
      + apply Hsep. rewrite Hl, fmap_app, fmap_cons. set_solver. }
  apply (Hgen l [] h); [done|]. split; [done|by intros ? ? ?%elem_of_nil].
Qed.

(** The paths of the copies, below the root. *)
Lemma iso_copies_below release :
  exists F T, (iso_copies root release (limine_dir root)).*1 = (root ++.) <$> F /\
    (iso_copies root release (limine_dir root)).*2 = (root ++.) <$> T /\ NoDup T /\ Forall (fun f => f ∉ T) F.
Proof.
  unfold iso_copies, kernel_elf_path, user_elf_path, boot_dir, efi_boot_dir, iso_root, limine_dir, USER_CRATES. cbn [fmap list_fmap app fst snd].
  rewrite <- !(assoc_L (++)). cbn [app]. eexists [_; _; _; _; _; _; _; _; _; _; _; _], [_; _; _; _; _; _; _; _; _; _; _; _].
  split_and!; [reflexivity|reflexivity| |destruct release]; apply (bool_decide_unpack _); vm_compute; exact I.
Qed.

Lemma iso_copies_disjoint release :
  NoDup (iso_copies root release (limine_dir root)).*2 /\
  forall from, from ∈ (iso_copies root release (limine_dir root)).*1 -> from ∉ (iso_copies root release (limine_dir root)).*2.
Proof.
  destruct (iso_copies_below release) as (F & T & -> & -> & Hnd & Hsep). split; [by apply (NoDup_fmap_2 _)|].
  intros from (f & -> & Hf)%list_elem_of_fmap (t & Heq%app_inv_head & Ht)%list_elem_of_fmap. subst t.
  rewrite Forall_forall in Hsep. by apply (Hsep f).
Qed.

(** What an image is made of. *)
Record ships (release : bool) (fs : list string) (h h1 : Host) : Prop := {
  ships_kernel : h_files h1 !! (boot_dir root ++ ["kernel"%string]) = Some (kernel_image release fs);
  ships_programs : forall package, package ∈ USER_CRATES -> h_files h1 !! (boot_dir root ++ [package]) = Some (program_image release package);
  ships_conf : h_files h1 !! (boot_dir root ++ ["limine.conf"%string]) = h_files h !! (root ++ ["limine.conf"%string]);
}.

Lemma elf_not_limine p : within (limine_dir root) (root ++ ("target"%string :: p)) = false.
Proof. unfold limine_dir. by rewrite within_root. Qed.

Lemma iso_ships release fs h h' :
  iso root refuses exec release fs h = (h', Ok tt) ->
  exists h1 h2, exec (xorriso_command root) h1 = (h2, Success) /\ ships release fs h h1.
Proof.
  unfold iso. intros Hi. apply bind_ok in Hi as (hb & [] & Hb & Hi). apply bind_ok in Hi as (hl & limine & Hl & Hi).
  apply bind_ok in Hi as (hd & [] & Hd & Hi). apply bind_ok in Hi as (he & [] & He & Hi).
  apply bind_ok in Hi as (hc & [] & Hc & Hi). apply bind_ok in Hi as (hx & [] & Hx%run_cmd_ok & _).
  apply build_post in Hb as (Hk & Hu & Hf). apply ensure_limine_post in Hl as [-> Hl].
  assert (forall p, h_files he !! p = h_files hl !! p) as Hdirs.
  { intros p. by rewrite (create_dir_all_files _ _ _ _ p He), (create_dir_all_files _ _ _ _ p Hd). }
  destruct (iso_copies_disjoint release) as [Hnd Hsep]. destruct (copies_post _ _ _ Hnd Hsep Hc) as [_ Hcopy].
  assert (forall from to, (from, to) ∈ iso_copies root release (limine_dir root) -> within (limine_dir root) from = false ->
    h_files hc !! to = h_files hb !! from) as Hto.
  { intros from to Hin Hw. destruct (Hcopy from to Hin) as [_ ->]. rewrite Hdirs. by apply Hl. }
  exists hc, hx. split; [done|]. split.
  - erewrite Hto; [exact Hk|by left|apply elf_not_limine].
  - intros package Hp. erewrite Hto; [by apply Hu| |apply elf_not_limine]. unfold iso_copies. apply elem_of_app. right.
    apply elem_of_app. left. apply list_elem_of_fmap. by exists package.
  - erewrite Hto; [apply Hf|unfold iso_copies; do 2 (apply elem_of_app; right); by left|]; [by rewrite within_root|]. unfold limine_dir. by rewrite within_root.
Qed.

(** *** When everything goes well *)
Definition friendly : Prop := (forall op, refuses op = None) /\ forall c h, snd (exec c h) = Success.

Lemma run_cmd_friendly c h : friendly -> run_cmd exec c h = (fst (exec c h), Ok tt).
Proof. intros [_ Hs]. unfold run_cmd. specialize (Hs c h). destruct (exec c h) as [h' s]. cbn [snd] in Hs. by rewrite Hs. Qed.

Lemma bind_runs {A B} (m : M A) (k : A -> M B) h h1 a : m h = (h1, Ok a) -> bind m k h = k a h1.
Proof. intros Hm. unfold bind. by rewrite Hm. Qed.

Lemma for_each_runs {A} (f : A -> M unit) l h :
  (forall x h, x ∈ l -> exists h', f x h = (h', Ok tt)) -> exists h', for_each l f h = (h', Ok tt).
Proof.
  revert h. induction l as [|x l IH]; intros h Hf; [by exists h|]. cbn [for_each].
  destruct (Hf x h ltac:(by left)) as [h1 H1]. rewrite (bind_runs _ _ _ _ _ H1). apply IH. intros y h2 Hy. apply Hf. by right.
Qed.

Lemma copies_run l h :
  friendly -> NoDup l.*2 -> (forall from, from ∈ l.*1 -> from ∉ l.*2) -> Forall (fun from => is_Some (h_files h !! from)) l.*1 ->
  exists h', for_each l (fun '(from, to) => iso_copy refuses from to) h = (h', Ok tt).
Proof.
  intros [Hr _]. revert h. induction l as [|[from to] l IH]; intros h Hnd Hsep Hex; [by exists h|]. cbn [for_each].
  rewrite !fmap_cons in *. cbn [fst snd] in *. apply Forall_cons in Hex as [[d Hd] Hex].
  apply NoDup_cons in Hnd as [Hto Hnd].
  assert (iso_copy refuses from to h = (set_files h (<[to := d]> (h_files h)), Ok tt)) as Hc.
  { unfold iso_copy, map_err, copy, fs. by rewrite Hr, Hd. }
  rewrite (bind_runs _ _ _ _ _ Hc). apply IH; [done| |].
  - intros f Hf Hin. apply (Hsep f); [by right|by right].
  - apply Forall_forall. intros f Hin. rewrite Forall_forall in Hex. cbn [h_files set_files].
    rewrite lookup_insert_ne; [by apply Hex|]. intros ->. apply (Hsep f); [by right|by left].
Qed.

Lemma create_dir_all_friendly d h : friendly -> exists h', create_dir_all refuses d h = (h', Ok tt).
Proof. intros [Hr _]. unfold create_dir_all, fs. rewrite Hr. eauto. Qed.

(** The boot loader is checked out and its tool built. *)
Definition LIMINE_FILES : list string := ["limine"; "limine-bios.sys"; "limine-bios-cd.bin"; "limine-uefi-cd.bin"; "BOOTX64.EFI"]%string.
Definition checked_out (h : Host) : Prop :=
  Forall (fun name => is_Some (h_files h !! (limine_dir root ++ [name]))) LIMINE_FILES.

Lemma checked_out_at h name : checked_out h -> name ∈ LIMINE_FILES -> is_Some (h_files h !! (limine_dir root ++ [name])).
Proof. unfold checked_out. rewrite Forall_forall. eauto. Qed.

Lemma checked_out_exists h name : checked_out h -> name ∈ LIMINE_FILES -> exists_at h (limine_dir root ++ [name]) = true.
Proof. intros Hc Hn. unfold exists_at. apply orb_true_intro. right. apply bool_decide_eq_true. by apply checked_out_at. Qed.

Lemma ensure_limine_runs h : checked_out h -> ensure_limine root refuses exec h = (h, Ok (limine_dir root)).
Proof.
  intros Hc. unfold ensure_limine. erewrite bind_runs by done.
  rewrite checked_out_exists by (first [done|by apply (bool_decide_unpack _)]). erewrite bind_runs by done. erewrite bind_runs by done.
  rewrite checked_out_exists by (first [done|by apply (bool_decide_unpack _)]). by erewrite bind_runs by done.
Qed.

Lemma build_runs release fs h : friendly -> exists h', build root exec release fs h = (h', Ok tt).
Proof.
  intros Hf. unfold build, build_kernel. rewrite (bind_runs _ _ _ _ _ (run_cmd_friendly _ _ Hf)). apply for_each_runs.
  intros package h1 _. eexists. by apply run_cmd_friendly.
Qed.

Lemma iso_runs release fs h :
  friendly -> checked_out h -> is_Some (h_files h !! (root ++ ["limine.conf"%string])) ->
  exists h', iso root refuses exec release fs h = (h', Ok tt).
Proof.
  intros Hf Hc Hconf. unfold iso. destruct (build_runs release fs h Hf) as [hb Hb]. rewrite (bind_runs _ _ _ _ _ Hb).
  apply build_post in Hb as (Hk & Hu & Hframe).
  assert (checked_out hb) as Hcb.
  { unfold checked_out in *. eapply Forall_impl; [exact Hc|]. intros name. rewrite Hframe; [done|].
    unfold limine_dir. rewrite <- (assoc_L (++)). by rewrite within_root. }
  rewrite (bind_runs _ _ _ _ _ (ensure_limine_runs hb Hcb)).
  destruct (create_dir_all_friendly (boot_dir root) hb Hf) as [h1 H1]. rewrite (bind_runs _ _ _ _ _ H1).
  destruct (create_dir_all_friendly (efi_boot_dir root) h1 Hf) as [h2 H2]. rewrite (bind_runs _ _ _ _ _ H2).
  destruct (iso_copies_disjoint release) as [Hnd Hsep]. destruct (copies_run _ h2 Hf Hnd Hsep) as [h3 H3].
  - apply (Forall_impl (fun p => is_Some (h_files hb !! p)));
      [|intros p; by rewrite (create_dir_all_files _ _ _ _ p H2), (create_dir_all_files _ _ _ _ p H1)].
    unfold iso_copies. rewrite !fmap_app. repeat apply Forall_app_2; cbn [fmap list_fmap fst].
    + apply Forall_singleton. by rewrite Hk.
    + rewrite <- list_fmap_compose. apply Forall_fmap, Forall_forall. intros package Hp. cbn. by rewrite Hu.
    + apply Forall_singleton. rewrite Hframe; [done|]. by rewrite within_root.
    + repeat constructor; (apply checked_out_at; [done|by apply (bool_decide_unpack _)]).
    + apply Forall_singleton, checked_out_at; [done|by apply (bool_decide_unpack _)].
  - rewrite (bind_runs _ _ _ _ _ H3), (bind_runs _ _ _ _ _ (run_cmd_friendly _ _ Hf)). eexists. by apply run_cmd_friendly.
Qed.

End laws.

(** ** The log of a run *)
Section logs.
Context (root : Path) (refuses : FsOp -> option string).
Context (exec : Command -> Host -> Host * Status) (emulate : Command -> Z -> Host -> result Host string).

(** Once the image is built, the log of a scenario on legacy firmware is what
    the emulator wrote to the log's file during this very run, which started
    without such a file: a log left over from an earlier run is never returned,
    and an emulator that writes none, or does not start, is an error. *)
Theorem scenario_log_is_fresh features log_name secs smp extra h hi :
  iso root refuses exec false features h = (hi, Ok tt) ->
  let log_path := root ++ ["build"%string; log_name] in
  refuses (RemoveFile log_path) = None -> refuses (ReadToString log_path) = None ->
  exists h0, h_files h0 !! log_path = None /\
    (forall p, p <> log_path -> h_files h0 !! p = h_files hi !! p) /\
    snd (run_scenario_ext root refuses exec emulate features log_name secs false smp extra h) =
    match emulate (qemu_command root log_path smp extra []) secs h0 with
    | Ok h1 =>
        match h_files h1 !! log_path with
        | Some log => Ok log
        | None => Err (concat_str ["reading "; display log_path; ": "; "No such file or directory (os error 2)"]%string)
        end
    | Err e => Err (String.append "failed to spawn qemu-system-x86_64: " e)
    end.
Proof.
  intros Hi log_path Hrm Hrd. unfold run_scenario_ext. rewrite (bind_runs _ _ _ _ _ Hi). fold log_path.
  exists (set_files hi (delete log_path (h_files hi))). cbn [h_files set_files]. split_and!.
  - by rewrite lookup_delete_eq.
  - intros p Hp. by rewrite lookup_delete_ne.
  - assert (exists h0, ignore (remove_file refuses log_path) hi = (h0, Ok tt) /\ h0 = set_files hi (delete log_path (h_files hi)))
      as (h0 & Hig & ->).
    { eexists. split; [done|]. unfold remove_file, fs. rewrite Hrm. destruct (h_files hi !! log_path) eqn:Hl; [done|].
      unfold set_files. cbn [fst]. rewrite delete_id by done. by destruct hi. }
    rewrite (bind_runs _ _ _ _ _ Hig). erewrite bind_runs by done. unfold bind at 1.
    destruct (emulate _ secs _) as [h1|e]; [|done]. unfold map_err, read_to_string. rewrite Hrd. by destruct (h_files h1 !! log_path).
Qed.
End logs.

(** ** A host *)
Definition demo_root : Path := ["tarnos"%string].
Definition demo_cargo (c : Command) : Path :=
  let arg n := default EmptyString (cmd_args c !! n) in
  let release n := bool_decide (arg n = "--release"%string) in
  if bool_decide (arg 4%nat = KERNEL_TARGET) then kernel_elf_path demo_root (release 7%nat)
  else user_elf_path demo_root (release 8%nat) (arg 2%nat).
Definition demo_image (c : Command) : list Z := str_bytes (concat_str (cmd_args c)).
Definition demo_exec (c : Command) (h : Host) : Host * Status :=
  (if bool_decide (cmd_program c = "cargo"%string) then set_files h (<[demo_cargo c := demo_image c]> (h_files h)) else h, Success).

Lemma demo_cargo_kernel release fs : demo_cargo (kernel_command demo_root release fs) = kernel_elf_path demo_root release.
Proof. destruct release; [done|]. by destruct fs as [|f [|]]. Qed.

Lemma demo_cargo_user release package : demo_cargo (user_command demo_root release package) = user_elf_path demo_root release package.
Proof. by destruct release. Qed.

Lemma demo_exec_cargo c h h' s :
  cmd_program c = "cargo"%string -> demo_exec c h = (h', s) -> h_files h' = <[demo_cargo c := demo_image c]> (h_files h).
Proof. intros Hc. unfold demo_exec. rewrite Hc. rewrite bool_decide_true by done. by intros [= <- <-]. Qed.

Lemma demo_tool_laws : ToolLaws demo_root demo_exec (fun r fs => demo_image (kernel_command demo_root r fs))
  (fun r package => demo_image (user_command demo_root r package)).
Proof.
  split.
  - intros r fs h h' ->%demo_exec_cargo; [|done]. by rewrite demo_cargo_kernel, lookup_insert_eq.
  - intros r fs h h' s p ->%demo_exec_cargo Hp; [|done]. rewrite demo_cargo_kernel, lookup_insert_ne; [done|].
    intros <-. unfold kernel_elf_path in Hp. by rewrite within_root in Hp.
  - intros r package h h' ->%demo_exec_cargo; [|done]. by rewrite demo_cargo_user, lookup_insert_eq.
  - intros r package h h' s p ->%demo_exec_cargo Hp; [|done]. rewrite demo_cargo_user, lookup_insert_ne; [done|]. intros <-.
    destruct Hp as [Hp|(other & Hne & [= Heq])]; [|done]. unfold user_elf_path in Hp. by rewrite within_root in Hp.
  - intros program args dir h h' s p Hprog. unfold demo_exec. rewrite bool_decide_false by (by destruct Hprog as [-> | ->]).
    by intros [= <- <-].
Qed.

Definition demo_host : Host :=
  mkHost (list_to_map ((demo_root ++ ["limine.conf"%string], str_bytes "timeout: 0") :: (demo_root ++ ["build"; "old.log"]%string, str_bytes "an old log") ::
    ((fun name => (limine_dir demo_root ++ [name], str_bytes name)) <$> LIMINE_FILES))) ∅.

Lemma demo_friendly : friendly (fun _ => None) demo_exec.
Proof. done. Qed.

Lemma demo_checked_out : checked_out demo_root demo_host.
Proof. apply (bool_decide_unpack _). vm_compute. exact I. Qed.


(** An emulator that leaves a log, and one that does not. *)
Definition demo_emulator (writes : bool) (c : Command) (secs : Z) (h : Host) : result Host string :=
  Ok (if writes then set_files h (<[demo_root ++ ["build"; "old.log"]%string := str_bytes "a new log"]> (h_files h)) else h).

Lemma scenario_log_is_fresh_witness :
  snd (run_scenario_ext demo_root (fun _ => None) demo_exec (demo_emulator true) [] "old.log" 5 false 1 [] demo_host) = Ok (str_bytes "a new log") /\
  exists e, snd (run_scenario_ext demo_root (fun _ => None) demo_exec (demo_emulator false) [] "old.log" 5 false 1 [] demo_host) = Err e.
Proof.
  destruct (iso_runs demo_root (fun _ => None) demo_exec _ _ demo_tool_laws false [] demo_host demo_friendly demo_checked_out) as [hi Hi]; [by eexists|].
  destruct (scenario_log_is_fresh demo_root (fun _ => None) demo_exec (demo_emulator true) [] "old.log" 5 1 [] demo_host hi Hi eq_refl eq_refl)
    as (h0 & Hn & _ & ->).
  destruct (scenario_log_is_fresh demo_root (fun _ => None) demo_exec (demo_emulator false) [] "old.log" 5 1 [] demo_host hi Hi eq_refl eq_refl)
    as (h0' & Hn' & _ & ->).
  unfold demo_emulator. cbn [h_files set_files]. rewrite lookup_insert_eq, Hn'. split; [done|by eexists].
Defined.
