(* ===== verification/Scenarios.v ===== *)
(** * The test scenarios of [kernel/src/main.rs]

    Behind its test features the kernel boots into processes of its own instead
    of [init].  A boot is here a program for the boot processor, in steps between
    which the other cores run whatever has become ready.  [Run] is a machine
    under such a boot: the cores, what the boot processor has still to do, and
    the bytes on the serial line so far.

    [inevitable] follows every order of the cores' steps, with a bounded number
    of timer ticks and of turns of processes that loop forever. *)
From S2P Require Import Prelude Abi Ring Rendezvous CapTable Phys Virt Process Elf Mapper MapRegion Sched Uart Kernel.
From S2P Require Import Handlers Block Fat Virtio Syscall UserMem Irq Trap Rt Idt Lapic Regions Gdt SmpBoot Loader MapperModel.
From S2P Require Import Dummy BootMem Pci VirtioInit Boot Programs TestProcs LogText.
Open Scope Z_scope.

(** ** The serial line *)

Definition event_output (e : Event) : list Z :=
  match e with
  | EvIpi _ _ => []
  | EvSwitched index core vrax vrbx =>
      println (str_bytes "[sched] switched to pid " ++ fmt_u64 (Z.of_nat index) ++ str_bytes " on core " ++
               fmt_u64 (Z.of_nat core) ++ str_bytes " (rax=" ++ fmt_u64 vrax ++ str_bytes ", rbx=" ++ fmt_u64 vrbx ++ str_bytes ")")
  | EvEvictTimeout core index =>
      println (str_bytes "[sched] core " ++ fmt_u64 (Z.of_nat core) ++ str_bytes " did not evict pid " ++
               fmt_u64 (Z.of_nat index) ++ str_bytes " in time -- re-scanning")
  | EvHalt message free_frames =>
      println (str_bytes message) ++ println (str_bytes "[memtest] free_frames=" ++ fmt_u64 (Z.of_nat free_frames))
  end.

Definition is_halt (e : Event) : bool := match e with EvHalt _ _ => true | _ => false end.

(** What a step from [k] to [k'] sent: the scheduler's lines and the console's
    bytes; a core halts after it has run the kernel's tasks. *)
Definition output (k k' : Kernel) : list Z :=
  let new := drop (length (events (ksched k))) (events (ksched k')) in
  (List.filter (fun e => negb (is_halt e)) new ≫= event_output) ++ drop (length (tx (kuart k))) (tx (kuart k')) ++
  (List.filter is_halt new ≫= event_output).

(** A core that has just been evicted and found nothing to run. *)
Definition is_evicted (c : option CoreState) : bool :=
  match c with Some (CIdle (Some msg)) => bool_decide (msg = EVICTED_MESSAGE) | _ => false end.

(** ** Boot programs *)
Section boot.
Context (W : nat) {D : Type} `{X86} `{Selectors} `{RightsOps} `{BlockDevice D} (poll_fuel : nat).
(** Where the linker put a function of the kernel, the buffer a program keeps on
    its stack, and the programs of the boot modules. *)
Context (linked : string -> Z) (stack_buf : Z) (program_of : list Z -> Prog).

Abbreviation World := (@World D).

(** [BStart] is [scheduler::start]. *)
Inductive BootProg :=
| BStart
| BAct (f : World * list Z -> outcome (World * list Z * BootProg)).

Definition Op (A : Type) : Type := World * list Z -> outcome (World * list Z * A).

Definition act {A} (op : Op A) (k : A -> BootProg) : BootProg :=
  BAct (fun x => let! '(w, log, a) := op x in Ret (w, log, k a)).

(** Work that makes nothing ready is part of the step it comes before. *)
Definition then_go {A} (op : Op A) (k : A -> BootProg) : BootProg :=
  BAct (fun x =>
    let! '(w, log, a) := op x in
    match k a with BAct f => f (w, log) | BStart => Ret (w, log, BStart) end).

Local Notation "'run!' p := o 'in' k" := (then_go o (fun p => k)) (at level 200, p pattern, o at level 100, k at level 200).
Local Notation "'do!' p := o 'in' k" := (act o (fun p => k)) (at level 200, p pattern, o at level 100, k at level 200).

Definition set_sys (w : World) (y : Sys D) : World := mkWorld y (w_cores w) (w_procs w).

(** An operation on the kernel, with what it prints. *)
Definition on_kernel {A} (op : Kernel -> outcome (Kernel * A)) : Op A := fun '(w, log) =>
  let k := sk (w_sys w) in
  let! '(k', a) := op k in
  Ret (set_sys w (set_sk (w_sys w) k'), log ++ output k k', a).

Definition earlyprintln (l : list Z) : Op unit := fun '(w, log) => Ret (w, log ++ println l, tt).

Definition op_allocate_pid : Op Pid := on_kernel (fun k =>
  let '(s, p) := allocate_pid (ksched k) in Ret (set_sched k s, p)).

Definition op_endpoint : Op nat := on_kernel (fun k => Ret (endpoint_new k)).

Definition op_task (t : Task) : Op unit := on_kernel (fun k => Ret (spawn_task k t, tt)).

(** A fresh endpoint and the console server on it, not polled yet. *)
Definition op_console_server : Op nat := on_kernel (fun k =>
  let '(k, e) := endpoint_new k in Ret (spawn_task k (ConsoleServer e), e)).

Definition op_run_ready_tasks : Op unit := on_kernel (fun k =>
  let! k := run_ready_tasks poll_fuel k in Ret (k, tt)).

(** [Process::new_dummy(pid, function, parent).expect(..)]; [body] is what the
    function does once it is at the address the process starts at. *)
Definition op_new_dummy (p : Pid) (function : string) (body : Z -> Proc) (par : option Pid) (why : string) : Op Process :=
  fun '(w, log) =>
    let k := sk (w_sys w) in
    let! '(m, r) := new_dummy W (kmem k) p (linked function) par in
    match r with
    | Err _ => Panic why
    | Ok q =>
        Ret (mkWorld (set_sk (w_sys w) (set_mem k m)) (w_cores w)
               (<[pid_raw p := body (rip (trap_frame q))]> (w_procs w)), log, q)
    end.

(** [Process::from_elf(pid, module.data(), None).expect(..)]. *)
Definition op_from_elf (p : Pid) (data : list Z) (body : Prog) (why : string) : Op Process :=
  fun '(w, log) =>
    let k := sk (w_sys w) in
    let! '(m, r) := Elf.from_elf W (kmem k) p data None in
    match r with
    | Err _ => Panic why
    | Ok q =>
        Ret (mkWorld (set_sk (w_sys w) (set_mem k m)) (w_cores w) (<[pid_raw p := fun _ _ => body]> (w_procs w)), log, q)
    end.

Definition op_spawn (q : Process) (why : string) : Op unit := on_kernel (fun k =>
  let! '(s, r) := spawn (ksched k) q in
  match r with Ok _ => Ret (set_sched k s, tt) | Err _ => Panic why end).

(** [with_process(pid, |p| p.parent = Some(..)).expect(..)]. *)
Definition op_set_parent (p par : Pid) (why : string) : Op unit := on_kernel (fun k =>
  let '(s, r) := with_process (ksched k) p (fun q => (set_parent q (Some par), tt)) in
  match r with Some _ => Ret (set_sched k s, tt) | None => Panic why end).

Definition op_mount_root : Op bool := fun '(w, log) =>
  let '(y, r) := mount_root (w_sys w) in Ret (set_sys w y, log, is_ok r).

Definition op_free_frames : Op Z := on_kernel (fun k => Ret (k, Z.of_nat (Phys.free_frame_count (frames (kmem k))))).

(** [.expect(..)]. *)
Definition op_expect (ok : bool) (why : string) : Op unit := fun '(w, log) => if ok then Ret (w, log, tt) else Panic why.

(** [process.cap_table.insert(cap, CapabilitySlot { object, rights })]. *)
Definition give (q : Process) (cap : CapIndex) (o : KernelObjectRef) (r : Rights) : Process :=
  set_cap_table q (Cap.insert (cap_table q) cap (mkCapSlot o r)).

(** A boot module by its command line. *)
Definition find_module (modules : list (list Z * list Z)) (name : string) (why : string) : Op (list Z) := fun '(w, log) =>
  let! '(_, data) := expect (find (fun f => bool_decide (f.1 = str_bytes name)) modules) why in Ret (w, log, data).

(** ** Blocks before the console driver *)

(** An interrupt for a core that is up; while the boot processor waits for ten
    ticks the core takes it.  No core has any other identifier. *)
Definition send_test_ipi (target : Z) : Op unit := on_kernel (fun k =>
  let k := set_sched k (Sched.send_ipi (ksched k) target TEST_IPI_VECTOR) in
  Ret (foldl (fun k c =>
         match percpu (ksched k) !! c with
         | Some p => if (lapic_id p =? target) && pc_ready p then count_ipi k c else k
         | None => k
         end) k (seq 0 MAX_CORES), tt)).

Definition op_slots : Op (list PerCpuSlot) := on_kernel (fun k => Ret (k, percpu (ksched k))).

Fixpoint print_lines (ls : list (list Z)) (k : BootProg) : BootProg :=
  match ls with [] => k | l :: ls => then_go (earlyprintln l) (fun _ => print_lines ls k) end.

(** The other cores count their turns on their own; [op_slots] reads what they
    have come to after fifty ticks. *)
Definition smp_boot_test (k : BootProg) : BootProg :=
  do! slots := op_slots in
  print_lines (omap (fun '(core_index, slot) =>
      if pc_ready slot
      then Some (str_bytes "[smp-test] core " ++ fmt_u64 (Z.of_nat core_index) ++ str_bytes " spin_count=" ++ fmt_u64 (spin_count slot))
      else None) (imap pair slots))
  (run! _ := earlyprintln (str_bytes "[smp-test] boot check complete") in k).

Definition smp_ipi_test (k : BootProg) : BootProg :=
  let TARGET_INDEX := 1%nat in
  let BAD_LAPIC_ID := 0xFE in
  let report (result : bool) :=
    run! _ := earlyprintln (str_bytes "[smp-test] " ++ str_bytes (if result then "IPI_OK" else "IPI_FAIL")) in k in
  do! slots := op_slots in
  match slots !! TARGET_INDEX with
  | Some target =>
      if pc_ready target then
        do! _ := send_test_ipi (lapic_id target) in
        do! slots := op_slots in
        let ok := forallb (fun '(i, p) => ipi_count p =? (if (i =? TARGET_INDEX)%nat then 1 else 0)) (imap pair slots) in
        do! _ := send_test_ipi BAD_LAPIC_ID in
        report ok
      else report false
  | None => report false
  end.

(** [virtio_blk::with_device]. *)
Definition with_device {A} (f : D -> D * A) : Op (option A) := fun '(w, log) =>
  match sys_device (w_sys w) with
  | None => Ret (w, log, None)
  | Some d => let '(d, a) := f d in Ret (set_sys w (set_device (w_sys w) (Some d)), log, Some a)
  end.

(** [{:?}]. *)
Definition block_error_debug (e : BlockError) : list Z :=
  str_bytes match e with
            | BufferNotSectorAligned => "BufferNotSectorAligned"
            | OutOfRange => "OutOfRange"
            | RequestTooLarge => "RequestTooLarge"
            | DeviceError => "DeviceError"
            end.
Definition fat_error_debug (e : FatError) : list Z :=
  match e with
  | Io e => str_bytes "Io(" ++ block_error_debug e ++ str_bytes ")"
  | BadSignature => str_bytes "BadSignature"
  | UnsupportedSectorSize => str_bytes "UnsupportedSectorSize"
  | CorruptBootSector => str_bytes "CorruptBootSector"
  | NotFat12 => str_bytes "NotFat12"
  | NoSuchFile => str_bytes "NoSuchFile"
  | CorruptFat => str_bytes "CorruptFat"
  | NameTooLong => str_bytes "NameTooLong"
  | NoDevice => str_bytes "NoDevice"
  end.

Definition block_driver_test (k : BootProg) : BootProg :=
  run! result := with_device (fun d => read_sectors d KNOWN_TEST_LBA 512) in
  let line := match result with
              | Some (Ok buf) => str_bytes (if counts_up buf then "BLOCK_READ_OK" else "BLOCK_READ_FAIL -- content mismatch")
              | Some (Err e) => str_bytes "BLOCK_READ_FAIL -- read_sectors error " ++ block_error_debug e
              | None => str_bytes "BLOCK_READ_FAIL -- with_device found no driver"
              end in
  run! _ := earlyprintln (str_bytes "[blk-test] " ++ line) in k.

Definition block_syscall_test (k : BootProg) : BootProg :=
  do! console_endpoint := op_console_server in
  run! p := op_allocate_pid in
  run! process := op_new_dummy p "block_read_syscall_process" (prog_process (block_read_syscall_process stack_buf)) None
                   "failed to create the block-syscall-test process" in
  let process := give process CONSOLE_CAP (OEndpoint console_endpoint) SEND in
  let process := give process BLOCK_CAP OBlockDevice READ in
  do! _ := op_spawn process "spawn failed" in k.

Definition block_boundary_test (k : BootProg) : BootProg :=
  do! console_endpoint := op_console_server in
  run! p := op_allocate_pid in
  run! process := op_new_dummy p "block_boundary_process" (prog_process (block_boundary_process stack_buf)) None
                   "failed to create the block-boundary-test process" in
  let process := give process CONSOLE_CAP (OEndpoint console_endpoint) SEND in
  let process := give process BLOCK_CAP OBlockDevice READ in
  do! _ := op_spawn process "spawn failed" in k.

Definition block_fixture_test (modules : list (list Z * list Z)) (k : BootProg) : BootProg :=
  do! console_endpoint := op_console_server in
  run! fixture_module := find_module modules "block-child" "no boot module with cmdline block-child" in
  run! p := op_allocate_pid in
  run! process := op_from_elf p fixture_module (block_child_main stack_buf) "failed to load block-child's ELF image" in
  let process := give process CONSOLE_CAP (OEndpoint console_endpoint) SEND in
  let process := give process BLOCK_CAP OBlockDevice READ in
  do! _ := op_spawn process "spawn failed" in k.

(** A volume mounted for one read. *)
Definition mount_and_read (name : string) (d : D) : D * result (list Z) FatError :=
  let '(d, r) := Fat.mount d in
  match r with
  | Err e => (d, Err e)
  | Ok volume => Fat.read_file volume d (str_bytes name)
  end.

(** [check]: the line it prints, if the file is not as expected. *)
Definition fat_check (label : string) (r : option (result (list Z) FatError)) (matches : list Z -> bool) : option (list Z) :=
  match r with
  | Some (Ok data) =>
      if matches data then None
      else Some (str_bytes "[fat-test] FAT_READ_FAIL -- " ++ str_bytes label ++ str_bytes " content mismatch")
  | Some (Err e) => Some (str_bytes "[fat-test] FAT_READ_FAIL -- " ++ str_bytes label ++ str_bytes ": " ++ fat_error_debug e)
  | None => Some (str_bytes "[fat-test] FAT_READ_FAIL -- with_device found no driver")
  end.

Definition fat_fs_test (k : BootProg) : BootProg :=
  run! hello_result := with_device (mount_and_read "HELLO.TXT") in
  let hello := fat_check "HELLO.TXT" hello_result (fun data => bool_decide (data = HELLO_EXPECTED)) in
  print_lines (option_list hello)
  (run! bigfile_result := with_device (mount_and_read "BIGFILE.TXT") in
   let bigfile := fat_check "BIGFILE.TXT" bigfile_result (fun data => (length data =? BIGFILE_LEN)%nat && counts_up data) in
   print_lines (option_list bigfile)
   (print_lines (match hello, bigfile with None, None => [str_bytes "[fat-test] FAT_READ_OK"] | _, _ => [] end) k)).

Definition fat_fixture_test (modules : list (list Z * list Z)) (k : BootProg) : BootProg :=
  do! console_endpoint := op_console_server in
  run! mounted := op_mount_root in
  run! _ := op_expect mounted "fat-fixture-test requires a real FAT12 disk attached" in
  run! fixture_module := find_module modules "fs-child" "no boot module with cmdline fs-child" in
  run! p := op_allocate_pid in
  run! process := op_from_elf p fixture_module (fs_child_main stack_buf) "failed to load fs-child's ELF image" in
  let process := give process CONSOLE_CAP (OEndpoint console_endpoint) SEND in
  let process := give process FS_CAP OFsRoot READ in
  do! _ := op_spawn process "spawn failed" in k.

Definition fat_boundary_test (k : BootProg) : BootProg :=
  do! console_endpoint := op_console_server in
  run! mounted := op_mount_root in
  run! _ := op_expect mounted "fat-boundary-test requires a real FAT12 disk attached" in
  run! p := op_allocate_pid in
  run! process := op_new_dummy p "fat_boundary_process" (prog_process (fat_boundary_process stack_buf)) None
                   "failed to create the fat-boundary-test process" in
  let process := give process CONSOLE_CAP (OEndpoint console_endpoint) SEND in
  let process := give process FS_CAP OFsRoot READ in
  do! _ := op_spawn process "spawn failed" in k.

(** A read of an address that nothing maps, in the kernel. *)
Definition fault_injection_test : BootProg := BAct (fun _ => Panic "page fault").

(** ** Blocks that end in [scheduler::start] *)
Definition fault_isolation_test : BootProg :=
  run! bad_pid := op_allocate_pid in
  run! bad_process := op_new_dummy bad_pid "faulting_process" (asm_process faulting_process) None
                       "failed to create the faulting dummy process" in
  do! _ := op_spawn bad_process "spawn failed" in
  run! good_pid := op_allocate_pid in
  run! good_process := op_new_dummy good_pid "survivor_process" (prog_process survivor_process) None
                        "failed to create the survivor dummy process" in
  do! _ := op_spawn good_process "spawn failed" in
  run! _ := earlyprintln (str_bytes "[boot] fault-isolation-test: spawned faulting + survivor processes") in
  BStart.

Definition double_send_test : BootProg :=
  do! console_endpoint := op_console_server in
  run! pid_a := op_allocate_pid in
  run! process_a := op_new_dummy pid_a "sender_process_a" (prog_process sender_process_a) None
                     "failed to create sender process A" in
  let process_a := give process_a CONSOLE_CAP (OEndpoint console_endpoint) SEND in
  do! _ := op_spawn process_a "spawn failed" in
  run! pid_b := op_allocate_pid in
  run! process_b := op_new_dummy pid_b "sender_process_b" (prog_process sender_process_b) None
                     "failed to create sender process B" in
  let process_b := give process_b CONSOLE_CAP (OEndpoint console_endpoint) SEND in
  do! _ := op_spawn process_b "spawn failed" in
  run! _ := earlyprintln (str_bytes "[boot] double-send-test: spawned two senders, no receiver polled yet") in
  BStart.

Definition spawn_boundary_test : BootProg :=
  do! console_endpoint := op_console_server in
  run! bystander_pid := op_allocate_pid in
  run! bystander_process := op_new_dummy bystander_pid "boundary_bystander_process" (asm_process boundary_bystander_process)
                             None "failed to create the bystander dummy process" in
  do! _ := op_spawn bystander_process "spawn failed" in
  run! test_pid := op_allocate_pid in
  run! test_process := op_new_dummy test_pid "boundary_test_process" (asm_process boundary_test_process) None
                        "failed to create the boundary-test dummy process" in
  let test_process := give test_process CONSOLE_CAP (OEndpoint console_endpoint) SEND in
  do! _ := op_spawn test_process "spawn failed" in
  run! _ := earlyprintln (str_bytes "[boot] spawn-boundary-test: spawned bystander + boundary-test processes") in
  BStart.

(** The blocks with one test process that holds the console. *)
Definition single_process_test (function : string) (body : list Insn) (why line : string) (console_endpoint : nat) : BootProg :=
  run! test_pid := op_allocate_pid in
  run! test_process := op_new_dummy test_pid function (asm_process body) None why in
  let test_process := give test_process CONSOLE_CAP (OEndpoint console_endpoint) SEND in
  do! _ := op_spawn test_process "spawn failed" in
  run! _ := earlyprintln (str_bytes line) in
  BStart.

Definition process_lifecycle_test : BootProg :=
  do! console_endpoint := op_console_server in
  run! free_frames := op_free_frames in
  run! _ := earlyprintln (str_bytes "[memtest] free_frames=" ++ fmt_u64 free_frames) in
  single_process_test "lifecycle_test_process" lifecycle_test_process
    "failed to create the process-lifecycle-test dummy process"
    "[boot] process-lifecycle-test: spawned lifecycle-test process" console_endpoint.

Definition wait_exit_code_test : BootProg :=
  do! console_endpoint := op_console_server in
  single_process_test "wait_test_process" wait_test_process
    "failed to create the wait-exit-code-test dummy process"
    "[boot] wait-exit-code-test: spawned wait-test process" console_endpoint.

Definition kill_boundary_test : BootProg :=
  do! console_endpoint := op_console_server in
  run! bystander_pid := op_allocate_pid in
  run! bystander_process := op_new_dummy bystander_pid "kill_test_bystander_process" (asm_process kill_test_bystander_process)
                             None "failed to create the bystander dummy process" in
  do! _ := op_spawn bystander_process "spawn failed" in
  run! test_pid := op_allocate_pid in
  run! test_process := op_new_dummy test_pid "kill_boundary_test_process" (asm_process kill_boundary_test_process) None
                        "failed to create the kill-boundary-test dummy process" in
  let test_process := give test_process CONSOLE_CAP (OEndpoint console_endpoint) SEND in
  run! link := op_endpoint in
  let test_process := give test_process (mkCapIndex 1) (OEndpoint link) (rights_or SEND RECV) in
  do! _ := op_spawn test_process "spawn failed" in
  run! _ := earlyprintln (str_bytes "[boot] kill-boundary-test: spawned bystander + kill-test processes") in
  BStart.

Definition heap_growth_test : BootProg :=
  do! console_endpoint := op_console_server in
  single_process_test "heap_growth_test_process" heap_growth_test_process
    "failed to create the heap-growth-test dummy process"
    "[boot] heap-growth-test: spawned heap-growth-test process" console_endpoint.

Definition sbrk_boundary_test : BootProg :=
  do! console_endpoint := op_console_server in
  single_process_test "sbrk_boundary_test_process" sbrk_boundary_test_process
    "failed to create the sbrk-boundary-test dummy process"
    "[boot] sbrk-boundary-test: spawned sbrk-boundary-test process" console_endpoint.

(** [for _ in 0..n]: looks at the cores' slots, a tick or two apart, until the
    test finds something. *)
Fixpoint poll_slots {A} (n : nat) (test : list PerCpuSlot -> option A) (k : option A -> BootProg) : BootProg :=
  match n with
  | O => k None
  | S n =>
      do! slots := op_slots in
      match test slots with
      | Some a => k (Some a)
      | None => poll_slots n test k
      end
  end.

Definition runs_on (slots : list PerCpuSlot) (p : Pid) (core : nat) : bool :=
  from_option pc_current 0 (slots !! core) =? pid_raw p.

(** The last core that has the process, as the loop over the cores leaves it. *)
Definition core_of (slots : list PerCpuSlot) (p : Pid) : option nat :=
  find (runs_on slots p) (rev (seq 0 MAX_CORES)).

Definition smp_sched_concurrency_test : BootProg :=
  run! pid_a := op_allocate_pid in
  run! process_a := op_new_dummy pid_a "concurrency_process_a" (asm_process concurrency_process_a) None
                     "failed to create concurrency test process A" in
  do! _ := op_spawn process_a "spawn failed" in
  run! pid_b := op_allocate_pid in
  run! process_b := op_new_dummy pid_b "concurrency_process_b" (asm_process concurrency_process_b) None
                     "failed to create concurrency test process B" in
  do! _ := op_spawn process_b "spawn failed" in
  run! _ := earlyprintln (str_bytes "[boot] smp-sched-concurrency-test: spawned processes A and B") in
  poll_slots 200 (fun slots =>
    match core_of slots pid_a, core_of slots pid_b with
    | Some core_a, Some core_b => if decide (core_a <> core_b) then Some (core_a, core_b) else None
    | _, _ => None
    end) (fun saw_concurrent =>
  print_lines (match saw_concurrent with
               | Some (core_a, core_b) =>
                   [str_bytes "[smp-test] pid_a on core " ++ fmt_u64 (Z.of_nat core_a) ++ str_bytes ", pid_b on core " ++
                    fmt_u64 (Z.of_nat core_b) ++ str_bytes " -- concurrent"; str_bytes "[smp-test] CONCURRENCY_OK"]
               | None => [str_bytes "[smp-test] CONCURRENCY_FAIL"]
               end) BStart).

Definition kill_cross_core_test : BootProg :=
  run! target_pid := op_allocate_pid in
  run! target_process := op_new_dummy target_pid "kill_cc_target_process" (asm_process kill_cc_target_process) None
                          "failed to create the kill-cross-core-test target process" in
  do! _ := op_spawn target_process "spawn failed" in
  do! console_endpoint := op_console_server in
  run! killer_pid := op_allocate_pid in
  run! _ := op_set_parent target_pid killer_pid "target process vanished before its parent could be set" in
  run! killer_process := op_new_dummy killer_pid "kill_cc_killer_process" (asm_process kill_cc_killer_process) None
                          "failed to create the kill-cross-core-test killer process" in
  let killer_process := give killer_process CONSOLE_CAP (OEndpoint console_endpoint) SEND in
  do! _ := op_spawn killer_process "spawn failed" in
  run! _ := earlyprintln (str_bytes "[boot] kill-cross-core-test: spawned target + killer processes") in
  BStart.

Definition smp_send_cross_core_test : BootProg :=
  run! test_endpoint := op_endpoint in
  do! console_endpoint := op_console_server in
  run! receiver_pid := op_allocate_pid in
  run! receiver_process := op_new_dummy receiver_pid "send_cc_receiver_process" (asm_process send_cc_receiver_process) None
                            "failed to create the send-cross-core-test receiver process" in
  let receiver_process := give receiver_process CONSOLE_CAP (OEndpoint console_endpoint) SEND in
  let receiver_process := give receiver_process (mkCapIndex 1) (OEndpoint test_endpoint) RECV in
  do! _ := op_spawn receiver_process "spawn failed" in
  run! sender_pid := op_allocate_pid in
  run! sender_process := op_new_dummy sender_pid "send_cc_sender_process" (prog_process send_cc_sender_process) None
                          "failed to create the send-cross-core-test sender process" in
  let sender_process := give sender_process (mkCapIndex 1) (OEndpoint test_endpoint) SEND in
  do! _ := op_spawn sender_process "spawn failed" in
  run! _ := earlyprintln (str_bytes "[boot] smp-send-cross-core-test: spawned receiver + sender processes") in
  BStart.

Definition forced_preempt_test : BootProg :=
  run! busy_pid := op_allocate_pid in
  run! busy_process := op_new_dummy busy_pid "forced_preempt_busy_process" (asm_process forced_preempt_busy_process) None
                        "failed to create the forced-preempt-test busy process" in
  do! _ := op_spawn busy_process "spawn failed" in
  poll_slots 200 (fun slots => find (runs_on slots busy_pid) (seq 0 MAX_CORES)) (fun found =>
  run! _ := op_expect (if found then true else false) "forced-preempt-test busy process never started running" in
  let busy_core := default 0%nat found in
  poll_slots 400 (fun slots => if 0 <? from_option preempt_count 0 (slots !! busy_core) then Some tt else None) (fun saw_preemption =>
  run! _ := earlyprintln (str_bytes "[forced-preempt-test] busy process ran on core " ++ fmt_u64 (Z.of_nat busy_core) ++
             str_bytes ", " ++ str_bytes (if saw_preemption then "PREEMPTION_OK" else "PREEMPTION_FAIL")) in
  do! console_endpoint := op_console_server in
  run! ordinary_pid := op_allocate_pid in
  run! ordinary_process := op_new_dummy ordinary_pid "forced_preempt_ordinary_process"
                            (prog_process forced_preempt_ordinary_process) None
                            "failed to create the forced-preempt-test ordinary process" in
  let ordinary_process := give ordinary_process CONSOLE_CAP (OEndpoint console_endpoint) SEND in
  do! _ := op_spawn ordinary_process "spawn failed" in
  run! killer_pid := op_allocate_pid in
  run! _ := op_set_parent busy_pid killer_pid "forced-preempt-test busy process vanished before its parent could be set" in
  run! killer_process := op_new_dummy killer_pid "forced_preempt_killer_process" (asm_process forced_preempt_killer_process)
                          None "failed to create the forced-preempt-test killer process" in
  let killer_process := give killer_process CONSOLE_CAP (OEndpoint console_endpoint) SEND in
  do! _ := op_spawn killer_process "spawn failed" in
  run! _ := earlyprintln (str_bytes "[boot] forced-preempt-test: spawned busy + ordinary + killer processes") in
  BStart)).

Definition kitchen_sink_test : BootProg :=
  run! kill_target_pid := op_allocate_pid in
  run! kill_target_process := op_new_dummy kill_target_pid "ks_kill_target_process" (asm_process ks_kill_target_process) None
                               "failed to create the kitchen-sink-test kill target process" in
  do! _ := op_spawn kill_target_process "spawn failed" in
  do! console_endpoint := op_console_server in
  let orchestrator p function body (why : string) (child_link : bool) (k : BootProg) :=
    run! process := op_new_dummy p function (asm_process body) None why in
    let process := give process CONSOLE_CAP (OEndpoint console_endpoint) SEND in
    if child_link then
      run! link := op_endpoint in
      let process := give process (mkCapIndex 1) (OEndpoint link) (rights_or SEND RECV) in
      do! _ := op_spawn process "spawn failed" in k
    else
      do! _ := op_spawn process "spawn failed" in k in
  run! ipc_pid := op_allocate_pid in
  orchestrator ipc_pid "ks_ipc_orchestrator"%string ks_ipc_orchestrator
    "failed to create the kitchen-sink-test IPC orchestrator"%string true
  (run! heap_pid := op_allocate_pid in
   orchestrator heap_pid "ks_heap_orchestrator"%string ks_heap_orchestrator
     "failed to create the kitchen-sink-test heap orchestrator"%string false
  (run! lifecycle_pid := op_allocate_pid in
   orchestrator lifecycle_pid "ks_lifecycle_orchestrator"%string ks_lifecycle_orchestrator
     "failed to create the kitchen-sink-test lifecycle orchestrator"%string false
  (run! kill_orchestrator_pid := op_allocate_pid in
   run! _ := op_set_parent kill_target_pid kill_orchestrator_pid
              "kitchen-sink-test kill target vanished before its parent could be set" in
   orchestrator kill_orchestrator_pid "ks_kill_orchestrator"%string ks_kill_orchestrator
     "failed to create the kitchen-sink-test kill orchestrator"%string false
  (let pressure k :=
     run! pressure_pid := op_allocate_pid in
     run! pressure_process := op_new_dummy pressure_pid "ks_pressure_process" (asm_process ks_pressure_process) None
                               "failed to create a kitchen-sink-test pressure process" in
     do! _ := op_spawn pressure_process "spawn failed" in k in
   pressure (pressure
  (run! _ := earlyprintln (str_bytes "[boot] kitchen-sink-test: spawned all orchestrator + pressure processes") in
   BStart)))))).

(** ** The boot sequence *)

(** The normal end of it; without [primed] the console server is not polled
    before [init] runs ([blocking-ipc-test]). *)
Definition boot_init (primed : bool) (modules : list (list Z * list Z)) (main : Prog) : BootProg :=
  do! console_endpoint := op_console_server in
  let rest :=
    run! init_module := find_module modules "init" "no boot module with cmdline init (check limine.conf's module_string)" in
    run! init_pid := op_allocate_pid in
    run! init_process := op_from_elf init_pid init_module main "failed to load init's ELF image" in
    let init_process := give init_process CONSOLE_CAP (OEndpoint console_endpoint) SEND in
    run! child_link := op_endpoint in
    let init_process := give init_process CHILD_LINK_CAP (OEndpoint child_link) (rights_or SEND RECV) in
    run! mounted := op_mount_root in
    let init_process := if mounted : bool then give init_process FS_CAP OFsRoot READ else init_process in
    do! _ := op_spawn init_process "process table exhausted spawning the very first process" in
    run! _ := earlyprintln (str_bytes "[boot] spawning init...") in
    BStart in
  if primed then
    do! _ := op_run_ready_tasks in
    run! _ := earlyprintln (str_bytes "[boot] console server started, waiting for messages") in
    rest
  else rest.

(** From the interrupt self-test to the end of the smoke tests; the one of the
    heap is about library collections and passes. *)
Definition boot_self_tests (k : BootProg) : BootProg :=
  do! _ := on_kernel (fun k => let! _ := breakpoint_self_test idt_init in Ret (k, tt)) in
  run! _ := earlyprintln (str_bytes "[boot] breakpoint self-test passed") in
  run! _ := earlyprintln (str_bytes "[boot] heap smoke test passed (Box + 1000-element Vec)") in
  do! _ := on_kernel (fun k =>
    let! mc := uart_init (mkMachine k (replicate MAX_CORES (mkApic ∅ [])) (mkPic 254 255 []) 0 (replicate MAX_IRQ None)) in
    Ret (set_uart (kernel mc) (Com1.write_bytes (kuart (kernel mc)) uart_banner), tt)) in
  run! _ := earlyprintln (str_bytes "[boot] UART driver initialized, IRQ4 unmasked (type to test echo)") in
  do! _ := op_task EchoTask in
  run! _ := earlyprintln (str_bytes "[boot] async executor started (UART RX echo task spawned)") in
  do! _ := on_kernel (fun k => let! k := ipc_smoke_test poll_fuel k in Ret (k, tt)) in
  run! _ := earlyprintln (str_bytes "[boot] capability table smoke test passed") in
  run! _ := earlyprintln (str_bytes "[boot] IPC smoke test (receiver-first) passed") in
  run! _ := earlyprintln (str_bytes "[boot] IPC smoke test (sender-first) passed") in
  run! _ := earlyprintln (str_bytes "TarnOS kernel skeleton alive, idling.") in
  k.

(** The features a kernel can be built with. *)
Inductive Feature :=
| SmpBoot | SmpIpi | BlockDriver | BlockSyscall | BlockBoundary | BlockFixture | FatFs | FatFixture | FatBoundary
| FaultInjection | FaultIsolation | DoubleSend | SpawnBoundary | ProcessLifecycle | WaitExitCode | KillBoundary
| HeapGrowth | SbrkBoundary | SmpSchedConcurrency | KillCrossCore | SmpSendCrossCore | ForcedPreempt | KitchenSink
| BlockingIpc.

(** [_start] from the idle address space on, with at most one feature. *)
Definition boot_program (feature : option Feature) (modules : list (list Z * list Z)) (main : Prog) : BootProg :=
  let normal := boot_self_tests (boot_init true modules main) in
  match feature with
  | None => normal
  | Some SmpBoot => smp_boot_test normal
  | Some SmpIpi => smp_ipi_test normal
  | Some BlockDriver => block_driver_test normal
  | Some BlockSyscall => block_syscall_test normal
  | Some BlockBoundary => block_boundary_test normal
  | Some BlockFixture => block_fixture_test modules normal
  | Some FatFs => fat_fs_test normal
  | Some FatFixture => fat_fixture_test modules normal
  | Some FatBoundary => fat_boundary_test normal
  | Some FaultInjection => fault_injection_test
  | Some FaultIsolation => boot_self_tests fault_isolation_test
  | Some DoubleSend => boot_self_tests double_send_test
  | Some SpawnBoundary => boot_self_tests spawn_boundary_test
  | Some ProcessLifecycle => boot_self_tests process_lifecycle_test
  | Some WaitExitCode => boot_self_tests wait_exit_code_test
  | Some KillBoundary => boot_self_tests kill_boundary_test
  | Some HeapGrowth => boot_self_tests heap_growth_test
  | Some SbrkBoundary => boot_self_tests sbrk_boundary_test
  | Some SmpSchedConcurrency => boot_self_tests smp_sched_concurrency_test
  | Some KillCrossCore => boot_self_tests kill_cross_core_test
  | Some SmpSendCrossCore => boot_self_tests smp_send_cross_core_test
  | Some ForcedPreempt => boot_self_tests forced_preempt_test
  | Some KitchenSink => boot_self_tests kitchen_sink_test
  | Some BlockingIpc => boot_self_tests (boot_init false modules main)
  end.

(** ** Running *)

(** [r_boot] is what the boot processor, core 0, has still to do; a core in
    [r_deaf] was evicted and idles inside the interrupt it has not
    acknowledged. *)
Record Run := mkRun {
  r_world : World;
  r_boot : option BootProg;
  r_log : list Z;
  r_deaf : list nat;
}.

(** The text for an exception. *)
Context (describe : Z -> list Z).

(** A process that is gone after the step, if it was for an exception. *)
Definition fault_line (w w' : World) (core : nat) : list Z :=
  match w_cores w !! core with
  | Some (CUser p f) =>
      match w_procs w !! pid_raw p, occupied (ksched (sk (w_sys w'))) p with
      | Some k, None =>
          match k f (view_of (w_sys w) p) with
          | Fault v => println (str_bytes "[fault] pid " ++ fmt_u64 (Z.of_nat (pid_index p)) ++ str_bytes " killed: " ++ describe v)
          | _ => []
          end
      | _, _ => []
      end
  | _ => []
  end.

Definition remember_deaf (w : World) (deaf : list nat) : list nat :=
  List.filter (fun c => bool_decide (c ∈ deaf) || is_evicted (w_cores w !! c)) (seq 0 (length (w_cores w))).

(** Core 0 does the next step of boot, any other step is the core's own. *)
Definition booting (r : Run) (core : nat) : option BootProg := if decide (core = 0%nat) then r_boot r else None.

Definition run_step (r : Run) (core : nat) : option (outcome Run) :=
  let w := r_world r in
  match booting r core with
  | Some BStart =>
      let '(k, res) := ap_enter_scheduler (sk (w_sys w)) core in
      let y := set_sk (w_sys w) k in
      Some (Ret (mkRun (mkWorld y (<[core := land_core y (pid_new 0 0) res]> (w_cores w)) (w_procs w)) None (r_log r) (r_deaf r)))
  | Some (BAct f) =>
      Some (let! '(w, log, b) := f (w, r_log r) in Ret (mkRun w (Some b) log (r_deaf r)))
  | None =>
      (fun o => let! w' := o in
                Ret (mkRun w' (r_boot r) (r_log r ++ fault_line w w' core ++ output (sk (w_sys w)) (sk (w_sys w')))
                       (remember_deaf w' (r_deaf r)))) <$> core_step W poll_fuel program_of w core
  end.

(** The timer of a core that is in user mode. *)
Definition run_tick (r : Run) (core : nat) : option (outcome Run) :=
  let w := r_world r in
  match w_cores w !! core with
  | Some (CUser p f) =>
      Some (let! '(k, res) := on_timer_tick poll_fuel (sk (w_sys w)) core f in
            let y := set_sk (w_sys w) k in
            Ret (mkRun (mkWorld y (<[core := land_core y p res]> (w_cores w)) (w_procs w)) (r_boot r)
                   (r_log r ++ output (sk (w_sys w)) k) (r_deaf r)))
  | _ => None
  end.

(** ** Every order of steps *)

(** A deaf core that idles is not woken by work. *)
Definition awake (r : Run) (core : nat) : bool :=
  negb (bool_decide (core ∈ r_deaf r) && match w_cores (r_world r) !! core with Some (CIdle _) => true | _ => false end).

Definition enabled (r : Run) (core : nat) : bool :=
  match booting r core with Some _ => true | None => awake r core && has_work (r_world r) core end.

Section explore.
(** The processes that loop forever, and where a run is to get. *)
Context (loops : list Pid) (goal : Run -> bool).

(** The turns of a process that loops are counted. *)
Definition cost (r : Run) (core : nat) : nat :=
  match booting r core, w_cores (r_world r) !! core with
  | None, Some (CUser p _) => if decide (p ∈ loops) then 1 else 0
  | _, _ => 0
  end.

(** A core takes its timer's interrupts if it is in user mode and hears them. *)
Definition tick_step (r : Run) (core : nat) : option (outcome Run) :=
  if bool_decide (core ∈ r_deaf r) then None else run_tick r core.

Definition cores_of (r : Run) : list nat := seq 0 (length (w_cores (r_world r))).

(** What a run that is not there yet may do next, with [turns] and [ticks] left. *)
Inductive rstep : nat * nat * Run -> nat * nat * Run -> Prop :=
| rstep_core turns ticks r core r' :
    goal r = false -> core ∈ cores_of r -> enabled r core = true -> (cost r core <= turns)%nat ->
    run_step r core = Some (Ret r') -> rstep (turns, ticks, r) ((turns - cost r core)%nat, ticks, r')
| rstep_tick turns ticks r core r' :
    goal r = false -> core ∈ cores_of r -> tick_step r core = Some (Ret r') ->
    rstep (turns, S ticks, r) (turns, ticks, r').

(** A run that is not there yet: some core can go on, and nothing
    that can happen panics. *)
Record can_go_on (turns ticks : nat) (r : Run) : Prop := {
  go_some : exists core, core ∈ cores_of r /\ enabled r core = true /\ (cost r core <= turns)%nat;
  go_core : forall core, core ∈ cores_of r -> enabled r core = true -> (cost r core <= turns)%nat ->
    exists r', run_step r core = Some (Ret r');
  go_tick : forall core o, (0 < ticks)%nat -> core ∈ cores_of r -> tick_step r core = Some o -> exists r', o = Ret r';
}.

Fixpoint inevitable (fuel turns ticks : nat) (r : Run) : bool :=
  if goal r then true else
  match fuel with
  | O => false
  | S fuel =>
      let cs := List.filter (fun c => enabled r c && (cost r c <=? turns)%nat) (cores_of r) in
      negb (bool_decide (cs = [])) &&
      forallb (fun c => match run_step r c with Some (Ret r') => inevitable fuel (turns - cost r c) ticks r' | _ => false end) cs &&
      match ticks with
      | O => true
      | S ticks =>
          forallb (fun c => match tick_step r c with
                            | None => true
                            | Some (Ret r') => inevitable fuel turns ticks r'
                            | Some (Panic _) => false
                            end) (cores_of r)
      end
  end.

Lemma inevitable_sound fuel turns ticks r turns' ticks' r' n :
  inevitable fuel turns ticks r = true -> nsteps rstep n (turns, ticks, r) (turns', ticks', r') ->
  goal r' = true \/ (n < fuel)%nat /\ can_go_on turns' ticks' r'.
Proof.
  revert fuel turns ticks r. induction n as [|n IH]; intros fuel turns ticks r He Hn.
  - inversion Hn; subst. destruct (goal r') eqn:Hg; [by left|right]. destruct fuel as [|fuel]; cbn [inevitable] in He; rewrite Hg in He; [done|].
    rewrite !andb_true_iff in He. destruct He as [[Hsome Hall] Htick]. split; [lia|]. split.
    + destruct (List.filter _ (cores_of r')) as [|c cs] eqn:Hf; [by rewrite bool_decide_true in Hsome by done|].
      assert (In c (c :: cs)) as Hc by (by left). rewrite <-Hf in Hc. apply filter_In in Hc as [Hin [Hen Hco]%andb_true_iff].
      exists c. split_and!; [by apply list_elem_of_In|done|by apply Nat.leb_le].
    + intros c Hin Hen Hco. rewrite forallb_forall in Hall. specialize (Hall c).
      destruct (run_step r' c) as [[r1|]|]; [by exists r1|..]; (rewrite filter_In in Hall; exfalso;
        assert (false = true) by (apply Hall; rewrite Hen, (proj2 (Nat.leb_le _ _) Hco); split; [by apply list_elem_of_In|done]); done).
    + intros c o Ht Hin Hs. destruct ticks' as [|t]; [lia|]. rewrite forallb_forall in Htick.
      specialize (Htick c (proj1 (list_elem_of_In _ _) Hin)). rewrite Hs in Htick. destruct o as [r1|]; [by exists r1|done].
  - inversion Hn as [|n1 x [[tu tk] r1] y Hs Hrest]; subst.
    assert (exists f, fuel = S f /\ inevitable f tu tk r1 = true) as (f & -> & He1).
    { inversion Hs as [? ? ? core ? Hg Hin Hen Hco Hst|? ? ? core ? Hg Hin Hst]; subst;
        (destruct fuel as [|f]; cbn [inevitable] in He; rewrite Hg in He; [done|]); exists f; split; try done;
        rewrite !andb_true_iff in He; destruct He as [[_ Hall] Htick].
      - rewrite forallb_forall in Hall. specialize (Hall core). rewrite Hst in Hall. apply Hall, filter_In.
        rewrite Hen, (proj2 (Nat.leb_le _ _) Hco). split; [by apply list_elem_of_In|done].
      - rewrite forallb_forall in Htick. specialize (Htick core (proj1 (list_elem_of_In _ _) Hin)). by rewrite Hst in Htick. }
    destruct (IH f tu tk r1 He1 Hrest) as [Hg|[Hlt Hgo]]; [by left|right]. split; [lia|done].
Qed.
End explore.
End boot.

(** ** A small machine
    Two words of bitmap, a hundred free frames; the kernel's text is the two
    frames behind them. *)
#[local] Instance scenario_selectors : Selectors := Build_Selectors (sel_user_code the_selectors) (sel_user_data the_selectors).

Definition text_mem : Mem :=
  let m := demo_fresh_mem 2 110 in
  let m := fst (extend m 4 (kernel_pml4 m) KERNEL_TEXT (111 * 4096) PRESENT) in
  fst (extend m 4 (kernel_pml4 m) (KERNEL_TEXT + 4096) (112 * 4096) PRESENT).

Definition one_core : Sched := set_slot_ready (assign_slot sched_new 0 0) 0.


Definition child_programs (name : list Z) : Prog :=
  if bool_decide (name = str_bytes "echo-child") then echo_child_main else exit_code_child_main.

Definition modules_of : list (list Z * list Z) :=
  (fun n => (str_bytes n, demo_program)) <$> ["init"; "echo-child"; "exit-code-child"; "block-child"; "fs-child"]%string.

Definition machine {D} (m : Mem) (s : Sched) (disk : option D) (idle : AddressSpace) : Sys D :=
  mkSys (mkKernel s m ∅ (mkExec ∅ ∅ (Ring.new READY_QUEUE_CAPACITY) false 0) (hw_uart demo_hardware) idle) disk None
    (init_spawnable_modules modules_of).
