(* ===== verification/Suite.v ===== *)
(** * The test suite on the model ([xtask]'s tests over [kernel/src/main.rs]'s scenarios)

    Each test of the tool is run against the kernel it builds: the model boots
    with the test's feature on a small machine, its cores step in every order,
    and the tool's verdict is taken on the bytes of the serial line.  The disk is
    the driver's model over an ideal device. *)
From S2P Require Import Prelude Abi Ring Rendezvous CapTable Phys Virt Process Elf Mapper MapRegion Sched Uart Kernel.
From S2P Require Import Handlers Block Fat Virtio Syscall UserMem Irq Trap Rt Idt Lapic Regions Gdt SmpBoot Loader MapperModel.
From S2P Require Import Dummy BootMem Pci VirtioInit Boot Programs TestProcs LogText Xtask Scenarios.
Open Scope Z_scope.

Abbreviation Disk := (VirtioBlk Ideal).

(** ** Disks *)
Fixpoint chunks (fuel n : nat) (l : list Z) : list (list Z) :=
  match fuel, l with
  | O, _ | _, [] => []
  | S fuel, _ => take n l :: chunks fuel n (drop n l)
  end.

Definition attached (capacity : Z) (image : list (Z * list Z)) : Disk :=
  mkVirtio capacity demo_layout (mkDma (replicate 8 (mkDesc 0 0 0 0)) 0xFFFF (replicate 8 0) 0xFFFF (0, 0, 0) [] 0)
    (mkIdeal (mkRamDisk (list_to_map image)) 0).

(** An image file, sector by sector. *)
Definition raw_disk (data : list Z) : Disk :=
  let sectors := chunks (length data) SECTOR_SIZE data in
  attached (Z.of_nat (length sectors)) (imap (fun i s => (Z.of_nat i, s)) sectors).

(** A 1.44 MiB volume with the files one after the other, every cluster a
    sector. *)
Definition fat_boot_sector : list Z :=
  replicate 11 0 ++ le_bytes 2 512 ++ [1] ++ le_bytes 2 1 ++ [2] ++ le_bytes 2 224 ++ le_bytes 2 2880 ++ [0xF0] ++ le_bytes 2 9 ++
  replicate 486 0 ++ [0x55; 0xAA].

Fixpoint fat_layout (first : Z) (files : list (list Z * list Z)) : list Z * list Z * list (list Z) :=
  match files with
  | [] => ([], [], [])
  | (name83, data) :: files =>
      let cs := chunks (length data) SECTOR_SIZE data in
      let n := Z.of_nat (length cs) in
      let '(table, dir, clusters) := fat_layout (first + n) files in
      (((fun i => if i =? n - 1 then 0xFFF else first + i + 1) <$> seqZ 0 n) ++ table,
       name83 ++ [0x20] ++ replicate 14 0 ++ le_bytes 2 first ++ le_bytes 4 (Z.of_nat (length data)) ++ dir,
       cs ++ clusters)
  end.

Fixpoint pairs (l : list Z) : list (Z * Z) :=
  match l with a :: b :: l => (a, b) :: pairs l | [a] => [(a, 0)] | [] => [] end.

Definition fat_disk (files : list (list Z * list Z)) : Disk :=
  let '(table, dir, clusters) := fat_layout 2 files in
  attached 2880 ([(0, fat_boot_sector); (1, Fat.pack_entries (pairs (0xFF0 :: 0xFFF :: table))); (19, dir)] ++
                 imap (fun i s => (33 + Z.of_nat i, s)) clusters).

Definition name83 (name ext : string) : list Z :=
  take 8 (str_bytes name ++ replicate 8 32) ++ take 3 (str_bytes ext ++ replicate 3 32).

Definition hello_txt : list Z * list Z := (name83 "HELLO" "TXT", FAT_TEST_HELLO_CONTENT).
Definition bigfile_txt : list Z * list Z := (name83 "BIGFILE" "TXT", fat_test_bigfile_content).
Definition fschild_elf : list Z * list Z := (name83 "FSCHILD" "ELF", demo_program).

(** What a test attaches: an image of sectors, or a volume with files. *)
Inductive Media :=
| Bare
| Image (sectors : nat)
| Volume (files : list (list Z * list Z)).

Definition disk_of (m : Media) : option Disk :=
  match m with
  | Bare => None
  | Image n => Some (raw_disk (test_disk_data n))
  | Volume files => Some (fat_disk files)
  end.

(** What stands for the image file: its bytes, or those of the files put on it. *)
Definition image_of (m : Media) : option (list Z) :=
  match m with
  | Bare => None
  | Image n => Some (test_disk_data n)
  | Volume files => Some (files.*2 ≫= id)
  end.

(** ** The machine *)
#[local] Instance suite_selectors : Selectors := scenario_selectors.
#[local] Instance suite_x86 : X86 := paging_x86.

Definition HELLO_BUF : Z := USER_STACK_TOP - 4096.
Definition BIGFILE_BUF : Z := USER_STACK_TOP - 3 * 4096.

Definition boot_of (feature : option Feature) : @BootProg Disk :=
  @boot_program 2 Disk suite_x86 suite_selectors bitflags_ops virtio_block 64 (fun _ => KERNEL_TEXT + 16) HELLO_BUF feature modules_of (init_main HELLO_BUF BIGFILE_BUF).

(** What boot has printed before it comes to the features. *)
Definition early_log (disk : bool) : list Z :=
  println (str_bytes "TarnOS booting...") ++
  println (str_bytes (if disk then "[pci-test] PCI_ENUM_OK" else "[pci-test] PCI_ENUM_FAIL -- virtio-blk device not found")).

Definition start (feature : option Feature) (cores : nat) (media : Media) : option (@Run Disk) :=
  let disk := disk_of media in
  match build_idle_address_space 2 text_mem with
  | Ret (m, idle) =>
      let s := if (cores =? 1)%nat then one_core else two_cores in
      Some (mkRun (mkWorld (machine m s disk idle) (CHalted :: replicate (cores - 1) (CIdle None)) ∅)
              (Some (boot_of feature)) (early_log (if disk then true else false)) [])
  | Panic _ => None
  end.

Definition describe_fault (v : Z) : list Z := str_bytes "exception " ++ fmt_u64 v.

Abbreviation suite_step := (@run_step 2 Disk suite_x86 suite_selectors bitflags_ops virtio_block 64 child_programs describe_fault).

(** Nothing is left to do. *)
Definition quiet_run (r : @Run Disk) : bool := negb (existsb (enabled r) (cores_of r)).

(** ** Verdicts *)

(** The name by which a build asks for a feature. *)
Definition feature_name (f : Feature) : string :=
  match f with
  | SmpBoot => "smp-boot-test" | SmpIpi => "smp-ipi-test" | BlockDriver => "block-driver-test"
  | BlockSyscall => "block-syscall-test" | BlockBoundary => "block-boundary-test" | BlockFixture => "block-fixture-test"
  | FatFs => "fat-fs-test" | FatFixture => "fat-fixture-test" | FatBoundary => "fat-boundary-test"
  | FaultInjection => "fault-injection-test" | FaultIsolation => "fault-isolation-test" | DoubleSend => "double-send-test"
  | SpawnBoundary => "spawn-boundary-test" | ProcessLifecycle => "process-lifecycle-test"
  | WaitExitCode => "wait-exit-code-test" | KillBoundary => "kill-boundary-test" | HeapGrowth => "heap-growth-test"
  | SbrkBoundary => "sbrk-boundary-test" | SmpSchedConcurrency => "smp-sched-concurrency-test"
  | KillCrossCore => "kill-cross-core-test" | SmpSendCrossCore => "smp-send-cross-core-test"
  | ForcedPreempt => "forced-preempt-test" | KitchenSink => "kitchen-sink-test" | BlockingIpc => "blocking-ipc-test"
  end.

Abbreviation Runner := (list string -> string -> Z -> bool -> Z -> option (list Z) -> result (list Z) (list Z)).

(** A run of the model answers only for the build, the processors and the disk
    it was made with. *)
Definition answers (feature : option Feature) (cores : nat) (media : Media) (log : list Z) : Runner :=
  fun features _ _ _ smp disk =>
    if bool_decide (features = option_list (feature_name <$> feature)) && Bool.eqb (smp =? 1) (cores =? 1)%nat
       && bool_decide (disk = image_of media)
    then Ok log else Err (str_bytes "another machine").

(** The files a test writes are those of [Media]. *)
Definition written (_ : string) (_ : list Z) : result unit (list Z) := Ok tt.
Definition seeded (_ : string) (files : list (list Z * string)) : result (list Z) (list Z) := Ok (files.*1 ≫= id).
Definition stripped (_ : string) : result (list Z) (list Z) := Ok demo_program.

(** A test: its machine, a first stretch of the run, and how far what follows is
    looked at: [sc_turns] turns of the processes that loop for ever, [sc_ticks]
    interrupts of the timers, [sc_fuel] steps. *)
Record Scenario := mkScenario {
  sc_feature : option Feature;
  sc_cores : nat;
  sc_media : Media;
  sc_prefix : list nat;
  sc_loops : list Pid;
  sc_turns : nat;
  sc_ticks : nat;
  sc_fuel : nat;
  sc_halts : bool;
  sc_test : Runner -> result unit (list Z);
}.

Fixpoint run_prefix (cores : list nat) (r : @Run Disk) : option (@Run Disk) :=
  match cores with
  | [] => Some r
  | core :: cores => match suite_step r core with Some (Ret r) => run_prefix cores r | _ => None end
  end.

Definition initial (sc : Scenario) : option (@Run Disk) := start (sc_feature sc) (sc_cores sc) (sc_media sc) ≫= run_prefix (sc_prefix sc).

(** The verdict, once the machine is quiet; where something loops for ever it is
    the first good one. *)
Definition passed (sc : Scenario) (r : @Run Disk) : bool :=
  if sc_halts sc && negb (quiet_run r) then false
  else is_ok (sc_test sc (answers (sc_feature sc) (sc_cores sc) (sc_media sc) (r_log r))).

Abbreviation suite_rstep := (@rstep 2 Disk suite_x86 suite_selectors bitflags_ops virtio_block 64 child_programs describe_fault).
Abbreviation suite_can_go_on := (@can_go_on 2 Disk suite_x86 suite_selectors bitflags_ops virtio_block 64 child_programs describe_fault).

(** Whatever the order of the steps, nothing panics and before [sc_fuel] steps the
    test has passed. *)
Definition passes (sc : Scenario) : Prop :=
  exists r0, initial sc = Some r0 /\
  forall n turns ticks r, nsteps (suite_rstep (sc_loops sc) (passed sc)) n (sc_turns sc, sc_ticks sc, r0) (turns, ticks, r) ->
  passed sc r = true \/ (n < sc_fuel sc)%nat /\ suite_can_go_on (sc_loops sc) turns ticks r.

Definition check (sc : Scenario) : bool :=
  match initial sc with
  | Some r => @inevitable 2 Disk suite_x86 suite_selectors bitflags_ops virtio_block 64 child_programs describe_fault
                (sc_loops sc) (passed sc) (sc_fuel sc) (sc_turns sc) (sc_ticks sc) r
  | None => false
  end.

Lemma check_passes sc : check sc = true -> passes sc.
Proof.
  unfold check, passes. destruct (initial sc) as [r0|]; [|done]. intros He. exists r0. split; [done|].
  intros n turns ticks r Hn. exact (inevitable_sound _ _ _ _ _ _ _ _ _ _ _ _ _ _ He Hn).
Qed.

Lemma check_all_pass scs : forallb check scs = true -> Forall passes scs.
Proof. intros H. apply Forall_forall. intros sc Hin%list_elem_of_In. apply check_passes. rewrite forallb_forall in H. by apply H. Qed.

(** ** The suite on one processor *)
Definition on_one (feature : option Feature) (ticks : nat) (test : Runner -> result unit (list Z)) : Scenario :=
  mkScenario feature 1 Bare [] [] 0 ticks 250 true test.
Definition on_disk (feature : option Feature) (media : Media) (test : Runner -> result unit (list Z)) : Scenario :=
  mkScenario feature 1 media [] [] 0 0 100 true test.

Definition process_suite : list Scenario :=
  [on_one (Some FaultIsolation) 2 test_fault_isolation;
   on_one (Some DoubleSend) 2 test_double_send;
   mkScenario (Some SpawnBoundary) 1 Bare [] [pid_new 0 1] 8 2 60 false test_spawn_boundary;
   on_one (Some WaitExitCode) 2 test_wait_exit_code;
   mkScenario (Some KillBoundary) 1 Bare [] [pid_new 0 1] 10 1 70 false test_kill_boundary;
   on_one (Some SbrkBoundary) 2 test_sbrk_boundary;
   on_one (Some ProcessLifecycle) 0 test_process_lifecycle;
   on_one (Some BlockingIpc) 1 test_blocking_ipc;
   on_one None 1 test_spawn_ipc;
   on_one None 1 test_uefi_boot].

Definition disk_suite : list Scenario :=
  let volume := Volume [hello_txt; bigfile_txt] in
  [on_disk (Some BlockDriver) (Image 64) (fun run => test_block_driver run written);
   on_disk (Some BlockSyscall) (Image 64) (fun run => test_block_syscall run written);
   on_disk (Some BlockBoundary) (Image 64) (fun run => test_block_boundary run written);
   on_disk (Some BlockFixture) (Image 64) (fun run => test_block_fixture run written);
   on_disk (Some FatFs) volume (fun run => test_fat_parsing run written seeded);
   on_disk None (Volume [hello_txt; bigfile_txt; fschild_elf]) (fun run => test_fat_spawn run written seeded stripped);
   on_disk (Some FatFixture) volume (fun run => test_fat_fixture run written seeded);
   on_disk (Some FatBoundary) volume (fun run => test_fat_boundary run written seeded)].

(** ** The suite on two processors *)
Definition on_two (feature : Feature) (prefix : list nat) (loops : list Pid) (turns : nat) (halts : bool)
    (test : Runner -> result unit (list Z)) : Scenario :=
  mkScenario (Some feature) 2 Bare prefix loops turns 0 250 halts test.

(** [boots n]: the first steps of [_start], the other core asleep. *)
Definition boots (n : nat) : list nat := replicate n 0%nat.

(** [test_smp_regression] makes two runs; [beside] is the log of the other one. *)
Definition beside (features : list string) (log : list Z) (run : Runner) : Runner :=
  fun fs name secs uefi smp disk => if bool_decide (fs = features) then Ok log else run fs name secs uefi smp disk.
Definition good_log : list Z :=
  flat_map (fun l => println (str_bytes l))
    ["TarnOS booting..."; "[fault] pid 1 killed: page fault"; "Hello from TarnOS userspace!"; "[sched] last process exited, halting."]%string.

Definition smp_suite : list Scenario :=
  let first := [pid_new 0 1] in
  [on_two SmpIpi [] first 0 false test_smp_ipi;
   on_two FaultIsolation [] [] 0 true (fun run => test_smp_regression (beside ["blocking-ipc-test"%string] good_log run));
   on_two BlockingIpc (boots 6) first 40 false (fun run => test_smp_regression (beside ["fault-isolation-test"%string] good_log run));
   on_two WaitExitCode (boots 4) [] 0 true test_smp_wait_cross_core;
   on_two SmpSendCrossCore (boots 7) [] 0 true test_smp_send_cross_core;
   on_two KillCrossCore (boots 5 ++ [1%nat]) first 1 true test_smp_kill_cross_core;
   on_two ForcedPreempt (boots 5 ++ [1; 1]%nat ++ boots 5) first 1 true test_smp_forced_preempt;
   on_two ProcessLifecycle (boots 8) [] 0 true test_smp_sched_stress].

(** ** The suite passes *)



